(* ===== verification/_CoqProject ===== *)
-Q . S2P
Prelude.v
LinkedList.v
Ring.v
PhysMem.v
PageTableBoot.v
PageAlloc.v
PageTable.v
Heap.v
MmInit.v
BootLoader.v
BootKernel.v
FirmwareWitness.v
Switch.v
KState.v
Sched.v
SchedCore.v
SchedReap.v
SchedYield.v
SchedThread.v
KHeap.v
SchedWitness.v
Vfs.v
Ramfs.v
WaitQueue.v
WaitTimeout.v
WaitWitness.v
SchedSystem.v
SchedBoot.v
SchedRun.v
BootWitness.v
DemoThreads.v
TrapVectors.v
Devices.v
Printk.v
Fbcon.v
DevWait.v
Input.v
Workqueue.v
Keymap.v
LogLines.v
Tty.v
Irq.v
Ps2.v
Traps.v
EntryStubs.v
Typing.v
Kdb.v
DriverBoot.v
EarlyLog.v
BootReport.v
KernelMain.v
DevWitness.v
MainWitness.v
