(* ===== verification/Prelude.v ===== *)
(** * Verification of the tianole kernel

    tianole is a small x86-64 kernel in C: a UEFI loader hands it a memory map and it
    builds a physical page allocator, page tables, a heap, preemptive kernel threads
    with wait queues, a work queue, a keyboard driver, an input core, a tty and a
    read-only file system.  This library translates that code into executable
    definitions and proves what makes each part correct.  Definitions have the names of
    the C functions; the files say which source they follow.

    ** How the code is modelled

    - A function that reads or writes state is a computation [M S A] of this file:
      explicit state passing with the outcomes [Ret], [Panicked] with the message (the C
      [panic] halts the machine), [Fault] for an access the C code has no right to
      make (a null or dangling pointer, an index outside an array, a misaligned word)
      and [NoFuel].  Theorems that a call returns exclude the other three.
    - Integers are [Z]; every addition, subtraction, multiplication and shift that can
      leave its width is reduced to it.  Addresses are numbers, NULL is 0.
    - Objects the C code links with pointers are stores from address to record
      ([gmap]), so aliasing is what it is in the source.  Arrays are lists of their
      declared length.
    - A [while] or [for] loop that is not structural takes fuel computed from the state
      (the number of pages of a range, of threads in the store, of bytes in a ring);
      running out of it is [NoFuel], so each theorem that a loop's function returns
      also shows that the fuel is enough.
    - A call that blocks takes [others], what the rest of the system does between the
      switch away and the switch back; theorems state what [others] may rely on and
      must provide.  Where interrupts can come in inside a call ([wait_queue_wait_irq]), what
      their handlers do is an argument too, run when the lock is released.
    - Port input is a stream of bytes, port output a log; code addresses are names.
    - Log output through [pr_info] and its kin is left out of the callers, except in the
      trap handlers, the boot report, the debugger shell and [kernel_main] itself; [printk]
      is modelled.

    ** The files

    Shared: [Prelude] (the monad, its step tactics [mred], [mrun], [dstep], record
    update, lemmas on lists and machine words), [LinkedList] (intrusive lists and
    head/tail queues), [Ring] (ring buffers).

    Boot loader.  [BootLoader]: the firmware's services, as the class [Efi], the promises of
    UEFI the loader relies on, as [EfiSpec], and the files of arch/x86/boot.
    [BootKernel]: what [efi_main] hands over.

    Memory.  [PhysMem]: RAM as one store of words and the memory manager's state.
    [PageTableBoot]: arch/x86/mm/page_table_boot.c and tlb.c.  [PageAlloc]:
    mm/page_alloc.c.  [PageTable]: arch/x86/mm/page_table.c.  [Heap]: mm/heap.c, over
    the interface [PageApiSpec].  [MmInit]: the instance of that interface for the page
    allocator and the page tables, and [mm_init].

    Threads.  [Switch]: arch/x86/kernel/switch.S and the first stack of a thread.
    [KState]: the scheduler's state, the interface [KAllocSpec] to an allocator, and
    kernel/locking/spinlock.c.  [Sched]: kernel/sched/core.c, sched.h, thread.c and
    kernel/time/timer.c.  [SchedCore], [SchedReap], [SchedYield], [SchedThread]: the
    proofs on choice, reaping, switching and lifecycle.  [KHeap]: the heap is an
    instance of [KAllocSpec].  [SchedBoot]: sched_init, sched_start, idle.c and
    kernel/selftest/sched.c, [DemoThreads]: the bodies of its threads and the end of a
    thread.  [WaitQueue], [WaitTimeout]: kernel/sched/wait.c.  [SchedSystem]: the
    parts of these calls between which interrupts come in, and the timer interrupt, as the
    actions of a transition system, and its invariant; [SchedRun]: sched_start establishes it.

    Files.  [Vfs]: fs/vfs.c over the interface [FsSpec].  [Ramfs]: fs/ramfs/ramfs.c,
    the instance, and kernel/selftest/fs.c.

    Traps and devices.  [TrapVectors]: trap_vectors.h, idt.c, gdt.c.  [Irq]: irq.c.
    [Traps]: traps.c, trap_policy.c and arch/x86/mm/fault.c.  [EntryStubs]:
    exception_entry.S as lists of instructions on a model of the processor.  [Devices]: the drivers' static data and
    kernel/printk/console.c.  [Printk]: kernel/printk/printk.c.  [LogLines]: the macros of
    printk.h and what a sequence of them prints.  [Fbcon]: the framebuffer
    console, its font and screen.c.  [EarlyLog]: both early_log.c.  [DevWait]: sections
    under a wait queue's lock.  [Input], [Workqueue], [Keymap], [Tty], [Ps2]: the source
    files of the same names.  [Typing]: kernel/console/input_console.c and the chain
    from the keyboard interrupt to the line editor.  [Kdb]: kernel/debug/kdb.c.

    Start.  [DriverBoot]: kernel/selftest/input.c and the drivers' initialisation.
    [BootReport]: kernel/boot_report.c.  [KernelMain]: kernel/main.c, where everything
    above is composed.

    [FirmwareWitness], [SchedWitness], [WaitWitness], [BootWitness], [DevWitness] and
    [MainWitness] apply the theorems to concrete machines.

    ** What is shown

    - The whole: with any firmware that keeps UEFI's promises the loader returns an error
      or jumps to the kernel with its segments in place and boot services left; on a
      machine handed over that way with memory enough, [kernel_main] gets through all
      initialisations and selftests, the first switch leaves the boot context for a
      running thread, and from there the transition system of the scheduler reaches safe
      states only: no action that its conditions allow panics.
    - Memory: the free list holds exactly the usable pages; alloc and free are a stack;
      the pages of the active tables are never handed out; map, unmap and resolve act
      on the translations as on a finite map; kmalloc and kfree keep the heap a
      coalesced tiling of its range, never overlap allocations and undo one another;
      [mm_init] returns on every machine in the state the loader promises.
    - Threads: the scheduler's invariant is kept by every operation; a yield makes the
      round-robin choice and resumes its saved context; no ready thread starves; ticks
      wake exactly the due sleepers; exited threads are reclaimed; a switch and a switch
      back restore the registers; sched_init passes its selftest and sched_start leaves
      the boot context.  In every state the transition system reaches only the current thread
      is RUNNING, the idle thread is READY or runs, a thread that waits is on a queue, and
      all but the current one can be resumed.
    - Waiting: a caller that finds its condition false is on the queue before the lock
      is released, so that a handler that comes in at the release wakes it and no wake-up is
      lost; a timed wait returns 0 or -ETIMEDOUT.
    - Traps: the interrupt table is well formed; every vector reaches the dispatcher through
      its stub with the same frame and the return resumes the interrupted code, except for
      the scratch registers, which are lost; a timer interrupt preempts; every other
      exception is fatal, and all it changes before is the log, which says what happened.
    - Drivers: the input core refines a bounded FIFO, the tty a line editor, the decoder
      inverts the keyboard's encoding (while not both keys of a modifier are held and one
      goes up), work items run once and in order, and the keys
      pressed reach the line editor as the characters the key map gives.
    - Files: opening a path follows its components in the mounted tree; reads
      concatenate; the built-in tree mounts and passes its selftest.
    - Output: printk prints the rendering of its format, and its digits fit their array;
      the early log reaches all three backends; the framebuffer console shows what a
      character terminal would; the boot report and the debugger shell show the answers
      they should.

    The flaws found on the way are lemmas too: a region at physical page 0, a huge
    [kmalloc], an extension of the heap that runs out of memory midway, a timed-out
    waiter that is woken, a wakeup between a waiter's unlock and its yield, a timer interrupt
    between the choice and the switch of a yield, a condition looked at without its lock, a
    thread that starts with interrupts off, registers that an interrupt does not restore, a stack
    pointer reported wrongly, a format ending in a percent sign, a width that is ignored,
    a modifier lost while its other key is held, half a character left by a backspace,
    surrogates encoded as if they were characters, an error number that contradicts its
    description.

    ** What is not modelled

    The log lines of the other callers; the idle thread, which only halts; the first two
    instructions of the kernel (entry.S), which load the stack pointer and call
    [kernel_main]; the memset of arch/x86/boot/support.c, which no source calls; the
    firmware itself, which is a parameter; the test blocks of [kernel_main], which are
    compiled in only on request.  An interrupt is served where a theorem says so, at the
    releases of the lock in [wait_queue_wait], and in the transition system between two
    actions, so also between a thread's mark and its yield, but not between any two
    instructions: [sched_yield] and [kernel_thread_create] are one action each there, and an
    interrupt inside [sched_yield] can panic the kernel.  A wakeup of a queue with a timed-out
    waiter panics too and is excluded by the condition on the action; of the devices'
    interrupts the system has the wakeups.  That the
    machine the loader leaves is one [kernel_main] can start on is shown of a concrete
    machine, not of every firmware: the memory map and the framebuffer are the firmware's
    choice.  The theorem on [printk] stops where its [int] counter overflows, which C leaves
    undefined. *)

From stdpp Require Export base tactics option strings numbers list gmap.

(** * Machine integers

    The kernel computes on [uint64_t], [uint32_t], [uint16_t] and [uint8_t]
    values.  A value of such a type is a [Z]; every arithmetic operation whose
    result may leave the type is followed by the wrap of that width. *)

#[global] Open Scope Z_scope.

Definition wrap64 (z : Z) : Z := z mod 18446744073709551616.
Definition wrap32 (z : Z) : Z := z mod 4294967296.
Definition wrap16 (z : Z) : Z := z mod 65536.
Definition wrap8 (z : Z) : Z := z mod 256.

(** One's complement of a 64-bit value, C's [~]. *)
Definition not64 (z : Z) : Z := 18446744073709551615 - z.

Definition in64 (z : Z) : Prop := 0 <= z < 18446744073709551616.
Definition in32 (z : Z) : Prop := 0 <= z < 4294967296.

(** Linear arithmetic with divisions by constants. *)
Ltac div_lia := Z.to_euclidean_division_equations; lia.

Lemma wrap64_id z : in64 z -> wrap64 z = z.
Proof. intros H. apply Z.mod_small, H. Qed.

Lemma wrap32_id z : in32 z -> wrap32 z = z.
Proof. intros H. apply Z.mod_small, H. Qed.

Lemma wrap64_in z : in64 (wrap64 z).
Proof. apply Z.mod_pos_bound. lia. Qed.

Lemma wrap32_in z : in32 (wrap32 z).
Proof. apply Z.mod_pos_bound. lia. Qed.

(** [~(2^k - 1)] as a mask clears the low [k] bits: the idiom of every
    [align_down] of the kernel. *)
Lemma land_not_ones z k :
  0 <= k <= 64 -> in64 z ->
  Z.land z (not64 (2 ^ k - 1)) = z - z mod 2 ^ k.
Proof.
  intros Hk Hz.
  assert (Hnot : not64 (2 ^ k - 1) = Z.shiftl (Z.ones (64 - k)) k).
  { rewrite Z.shiftl_mul_pow2, Z.ones_equiv by lia. unfold not64.
    replace (Z.pred (2 ^ (64 - k)) * 2 ^ k) with (2 ^ (64 - k) * 2 ^ k - 2 ^ k) by lia.
    rewrite <- Z.pow_add_r by lia. replace (64 - k + k) with 64 by lia. lia. }
  rewrite Hnot.
  replace (z - z mod 2 ^ k) with (Z.shiftl (Z.shiftr z k) k).
  2:{ rewrite Z.shiftl_mul_pow2, Z.shiftr_div_pow2 by lia.
      pose proof (Z.div_mod z (2 ^ k)). lia. }
  apply Z.bits_inj'. intros n Hn. rewrite Z.land_spec, !Z.shiftl_spec by lia.
  destruct (Z.lt_ge_cases n k) as [Hlt|Hge].
  - rewrite !(Z.testbit_neg_r _ (n - k)) by lia. by rewrite andb_false_r.
  - rewrite Z.shiftr_spec by lia. replace (n - k + k) with n by lia.
    destruct (Z.lt_ge_cases n 64).
    + rewrite Z.ones_spec_low by lia. by rewrite andb_true_r.
    + rewrite Z.ones_spec_high, andb_false_r by lia.
      symmetry. rewrite <- (Z.mod_small z (2 ^ 64)) by (unfold in64 in Hz; lia).
      by apply Z.mod_pow2_bits_high.
Qed.

Lemma land_ones_mod z k : 0 <= k -> Z.land z (2 ^ k - 1) = z mod 2 ^ k.
Proof.
  intros Hk. rewrite <- Z.land_ones by done. by rewrite Z.ones_equiv.
Qed.

(** A bit-wise or of values with disjoint bits is their sum. *)
Lemma lor_disjoint_add a b : Z.land a b = 0 -> Z.lor a b = a + b.
Proof.
  intros H. symmetry. rewrite Z.add_nocarry_lxor by done. by apply Z.lxor_lor.
Qed.

(** * Record update

    [r <| f := v |>] is [r] with the field [f] replaced, and [r <| f ::= g |>]
    applies [g] to the field.  A record type declares its fields once, with an
    [Eta] instance; the updater of a field is computed from it. *)

Class Eta (R : Type) := eta : R -> R.
Class Upd {R T : Type} (proj : R -> T) := upd : (T -> T) -> R -> R.
Arguments upd {R T} proj {_} _ _ /.

Ltac derive_upd :=
  lazymatch goal with
  | |- @Upd ?R ?T ?proj =>
      let e := constr:(_ : Eta R) in
      let e := eval hnf in e in
      lazymatch eval pattern proj in e with
      | ?F _ =>
          let t := constr:(fun (g : T -> T) (r : R) => F (fun x => g (proj x)) r) in
          let t := eval cbv beta in t in
          exact t
      end
  end.

#[export] Hint Extern 1 (Upd _) => derive_upd : typeclass_instances.

Declare Scope kernel_scope.
#[global] Open Scope kernel_scope.

Notation "r <| f := v |>" := (upd f (fun _ => v) r)
  (at level 1, f at level 200, left associativity) : kernel_scope.
Notation "r <| f ::= g |>" := (upd f g r)
  (at level 1, f at level 200, left associativity) : kernel_scope.

(** * Effects

    A kernel routine runs on a state [S].  It returns, or it calls [panic()]
    (which prints and halts for ever), or it does something the C standard
    leaves undefined: a NULL or dangling dereference, an access outside an
    array, a misaligned access ([Fault]).  [NoFuel] marks a loop whose model
    ran out of fuel; the theorems show it is never the result. *)

Inductive outcome (S A : Type) : Type :=
| Ret (a : A) (s : S)
| Panicked (msg : string) (s : S)
| Fault
| NoFuel.
Arguments Ret {S A} a s.
Arguments Panicked {S A} msg s.
Arguments Fault {S A}.
Arguments NoFuel {S A}.

Definition M (S A : Type) : Type := S -> outcome S A.

#[export] Instance M_ret S : MRet (M S) := fun A a s => Ret a s.
#[export] Instance M_bind S : MBind (M S) := fun A B k m s =>
  match m s with
  | Ret a s' => k a s'
  | Panicked msg s' => Panicked msg s'
  | Fault => Fault
  | NoFuel => NoFuel
  end.

Definition gets {S A} (f : S -> A) : M S A := fun s => Ret (f s) s.
Definition modify {S} (f : S -> S) : M S unit := fun s => Ret tt (f s).
Definition panic {S A} (msg : string) : M S A := fun s => Panicked msg s.
Definition fault {S A} : M S A := fun _ => Fault.

(** Dereference of a pointer or an array index: undefined when there is no
    object there. *)
Definition deref {S A} (f : S -> option A) : M S A := fun s =>
  match f s with Some a => Ret a s | None => Fault end.

(** Run a routine of a component on the part of the state it owns. *)
Definition zoom {S T A} (get : S -> T) (put : T -> S -> S) (m : M T A) : M S A :=
  fun s =>
    match m (get s) with
    | Ret a t => Ret a (put t s)
    | Panicked msg t => Panicked msg (put t s)
    | Fault => Fault
    | NoFuel => NoFuel
    end.

(** A C loop: the body gets the loop variables and says whether to go round
    again ([inl], with their new values) or to leave ([inr], with the value of
    a [return] or of the variables after the loop). *)
Fixpoint loop {S A B} (fuel : nat) (body : A -> M S (A + B)) (a : A) : M S B :=
  match fuel with
  | O => fun _ => NoFuel
  | Datatypes.S fuel' =>
      r ← body a;
      match r with
      | inl a' => loop fuel' body a'
      | inr b => mret b
      end
  end.

Definition when {S} (b : bool) (m : M S unit) : M S unit :=
  if b then m else mret tt.

(** [if (!(c)) panic(msg)] *)
Definition require {S} (c : bool) (msg : string) : M S unit := if c then mret tt else panic msg.

(** [for (x : l) body x], for a loop whose bounds are fixed on entry. *)
Fixpoint for_each {S A} (l : list A) (body : A -> M S unit) : M S unit :=
  match l with
  | [] => mret tt
  | x :: l' => body x ;; for_each l' body
  end.

Lemma bind_run {S A B} (m : M S A) (k : A -> M S B) s a s' :
  m s = Ret a s' -> (x ← m; k x) s = k a s'.
Proof. intros H. unfold mbind, M_bind. by rewrite H. Qed.

Lemma bind_panic {S A B} (m : M S A) (k : A -> M S B) s msg s' :
  m s = Panicked msg s' -> (x ← m; k x) s = Panicked msg s'.
Proof. intros H. unfold mbind, M_bind. by rewrite H. Qed.

Lemma bind_inv {S A B} (m : M S A) (k : A -> M S B) s b s'' :
  (x ← m; k x) s = Ret b s'' ->
  exists a s', m s = Ret a s' /\ k a s' = Ret b s''.
Proof.
  unfold mbind, M_bind. destruct (m s) as [a s'| | |] eqn:E; naive_solver.
Qed.

Lemma bind_ext {S A B} (m : M S A) (k k' : A -> M S B) s :
  (forall a s', m s = Ret a s' -> k a s' = k' a s') ->
  (x ← m; k x) s = (x ← m; k' x) s.
Proof. intros H. unfold mbind, M_bind. destruct (m s); auto. Qed.

Lemma bind_assoc {S A B C} (m : M S A) (k : A -> M S B) (h : B -> M S C) s :
  (y ← (x ← m; k x); h y) s = (x ← m; y ← k x; h y) s.
Proof. unfold mbind, M_bind. by destruct (m s). Qed.

Lemma zoom_run {S T A} (get : S -> T) put (m : M T A) s a t :
  m (get s) = Ret a t -> zoom get put m s = Ret a (put t s).
Proof. intros H. unfold zoom. by rewrite H. Qed.

Lemma loop_S {S A B} fuel (body : A -> M S (A + B)) a s :
  loop (Datatypes.S fuel) body a s =
  (r ← body a; match r with inl a' => loop fuel body a' | inr b => mret b end) s.
Proof. reflexivity. Qed.

(** More fuel does not change what a loop does. *)
Lemma loop_fuel_mono {S A B} (body : A -> M S (A + B)) n m a s :
  loop n body a s <> NoFuel -> (n <= m)%nat -> loop m body a s = loop n body a s.
Proof.
  revert m a s. induction n as [|n IH]; intros m a s Hn Hle; [done|].
  destruct m as [|m]; [lia|]. rewrite !loop_S in *.
  unfold mbind, M_bind in *. destruct (body a s) as [[a'|b] s'| | |]; try done.
  apply IH; [done|lia].
Qed.

(** Invariant rule for a counted loop: [inv] speaks of the indices done. *)
Lemma for_each_total {S A} (inv : list A -> S -> Prop) (l : list A) (body : A -> M S unit) :
  (forall pre x post s, l = pre ++ x :: post -> inv pre s ->
     exists s', body x s = Ret tt s' /\ inv (pre ++ [x]) s') ->
  forall s, inv [] s -> exists s', for_each l body s = Ret tt s' /\ inv l s'.
Proof.
  intros Hbody. assert (Hgen : forall pre post s, l = pre ++ post -> inv pre s ->
    exists s', for_each post body s = Ret tt s' /\ inv l s').
  { intros pre post. revert pre. induction post as [|x post IH]; intros pre s El Hs.
    - exists s. rewrite app_nil_r in El. by subst.
    - destruct (Hbody pre x post s El Hs) as (s1 & E1 & H1).
      destruct (IH (pre ++ [x]) s1) as (s2 & E2 & H2); [by rewrite <- app_assoc|done|].
      exists s2. split; [|done]. simpl. by rewrite (bind_run _ _ _ _ _ E1). }
  intros s Hs. by apply (Hgen [] l).
Qed.

(** A routine that, from a state satisfying [P], returns with [Q]: no panic,
    no undefined behaviour, no divergence. *)
Definition total {S A} (P : S -> Prop) (m : M S A) (Q : A -> S -> Prop) : Prop :=
  forall s, P s -> exists a s', m s = Ret a s' /\ Q a s'.

Lemma total_bind {S A B} (P : S -> Prop) (m : M S A) (R : A -> S -> Prop)
    (k : A -> M S B) (Q : B -> S -> Prop) :
  total P m R -> (forall a, total (R a) (k a) Q) -> total P (x ← m; k x) Q.
Proof.
  intros Hm Hk s Hs. destruct (Hm s Hs) as (a & s1 & E1 & HR).
  destruct (Hk a s1 HR) as (b & s2 & E2 & HQ).
  exists b, s2. split; [|done]. by rewrite (bind_run _ _ _ _ _ E1).
Qed.

Lemma total_weaken {S A} (P P' : S -> Prop) (m : M S A) (Q Q' : A -> S -> Prop) :
  total P m Q -> (forall s, P' s -> P s) -> (forall a s, Q a s -> Q' a s) ->
  total P' m Q'.
Proof. intros Hm HP HQ s Hs. destruct (Hm s (HP s Hs)) as (a & s' & E & H). eauto. Qed.

(** ** Computations that leave a part of the state alone *)

Definition keeps {S B A} (f : S -> B) (m : M S A) : Prop := forall s a s', m s = Ret a s' -> f s' = f s.

Section keeps.
Context {S B : Type} (f : S -> B).

Lemma keeps_bind {A C} (m : M S A) (k : A -> M S C) : keeps f m -> (forall a, keeps f (k a)) -> keeps f (x ← m; k x).
Proof. intros Hm Hk s c s' E. apply bind_inv in E as (a & s1 & E1 & E2). by rewrite (Hk a s1 c s' E2), (Hm s a s1 E1). Qed.

Lemma keeps_ret {A} (a : A) : keeps f (mret a : M S A).
Proof. by intros s r s' [= _ <-]. Qed.

Lemma keeps_gets {A} (g : S -> A) : keeps f (gets g).
Proof. by intros s r s' [= _ <-]. Qed.

Lemma keeps_deref {A} (g : S -> option A) : keeps f (deref g).
Proof. intros s r s'. unfold deref. destruct (g s); [by intros [= _ <-]|done]. Qed.

Lemma keeps_panic {A} msg : keeps f (panic msg : M S A).
Proof. by intros s r s'. Qed.

Lemma keeps_modify g : (forall s, f (g s) = f s) -> keeps f (modify g).
Proof. intros Hg s r s' [= _ <-]. apply Hg. Qed.

Lemma keeps_zoom {T A} (get : S -> T) put (m : M T A) : (forall t s, f (put t s) = f s) -> keeps f (zoom get put m).
Proof. intros Hp s r s'. unfold zoom. destruct (m (get s)); [|done..]. intros [= _ <-]. apply Hp. Qed.

Lemma keeps_loop {A C} fuel (body : A -> M S (A + C)) : (forall a, keeps f (body a)) -> forall a, keeps f (loop fuel body a).
Proof.
  intros Hb. induction fuel as [|fuel IH]; intros a; [by intros s c s'|]. intros s c s'. rewrite loop_S.
  apply keeps_bind; [apply Hb|]. intros [a'|c']; [apply IH|apply keeps_ret].
Qed.
End keeps.

(** Follows the text of a computation. *)
Ltac keep_step :=
  first
    [ apply keeps_bind; [|intros ?] | apply keeps_ret | apply keeps_gets | apply keeps_deref | apply keeps_panic
    | (apply keeps_modify; by intros ?) | (apply keeps_zoom; by intros ? ?) | (apply keeps_loop; intros ?)
    | progress cbv zeta | progress unfold when | match goal with |- keeps _ (match ?b with _ => _ end) => destruct b end ].

Ltac keep_state := repeat keep_step.

Lemma bind_ret {S A B} (a : A) (k : A -> M S B) s : (x ← mret a; k x) s = k a s.
Proof. reflexivity. Qed.

Lemma bind_gets {S A B} (f : S -> A) (k : A -> M S B) s : (x ← gets f; k x) s = k (f s) s.
Proof. reflexivity. Qed.

Lemma bind_modify {S B} (f : S -> S) (k : unit -> M S B) s :
  (x ← modify f; k x) s = k tt (f s).
Proof. reflexivity. Qed.

Lemma bind_when_true {S B} (m : M S unit) (k : unit -> M S B) s :
  (x ← when true m; k x) s = (x ← m; k x) s.
Proof. reflexivity. Qed.

Lemma bind_when_false {S B} (m : M S unit) (k : unit -> M S B) s :
  (x ← when false m; k x) s = k tt s.
Proof. reflexivity. Qed.

Lemma require_true {S} (c : bool) msg (s : S) : c = true -> require c msg s = Ret tt s.
Proof. by intros ->. Qed.

Lemma bind_require {S B} (c : bool) msg (m : unit -> M S B) s : c = true -> (x ← require c msg; m x) s = m tt s.
Proof. by intros ->. Qed.

Lemma bind_deref {S A B} (f : S -> option A) (k : A -> M S B) s a :
  f s = Some a -> (x ← deref f; k x) s = k a s.
Proof. intros H. apply bind_run. unfold deref. by rewrite H. Qed.

Lemma bind_panicked {S A B} msg (k : A -> M S B) s :
  (x ← panic msg; k x) s = Panicked msg s.
Proof. reflexivity. Qed.

Lemma mret_run {S A} (a : A) (s : S) : mret (M := M S) a s = Ret a s.
Proof. reflexivity. Qed.

Lemma gets_run {S A} (f : S -> A) (s : S) : gets f s = Ret (f s) s.
Proof. reflexivity. Qed.

Lemma modify_run {S} (f : S -> S) (s : S) : modify f s = Ret tt (f s).
Proof. reflexivity. Qed.

Lemma panic_run {S A} msg (s : S) : panic (A := A) msg s = Panicked msg s.
Proof. reflexivity. Qed.

(** [mred] steps through the calls of the effect layer itself; [mrun H] steps
    over a call whose result [H] gives; [minv H as p] takes apart a successful
    sequence. *)
Ltac mred_goal :=
  repeat first
    [ rewrite bind_gets | rewrite bind_modify | rewrite bind_ret
    | rewrite bind_when_true | rewrite bind_when_false
    | rewrite bind_panicked | rewrite bind_assoc ];
  rewrite ?mret_run, ?modify_run, ?panic_run, ?gets_run; cbv beta.
Ltac mred_in H :=
  repeat first
    [ rewrite bind_gets in H | rewrite bind_modify in H | rewrite bind_ret in H
    | rewrite bind_when_true in H | rewrite bind_when_false in H
    | rewrite bind_panicked in H | rewrite bind_assoc in H ];
  rewrite ?mret_run, ?modify_run, ?panic_run, ?gets_run in H; cbv beta in H.
Tactic Notation "mred" := mred_goal.
Tactic Notation "mred" "in" hyp(H) := mred_in H.
Ltac mrun H := rewrite (bind_run _ _ _ _ _ H).
Tactic Notation "minv" hyp(H) "as" simple_intropattern(p) :=
  apply bind_inv in H as p.

Create HintDb kernel.
#[export] Hint Resolve wrap64_in wrap32_in : kernel.
