(* ===== verification/LinkedList.v ===== *)
(** * Intrusive singly linked lists

    The kernel threads its free pages, its run queue, its wait queues, its work
    items and its consoles through a [next] field of the objects themselves.
    This file has the representation predicate those components share: a chain
    of objects from a pointer to a pointer, and a queue with a head and a tail
    pointer.  NULL is the address [0]. *)

From S2P Require Import Prelude.

(** [lseg next p l q]: following [next] from [p] visits the objects [l] in
    order and arrives at [q].  [next x = None] means there is no object at
    [x]. *)
Fixpoint lseg (next : Z -> option Z) (p : Z) (l : list Z) (q : Z) : Prop :=
  match l with
  | [] => p = q
  | x :: l' => p = x /\ x <> 0 /\ exists n, next x = Some n /\ lseg next n l' q
  end.

(** A NULL-terminated list with a head and a tail pointer. *)
Definition queue_rep (next : Z -> option Z) (head tail : Z) (l : list Z) : Prop :=
  lseg next head l 0 /\ tail = default 0 (last l).

Lemma lseg_app next p l1 l2 q :
  lseg next p (l1 ++ l2) q <-> exists m, lseg next p l1 m /\ lseg next m l2 q.
Proof.
  revert p. induction l1 as [|x l1 IH]; intros p; simpl.
  - split; [by exists p|]. by intros (m & -> & ?).
  - split.
    + intros (-> & Hx & n & Hn & H). apply IH in H as (m & ? & ?).
      exists m. naive_solver.
    + intros (m & (-> & Hx & n & Hn & H1) & H2). split_and!; [done..|].
      exists n. split; [done|]. apply IH. eauto.
Qed.

Lemma lseg_snoc next p l x q :
  lseg next p (l ++ [x]) q <-> lseg next p l x /\ x <> 0 /\ next x = Some q.
Proof. rewrite lseg_app. simpl. naive_solver. Qed.

(** Frame rule: a change of links outside the chain leaves it alone. *)
Lemma lseg_ext next next' p l q :
  (forall x, x ∈ l -> next' x = next x) -> lseg next p l q -> lseg next' p l q.
Proof.
  revert p. induction l as [|x l IH]; intros p Hext; simpl; [done|].
  intros (-> & Hx & n & Hn & H). split_and!; [done..|].
  exists n. rewrite Hext by set_solver. split; [done|].
  apply IH; [|done]. intros y Hy. apply Hext. set_solver.
Qed.

Lemma lseg_nonzero next p l q x : lseg next p l q -> x ∈ l -> x <> 0.
Proof.
  revert p. induction l as [|y l IH]; intros p; simpl; [set_solver|].
  intros (-> & Hy & n & _ & H) [->|Hin]%elem_of_cons; eauto.
Qed.

Lemma lseg_next_is_Some next p l q x :
  lseg next p l q -> x ∈ l -> is_Some (next x).
Proof.
  revert p. induction l as [|y l IH]; intros p; simpl; [set_solver|].
  intros (-> & Hy & n & Hn & H) [->|Hin]%elem_of_cons; eauto.
Qed.

(** From a pointer there is one way to NULL. *)
Lemma lseg_det next p l1 l2 :
  lseg next p l1 0 -> lseg next p l2 0 -> l1 = l2.
Proof.
  revert p l2. induction l1 as [|x l1 IH]; intros p [|y l2]; simpl; try tauto.
  1: by intros ->; intros (? & ? & _); congruence.
  1: by intros (-> & ? & _) ?; congruence.
  intros (-> & Hx & n & Hn & H1) (-> & Hy & m & Hm & H2).
  f_equal. apply (IH n); [done|]. by replace n with m by congruence.
Qed.

(** So a NULL-terminated chain visits no object twice. *)
Lemma lseg_NoDup next p l : lseg next p l 0 -> NoDup l.
Proof.
  revert p. induction l as [|x l IH]; intros p Hl; [constructor|].
  constructor.
  - intros Hin. apply list_elem_of_split in Hin as (l1 & l2 & ->).
    pose proof Hl as Hl'. simpl in Hl'. destruct Hl' as (-> & _ & n & _ & Htl).
    apply lseg_app in Htl as (m & _ & Hm).
    assert (m = x) as -> by (by destruct Hm).
    pose proof (lseg_det _ _ _ _ Hl Hm) as E.
    apply (f_equal length) in E. simpl in E. rewrite length_app in E. simpl in E. lia.
  - destruct Hl as (_ & _ & n & _ & H). eauto.
Qed.

Lemma lseg_head next p l :
  lseg next p l 0 -> p = default 0 (head l).
Proof. destruct l; simpl; naive_solver. Qed.

Lemma queue_rep_empty next : queue_rep next 0 0 [].
Proof. done. Qed.

Lemma queue_rep_head next h t l : queue_rep next h t l -> h = default 0 (head l).
Proof. intros [H _]. by eapply lseg_head. Qed.

Lemma queue_rep_tail_0 next h t l : queue_rep next h t l -> (t = 0 <-> l = []).
Proof.
  intros [H ->]. destruct (last l) as [x|] eqn:E; simpl.
  - split; [|intros ->; done]. intros ->.
    destruct (lseg_nonzero _ _ _ _ 0 H); [|done].
    by apply last_Some_elem_of.
  - apply last_None in E. done.
Qed.

Lemma queue_rep_NoDup next h t l : queue_rep next h t l -> NoDup l.
Proof. intros [H _]. by eapply lseg_NoDup. Qed.

(** Appending an object [x] to a queue: the C code clears [x->next], then
    links [x] behind the old tail, or makes it the head of an empty queue. *)
Lemma queue_rep_enqueue next next' h t l x :
  queue_rep next h t l -> x <> 0 -> x ∉ l ->
  next' x = Some 0 ->
  (forall y, y ∈ l -> y <> t -> next' y = next y) ->
  (t <> 0 -> next' t = Some x) ->
  queue_rep next' (if decide (t = 0) then x else h) x (l ++ [x]).
Proof.
  intros [Hl Ht] Hx Hnin Hnx Hframe Htail. split; [|by rewrite last_snoc].
  destruct (decide (t = 0)) as [->|Hne].
  - assert (l = []) as ->.
    { apply (queue_rep_tail_0 next h 0); [by split|done]. }
    simpl. split_and!; [done..|]. exists 0. done.
  - destruct (last l) as [y|] eqn:E; [|simpl in *; done]. simpl in Ht. subst y.
    apply last_Some in E as [l1 ->].
    pose proof (lseg_NoDup _ _ _ Hl) as Hnd.
    apply lseg_snoc in Hl as (H1 & Ht0 & _).
    apply lseg_snoc. split_and!; [|done|done].
    apply lseg_snoc. split_and!; [|done|by apply Htail].
    eapply lseg_ext; [|exact H1].
    intros y Hy. apply Hframe; [set_solver|]. intros ->.
    apply NoDup_app in Hnd as (_ & Hd & _). set_solver.
Qed.

(** Removing the oldest object. *)
Lemma queue_rep_dequeue next next' h t x l n :
  queue_rep next h t (x :: l) ->
  next x = Some n ->
  (forall y, y ∈ l -> next' y = next y) ->
  queue_rep next' n (if decide (n = 0) then 0 else t) l.
Proof.
  intros [(-> & Hx & n' & Hn' & H) Ht] Hn Hext.
  assert (n' = n) as -> by congruence.
  assert (Hq : lseg next' n l 0) by (eapply lseg_ext; [|done]; naive_solver).
  split; [done|]. destruct l as [|y l].
  - simpl in *. subst n. done.
  - case_decide as Hd; [destruct H; naive_solver|].
    rewrite last_cons_cons in Ht. done.
Qed.

(** Unlinking an object in the middle or at the end. *)
Lemma queue_rep_unlink next next' h t l1 p x l2 n :
  queue_rep next h t (l1 ++ p :: x :: l2) ->
  next x = Some n ->
  next' p = Some n ->
  (forall y, y ∈ l1 ++ l2 -> next' y = next y) ->
  queue_rep next' h (if decide (t = x) then p else t) (l1 ++ p :: l2).
Proof.
  intros [Hl Ht] Hn Hp Hext.
  pose proof (lseg_NoDup _ _ _ Hl) as Hnd.
  apply lseg_app in Hl as (m & H1 & (-> & Hp0 & x' & _ & (-> & Hx0 & n' & Hn' & H2))).
  assert (n' = n) as -> by congruence.
  split.
  - apply lseg_app. exists p. split.
    + eapply lseg_ext; [|exact H1]. intros; apply Hext; set_solver.
    + simpl. split_and!; [done..|]. exists n. split; [done|].
      eapply lseg_ext; [|exact H2]. intros; apply Hext; set_solver.
  - subst t. rewrite !last_app. destruct l2 as [|y l2].
    + simpl. by rewrite decide_True.
    + rewrite !last_cons_cons. simpl.
      destruct (last (y :: l2)) as [z|] eqn:Ez; [|by apply last_None in Ez].
      simpl. rewrite decide_False; [done|].
      apply last_Some_elem_of in Ez. intros <-.
      apply NoDup_app in Hnd as (_ & _ & Hnd). inversion Hnd as [|? ? _ Hnd'].
      inversion Hnd'. done.
Qed.

(** Unlinking [x] from behind [keep], wherever it is: the C code keeps [prev], NULL at
    the head, and updates [prev->next] or the head, and the tail when [x] was last. *)
Lemma queue_rep_remove next next' h tl keep x rest n :
  queue_rep next h tl (keep ++ x :: rest) -> next x = Some n ->
  (forall y, y ∈ keep ++ rest -> Some y <> last keep -> next' y = next y) ->
  (forall p, last keep = Some p -> next' p = Some n) ->
  queue_rep next' (if bool_decide (default 0 (last keep) = 0) then n else h)
    (if bool_decide (tl = x) then default 0 (last keep) else tl) (keep ++ rest).
Proof.
  intros Hq Hn Hsame Hlast. pose proof (queue_rep_NoDup _ _ _ _ Hq) as Hnd.
  destruct keep as [|p keep _] using rev_ind.
  - simpl in *. pose proof (queue_rep_dequeue next next' _ _ x rest n Hq Hn) as Hd.
    replace (if bool_decide (tl = x) then 0 else tl) with (if decide (n = 0) then 0 else tl);
      [apply Hd; intros y Hy; by apply Hsame|].
    destruct Hq as [(_ & _ & n' & Hn' & Hl) Ht]. assert (n' = n) as -> by congruence.
    apply NoDup_cons in Hnd as [Hnin _]. destruct rest as [|y rest].
    + simpl in *. subst. by rewrite decide_True, bool_decide_eq_true_2.
    + rewrite last_cons_cons in Ht. destruct Hl as (-> & Hy & _). rewrite decide_False by done.
      rewrite bool_decide_eq_false_2; [done|]. intros E. apply Hnin.
      destruct (last (y :: rest)) as [z|] eqn:Ez; [|by apply last_None in Ez].
      simpl in Ht. apply last_Some_elem_of in Ez. congruence.
  - rewrite <- app_assoc in Hq |- *. simpl in Hq |- *.
    rewrite last_snoc in *. simpl in *.
    assert (Hp : p <> 0) by (destruct Hq as [Hl _]; eapply lseg_nonzero; [exact Hl|set_solver]).
    rewrite bool_decide_eq_false_2 by done.
    pose proof (queue_rep_unlink next next' _ _ keep p x rest n Hq Hn (Hlast p eq_refl)) as Hu.
    replace (if bool_decide (tl = x) then p else tl) with (if decide (tl = x) then p else tl)
      by (by case_bool_decide; case_decide).
    apply Hu. intros y Hy. apply Hsame; [set_solver|]. intros [= ->].
    rewrite <- app_assoc in Hnd. simpl in Hnd.
    apply NoDup_app in Hnd as (_ & Hd & [Hnd _]%NoDup_cons).
    apply elem_of_app in Hy as [Hy|Hy]; [apply (Hd p Hy); left|apply Hnd; by right].
Qed.
