(* ===== verification/Ring.v ===== *)
(** * Fixed-size ring buffers

    The tty line queue, the input event queue and the PS/2 scancode queue are
    arrays with a read index, a write index and a count.  [ring_rep] says which
    FIFO such an array holds; the two lemmas say what a write at [tail] and a
    read at [head] do to it. *)

From S2P Require Import Prelude.

Section ring.
Context {A : Type}.
Implicit Types (buf q : list A) (x : A).

Definition ring_rep (cap : Z) buf (head tail count : Z) q : Prop :=
  Z.of_nat (length buf) = cap /\ 0 <= head < cap /\
  tail = (head + count) mod cap /\
  count = Z.of_nat (length q) /\ count <= cap /\
  forall i x, q !! i = Some x ->
    buf !! Z.to_nat ((head + Z.of_nat i) mod cap) = Some x.

Lemma ring_rep_empty cap buf :
  0 < cap -> Z.of_nat (length buf) = cap -> ring_rep cap buf 0 0 0 [].
Proof.
  intros Hc Hl. unfold ring_rep. simpl. split_and!; try done; lia.
Qed.

Lemma ring_rep_tail cap buf head tail count q :
  ring_rep cap buf head tail count q -> 0 <= tail < cap.
Proof. intros (? & ? & -> & _). apply Z.mod_pos_bound. lia. Qed.

Lemma ring_rep_count cap buf head tail count q :
  ring_rep cap buf head tail count q -> 0 <= count <= cap.
Proof. intros (? & ? & _ & -> & ? & _). lia. Qed.

(** Distinct offsets below the capacity are distinct slots. *)
Lemma ring_slot_ne cap head i j :
  0 <= head < cap -> 0 <= i < cap -> 0 <= j < cap -> i <> j ->
  (head + i) mod cap <> (head + j) mod cap.
Proof.
  intros Hh Hi Hj Hne E.
  rewrite !Zmod_eq_full in E by lia.
  assert (i - j = ((head + i) / cap - (head + j) / cap) * cap) by lia.
  assert ((head + i) / cap - (head + j) / cap = 0); [|lia].
  destruct (Z.lt_trichotomy ((head + i) / cap - (head + j) / cap) 0) as [?|[?|?]]; nia.
Qed.

Lemma ring_rep_push cap buf head tail count q x :
  ring_rep cap buf head tail count q -> count < cap ->
  ring_rep cap (<[Z.to_nat tail := x]> buf) head ((tail + 1) mod cap) (count + 1)
    (q ++ [x]).
Proof.
  intros (Hlen & Hh & Htail & Hc & Hle & Hq) Hlt. unfold ring_rep.
  rewrite length_insert, length_app. simpl. split_and!; try lia.
  - rewrite Htail, Zplus_mod_idemp_l. f_equal. lia.
  - intros i y Hi.
    apply lookup_app_Some in Hi as [Hi|[Hge Hi]].
    + pose proof (lookup_lt_Some _ _ _ Hi).
      rewrite list_lookup_insert_ne; [by apply Hq|].
      rewrite Htail. intros E. apply Z2Nat.inj in E; [|apply Z.mod_pos_bound; lia..].
      revert E. apply not_eq_sym, ring_slot_ne; lia.
    + apply list_lookup_singleton_Some in Hi as [Hi <-].
      replace (Z.of_nat i) with count by lia. rewrite <- Htail.
      apply list_lookup_insert_eq. subst tail.
      pose proof (Z.mod_pos_bound (head + count) cap). lia.
Qed.

Lemma ring_rep_pop cap buf head tail count x q :
  ring_rep cap buf head tail count (x :: q) ->
  buf !! Z.to_nat head = Some x /\
  ring_rep cap buf ((head + 1) mod cap) tail (count - 1) q.
Proof.
  intros (Hlen & Hh & Htail & Hc & Hle & Hq). split.
  - specialize (Hq 0%nat x eq_refl). by rewrite Z.add_0_r, Z.mod_small in Hq by lia.
  - unfold ring_rep. simpl in Hc. split_and!; try lia.
    + by apply Z.mod_pos_bound; lia.
    + by apply Z.mod_pos_bound; lia.
    + rewrite Htail, Zplus_mod_idemp_l. f_equal. lia.
    + intros i y Hi. specialize (Hq (S i) y Hi).
      rewrite Zplus_mod_idemp_l. rewrite <- Hq. do 3 f_equal. lia.
Qed.

Lemma ring_rep_nil_count cap buf head tail count q :
  ring_rep cap buf head tail count q -> (count = 0 <-> q = []).
Proof.
  intros (_ & _ & _ & -> & _). split; [|intros ->; done].
  destruct q; simpl; [done|lia].
Qed.

Lemma ring_rep_cons_count cap buf head tail count x q :
  ring_rep cap buf head tail count (x :: q) -> count <> 0.
Proof. intros (_ & _ & _ & -> & _). simpl. lia. Qed.

End ring.
