(* ===== verification/PhysMem.v ===== *)
(** * Physical memory and the state of the memory manager

    The kernel runs on the identity mapping it inherits from the firmware, so a
    physical address is also a pointer: the page allocator threads its free list
    through the free pages themselves and the page-table code reads and writes
    table entries in place.  RAM is therefore one shared store of 64-bit words,
    and both [mm/page_alloc.c] and [arch/x86/mm/] work on it.

    Words are addressed by 8-byte aligned byte addresses; a misaligned access is
    a [Fault].  A word the map does not hold reads as [0]; theorems quantify over
    the map, so over every content of the words that matter. *)

From S2P Require Import Prelude.

Definition PAGE_SIZE : Z := 4096.
Definition PAGE_PRESENT : Z := Z.shiftl 1 0.
Definition PAGE_WRITABLE : Z := Z.shiftl 1 1.
Definition PAGE_NO_EXECUTE : Z := Z.shiftl 1 63.

Definition X86_PAGE_TABLE_ENTRIES : Z := 512.
Definition X86_PAGE_MASK : Z := 4503599627366400. (* 0x000ffffffffff000 *)
Definition X86_PAGE_SIZE_FLAG : Z := Z.shiftl 1 7.

Definition EINVAL : Z := 22.
Definition ENOENT : Z := 2.
Definition ENOMEM : Z := 12.
Definition EBUSY : Z := 16.
Definition EEXIST : Z := 17.
Definition EAGAIN : Z := 11.
Definition ENOSPC : Z := 28.
Definition ENOTDIR : Z := 20.
Definition EISDIR : Z := 21.
Definition ENAMETOOLONG : Z := 36.
Definition ETIMEDOUT : Z := 110.

Definition BOOT_MEMORY_TYPE_CONVENTIONAL : Z := 7.

(** The handoff record [boot_info_t]; [boot_info_addr] of the layout is where it
    lies. *)
Record boot_info_t := BootInfo {
  version : Z;
  boot_flags : Z;
  memory_map : Z;
  memory_map_size : Z;
  memory_map_key : Z;
  memory_descriptor_size : Z;
  memory_descriptor_version : Z;
  reserved0 : Z;
  framebuffer_base : Z;
  framebuffer_size : Z;
  framebuffer_width : Z;
  framebuffer_height : Z;
  framebuffer_pixels_per_scan_line : Z;
  framebuffer_pixel_format : Z
}.

Definition sizeof_boot_info : Z := 80.
Definition sizeof_boot_memory_descriptor : Z := 40.

(** Addresses the linker and the boot loader choose. *)
Record layout := Layout {
  kernel_start : Z;       (* __kernel_start *)
  kernel_end : Z;         (* __kernel_end *)
  boot_info_addr : Z;     (* the boot_info pointer *)
  kernel_pml4 : Z         (* static kernel_pml4[], page aligned *)
}.

(** The globals of mm/page_alloc.c and arch/x86/mm/page_table_boot.c, the RAM,
    and CR3.  [tlb_flushes] records the [invlpg] instructions executed, newest
    first. *)
Record mm := Mm {
  ram : gmap Z Z;
  cr3 : Z;
  tlb_flushes : list Z;
  reserved_table_pages : list Z;
  reserved_table_pages_ready : bool;
  page_tables_ready : bool;
  free_pages : Z;
  free_page_count : Z
}.

#[export] Instance eta_mm : Eta mm := fun s =>
  Mm (ram s) (cr3 s) (tlb_flushes s) (reserved_table_pages s)
     (reserved_table_pages_ready s) (page_tables_ready s)
     (free_pages s) (free_page_count s).

Definition word (m : gmap Z Z) (a : Z) : Z := default 0 (m !! a).

Definition load64 (a : Z) : M mm Z := fun s =>
  if bool_decide (a mod 8 = 0) then Ret (word (ram s) a) s else Fault.

Definition load32 (a : Z) : M mm Z := fun s =>
  if bool_decide (a mod 8 = 0) then Ret (wrap32 (word (ram s) a)) s
  else if bool_decide (a mod 8 = 4) then Ret (Z.shiftr (word (ram s) (a - 4)) 32) s
  else Fault.

Definition store64 (a v : Z) : M mm unit := fun s =>
  if bool_decide (a mod 8 = 0) then Ret tt (s <| ram ::= <[a := v]> |>) else Fault.

Lemma word_insert_eq m a v : word (<[a := v]> m) a = v.
Proof. unfold word. by rewrite lookup_insert_eq. Qed.

Lemma word_insert_ne m a b v : a <> b -> word (<[a := v]> m) b = word m b.
Proof. intros H. unfold word. by rewrite lookup_insert_ne. Qed.

Lemma load64_run a s : a mod 8 = 0 -> load64 a s = Ret (word (ram s) a) s.
Proof. intros H. unfold load64. by rewrite bool_decide_eq_true_2. Qed.

Lemma load32_run a s : a mod 8 = 0 -> load32 a s = Ret (wrap32 (word (ram s) a)) s.
Proof. intros H. unfold load32. by rewrite bool_decide_eq_true_2. Qed.

Lemma store64_run a v s : a mod 8 = 0 -> store64 a v s = Ret tt (s <| ram ::= <[a := v]> |>).
Proof. intros H. unfold store64. by rewrite bool_decide_eq_true_2. Qed.

(** Alignment facts used by every walk over page-aligned memory. *)
Lemma page_aligned_8 p i : p mod 4096 = 0 -> (p + 8 * i) mod 8 = 0.
Proof.
  intros H. apply Z.mod_divide; [lia|]. apply Z.mod_divide in H as [k ->]; [|lia].
  exists (512 * k + i). lia.
Qed.

(** Two page-aligned tables are the same page or share no entry. *)
Lemma page_entries_disjoint p q i j :
  p mod 4096 = 0 -> q mod 4096 = 0 -> 0 <= i < 512 -> 0 <= j < 512 ->
  p + 8 * i = q + 8 * j -> p = q /\ i = j.
Proof.
  intros Hp Hq Hi Hj E.
  apply Z.mod_divide in Hp as [k ->]; [|lia]. apply Z.mod_divide in Hq as [l ->]; [|lia].
  lia.
Qed.

(** * arch/x86/mm/tlb.c *)

Definition active_pml4 : M mm Z := gets (fun s => Z.land (cr3 s) X86_PAGE_MASK).

Definition flush_tlb_page (virt : Z) : M mm unit :=
  modify (fun s => s <| tlb_flushes ::= cons virt |>).

Definition load_cr3 (root : Z) : M mm unit := modify (fun s => s <| cr3 := root |>).

Lemma land_page_mask_aligned z : Z.land z X86_PAGE_MASK mod 4096 = 0.
Proof.
  change 4096 with (2 ^ 12). rewrite <- Z.land_ones by lia.
  rewrite <- Z.land_assoc. change (Z.land X86_PAGE_MASK (Z.ones 12)) with 0.
  apply Z.land_0_r.
Qed.

(** A page-aligned address below 2^52 is its own frame number field. *)
Lemma land_page_mask_id z :
  z mod 4096 = 0 -> 0 <= z < 4503599627370496 -> Z.land z X86_PAGE_MASK = z.
Proof.
  intros Ha Hz.
  change X86_PAGE_MASK with (Z.ldiff (Z.ones 52) (Z.ones 12)).
  apply Z.bits_inj'. intros n Hn. rewrite Z.land_spec, Z.ldiff_spec.
  destruct (Z.lt_ge_cases n 12).
  - rewrite (Z.ones_spec_low 12) by lia. rewrite andb_false_r, andb_false_r.
    symmetry. change 4096 with (2 ^ 12) in Ha. apply Z.mod_divide in Ha as [k ->]; [|lia].
    apply Z.mul_pow2_bits_low. lia.
  - rewrite (Z.ones_spec_high 12) by lia. rewrite andb_true_r.
    destruct (Z.lt_ge_cases n 52).
    + rewrite Z.ones_spec_low by lia. by rewrite andb_true_r.
    + rewrite Z.ones_spec_high by lia. rewrite andb_false_r. symmetry.
      rewrite <- (Z.mod_small z (2 ^ 52)) by lia. by apply Z.mod_pow2_bits_high.
Qed.

#[export] Hint Resolve land_page_mask_aligned : kernel.
