(* ===== verification/PageTableBoot.v ===== *)
(** * arch/x86/mm/page_table_boot.c: the tables the firmware left active

    [collect_active_page_tables] walks the four-level tree under CR3 and records
    every page that holds a table; the page allocator refuses to hand those pages
    out.  [page_tables_init] moves the root to kernel-owned storage.

    The walk is shown equal to "record each page of [active_tables]", a pure
    enumeration of the tree, from which completeness follows. *)

From S2P Require Import Prelude PhysMem.

Definition MAX_RESERVED_TABLE_PAGES : Z := 4096.

Definition is_present (e : Z) : bool := negb (bool_decide (Z.land e PAGE_PRESENT = 0)).
Definition is_large (e : Z) : bool := negb (bool_decide (Z.land e X86_PAGE_SIZE_FLAG = 0)).
Definition entry_table (e : Z) : Z := Z.land e X86_PAGE_MASK.

Definition add_reserved_table_page (page : Z) : M mm unit :=
  pages ← gets reserved_table_pages;
  if bool_decide (page ∈ pages) then mret tt
  else if bool_decide (MAX_RESERVED_TABLE_PAGES <= Z.of_nat (length pages))
  then panic "too many active page table pages"
  else modify (fun s => s <| reserved_table_pages := pages ++ [page] |>).

Definition collect_pd (pd : Z) : M mm unit :=
  for_each (seqZ 0 X86_PAGE_TABLE_ENTRIES) (fun pd_index =>
    e ← load64 (pd + 8 * pd_index);
    if negb (is_present e) || is_large e then mret tt
    else add_reserved_table_page (Z.land e X86_PAGE_MASK)).

Definition collect_pdpt (pdpt : Z) : M mm unit :=
  for_each (seqZ 0 X86_PAGE_TABLE_ENTRIES) (fun pdpt_index =>
    e ← load64 (pdpt + 8 * pdpt_index);
    if negb (is_present e) || is_large e then mret tt
    else
      add_reserved_table_page (Z.land e X86_PAGE_MASK) ;;
      collect_pd (entry_table e)).

Definition collect_active_page_tables : M mm unit :=
  pml4 ← active_pml4;
  add_reserved_table_page pml4 ;;
  for_each (seqZ 0 X86_PAGE_TABLE_ENTRIES) (fun pml4_index =>
    e ← load64 (pml4 + 8 * pml4_index);
    if negb (is_present e) then mret tt
    else
      add_reserved_table_page (Z.land e X86_PAGE_MASK) ;;
      collect_pdpt (entry_table e)).

Definition arch_page_table_uses_page (page : Z) : M mm bool :=
  if negb (bool_decide (Z.land page (PAGE_SIZE - 1) = 0)) then mret false
  else
    ready ← gets reserved_table_pages_ready;
    when (negb ready)
      (collect_active_page_tables ;;
       modify (fun s => s <| reserved_table_pages_ready := true |>)) ;;
    pages ← gets reserved_table_pages;
    mret (bool_decide (page ∈ pages)).

Definition page_tables_init (L : layout) : M mm unit :=
  ready ← gets page_tables_ready;
  if ready : bool then mret tt
  else
    firmware_pml4 ← active_pml4;
    for_each (seqZ 0 X86_PAGE_TABLE_ENTRIES) (fun index =>
      e ← load64 (firmware_pml4 + 8 * index);
      store64 (kernel_pml4 L + 8 * index) e) ;;
    load_cr3 (kernel_pml4 L) ;;
    modify (fun s => s <| page_tables_ready := true |>).

(** ** The tables of the tree under a root *)

Definition table_entries (m : gmap Z Z) (t : Z) : list Z :=
  (fun i => word m (t + 8 * i)) <$> seqZ 0 X86_PAGE_TABLE_ENTRIES.

Definition pd_tables (m : gmap Z Z) (pd : Z) : list Z :=
  flat_map (fun e => if is_present e && negb (is_large e) then [entry_table e] else [])
    (table_entries m pd).

Definition pdpt_tables (m : gmap Z Z) (pdpt : Z) : list Z :=
  flat_map (fun e => if is_present e && negb (is_large e)
                     then entry_table e :: pd_tables m (entry_table e) else [])
    (table_entries m pdpt).

Definition active_tables (m : gmap Z Z) (pml4 : Z) : list Z :=
  pml4 :: flat_map (fun e => if is_present e
                             then entry_table e :: pdpt_tables m (entry_table e) else [])
            (table_entries m pml4).

Arguments active_tables : simpl never.

(** The array [reserved_table_pages] after a page was offered to it. *)
Definition reserve (pages : list Z) (page : Z) : list Z :=
  if bool_decide (page ∈ pages) then pages else pages ++ [page].

(** ** The walk is the enumeration *)

Lemma for_each_app {S A} (l1 l2 : list A) (body : A -> M S unit) s :
  for_each (l1 ++ l2) body s = (for_each l1 body ;; for_each l2 body) s.
Proof.
  revert s. induction l1 as [|x l1 IH]; intros s; [done|].
  simpl. rewrite bind_assoc. unfold mbind, M_bind. by destruct (body x s); [apply IH|..].
Qed.

(** A loop whose body does, for each index, the steps [f i], does all of them in
    order.  [inv] is what the body needs and the steps keep. *)
Lemma for_each_flat {S A B} (inv : S -> Prop) (l : list A) (body : A -> M S unit)
    (f : A -> list B) (step : B -> M S unit) :
  (forall x s, inv s -> x ∈ l -> body x s = for_each (f x) step s) ->
  (forall b s s', inv s -> step b s = Ret tt s' -> inv s') ->
  forall s, inv s -> for_each l body s = for_each (flat_map f l) step s.
Proof.
  intros Hbody Hstep. induction l as [|x l IH]; intros s Hs; [done|].
  simpl. rewrite for_each_app. unfold mbind, M_bind.
  rewrite Hbody by set_solver.
  destruct (for_each (f x) step s) as [[] s'| | |] eqn:E; [|done..].
  apply IH; [intros; apply Hbody; set_solver|].
  clear IH Hbody. revert s Hs E. induction (f x) as [|b bs IH]; intros s Hs E; simpl in E.
  - injection E as <-. done.
  - minv E as (? & s1 & E1 & E2). destruct x0. eauto.
Qed.

Lemma flat_map_fmap {A B C} (g : A -> B) (f : B -> list C) (l : list A) :
  flat_map f (g <$> l) = flat_map (fun x => f (g x)) l.
Proof. induction l as [|x l IH]; csimpl; [done|]. by rewrite IH. Qed.

Lemma add_reserved_ram page s s' :
  add_reserved_table_page page s = Ret tt s' ->
  ram s' = ram s /\ cr3 s' = cr3 s.
Proof.
  unfold add_reserved_table_page. mred.
  repeat case_bool_decide; intros E; mred in E; by simplify_eq/=.
Qed.

Lemma add_reserved_keeps_ram m page s s' :
  ram s = m -> add_reserved_table_page page s = Ret tt s' -> ram s' = m.
Proof. by intros <- [? _]%add_reserved_ram. Qed.

Section walk.
Context (m : gmap Z Z).

Local Abbreviation add := add_reserved_table_page.

Lemma collect_pd_enum pd s :
  ram s = m -> pd mod 4096 = 0 -> collect_pd pd s = for_each (pd_tables m pd) add s.
Proof.
  intros Hs Ha. unfold collect_pd, pd_tables, table_entries. rewrite flat_map_fmap.
  apply (for_each_flat (fun s => ram s = m)); [|apply add_reserved_keeps_ram|done].
  intros i s1 Hs1 _. mrun (load64_run _ s1 (page_aligned_8 pd i Ha)). rewrite Hs1.
  destruct (is_present _), (is_large _); simpl; try done.
  unfold mbind, M_bind. by destruct (add _ s1) as [[] ?| | |].
Qed.

Lemma collect_pdpt_enum pdpt s :
  ram s = m -> pdpt mod 4096 = 0 -> collect_pdpt pdpt s = for_each (pdpt_tables m pdpt) add s.
Proof.
  intros Hs Ha. unfold collect_pdpt, pdpt_tables, table_entries. rewrite flat_map_fmap.
  apply (for_each_flat (fun s => ram s = m)); [|apply add_reserved_keeps_ram|done].
  intros i s1 Hs1 _. mrun (load64_run _ s1 (page_aligned_8 pdpt i Ha)). rewrite Hs1.
  destruct (is_present _), (is_large _); try done. cbn [negb orb andb for_each].
  apply bind_ext. intros [] s2 [E _]%add_reserved_ram.
  apply collect_pd_enum; [congruence|apply land_page_mask_aligned].
Qed.
End walk.

Lemma collect_active_page_tables_enum s :
  collect_active_page_tables s =
  for_each (active_tables (ram s) (entry_table (cr3 s))) add_reserved_table_page s.
Proof.
  unfold collect_active_page_tables, active_tables, active_pml4. mred.
  fold (entry_table (cr3 s)). cbn [for_each].
  apply bind_ext. intros [] s1 [E _]%add_reserved_ram. rewrite <- E.
  unfold table_entries. rewrite flat_map_fmap.
  apply (for_each_flat (fun s => ram s = ram s1)); [|apply add_reserved_keeps_ram|done].
  intros i s2 Hs2 _.
  mrun (load64_run (entry_table (cr3 s) + 8 * i) s2 (page_aligned_8 _ i (land_page_mask_aligned _))).
  rewrite Hs2. destruct (is_present _); [|done]. cbn [negb for_each].
  apply bind_ext. intros [] s3 [E' _]%add_reserved_ram.
  apply collect_pdpt_enum; [congruence|apply land_page_mask_aligned].
Qed.

(** ** What ends up reserved *)

Lemma elem_of_reserve x R p : x ∈ reserve R p <-> x ∈ R \/ x = p.
Proof. unfold reserve. case_bool_decide; set_solver. Qed.

Lemma elem_of_reserve_all x R l : x ∈ foldl reserve R l <-> x ∈ R \/ x ∈ l.
Proof.
  revert R. induction l as [|p l IH]; intros R; simpl; [set_solver|].
  rewrite IH, elem_of_reserve. set_solver.
Qed.

Lemma reserve_all_length R l : (length R <= length (foldl reserve R l))%nat.
Proof.
  revert R. induction l as [|p l IH]; intros R; simpl; [lia|].
  etrans; [|apply IH]. unfold reserve. case_bool_decide; [lia|]. rewrite length_app. lia.
Qed.

Lemma add_reserved_run p s :
  Z.of_nat (length (reserve (reserved_table_pages s) p)) <= MAX_RESERVED_TABLE_PAGES ->
  add_reserved_table_page p s =
    Ret tt (s <| reserved_table_pages ::= fun R => reserve R p |>).
Proof.
  unfold add_reserved_table_page, reserve. mred.
  case_bool_decide as Hin; intros Hlen.
  - mred. destruct s; simpl in *. by rewrite bool_decide_eq_true_2.
  - rewrite length_app in Hlen. simpl in Hlen.
    rewrite bool_decide_eq_false_2 by lia. mred. destruct s; simpl in *.
    by rewrite (bool_decide_eq_false_2 (p ∈ _)).
Qed.

Lemma reserve_all_run l s :
  Z.of_nat (length (foldl reserve (reserved_table_pages s) l)) <= MAX_RESERVED_TABLE_PAGES ->
  for_each l add_reserved_table_page s =
    Ret tt (s <| reserved_table_pages := foldl reserve (reserved_table_pages s) l |>).
Proof.
  revert s. induction l as [|p l IH]; intros s Hlen; [by destruct s|]. cbn [for_each].
  rewrite (bind_run _ _ _ _ _ (add_reserved_run p s ltac:(
    pose proof (reserve_all_length (reserve (reserved_table_pages s) p) l);
    simpl in Hlen; lia))).
  rewrite IH; [done|exact Hlen].
Qed.

(** The reserved set is known: already collected, or about to be, within the
    capacity of the array. *)
Definition tables_known (R : list Z) (s : mm) : Prop :=
  if reserved_table_pages_ready s then reserved_table_pages s = R
  else reserved_table_pages s = [] /\
       R = foldl reserve [] (active_tables (ram s) (entry_table (cr3 s))) /\
       Z.of_nat (length R) <= MAX_RESERVED_TABLE_PAGES.

Lemma tables_known_ready R s :
  reserved_table_pages_ready s = true -> tables_known R s <-> reserved_table_pages s = R.
Proof. intros H. unfold tables_known. by rewrite H. Qed.

Lemma uses_page_run R page s :
  tables_known R s -> page mod 4096 = 0 ->
  arch_page_table_uses_page page s =
    Ret (bool_decide (page ∈ R))
      (s <| reserved_table_pages := R |> <| reserved_table_pages_ready := true |>).
Proof.
  intros HR Ha. unfold arch_page_table_uses_page, tables_known in *.
  replace (Z.land page (PAGE_SIZE - 1)) with (page mod 4096)
    by (symmetry; apply (land_ones_mod page 12); lia).
  rewrite bool_decide_eq_true_2 by done. cbn [negb]. mred.
  destruct (reserved_table_pages_ready s) eqn:Er; mred.
  - subst R. by destruct s; simpl in *; subst.
  - destruct HR as (H0 & -> & Hlen). rewrite <- H0 in Hlen |- *.
    pose proof (collect_active_page_tables_enum s) as E.
    rewrite (reserve_all_run _ s Hlen) in E. cbn [negb]. mred. mrun E. by mred.
Qed.

(** C16.  The first query of [arch_page_table_uses_page], made while nothing is
    cached and the firmware's tree has at most [MAX_RESERVED_TABLE_PAGES] tables,
    reports a page as in use exactly when it holds a table of the active tree (the
    PML4, or a PDPT, PD or PT reachable through present, non-large entries):
    [collect_active_page_tables] is complete and exact.

    Every later query answers from the list that the first one cached, whatever the
    memory and CR3 hold by then: it tells the tables of the tree as it was at the
    first query, and not those that [map_page] has added since. *)
Theorem active_tables_reserved s page :
  reserved_table_pages_ready s = false ->
  reserved_table_pages s = [] ->
  page mod 4096 = 0 ->
  Z.of_nat (length (foldl reserve [] (active_tables (ram s) (entry_table (cr3 s)))))
    <= MAX_RESERVED_TABLE_PAGES ->
  exists s', arch_page_table_uses_page page s =
    Ret (bool_decide (page ∈ active_tables (ram s) (entry_table (cr3 s)))) s'
    /\ ram s' = ram s /\
    forall later page', reserved_table_pages_ready later = reserved_table_pages_ready s' ->
      reserved_table_pages later = reserved_table_pages s' -> page' mod 4096 = 0 ->
      arch_page_table_uses_page page' later =
        Ret (bool_decide (page' ∈ active_tables (ram s) (entry_table (cr3 s)))) later.
Proof.
  intros Hr H0 Ha Hlen. set (l := active_tables _ _) in *.
  assert (Hiff : forall q, bool_decide (q ∈ foldl reserve [] l) = bool_decide (q ∈ l)).
  { intros q. apply bool_decide_ext. rewrite elem_of_reserve_all, elem_of_nil. tauto. }
  rewrite <- Hiff. eexists. split; [|split].
  - apply uses_page_run; [|done]. unfold tables_known. by rewrite Hr.
  - done.
  - intros later page' Hready Hpages Ha'. cbn in Hready, Hpages. rewrite <- Hiff.
    rewrite (uses_page_run (foldl reserve [] l)); [|by apply tables_known_ready|done].
    destruct later. cbn in *. by subst.
Qed.

(** [page_tables_init] copies the firmware root entry by entry. *)
Definition copied (m0 : gmap Z Z) (src dst : Z) (l : list Z) (m : gmap Z Z) : Prop :=
  (forall i, i ∈ l -> word m (dst + 8 * i) = word m0 (src + 8 * i)) /\
  (forall a, (forall i, i ∈ l -> a <> dst + 8 * i) -> word m a = word m0 a).

Lemma copied_nil m src dst : copied m src dst [] m.
Proof. split; [|done]. by intros i ?%elem_of_nil. Qed.

Lemma copied_snoc m0 src dst l i m :
  copied m0 src dst l m -> word m (src + 8 * i) = word m0 (src + 8 * i) ->
  copied m0 src dst (l ++ [i]) (<[dst + 8 * i := word m (src + 8 * i)]> m).
Proof.
  intros [Hd Hf] Hsrc. split.
  - intros j Hj. destruct (decide (j = i)) as [->|Hne]; [by rewrite word_insert_eq|].
    rewrite word_insert_ne by lia. apply Hd. set_solver.
  - intros a Ha. rewrite word_insert_ne by (intros <-; apply (Ha i); set_solver).
    apply Hf. set_solver.
Qed.

Lemma copy_root_run L src s :
  src mod 4096 = 0 -> kernel_pml4 L mod 4096 = 0 -> src <> kernel_pml4 L ->
  exists s', for_each (seqZ 0 X86_PAGE_TABLE_ENTRIES) (fun index =>
      e ← load64 (src + 8 * index); store64 (kernel_pml4 L + 8 * index) e) s = Ret tt s'
    /\ copied (ram s) src (kernel_pml4 L) (seqZ 0 X86_PAGE_TABLE_ENTRIES) (ram s')
    /\ s' = s <| ram := ram s' |>.
Proof.
  intros Hs Hk Hne.
  apply (for_each_total (fun l s' => copied (ram s) src (kernel_pml4 L) l (ram s')
    /\ s' = s <| ram := ram s' |>)); [|split; [apply copied_nil|by destruct s]].
  intros pre i post s1 El [Hc Es1].
  assert (Hi : i ∈ seqZ 0 X86_PAGE_TABLE_ENTRIES) by (rewrite El; set_solver).
  mrun (load64_run _ s1 (page_aligned_8 src i Hs)).
  eexists. split; [apply store64_run, page_aligned_8, Hk|].
  split; [|by rewrite Es1]. simpl. apply copied_snoc; [done|].
  apply Hc. intros j Hj E. apply elem_of_seqZ in Hi. unfold X86_PAGE_TABLE_ENTRIES in *.
  assert (j ∈ seqZ 0 512) as ?%elem_of_seqZ by (rewrite El; set_solver).
  destruct (page_entries_disjoint src (kernel_pml4 L) i j); [done..|lia|lia|done|done].
Qed.

(** Taking over the root keeps the address space: after [page_tables_init]
    CR3 points at the kernel's own PML4, its 512 entries are those of the
    firmware's, no other word of memory changed, and a second call does nothing. *)
Theorem page_tables_init_copies_root L s :
  page_tables_ready s = false ->
  kernel_pml4 L mod 4096 = 0 -> 0 <= kernel_pml4 L < 4503599627370496 ->
  entry_table (cr3 s) <> kernel_pml4 L ->
  exists s', page_tables_init L s = Ret tt s' /\
    entry_table (cr3 s') = kernel_pml4 L /\
    table_entries (ram s') (kernel_pml4 L) = table_entries (ram s) (entry_table (cr3 s)) /\
    (forall a, (forall i, 0 <= i < 512 -> a <> kernel_pml4 L + 8 * i) ->
       word (ram s') a = word (ram s) a) /\
    page_tables_init L s' = Ret tt s'.
Proof.
  intros Hr Ha Hb Hne.
  destruct (copy_root_run L (entry_table (cr3 s)) s) as (s1 & E & [Hd Hf] & Es1);
    [apply land_page_mask_aligned|done|done|].
  exists (s1 <| cr3 := kernel_pml4 L |> <| page_tables_ready := true |>). split_and!.
  - unfold page_tables_init, active_pml4. mred. rewrite Hr. mred. mrun E.
    unfold load_cr3. mred. done.
  - simpl. by apply land_page_mask_id.
  - simpl. unfold table_entries. apply list_fmap_ext. intros k i Hi. apply Hd.
    by eapply list_elem_of_lookup_2.
  - intros a Hout. apply Hf. intros i Hi%elem_of_seqZ. apply Hout.
    unfold X86_PAGE_TABLE_ENTRIES in Hi. lia.
  - done.
Qed.

(** ** A tree with one table per level *)
Definition demo_tree : mm :=
  Mm (list_to_map [(4096, 8195); (8192, 12291); (12288, 16387); (12296, 2097283)])
     4096 [] [] false false 0 0.

Lemma active_tables_reserved_witness :
  exists s', arch_page_table_uses_page 16384 demo_tree = Ret true s'.
Proof.
  destruct (active_tables_reserved demo_tree 16384) as (s' & E & _).
  - reflexivity.
  - reflexivity.
  - reflexivity.
  - vm_compute. done.
  - exists s'. rewrite E. vm_compute. done.
Defined.

Lemma page_tables_init_copies_root_witness :
  exists s', page_tables_init (Layout 0 0 0 20480) demo_tree = Ret tt s' /\
    entry_table (cr3 s') = 20480.
Proof.
  destruct (page_tables_init_copies_root (Layout 0 0 0 20480) demo_tree) as (s' & E & H & _).
  - reflexivity.
  - reflexivity.
  - done.
  - vm_compute. done.
  - exists s'. exact (conj E H).
Defined.
