(* ===== verification/PageAlloc.v ===== *)
(** * mm/page_alloc.c: the physical page allocator

    Free pages form a stack threaded through the pages themselves: the first word
    of a free page is the address of the next one.  [mm_init] fills the stack from
    the conventional regions of the boot memory map, leaving out the kernel image,
    the boot info, the memory map and the active page tables. *)

From S2P Require Import Prelude LinkedList PhysMem PageTableBoot.

Definition align_down (value alignment : Z) : Z :=
  Z.land value (not64 (wrap64 (alignment - 1))).

Definition align_up (value alignment : Z) : Z :=
  align_down (wrap64 (wrap64 (value + alignment) - 1)) alignment.

Definition ranges_overlap (start end_ reserved_start reserved_end : Z) : bool :=
  bool_decide (start < reserved_end) && bool_decide (reserved_start < end_).

(** [page_is_reserved] tests the three fixed ranges in turn and asks the
    architecture last. *)
Definition in_fixed_ranges (L : layout) (bi : boot_info_t) (page : Z) : bool :=
  let page_end := wrap64 (page + PAGE_SIZE) in
  let kstart := align_down (kernel_start L) PAGE_SIZE in
  let kend := align_up (kernel_end L) PAGE_SIZE in
  let boot_info_start := align_down (boot_info_addr L) PAGE_SIZE in
  let boot_info_end := align_up (wrap64 (boot_info_addr L + sizeof_boot_info)) PAGE_SIZE in
  let map_start := align_down (memory_map bi) PAGE_SIZE in
  let map_end := align_up (wrap64 (memory_map bi + memory_map_size bi)) PAGE_SIZE in
  ranges_overlap page page_end kstart kend
  || ranges_overlap page page_end boot_info_start boot_info_end
  || ranges_overlap page page_end map_start map_end.

Definition page_is_reserved (L : layout) (bi : boot_info_t) (page : Z) : M mm bool :=
  if in_fixed_ranges L bi page then mret true
  else arch_page_table_uses_page page.

Definition add_free_page (page : Z) : M mm unit :=
  next ← gets free_pages;
  store64 page next ;;
  modify (fun s => s <| free_pages := page |>
                     <| free_page_count := wrap64 (free_page_count s + 1) |>).

(** The [for (page = last;; page -= PAGE_SIZE)] loop.  It stops at [first], which
    is reached after [(last - first) mod 2^64 / PAGE_SIZE] rounds, so that many
    plus one is enough fuel. *)
Definition range_loop (L : layout) (bi : boot_info_t) (first : Z) (page : Z) : M mm (Z + unit) :=
  reserved ← page_is_reserved L bi page;
  when (negb reserved) (add_free_page page) ;;
  mret (if bool_decide (page = first) then inr tt else inl (wrap64 (page - PAGE_SIZE))).

Definition range_fuel (first last : Z) : nat :=
  S (Z.to_nat (wrap64 (last - first) / PAGE_SIZE)).

Definition add_conventional_range (L : layout) (bi : boot_info_t) (start pages : Z) : M mm unit :=
  let first := align_up start PAGE_SIZE in
  let end_ := wrap64 (start + wrap64 (pages * PAGE_SIZE)) in
  if bool_decide (wrap64 (first + PAGE_SIZE) > end_) then mret tt
  else
    let last := align_down (wrap64 (end_ - PAGE_SIZE)) PAGE_SIZE in
    loop (range_fuel first last) (range_loop L bi first) last.

(** One round of the walk over the memory map, which goes on while
    [offset + sizeof(descriptor) <= memory_map_size]. *)
Definition init_loop (L : layout) (bi : boot_info_t) (offset : Z) : M mm (Z + unit) :=
  if bool_decide (wrap64 (offset + sizeof_boot_memory_descriptor) <= memory_map_size bi) then
    let descriptor := wrap64 (memory_map bi + offset) in
    type ← load32 descriptor;
    when (bool_decide (type = BOOT_MEMORY_TYPE_CONVENTIONAL))
      (physical_start ← load64 (descriptor + 8);
       number_of_pages ← load64 (descriptor + 24);
       add_conventional_range L bi physical_start number_of_pages) ;;
    mret (inl (wrap64 (offset + memory_descriptor_size bi)))
  else mret (inr tt).

Definition init_fuel (bi : boot_info_t) : nat :=
  S (Z.to_nat (memory_map_size bi)).

Definition init_free_pages (L : layout) (bi : boot_info_t) : M mm unit :=
  loop (init_fuel bi) (init_loop L bi) 0.

Definition alloc_page : M mm Z :=
  node ← gets free_pages;
  if bool_decide (node = 0) then mret 0
  else
    next ← load64 node;
    modify (fun s => s <| free_pages := next |>
                       <| free_page_count := wrap64 (free_page_count s - 1) |>) ;;
    mret node.

Definition free_page (page : Z) : M mm unit :=
  if negb (bool_decide (Z.land page (PAGE_SIZE - 1) = 0)) || bool_decide (page = 0)
  then panic "invalid physical page free"
  else add_free_page page.

Definition page_allocator_selftest : M mm unit :=
  first ← alloc_page;
  second ← alloc_page;
  if bool_decide (first = 0) || bool_decide (second = 0) || bool_decide (first = second)
  then panic "physical page allocator selftest failed"
  else free_page second ;; free_page first.

(** ** The abstract state: a stack of pages *)

Definition page_next (s : mm) (p : Z) : option Z := Some (word (ram s) p).

Definition free_list (s : mm) (l : list Z) : Prop :=
  lseg (page_next s) (free_pages s) l 0 /\
  Forall (fun p => p mod 4096 = 0) l /\
  free_page_count s = wrap64 (Z.of_nat (length l)).

Lemma free_list_NoDup s l : free_list s l -> NoDup l.
Proof. intros [H _]. by eapply lseg_NoDup. Qed.

Lemma free_list_nonzero s l p : free_list s l -> p ∈ l -> p <> 0.
Proof. intros [H _]. by eapply lseg_nonzero. Qed.

Lemma free_list_aligned s l p : free_list s l -> p ∈ l -> p mod 4096 = 0.
Proof. intros (_ & H & _) Hp. rewrite Forall_forall in H. by apply H. Qed.

Lemma aligned_8 p : p mod 4096 = 0 -> p mod 8 = 0.
Proof. intros H. replace p with (p + 8 * 0) by lia. by apply page_aligned_8. Qed.

Lemma aligned_land p : Z.land p (PAGE_SIZE - 1) = p mod 4096.
Proof. apply (land_ones_mod p 12). lia. Qed.

(** What a change of memory may do to the free list: nothing, if the first words
    of the free pages stay. *)
Lemma free_list_frame s s' l :
  free_list s l ->
  (forall p, p ∈ l -> word (ram s') p = word (ram s) p) ->
  free_pages s' = free_pages s -> free_page_count s' = free_page_count s ->
  free_list s' l.
Proof.
  intros (Hl & Ha & Hc) Hw Hp Hn. unfold free_list. rewrite Hp, Hn.
  split_and!; [|done..]. eapply lseg_ext; [|done].
  intros p ?. unfold page_next. by rewrite Hw.
Qed.

Lemma alloc_page_empty s : free_list s [] -> alloc_page s = Ret 0 s.
Proof.
  intros ([=] & _). unfold alloc_page. mred. by rewrite bool_decide_eq_true_2.
Qed.

Lemma alloc_page_cons s p l :
  free_list s (p :: l) ->
  alloc_page s = Ret p (s <| free_pages := word (ram s) p |>
                          <| free_page_count := wrap64 (Z.of_nat (length l)) |>) /\
  free_list (s <| free_pages := word (ram s) p |>
               <| free_page_count := wrap64 (Z.of_nat (length l)) |>) l.
Proof.
  intros ((Hp & Hp0 & n & [= Hn] & Hl) & [Hp4 Ha']%Forall_cons & Hc).
  split; [|by split_and!; try done; rewrite Hn].
  unfold alloc_page. mred. rewrite Hp, bool_decide_eq_false_2 by done.
  mrun (load64_run p s (aligned_8 p Hp4)). mred.
  rewrite Hc. unfold wrap64. rewrite Zminus_mod_idemp_l.
  replace (Z.of_nat (length (p :: l)) - 1) with (Z.of_nat (length l)) by (simpl; lia). done.
Qed.

Lemma add_free_page_run s l p :
  free_list s l -> p mod 4096 = 0 -> p <> 0 -> p ∉ l ->
  exists s', add_free_page p s = Ret tt s' /\ free_list s' (p :: l) /\
    s' = s <| ram := <[p := free_pages s]> (ram s) |> <| free_pages := p |>
           <| free_page_count := wrap64 (Z.of_nat (length (p :: l))) |>.
Proof.
  intros (Hl & Ha & Hc) Hp Hp0 Hnin. eexists. split_and!; [| |reflexivity].
  - unfold add_free_page. mred. mrun (store64_run p (free_pages s) s (aligned_8 p Hp)).
    mred. simpl. rewrite Hc. unfold wrap64. rewrite Zplus_mod_idemp_l.
    by replace (Z.of_nat (length l) + 1) with (Z.of_nat (S (length l))) by lia.
  - split; [|split_and!; [by constructor|done]].
    simpl. split_and!; [done..|]. exists (free_pages s). split.
    + unfold page_next. simpl. by rewrite word_insert_eq.
    + eapply lseg_ext; [|done]. intros x Hx. unfold page_next. simpl.
      rewrite word_insert_ne; [done|]. by intros ->.
Qed.

(** [alloc_page] pops the stack of free pages: it returns the page on top, or
    0 and nothing else when there is none, and touches no memory. *)
Theorem alloc_page_pops s l :
  free_list s l ->
  exists s', alloc_page s = Ret (default 0 (head l)) s' /\ free_list s' (tail l) /\
    ram s' = ram s /\ cr3 s' = cr3 s.
Proof.
  intros H. destruct l as [|p l].
  - exists s. by rewrite (alloc_page_empty s H).
  - destruct (alloc_page_cons s p l H) as [E H']. eexists. by rewrite E.
Qed.

(** [free_page] panics on an unaligned or NULL page and otherwise pushes the
    page, changing only the first word of that page; the next [alloc_page] gives
    the same page back with the stack as it was. *)
Theorem free_page_pushes s l p :
  free_list s l -> p ∉ l ->
  if bool_decide (p mod 4096 = 0 /\ p <> 0) then
    exists s', free_page p s = Ret tt s' /\ free_list s' (p :: l) /\
      (forall a, a <> p -> word (ram s') a = word (ram s) a) /\
      exists s'', alloc_page s' = Ret p s'' /\ free_list s'' l
  else free_page p s = Panicked "invalid physical page free" s.
Proof.
  intros H Hnin. unfold free_page. rewrite aligned_land. case_bool_decide as Hp.
  - destruct Hp as [Hp Hp0].
    rewrite bool_decide_eq_true_2, bool_decide_eq_false_2 by done. cbn [negb orb].
    destruct (add_free_page_run s l p H Hp Hp0 Hnin) as (s' & E & Hf & Es).
    exists s'. split_and!; [done|done| |].
    + intros a Ha. subst s'. simpl. by apply word_insert_ne.
    + destruct (alloc_page_cons s' p l Hf) as [E' ?]. eauto.
  - apply not_and_l in Hp as [Hp|Hp%dec_stable].
    + by rewrite (bool_decide_eq_false_2 (_ mod _ = _)).
    + rewrite (bool_decide_eq_true_2 (p = 0)) by done. by rewrite orb_true_r.
Qed.

(** ** Filling the stack from the memory map *)

Lemma align_down_spec v : in64 v -> align_down v PAGE_SIZE = v - v mod 4096.
Proof.
  intros H. unfold align_down, PAGE_SIZE. rewrite wrap64_id by done.
  change (4096 - 1) with (2 ^ 12 - 1). by rewrite land_not_ones.
Qed.

Lemma align_up_spec v :
  0 <= v -> v + 4096 < 18446744073709551616 ->
  align_up v PAGE_SIZE = 4096 * ((v + 4095) / 4096).
Proof.
  intros H0 H. unfold align_up. unfold PAGE_SIZE at 1.
  rewrite (wrap64_id (v + 4096)) by (unfold in64; lia).
  rewrite wrap64_id by (unfold in64; lia). rewrite align_down_spec by (unfold in64; lia).
  replace (v + 4096 - 1) with (v + 4095) by lia.
  pose proof (Z.div_mod (v + 4095) 4096). lia.
Qed.

(** The [n] pages from [first] on, in address order. *)
Definition pages_from (first : Z) (n : nat) : list Z :=
  (fun i => first + 4096 * Z.of_nat i) <$> seq 0 n.

Lemma pages_from_snoc first n :
  pages_from first (S n) = pages_from first n ++ [first + 4096 * Z.of_nat n].
Proof. unfold pages_from. by rewrite seq_S, fmap_app. Qed.

Lemma elem_of_pages_from first n p :
  p ∈ pages_from first n <-> exists i, (i < n)%nat /\ p = first + 4096 * Z.of_nat i.
Proof.
  unfold pages_from. rewrite list_elem_of_fmap. split.
  - intros (i & -> & Hi%elem_of_seq). exists i. split; [lia|done].
  - intros (i & Hi & ->). exists i. split; [done|]. apply elem_of_seq. lia.
Qed.

Section init.
Context (L : layout) (bi : boot_info_t) (R : list Z).

(** What [page_is_reserved] answers once the table pages [R] are known. *)
Definition is_reserved (p : Z) : bool :=
  in_fixed_ranges L bi p || bool_decide (p ∈ R).

Definition unreserved (l : list Z) : list Z := filter (fun p => is_reserved p = false) l.

(** Everything but the collection of the table pages stays as it was. *)
Lemma page_is_reserved_run p s :
  tables_known R s -> p mod 4096 = 0 ->
  exists s', page_is_reserved L bi p s = Ret (is_reserved p) s' /\
    tables_known R s' /\
    (is_reserved p = false -> reserved_table_pages_ready s' = true) /\
    ram s' = ram s /\ (cr3 s' = cr3 s /\ page_tables_ready s' = page_tables_ready s) /\
    free_pages s' = free_pages s /\ free_page_count s' = free_page_count s.
Proof.
  intros HR Hp. unfold page_is_reserved, is_reserved.
  destruct (in_fixed_ranges L bi p); simpl.
  - exists s. by split_and!.
  - rewrite (uses_page_run R p s HR Hp). by eexists.
Qed.

(** The first words of pages outside [l] are those of [m]. *)
Definition only_written (l : list Z) (m m' : gmap Z Z) : Prop :=
  forall a, a ∉ l -> word m' a = word m a.

Record pushed (s : mm) (acc new : list Z) (s' : mm) : Prop := Pushed {
  pushed_list : free_list s' (new ++ acc);
  pushed_known : tables_known R s';
  pushed_mem : only_written new (ram s) (ram s');
  pushed_cr3 : cr3 s' = cr3 s /\ page_tables_ready s' = page_tables_ready s
}.

Lemma range_step p first acc s :
  tables_known R s -> p mod 4096 = 0 -> free_list s acc ->
  (is_reserved p = false -> p <> 0 /\ p ∉ acc) ->
  exists s', range_loop L bi first p s =
      Ret (if bool_decide (p = first) then inr tt else inl (wrap64 (p - PAGE_SIZE))) s' /\
    pushed s acc (unreserved [p]) s'.
Proof.
  intros HR Hp Hacc Hnew. unfold range_loop.
  destruct (page_is_reserved_run p s HR Hp) as (s1 & E1 & HR1 & Hready & Hram & Hcr & Hfp & Hfc).
  mrun E1. assert (Hacc1 : free_list s1 acc).
  { apply (free_list_frame s); [done| |done..]. by rewrite Hram. }
  unfold unreserved. destruct (is_reserved p) eqn:Er; cbn [negb].
  - mred. exists s1. split; [done|]. rewrite filter_cons_False by congruence.
    split; [done..| |done]. intros a _. by rewrite Hram.
  - destruct (Hnew eq_refl) as [Hp0 Hnin]. specialize (Hready eq_refl).
    destruct (add_free_page_run s1 acc p Hacc1 Hp Hp0 Hnin) as (s2 & E2 & Hf & ->).
    cbn [when]. mrun E2. mred. eexists. split; [done|].
    rewrite filter_cons_True, filter_nil by done. split; simpl.
    + done.
    + apply tables_known_ready in HR1; [|done]. by apply tables_known_ready.
    + intros a Ha. simpl. rewrite word_insert_ne by set_solver. by rewrite Hram.
    + done.
Qed.

Lemma pushed_trans s acc new1 s1 new2 s2 :
  pushed s acc new1 s1 -> pushed s1 (new1 ++ acc) new2 s2 -> pushed s acc (new2 ++ new1) s2.
Proof.
  intros [H1 H2 H3 H4] [K1 K2 K3 K4]. split.
  - by rewrite <- app_assoc.
  - done.
  - intros a Ha. rewrite K3, H3; [done|set_solver..].
  - destruct H4, K4. split; congruence.
Qed.

(** Going down from page [k] to page 0 of the range. *)
Lemma range_down first k acc s :
  first mod 4096 = 0 -> 0 <= first -> first + 4096 * Z.of_nat k < 18446744073709551616 ->
  tables_known R s -> free_list s acc ->
  (forall p, p ∈ unreserved (pages_from first (S k)) -> p <> 0 /\ p ∉ acc) ->
  exists s', loop (S k) (range_loop L bi first) (first + 4096 * Z.of_nat k) s = Ret tt s' /\
    pushed s acc (unreserved (pages_from first (S k))) s'.
Proof.
  revert acc s. induction k as [|k IH]; intros acc s Ha H0 Hb HR Hacc Hnew.
  - destruct (range_step first first acc s HR Ha Hacc) as (s1 & E1 & Hp1).
    { intros Hr. apply Hnew. unfold unreserved. rewrite list_elem_of_filter.
      split; [done|]. apply elem_of_pages_from. exists 0%nat. lia. }
    exists s1. rewrite loop_S. replace (first + 4096 * Z.of_nat 0) with first by lia.
    mrun E1. rewrite bool_decide_eq_true_2 by done. split; [done|].
    unfold pages_from. simpl. by replace (first + 4096 * Z.of_nat 0) with first by lia.
  - set (p := first + 4096 * Z.of_nat (S k)) in *.
    assert (Hpa : p mod 4096 = 0).
    { unfold p. rewrite Z.mul_comm, Z_mod_plus_full. done. }
    destruct (range_step p first acc s HR Hpa Hacc) as (s1 & E1 & Hp1).
    { intros Hr. apply Hnew. unfold unreserved. rewrite list_elem_of_filter.
      split; [done|]. apply elem_of_pages_from. exists (S k). split; [lia|done]. }
    destruct (IH (unreserved [p] ++ acc) s1) as (s2 & E2 & Hp2);
      [done|done|unfold p in *; lia|apply Hp1|apply Hp1| |].
    { intros q [Hq Hin]%list_elem_of_filter. pose proof Hin as (i & Hi & ->)%elem_of_pages_from.
      destruct (Hnew (first + 4096 * Z.of_nat i)) as [? ?].
      - apply list_elem_of_filter. split; [done|].
        rewrite pages_from_snoc. apply elem_of_app. by left.
      - split; [done|]. rewrite not_elem_of_app. split; [|done].
        intros [_ Hx%list_elem_of_singleton]%list_elem_of_filter. unfold p in Hx. lia. }
    exists s2. split.
    + rewrite loop_S. mrun E1. rewrite bool_decide_eq_false_2 by (unfold p; lia).
      rewrite wrap64_id by (unfold in64, PAGE_SIZE, p in *; lia).
      replace (p - PAGE_SIZE) with (first + 4096 * Z.of_nat k) by (unfold p, PAGE_SIZE; lia).
      exact E2.
    + rewrite pages_from_snoc. unfold unreserved in *. rewrite filter_app.
      by eapply pushed_trans.
Qed.

(** The whole pages of a region of [pages] pages at [start]. *)
Definition region_pages (start pages : Z) : list Z :=
  let first := 4096 * ((start + 4095) / 4096) in
  pages_from first (Z.to_nat ((start + 4096 * pages - first) / 4096)).

Lemma elem_of_region_pages start pages p :
  0 <= pages ->
  p ∈ region_pages start pages <->
  p mod 4096 = 0 /\ start <= p /\ p + 4096 <= start + 4096 * pages.
Proof.
  intros Hn. unfold region_pages. rewrite elem_of_pages_from.
  set (first := 4096 * ((start + 4095) / 4096)).
  assert (Hf : start <= first < start + 4096).
  { unfold first. pose proof (Z.div_mod (start + 4095) 4096).
    pose proof (Z.mod_pos_bound (start + 4095) 4096). lia. }
  assert (Hfa : first mod 4096 = 0) by (unfold first; rewrite Z.mul_comm; apply Z_mod_mult).
  set (n := (start + 4096 * pages - first) / 4096).
  assert (Hnspec : 4096 * n <= start + 4096 * pages - first < 4096 * n + 4096).
  { unfold n. pose proof (Z.div_mod (start + 4096 * pages - first) 4096).
    pose proof (Z.mod_pos_bound (start + 4096 * pages - first) 4096). lia. }
  split.
  - intros (i & Hi & ->). split_and!; [|lia..].
    by rewrite Z.mul_comm, Z_mod_plus_full.
  - intros (Hp & H1 & H2). exists (Z.to_nat ((p - first) / 4096)).
    apply Z.mod_divide in Hfa as [f Hfa]; [|lia]. apply Z.mod_divide in Hp as [q ->]; [|lia].
    rewrite Hfa in *. replace (q * 4096 - f * 4096) with ((q - f) * 4096) by lia.
    rewrite Z.div_mul by lia. lia.
Qed.
Lemma add_conventional_range_run start pages acc s :
  0 <= start -> 0 <= pages -> start + 4096 * pages + 8192 < 18446744073709551616 ->
  tables_known R s -> free_list s acc ->
  (forall p, p ∈ unreserved (region_pages start pages) -> p <> 0 /\ p ∉ acc) ->
  exists s', add_conventional_range L bi start pages s = Ret tt s' /\
    pushed s acc (unreserved (region_pages start pages)) s'.
Proof.
  intros H0 Hn Hb HR Hacc Hnew. unfold add_conventional_range.
  rewrite align_up_spec by lia. unfold region_pages in *.
  set (first := 4096 * ((start + 4095) / 4096)) in *.
  assert (Hf : start <= first < start + 4096).
  { unfold first. pose proof (Z.div_mod (start + 4095) 4096).
    pose proof (Z.mod_pos_bound (start + 4095) 4096). lia. }
  assert (Hfa : first mod 4096 = 0) by (unfold first; rewrite Z.mul_comm; apply Z_mod_mult).
  rewrite (wrap64_id (first + PAGE_SIZE)) by (unfold in64, PAGE_SIZE in *; lia).
  rewrite (wrap64_id (pages * PAGE_SIZE)) by (unfold in64, PAGE_SIZE in *; lia).
  replace (pages * PAGE_SIZE) with (4096 * pages) by (unfold PAGE_SIZE; lia).
  rewrite (wrap64_id (start + 4096 * pages)) by (unfold in64; lia).
  set (n := (start + 4096 * pages - first) / 4096) in *.
  assert (Hnspec : 4096 * n <= start + 4096 * pages - first < 4096 * n + 4096).
  { unfold n. pose proof (Z.div_mod (start + 4096 * pages - first) 4096).
    pose proof (Z.mod_pos_bound (start + 4096 * pages - first) 4096). lia. }
  case_bool_decide as Hsmall.
  - replace (Z.to_nat n) with 0%nat in * by (unfold PAGE_SIZE in *; lia). exists s.
    by split; [|split; [..|intros ? _|]].
  - rewrite wrap64_id by (unfold in64, PAGE_SIZE in *; lia).
    rewrite align_down_spec by (unfold in64, PAGE_SIZE in *; lia).
    assert (Hlast : start + 4096 * pages - PAGE_SIZE - (start + 4096 * pages - PAGE_SIZE) mod 4096
                    = first + 4096 * (n - 1)).
    { pose proof (Z.div_mod (start + 4096 * pages - PAGE_SIZE) 4096).
      pose proof (Z.mod_pos_bound (start + 4096 * pages - PAGE_SIZE) 4096).
      apply Z.mod_divide in Hfa as [f Hfa]; [|lia]. unfold PAGE_SIZE in *. lia. }
    rewrite Hlast. unfold range_fuel.
    replace (first + 4096 * (n - 1) - first) with (4096 * (n - 1)) by lia.
    rewrite wrap64_id by (unfold in64, PAGE_SIZE in *; lia). unfold PAGE_SIZE.
    rewrite Z.mul_comm, Z.div_mul by lia.
    assert (Hn1 : Z.to_nat n = S (Z.to_nat (n - 1))) by (unfold PAGE_SIZE in *; lia).
    rewrite Hn1 in *.
    replace (first + (n - 1) * 4096) with (first + 4096 * Z.of_nat (Z.to_nat (n - 1)))
      by (unfold PAGE_SIZE in *; lia).
    apply range_down; try done; unfold PAGE_SIZE in *; lia.
Qed.

(** *** The boot memory map *)

Definition desc_addr (k : nat) : Z :=
  memory_map bi + Z.of_nat k * memory_descriptor_size bi.

(** Descriptors the walk visits: those that fit in [memory_map_size]. *)
Definition desc_count : nat :=
  Z.to_nat ((memory_map_size bi - 40 + memory_descriptor_size bi)
            / memory_descriptor_size bi).

(** The whole pages of the [k]-th descriptor, if it is conventional memory. *)
Definition desc_pages (m : gmap Z Z) (k : nat) : list Z :=
  if bool_decide (wrap32 (word m (desc_addr k)) = BOOT_MEMORY_TYPE_CONVENTIONAL)
  then region_pages (word m (desc_addr k + 8)) (word m (desc_addr k + 24)) else [].

(** Pages that go to the free list, newest descriptor first. *)
Definition usable_pages (m : gmap Z Z) (k n : nat) : list Z :=
  flat_map (fun k => unreserved (desc_pages m k)) (reverse (seq k n)).

(** What the firmware guarantees of its map: aligned, no wrap-around, regions that
    end below 2^64 and do not overlap.  That no usable page is page 0 is what the
    code needs beyond that. *)
Record map_ok (m : gmap Z Z) : Prop := {
  map_aligned : memory_map bi mod 8 = 0;
  map_stride : memory_descriptor_size bi mod 8 = 0;
  map_base : 0 <= memory_map bi;
  map_size : 0 <= memory_map_size bi;
  map_desc : 40 <= memory_descriptor_size bi;
  map_end : memory_map bi + memory_map_size bi + memory_descriptor_size bi + 4096
            < 18446744073709551616;
  map_regions : forall k, (k < desc_count)%nat ->
    0 <= word m (desc_addr k + 8) /\ 0 <= word m (desc_addr k + 24) /\
    word m (desc_addr k + 8) + 4096 * word m (desc_addr k + 24) + 8192
      < 18446744073709551616;
  map_disjoint : forall k k' p, (k < desc_count)%nat -> (k' < desc_count)%nat ->
    p ∈ unreserved (desc_pages m k) -> p ∈ unreserved (desc_pages m k') -> k = k';
  map_nonzero : forall k, (k < desc_count)%nat -> 0 ∉ unreserved (desc_pages m k)
}.

(** Descriptor words are not written by the allocator: their pages are reserved. *)
Lemma unreserved_not_in_map m k p a :
  map_ok m -> (k < desc_count)%nat -> p ∈ unreserved (desc_pages m k) ->
  memory_map bi <= a < memory_map bi + memory_map_size bi -> a <> p.
Proof.
  intros Hm Hk [Hr Hp]%list_elem_of_filter Ha ->.
  destruct (map_regions m Hm k Hk) as (Hs & Hn & Hb).
  unfold desc_pages in Hp. case_bool_decide; [|by apply elem_of_nil in Hp].
  apply elem_of_region_pages in Hp as (Hpa & Hp1 & Hp2); [|done].
  unfold is_reserved in Hr. apply orb_false_iff in Hr as [Hr _].
  unfold in_fixed_ranges in Hr. apply orb_false_iff in Hr as [_ Hr].
  destruct Hm. unfold ranges_overlap in Hr.
  rewrite align_down_spec in Hr by (unfold in64; lia).
  rewrite (wrap64_id (memory_map bi + _)) in Hr by (unfold in64; lia).
  rewrite align_up_spec in Hr by lia.
  rewrite wrap64_id in Hr by (unfold in64, PAGE_SIZE; lia).
  apply andb_false_iff in Hr as [Hr|Hr]; apply bool_decide_eq_false in Hr.
  - pose proof (Z.div_mod (memory_map bi + memory_map_size bi + 4095) 4096).
    pose proof (Z.mod_pos_bound (memory_map bi + memory_map_size bi + 4095) 4096). lia.
  - pose proof (Z.mod_pos_bound (memory_map bi) 4096). unfold PAGE_SIZE in Hr. lia.
Qed.

Lemma desc_addr_range m k :
  map_ok m -> (k < desc_count)%nat ->
  memory_map bi <= desc_addr k /\ desc_addr k + 40 <= memory_map bi + memory_map_size bi /\
  desc_addr k mod 8 = 0.
Proof.
  intros [] Hk. unfold desc_addr, desc_count in *.
  assert (Z.of_nat k * memory_descriptor_size bi <= memory_map_size bi - 40).
  { pose proof (Z.mul_div_le (memory_map_size bi - 40 + memory_descriptor_size bi)
                             (memory_descriptor_size bi)). nia. }
  split_and!; [nia|lia|].
  rewrite Z.add_mod, Z.mul_mod, map_aligned0, map_stride0 by lia.
  by rewrite Z.mul_0_r.
Qed.
Lemma usable_pages_S m k n :
  usable_pages m k (S n) = usable_pages m (S k) n ++ unreserved (desc_pages m k).
Proof.
  unfold usable_pages. simpl. rewrite reverse_cons, flat_map_app. simpl.
  by rewrite app_nil_r.
Qed.

Lemma elem_of_usable_pages m k n p :
  p ∈ usable_pages m k n <->
  exists j, (k <= j < k + n)%nat /\ p ∈ unreserved (desc_pages m j).
Proof.
  revert k. induction n as [|n IH]; intros k.
  - split; [by intros ?%elem_of_nil|]. intros (j & ? & _). lia.
  - rewrite usable_pages_S, elem_of_app, IH. split.
    + intros [(j & ? & ?)|?]; [exists j|exists k]; split; [lia|done|lia|done].
    + intros (j & ? & ?). destruct (decide (j = k)) as [->|]; [by right|].
      left. exists j. split; [lia|done].
Qed.

(** The words of the memory map are those of [m]. *)
Definition map_intact (m : gmap Z Z) (s : mm) : Prop :=
  forall a, memory_map bi <= a < memory_map bi + memory_map_size bi ->
    word (ram s) a = word m a.

Lemma init_step m k acc s :
  map_ok m -> (k < desc_count)%nat -> map_intact m s ->
  tables_known R s -> free_list s acc ->
  (forall p, p ∈ unreserved (desc_pages m k) -> p ∉ acc) ->
  exists s', init_loop L bi (Z.of_nat k * memory_descriptor_size bi) s =
      Ret (inl (Z.of_nat (S k) * memory_descriptor_size bi)) s' /\
    pushed s acc (unreserved (desc_pages m k)) s' /\ map_intact m s'.
Proof.
  intros Hm Hk Hi HR Hacc Hnew.
  destruct (desc_addr_range m k Hm Hk) as (Hd1 & Hd2 & Hd8).
  assert (Hlim := Hm.(map_end _)). assert (Hds := Hm.(map_desc _)).
  assert (Hmb := Hm.(map_base _)).
  unfold init_loop. unfold desc_addr in Hd1, Hd2.
  rewrite (wrap64_id (_ + sizeof_boot_memory_descriptor))
    by (unfold in64, sizeof_boot_memory_descriptor; lia).
  rewrite bool_decide_eq_true_2 by (unfold sizeof_boot_memory_descriptor; lia).
  rewrite (wrap64_id (memory_map bi + _)) by (unfold in64; lia).
  fold (desc_addr k). fold (desc_addr k) in Hd1, Hd2.
  mrun (load32_run (desc_addr k) s Hd8). rewrite Hi by lia.
  rewrite wrap64_id by (unfold in64, desc_addr in *; lia).
  replace (Z.of_nat k * memory_descriptor_size bi + memory_descriptor_size bi)
    with (Z.of_nat (S k) * memory_descriptor_size bi) by lia.
  assert (Hpush : exists s', when (bool_decide (wrap32 (word m (desc_addr k)) =
       BOOT_MEMORY_TYPE_CONVENTIONAL))
      (physical_start ← load64 (desc_addr k + 8);
       number_of_pages ← load64 (desc_addr k + 24);
       add_conventional_range L bi physical_start number_of_pages) s = Ret tt s' /\
      pushed s acc (unreserved (desc_pages m k)) s').
  { unfold desc_pages in *. case_bool_decide as Ht.
    - assert (H8 : (desc_addr k + 8) mod 8 = 0) by (by rewrite Z.add_mod, Hd8).
      assert (H24 : (desc_addr k + 24) mod 8 = 0) by (by rewrite Z.add_mod, Hd8).
      cbn [when]. mrun (load64_run _ s H8). mrun (load64_run _ s H24).
      rewrite !Hi by lia. destruct (map_regions m Hm k Hk) as (? & ? & ?).
      apply add_conventional_range_run; try done.
      intros p Hp. split; [|by apply Hnew]. intros ->.
      apply (map_nonzero m Hm k Hk). unfold desc_pages. by rewrite bool_decide_eq_true_2.
    - exists s. split; [done|]. by split; [..|intros ? _|]. }
  destruct Hpush as (s' & E & Hp). exists s'. mrun E. mred. split_and!; [done|done|].
  intros a Ha. rewrite <- Hi by done. apply Hp. intros Hin.
  by apply (unreserved_not_in_map m k a a Hm Hk Hin Ha).
Qed.

Lemma init_down m n : forall k fuel acc s,
  map_ok m -> (k + n = desc_count)%nat -> (n < fuel)%nat -> map_intact m s ->
  tables_known R s -> free_list s acc ->
  (forall j p, (k <= j < desc_count)%nat -> p ∈ unreserved (desc_pages m j) -> p ∉ acc) ->
  exists s', loop fuel (init_loop L bi) (Z.of_nat k * memory_descriptor_size bi) s = Ret tt s' /\
    pushed s acc (usable_pages m k n) s' /\ map_intact m s'.
Proof.
  induction n as [|n IH]; intros k fuel acc s Hm Hkn Hf Hi HR Hacc Hnew;
    (destruct fuel as [|fuel]; [lia|]); rewrite loop_S.
  - exists s. unfold init_loop. destruct Hm.
    assert (Hend : memory_map_size bi < Z.of_nat k * memory_descriptor_size bi + 40
                   <= memory_map_size bi + memory_descriptor_size bi + 40).
    { unfold desc_count in Hkn.
      pose proof (Z.div_mod (memory_map_size bi - 40 + memory_descriptor_size bi)
                            (memory_descriptor_size bi)).
      pose proof (Z.mod_pos_bound (memory_map_size bi - 40 + memory_descriptor_size bi)
                            (memory_descriptor_size bi)). nia. }
    rewrite wrap64_id by (unfold in64, sizeof_boot_memory_descriptor; lia).
    rewrite bool_decide_eq_false_2 by (unfold sizeof_boot_memory_descriptor; lia).
    split_and!; [done| |done]. by split; [..|intros ? _|].
  - destruct (init_step m k acc s) as (s1 & E1 & Hp1 & Hi1); try done; [lia| |].
    { intros p Hp. apply (Hnew k); [lia|done]. }
    destruct (IH (S k) fuel (unreserved (desc_pages m k) ++ acc) s1)
      as (s2 & E2 & Hp2 & Hi2); try done; [lia|lia|apply Hp1|apply Hp1| |].
    { intros j p Hj Hp. rewrite not_elem_of_app. split; [|apply (Hnew j); [lia|done]].
      intros Hp'. assert (j = k); [|lia]. by eapply (map_disjoint m Hm); [lia|lia|..]. }
    exists s2. mrun E1. split_and!; [done| |done].
    rewrite usable_pages_S. by eapply pushed_trans.
Qed.

Lemma init_free_pages_run s :
  map_ok (ram s) -> tables_known R s -> free_list s [] ->
  exists s', init_free_pages L bi s = Ret tt s' /\
    pushed s [] (usable_pages (ram s) 0 desc_count) s'.
Proof.
  intros Hm HR H0.
  destruct (init_down (ram s) desc_count 0 (init_fuel bi) [] s) as (s' & E & Hp & _);
    try done.
  { destruct Hm. unfold init_fuel, desc_count.
    assert ((memory_map_size bi - 40 + memory_descriptor_size bi) / memory_descriptor_size bi
            < memory_map_size bi + 1); [|lia].
    apply Z.div_lt_upper_bound; nia. }
  { intros j p _ _. apply not_elem_of_nil. }
  by exists s'.
Qed.

(** *** What the boot path must not hand out, stated byte by byte

    The memory the kernel still uses when the free list is built, without the page
    arithmetic of the code: the bytes of the kernel image, of the boot info and of
    the memory map. *)
Definition reserved_byte (a : Z) : Prop :=
  kernel_start L <= a < kernel_end L \/
  boot_info_addr L <= a < boot_info_addr L + sizeof_boot_info \/
  memory_map bi <= a < memory_map bi + memory_map_size bi.

(** The kernel image is not empty, and neither it nor the boot info reaches the
    last page of the address space. *)
Record layout_ok : Prop := {
  layout_kernel : 0 <= kernel_start L < kernel_end L;
  layout_kernel_end : kernel_end L + 4096 < 18446744073709551616;
  layout_boot_info : 0 <= boot_info_addr L;
  layout_boot_info_end : boot_info_addr L + sizeof_boot_info + 4096 < 18446744073709551616
}.

(** The page test of the code, on ranges rounded out to pages, is an overlap of the
    page with the range itself. *)
Lemma page_overlaps_range p start end_ :
  p mod 4096 = 0 -> 0 <= p -> p + 4096 < 18446744073709551616 ->
  0 <= start < end_ -> end_ + 4096 < 18446744073709551616 ->
  ranges_overlap p (wrap64 (p + PAGE_SIZE)) (align_down start PAGE_SIZE)
    (align_up end_ PAGE_SIZE) = false <->
  forall a, p <= a < p + 4096 -> ~ start <= a < end_.
Proof.
  intros Hp Hp0 Hp1 Hs He. unfold ranges_overlap. change (p + PAGE_SIZE) with (p + 4096).
  rewrite wrap64_id by (unfold in64; lia).
  rewrite align_down_spec by (unfold in64; lia). rewrite align_up_spec by lia.
  apply Z.mod_divide in Hp as [k ->]; [|lia].
  pose proof (Z.div_mod start 4096). pose proof (Z.mod_pos_bound start 4096).
  pose proof (Z.div_mod (end_ + 4095) 4096). pose proof (Z.mod_pos_bound (end_ + 4095) 4096).
  rewrite andb_false_iff, !bool_decide_eq_false. split.
  - intros Ho a Ha ?. lia.
  - intros Ho. destruct (decide (k * 4096 < end_)); [|left; lia].
    destruct (decide (start < k * 4096 + 4096)); [|right; lia].
    destruct (Ho (Z.max start (k * 4096))); lia.
Qed.

Lemma in_fixed_ranges_spec p :
  layout_ok -> 0 <= memory_map bi -> 0 < memory_map_size bi ->
  memory_map bi + memory_map_size bi + 4096 < 18446744073709551616 ->
  p mod 4096 = 0 -> 0 <= p -> p + 4096 < 18446744073709551616 ->
  in_fixed_ranges L bi p = false <->
  forall a, p <= a < p + 4096 -> ~ reserved_byte a.
Proof.
  intros [] Hm0 Hms Hme Hp Hp0 Hp1. unfold in_fixed_ranges, reserved_byte.
  assert (0 < sizeof_boot_info) by (unfold sizeof_boot_info; lia).
  rewrite (wrap64_id (boot_info_addr L + _)) by (unfold in64; lia).
  rewrite (wrap64_id (memory_map bi + _)) by (unfold in64; lia).
  rewrite !orb_false_iff, !page_overlaps_range by (exact Hp || lia). split.
  - intros [[H1 H2] H3] a Ha [|[|]]; [by eapply H1|by eapply H2|by eapply H3].
  - intros Hn. split_and!; intros a Ha Hr; apply (Hn a Ha); auto.
Qed.

(** C9.  [init_free_pages] puts on the free list exactly the usable pages of the
    boot memory map: a page is on it, once, if and only if it lies wholly in a
    conventional region, holds no byte of the kernel image, of the boot info or of
    the memory map, and is not one of the active page tables.

    The map must be aligned, must not wrap around, and its usable regions must be
    disjoint and leave out page 0 ([map_ok]: [region_at_page_zero_loses_free_list]
    shows what happens otherwise); the kernel image and the boot info must not wrap
    around either ([layout_ok]). *)
Theorem init_free_pages_exact s :
  layout_ok -> map_ok (ram s) -> tables_known R s -> free_list s [] ->
  exists s' l, init_free_pages L bi s = Ret tt s' /\ free_list s' l /\ NoDup l /\
    forall p, p ∈ l <->
      exists k, (k < desc_count)%nat /\
        wrap32 (word (ram s) (desc_addr k)) = BOOT_MEMORY_TYPE_CONVENTIONAL /\
        p mod 4096 = 0 /\ word (ram s) (desc_addr k + 8) <= p /\
        p + 4096 <= word (ram s) (desc_addr k + 8) + 4096 * word (ram s) (desc_addr k + 24) /\
        (forall a, p <= a < p + 4096 -> ~ reserved_byte a) /\ p ∉ R.
Proof.
  intros HL Hm HR H0. destruct (init_free_pages_run s Hm HR H0) as (s' & E & Hp).
  exists s', (usable_pages (ram s) 0 desc_count).
  assert (Hf : free_list s' (usable_pages (ram s) 0 desc_count)).
  { rewrite <- (app_nil_r (usable_pages _ _ _)). apply Hp. }
  split_and!; [done|done|by eapply free_list_NoDup|]. intros p.
  rewrite elem_of_usable_pages. unfold unreserved, desc_pages, is_reserved.
  apply exist_proper. intros k. rewrite list_elem_of_filter, orb_false_iff, bool_decide_eq_false.
  case_bool_decide as Ht; [|rewrite elem_of_nil; tauto].
  assert (Hspec : (k < desc_count)%nat -> p mod 4096 = 0 ->
    word (ram s) (desc_addr k + 8) <= p ->
    p + 4096 <= word (ram s) (desc_addr k + 8) + 4096 * word (ram s) (desc_addr k + 24) ->
    in_fixed_ranges L bi p = false <-> forall a, p <= a < p + 4096 -> ~ reserved_byte a).
  { intros Hk ???. destruct (map_regions _ Hm k Hk) as (? & ? & ?).
    destruct (desc_addr_range _ k Hm Hk) as (? & ? & ?). destruct Hm.
    apply in_fixed_ranges_spec; (assumption || lia). }
  split.
  - intros (? & (? & ?) & Hin). apply elem_of_region_pages in Hin as (? & ? & ?);
      [|by apply (map_regions _ Hm); lia]. split_and!; try done; [lia|].
    apply Hspec; (assumption || lia).
  - intros (? & ? & ? & ? & ? & Hb & ?). split; [lia|]. split; [split; [|done]|].
    + apply Hspec; (assumption || lia).
    + apply elem_of_region_pages; [by apply (map_regions _ Hm); lia|done].
Qed.

(** Page 0 as the last page of the downward loop: whatever was pushed before, the
    head ends up NULL. *)
Lemma range_down_to_zero k : forall acc s,
  4096 * Z.of_nat k < 18446744073709551616 ->
  tables_known R s -> free_list s acc -> is_reserved 0 = false ->
  (forall p, p ∈ unreserved (pages_from 0 (S k)) -> p ∉ acc) ->
  exists s', loop (S k) (range_loop L bi 0) (4096 * Z.of_nat k) s = Ret tt s' /\
    free_pages s' = 0.
Proof.
  induction k as [|k IH]; intros acc s Hb HR Hacc H0 Hnew; rewrite loop_S.
  - replace (4096 * Z.of_nat 0) with 0 by lia. unfold range_loop.
    destruct (page_is_reserved_run 0 s HR eq_refl) as (s1 & E1 & _). mred. mrun E1.
    rewrite H0. cbn [negb when]. unfold add_free_page. mred.
    mrun (store64_run 0 (free_pages s1) s1 eq_refl). mred. by eexists.
  - set (p := 4096 * Z.of_nat (S k)) in *.
    assert (Hpa : p mod 4096 = 0) by (unfold p; rewrite Z.mul_comm; apply Z_mod_mult).
    destruct (range_step p 0 acc s HR Hpa Hacc) as (s1 & E1 & Hp1).
    { intros Hr. split; [unfold p; lia|]. apply Hnew. apply list_elem_of_filter.
      split; [done|]. apply elem_of_pages_from. exists (S k). split; [lia|unfold p; lia]. }
    destruct (IH (unreserved [p] ++ acc) s1) as (s2 & E2 & Hz);
      [unfold p in *; lia|apply Hp1|apply Hp1|done| |].
    { intros q [Hq Hin]%list_elem_of_filter. pose proof Hin as (i & Hi & ->)%elem_of_pages_from.
      rewrite not_elem_of_app. split.
      - intros [_ Hx%list_elem_of_singleton]%list_elem_of_filter. unfold p in Hx. lia.
      - apply Hnew. apply list_elem_of_filter. split; [done|].
        rewrite pages_from_snoc. apply elem_of_app. by left. }
    exists s2. split; [|done]. rewrite bool_decide_eq_false_2 in E1 by (unfold p; lia).
    rewrite wrap64_id in E1 by (unfold in64, PAGE_SIZE, p in *; lia).
    replace (p - PAGE_SIZE) with (4096 * Z.of_nat k) in E1 by (unfold p, PAGE_SIZE; lia).
    by mrun E1.
Qed.

(** A conventional region that starts at physical address 0 breaks the free
    list: page 0 is pushed like any other, the head becomes the NULL pointer, and
    every page of the region and every page freed before is lost; the next
    [alloc_page] reports that memory is exhausted. *)
Theorem region_at_page_zero_loses_free_list pages acc s :
  0 < pages -> 4096 * pages + 8192 < 18446744073709551616 ->
  tables_known R s -> free_list s acc -> is_reserved 0 = false ->
  (forall p, p ∈ unreserved (pages_from 0 (Z.to_nat pages)) -> p ∉ acc) ->
  exists s', add_conventional_range L bi 0 pages s = Ret tt s' /\
    alloc_page s' = Ret 0 s'.
Proof.
  intros Hpos Hb HR Hacc H0 Hnew.
  destruct (range_down_to_zero (Z.to_nat (pages - 1)) acc s) as (s' & E & Hz); try done; [lia| |].
  { by replace (S (Z.to_nat (pages - 1))) with (Z.to_nat pages) by lia. }
  exists s'. split; [|unfold alloc_page; mred; by rewrite Hz].
  unfold add_conventional_range. change (align_up 0 PAGE_SIZE) with 0.
  change (wrap64 (0 + PAGE_SIZE)) with 4096. rewrite Z.add_0_l. unfold PAGE_SIZE.
  rewrite !(wrap64_id (pages * 4096)), (wrap64_id (pages * 4096 - 4096))
    by (unfold in64; lia).
  rewrite bool_decide_eq_false_2 by lia.
  rewrite align_down_spec by (unfold in64; lia).
  replace (pages * 4096 - 4096) with ((pages - 1) * 4096) by lia.
  rewrite Z_mod_mult, Z.sub_0_r. unfold range_fuel. rewrite Z.sub_0_r.
  rewrite wrap64_id by (unfold in64; lia). unfold PAGE_SIZE. rewrite Z.div_mul by lia.
  by replace ((pages - 1) * 4096) with (4096 * Z.of_nat (Z.to_nat (pages - 1))) by lia.
Qed.
End init.

(** ** A small machine

    Two memory-map descriptors of 48 bytes at 0x6000 (conventional memory of four
    pages at 0x10000, and a region of another type), an empty PML4 at 0x8000. *)
Definition demo_layout : layout := Layout 1048576 1572864 20480 32768.
Definition demo_boot_info : boot_info_t :=
  BootInfo 2 0 24576 96 0 48 1 0 0 0 0 0 0 0.
Definition demo_ram : gmap Z Z :=
  list_to_map [(24576, 7); (24584, 65536); (24600, 4); (24624, 4); (24632, 131072); (24648, 9)].
Definition demo_mm : mm := Mm demo_ram 32768 [] [] false false 0 0.
Definition demo_tables : list Z := [32768].

Lemma demo_tables_known : tables_known demo_tables demo_mm.
Proof. vm_compute. done. Qed.

Lemma demo_map_ok : map_ok demo_layout demo_boot_info demo_tables demo_ram.
Proof.
  assert (Hn : desc_count demo_boot_info = 2%nat) by reflexivity.
  assert (E0 : unreserved demo_layout demo_boot_info demo_tables
      (desc_pages demo_boot_info demo_ram 0) = [65536; 69632; 73728; 77824])
    by (vm_compute; reflexivity).
  assert (E1 : unreserved demo_layout demo_boot_info demo_tables
      (desc_pages demo_boot_info demo_ram 1) = []) by (vm_compute; reflexivity).
  split; rewrite ?Hn; [reflexivity|reflexivity|simpl; lia..| | |].
  - intros [|[|k]] Hk; [vm_compute; done..|lia].
  - intros [|[|k]] [|[|k']] p Hk Hk'; try lia; rewrite ?E0, ?E1; try done; set_solver.
  - intros [|[|k]] Hk; [rewrite E0|rewrite E1|lia]; set_solver.
Qed.

Lemma alloc_page_pops_witness :
  exists s', alloc_page (demo_mm <| ram := <[65536 := 69632]> demo_ram |>
                          <| free_pages := 65536 |> <| free_page_count := 2 |>) =
             Ret 65536 s' /\ free_list s' [69632].
Proof.
  destruct (alloc_page_pops (demo_mm <| ram := <[65536 := 69632]> demo_ram |>
    <| free_pages := 65536 |> <| free_page_count := 2 |>) [65536; 69632]) as (s' & E & H & _).
  - split; [|split; [by repeat constructor|done]].
    vm_compute. split_and!; try done. eexists. split; [done|].
    split_and!; try done. by eexists.
  - exists s'. exact (conj E H).
Defined.

Lemma free_page_pushes_witness :
  exists s', free_page 65536 demo_mm = Ret tt s' /\ free_list s' [65536].
Proof.
  destruct (free_page_pushes demo_mm [] 65536) as (s' & E & H & _).
  - by repeat constructor.
  - apply not_elem_of_nil.
  - exists s'. exact (conj E H).
Defined.

Lemma init_free_pages_exact_witness :
  exists s' l, init_free_pages demo_layout demo_boot_info demo_mm = Ret tt s' /\
    free_list s' l /\ NoDup l.
Proof.
  destruct (init_free_pages_exact demo_layout demo_boot_info demo_tables demo_mm)
    as (s' & l & E & H & Hn & _).
  - split; vm_compute; done.
  - exact demo_map_ok.
  - exact demo_tables_known.
  - by repeat constructor.
  - exists s', l. exact (conj E (conj H Hn)).
Defined.

Lemma region_at_page_zero_loses_free_list_witness :
  exists s', add_conventional_range demo_layout demo_boot_info 0 3 demo_mm = Ret tt s' /\
    alloc_page s' = Ret 0 s'.
Proof.
  apply (region_at_page_zero_loses_free_list demo_layout demo_boot_info demo_tables 3 []).
  - lia.
  - lia.
  - exact demo_tables_known.
  - by repeat constructor.
  - vm_compute. done.
  - intros p _. apply not_elem_of_nil.
Defined.

(** The demo machine's free list after initialisation: the four pages at
    0x10000, lowest on top. *)
Example init_free_pages_demo :
  match init_free_pages demo_layout demo_boot_info demo_mm with
  | Ret tt s => free_pages s = 65536 /\ free_page_count s = 4 /\
                word (ram s) 65536 = 69632 /\ word (ram s) 77824 = 0
  | _ => False
  end.
Proof. vm_compute. done. Qed.
