(* ===== verification/PageTable.v ===== *)
(** * arch/x86/mm/page_table.c: mapping pages

    The four-level tables live in physical memory and are edited in place.  The
    file states what they mean, [translate], a pure walk from the root, and shows
    that [map_page], [unmap_page] and [virt_to_phys] act on it as on a finite map
    from virtual pages to entries: the entry asked for changes, no other
    translation does, and the shape of the tree is kept. *)

From S2P Require Import Prelude LinkedList PhysMem PageTableBoot PageAlloc.

Definition table_index (virt shift : Z) : Z := Z.land (Z.shiftr virt shift) 511.

Definition clear_page (page : Z) : M mm unit :=
  for_each (seqZ 0 (PAGE_SIZE / 8)) (fun index => store64 (page + 8 * index) 0).

Definition make_table_entry (table : Z) : Z :=
  Z.lor (Z.lor table PAGE_PRESENT) PAGE_WRITABLE.

(** [inl e]: the negative errno [e] is returned; [inr x]: 0 is returned and [x] is
    the out-parameter. *)
Definition ensure_next_table (table index : Z) : M mm (Z + Z) :=
  e ← load64 (table + 8 * index);
  if is_present e then mret (inr (entry_table e))
  else
    page ← alloc_page;
    if bool_decide (page = 0) then mret (inl (- ENOMEM))
    else
      clear_page page ;;
      store64 (table + 8 * index) (make_table_entry page) ;;
      mret (inr page).

(** The lookup half of [page_entry]: one level without allocation. *)
Definition next_table (table index : Z) : M mm (Z + Z) :=
  e ← load64 (table + 8 * index);
  if is_present e then mret (inr (entry_table e)) else mret (inl (- ENOENT)).

Definition try {A B} (m : M mm (Z + A)) (k : A -> M mm (Z + B)) : M mm (Z + B) :=
  r ← m; match r with inl e => mret (inl e) | inr a => k a end.

Definition page_entry (virt : Z) (create : bool) : M mm (Z + Z) :=
  pml4 ← active_pml4;
  let pml4_index := table_index virt 39 in
  let pdpt_index := table_index virt 30 in
  let pd_index := table_index virt 21 in
  let pt_index := table_index virt 12 in
  let level := if create then ensure_next_table else next_table in
  try (level pml4 pml4_index) (fun pdpt =>
  try (level pdpt pdpt_index) (fun pd =>
  try (level pd pd_index) (fun pt =>
  mret (inr (pt + 8 * pt_index))))).

Definition map_page (virt phys flags : Z) : M mm Z :=
  if negb (bool_decide (Z.land virt (PAGE_SIZE - 1) = 0))
     || negb (bool_decide (Z.land phys (PAGE_SIZE - 1) = 0))
  then mret (- EINVAL)
  else
    r ← page_entry virt true;
    match r with
    | inl ret => mret ret
    | inr entry =>
        e ← load64 entry;
        if is_present e then mret (- EEXIST)
        else
          store64 entry (Z.lor (Z.lor (Z.land phys X86_PAGE_MASK) flags) PAGE_PRESENT) ;;
          flush_tlb_page virt ;;
          mret 0
    end.

Definition unmap_page (virt : Z) : M mm Z :=
  if negb (bool_decide (Z.land virt (PAGE_SIZE - 1) = 0)) then mret (- EINVAL)
  else
    r ← page_entry virt false;
    match r with
    | inl _ => mret (- ENOENT)
    | inr entry =>
        e ← load64 entry;
        if is_present e then
          store64 entry 0 ;; flush_tlb_page virt ;; mret 0
        else mret (- ENOENT)
    end.

(** [phys] is the out-parameter; [out = false] stands for a NULL [phys]. *)
Definition virt_to_phys (virt : Z) (out : bool) : M mm (Z + Z) :=
  if negb out then mret (inl (- EINVAL))
  else
    r ← page_entry virt false;
    match r with
    | inl _ => mret (inl (- ENOENT))
    | inr entry =>
        e ← load64 entry;
        if is_present e
        then mret (inr (Z.lor (Z.land e X86_PAGE_MASK) (Z.land virt (PAGE_SIZE - 1))))
        else mret (inl (- ENOENT))
    end.

(** ** What the tables mean *)

(** The table an entry of [t] leads to. *)
Definition child (m : gmap Z Z) (t i : Z) : option Z :=
  let e := word m (t + 8 * i) in if is_present e then Some (entry_table e) else None.

(** The table at the end of a path of indices from [t]. *)
Fixpoint walk (m : gmap Z Z) (t : Z) (p : list Z) : option Z :=
  match p with
  | [] => Some t
  | i :: p' => match child m t i with Some u => walk m u p' | None => None end
  end.

Definition upper_path (virt : Z) : list Z :=
  [table_index virt 39; table_index virt 30; table_index virt 21].

(** The page number of an address as the tables see it: the four indices. *)
Definition vpn (virt : Z) : list Z := upper_path virt ++ [table_index virt 12].

Definition leaf_address (m : gmap Z Z) (root virt : Z) : option Z :=
  match walk m root (upper_path virt) with
  | Some pt => Some (pt + 8 * table_index virt 12)
  | None => None
  end.

(** The present leaf entry that maps [virt], if any. *)
Definition translate (m : gmap Z Z) (root virt : Z) : option Z :=
  match leaf_address m root virt with
  | Some a => if is_present (word m a) then Some (word m a) else None
  | None => None
  end.

Lemma table_index_range virt shift : 0 <= table_index virt shift < 512.
Proof.
  unfold table_index. change 511 with (Z.ones 9). rewrite Z.land_ones by lia.
  apply Z.mod_pos_bound. lia.
Qed.

Lemma child_aligned m t i u : child m t i = Some u -> u mod 4096 = 0.
Proof.
  unfold child. destruct (is_present _); [|done]. intros [= <-]. apply land_page_mask_aligned.
Qed.

Lemma walk_snoc m t p i :
  walk m t (p ++ [i]) = match walk m t p with Some u => child m u i | None => None end.
Proof.
  revert t. induction p as [|j p IH]; intros t; simpl.
  - by destruct (child m t i).
  - destruct (child m t j); [apply IH|done].
Qed.

(** Paths of the part of the tree the kernel owns: at most three indices, the
    first of them in the owned part of the root.  Firmware mappings elsewhere in
    the root may use large pages and share tables; nothing is asked of them. *)
Definition good_path (own : Z -> Prop) (p : list Z) : Prop :=
  (length p <= 3)%nat /\ Forall (fun i => 0 <= i < 512) p /\
  match p with [] => True | i :: _ => own i end.

(** What the kernel holds: the slots of the root, and the allocated pages that are
    not tables (those behind the heap, for one). *)
Record owner := Owner {
  owns :> Z -> Prop;
  held : gset Z
}.

(** The owned tables form a tree of page-aligned pages, apart from the free pages
    and from the pages held for other uses. *)
Record tree_wf (own : owner) (free : list Z) (m : gmap Z Z) (root : Z) : Prop := {
  wf_root : root mod 4096 = 0;
  wf_not_free : forall p t, good_path own p -> walk m root p = Some t -> t ∉ free;
  wf_not_held : forall p t, good_path own p -> walk m root p = Some t -> t ∉ held own;
  wf_unique : forall p q t, good_path own p -> good_path own q ->
    walk m root p = Some t -> walk m root q = Some t -> p = q
}.

Lemma good_path_init own p i : good_path own (p ++ [i]) -> good_path own p.
Proof.
  intros (Hl & Hf & Ho). rewrite length_app in Hl. simpl in Hl.
  apply Forall_app in Hf as [Hf _]. split_and!; [lia|done|].
  by destruct p.
Qed.

Lemma good_path_last own p i : good_path own (p ++ [i]) -> 0 <= i < 512.
Proof. intros (_ & Hf & _). apply Forall_app in Hf as [_ Hf]. by inversion Hf. Qed.

Lemma good_path_upper own virt : own (table_index virt 39) -> good_path own (upper_path virt).
Proof.
  intros H. split_and!; [simpl; lia|repeat constructor; apply table_index_range|done].
Qed.

Lemma walk_aligned own free m root p t :
  tree_wf own free m root -> walk m root p = Some t -> t mod 4096 = 0.
Proof.
  intros Hwf. destruct p as [|i p] using rev_ind.
  - intros [= <-]. apply Hwf.
  - rewrite walk_snoc. destruct (walk m root p); [|done]. apply child_aligned.
Qed.

Lemma entry_table_make p :
  p mod 4096 = 0 -> 0 <= p < 4503599627370496 ->
  is_present (make_table_entry p) = true /\ entry_table (make_table_entry p) = p.
Proof.
  intros Ha Hp. unfold is_present, entry_table, make_table_entry. split.
  - rewrite bool_decide_eq_false_2; [done|]. intros H. apply (f_equal (fun z => Z.testbit z 0)) in H.
    rewrite Z.land_spec, !Z.lor_spec in H. change (Z.testbit PAGE_PRESENT 0) with true in H.
    rewrite orb_true_r in H. done.
  - rewrite <- Z.lor_assoc, Z.land_lor_distr_l.
    change (Z.land (Z.lor PAGE_PRESENT PAGE_WRITABLE) X86_PAGE_MASK) with 0.
    rewrite Z.lor_0_r. by apply land_page_mask_id.
Qed.

Lemma is_present_0 : is_present 0 = false.
Proof. reflexivity. Qed.

(** ** Editing the tree

    Two edits reach memory: a fresh table is hung into an empty entry, and a leaf
    entry is written.  Both are described by what they do to [word], so that the
    lemmas hold for the loops that perform them. *)
Section edit.
Context (own : owner) (m m' : gmap Z Z) (root : Z).

Definition outside_page (p a : Z) : Prop := forall i, 0 <= i < 512 -> a <> p + 8 * i.

Lemma outside_other_page p u j :
  p mod 4096 = 0 -> u mod 4096 = 0 -> 0 <= j < 512 -> u <> p -> outside_page p (u + 8 * j).
Proof. intros Hp Hu Hj Hne i Hi E. by destruct (page_entries_disjoint u p j i). Qed.

Lemma child_ext u j : word m' (u + 8 * j) = word m (u + 8 * j) -> child m' u j = child m u j.
Proof. intros E. unfold child. by rewrite E. Qed.

Section add_table.
Context (free : list Z) (p : Z) (pt : list Z) (i t : Z).
Hypothesis Hwf : tree_wf own (p :: free) m root.
Hypothesis Hpath : good_path own (pt ++ [i]).
Hypothesis Ht : walk m root pt = Some t.
Hypothesis Hempty : child m t i = None.
Hypothesis Hp : p mod 4096 = 0 /\ 0 <= p < 4503599627370496.
Hypothesis Hfree : p ∉ free.
Hypothesis Hheld : p ∉ held own.
Hypothesis Hentry : word m' (t + 8 * i) = make_table_entry p.
Hypothesis Hclear : forall j, 0 <= j < 512 -> word m' (p + 8 * j) = 0.
Hypothesis Hsame : forall a, a <> t + 8 * i -> outside_page p a -> word m' a = word m a.

Lemma walked_not_new q u : good_path own q -> walk m root q = Some u -> u <> p.
Proof. intros Hq Hu ->. apply (wf_not_free _ _ _ _ Hwf q p Hq Hu). left. Qed.

Lemma add_table_walk q :
  good_path own q ->
  walk m' root q = if bool_decide (q = pt ++ [i]) then Some p else walk m root q.
Proof.
  induction q as [|j q IH] using rev_ind; intros Hq.
  { rewrite bool_decide_eq_false_2; [done|]. by destruct pt. }
  pose proof (good_path_init _ _ _ Hq) as Hq'. pose proof (good_path_last _ _ _ Hq) as Hj.
  specialize (IH Hq'). rewrite !walk_snoc, IH. case_bool_decide as E1.
  - subst q. rewrite bool_decide_eq_false_2.
    2:{ intros E%(f_equal length). rewrite !length_app in E. simpl in E. lia. }
    rewrite walk_snoc, Ht, Hempty. unfold child. by rewrite Hclear.
  - destruct (walk m root q) as [u|] eqn:Hu.
    2:{ rewrite bool_decide_eq_false_2; [done|]. intros [-> ->]%app_inj_tail. congruence. }
    pose proof (walk_aligned _ _ _ _ _ _ Hwf Hu) as Hua.
    destruct (decide (u + 8 * j = t + 8 * i)) as [E|E].
    + destruct (page_entries_disjoint u t j i) as [-> ->]; try done.
      { by eapply walk_aligned. } { by eapply good_path_last. }
      assert (q = pt) as ->.
      { eapply (wf_unique _ _ _ _ Hwf); eauto using good_path_init. }
      rewrite bool_decide_eq_true_2 by done. unfold child. rewrite Hentry.
      by destruct Hp as [H1 H2], (entry_table_make p H1 H2) as [-> ->].
    + rewrite bool_decide_eq_false_2.
      2:{ intros [-> ->]%app_inj_tail. rewrite Ht in Hu. by simplify_eq. }
      apply child_ext, Hsame; [done|]. apply outside_other_page; [tauto|done..|].
      by eapply walked_not_new.
Qed.

Lemma add_table_wf : tree_wf own free m' root.
Proof.
  split; [apply Hwf| | |].
  - intros q u Hq. rewrite add_table_walk by done. case_bool_decide; [by intros [= <-]|].
    intros Hu Hin. apply (wf_not_free _ _ _ _ Hwf q u Hq Hu). by right.
  - intros q u Hq. rewrite add_table_walk by done. case_bool_decide; [by intros [= <-]|].
    by apply Hwf.
  - intros q q' u Hq Hq'. rewrite !add_table_walk by done.
    repeat case_bool_decide; subst; intros E E'; try done.
    + injection E as <-. by destruct (walked_not_new q' p Hq' E').
    + injection E' as <-. by destruct (walked_not_new q p Hq E).
    + by apply (wf_unique _ _ _ _ Hwf q q' u).
Qed.

Lemma add_table_translate va :
  own (table_index va 39) -> translate m' root va = translate m root va.
Proof.
  intros Hva. pose proof (good_path_upper own va Hva) as Hg.
  unfold translate, leaf_address. rewrite add_table_walk by done.
  pose proof (table_index_range va 12). case_bool_decide as E.
  - rewrite Hclear by done. rewrite is_present_0. by rewrite E, walk_snoc, Ht, Hempty.
  - destruct (walk m root (upper_path va)) as [u|] eqn:Hu; [|done].
    rewrite Hsame; [done| |].
    + intros E2. destruct (page_entries_disjoint u t (table_index va 12) i) as [-> _]; try done.
      { by eapply walk_aligned. } { by eapply walk_aligned. } { by eapply good_path_last. }
      assert (Epath : upper_path va = pt).
      { eapply (wf_unique _ _ _ _ Hwf); eauto using good_path_init. }
      destruct Hpath as [Hlen _]. rewrite <- Epath in Hlen. simpl in Hlen. lia.
    + apply outside_other_page; [tauto|by eapply walk_aligned|done|by eapply walked_not_new].
Qed.
End add_table.

Section write_leaf.
Context (free : list Z) (virt t : Z).
Hypothesis Hwf : tree_wf own free m root.
Hypothesis Hown : own (table_index virt 39).
Hypothesis Ht : walk m root (upper_path virt) = Some t.
Hypothesis Hsame : forall a, a <> t + 8 * table_index virt 12 -> word m' a = word m a.

Lemma write_leaf_walk q : good_path own q -> walk m' root q = walk m root q.
Proof.
  induction q as [|j q IH] using rev_ind; intros Hq; [done|].
  pose proof (good_path_init _ _ _ Hq) as Hq'. rewrite !walk_snoc, IH by done.
  destruct (walk m root q) as [u|] eqn:Hu; [|done]. apply child_ext, Hsame. intros E.
  destruct (page_entries_disjoint u t j (table_index virt 12)) as [-> _]; try done.
  { by eapply walk_aligned. } { by eapply walk_aligned. } { by eapply good_path_last. }
  { apply table_index_range. }
  assert (q = upper_path virt) as ->.
  { eapply (wf_unique _ _ _ _ Hwf); eauto using good_path_upper. }
  destruct Hq as [Hlen _]. simpl in Hlen. lia.
Qed.

Lemma write_leaf_wf : tree_wf own free m' root.
Proof.
  split; [apply Hwf| | |].
  - intros q u Hq. rewrite write_leaf_walk by done. by apply Hwf.
  - intros q u Hq. rewrite write_leaf_walk by done. by apply Hwf.
  - intros q q' u Hq Hq'. rewrite !write_leaf_walk by done. by apply Hwf.
Qed.

Lemma write_leaf_translate va :
  own (table_index va 39) ->
  translate m' root va =
  if bool_decide (vpn va = vpn virt)
  then let e := word m' (t + 8 * table_index virt 12) in if is_present e then Some e else None
  else translate m root va.
Proof.
  intros Hva. pose proof (good_path_upper own va Hva) as Hg.
  unfold translate, leaf_address. rewrite write_leaf_walk by done.
  case_bool_decide as E; unfold vpn in E.
  - apply app_inj_tail in E as [-> ->]. by rewrite Ht.
  - destruct (walk m root (upper_path va)) as [u|] eqn:Hu; [|done].
    rewrite Hsame; [done|]. intros E2.
    destruct (page_entries_disjoint u t (table_index va 12) (table_index virt 12)) as [-> E3];
      try done; try apply table_index_range.
    { by eapply walk_aligned. } { by eapply walk_aligned. }
    apply E. rewrite E3. f_equal. eapply (wf_unique _ _ _ _ Hwf); eauto using good_path_upper.
Qed.
End write_leaf.

(** A store outside the owned tables changes no walk. *)
Section write_outside.
Context (free : list Z).
Hypothesis Hwf : tree_wf own free m root.
Hypothesis Hsame : forall q t i, good_path own q -> walk m root q = Some t -> 0 <= i < 512 ->
  word m' (t + 8 * i) = word m (t + 8 * i).

Lemma write_outside_walk q : good_path own q -> walk m' root q = walk m root q.
Proof.
  induction q as [|j q IH] using rev_ind; intros Hq; [done|].
  pose proof (good_path_init _ _ _ Hq) as Hq'. rewrite !walk_snoc, IH by done.
  destruct (walk m root q) as [u|] eqn:Hu; [|done]. apply child_ext, (Hsame q); [done|done|].
  by eapply good_path_last.
Qed.

Lemma write_outside_translate va :
  own (table_index va 39) -> translate m' root va = translate m root va.
Proof.
  intros Hva. pose proof (good_path_upper own va Hva) as Hg.
  unfold translate, leaf_address. rewrite write_outside_walk by done.
  destruct (walk m root (upper_path va)) as [u|] eqn:Hu; [|done].
  by rewrite (Hsame _ _ _ Hg Hu (table_index_range va 12)).
Qed.
End write_outside.
End edit.

(** ** The invariant and what one operation may change *)

Definition mm_root (s : mm) : Z := Z.land (cr3 s) X86_PAGE_MASK.

(** The owned tables are a tree; the tables, the stack [free] of free pages and the
    pages held are disjoint, and every free page has a frame number an entry can
    hold. *)
Record vm_inv (own : owner) (free : list Z) (s : mm) : Prop := {
  inv_free : free_list s free;
  inv_frames : Forall (fun p => 0 <= p < 4503599627370496) free;
  inv_held : forall p, p ∈ held own -> p ∉ free;
  inv_tree : tree_wf own free (ram s) (mm_root s)
}.

(** At most [n] pages leave the stack, every one of them for a new table; no
    translation changes, no table moves, no memory outside the tables and the
    pages taken is written. *)
Record grows (own : owner) (n : nat) (free free' : list Z) (s s' : mm) : Prop := {
  grows_inv : vm_inv own free' s';
  grows_free : exists k, (k <= n)%nat /\ free' = drop k free;
  grows_cr3 : cr3 s' = cr3 s;
  grows_tlb : tlb_flushes s' = tlb_flushes s;
  grows_walk : forall q t, good_path own q ->
    walk (ram s) (mm_root s) q = Some t -> walk (ram s') (mm_root s) q = Some t;
  grows_translate : forall va, own (table_index va 39) ->
    translate (ram s') (mm_root s) va = translate (ram s) (mm_root s) va;
  grows_frame : forall a, word (ram s') a <> word (ram s) a ->
    exists q t i, good_path own q /\ walk (ram s') (mm_root s) q = Some t /\
      0 <= i < 512 /\ a = t + 8 * i
}.

Lemma grows_refl own free s n : vm_inv own free s -> grows own n free free s s.
Proof. intros H. split; try done. exists O. split; [lia|done]. Qed.

Lemma grows_trans own n1 n2 f1 f2 f3 s1 s2 s3 :
  grows own n1 f1 f2 s1 s2 -> grows own n2 f2 f3 s2 s3 -> grows own (n1 + n2) f1 f3 s1 s3.
Proof.
  intros G1 G2.
  assert (R : mm_root s2 = mm_root s1) by (unfold mm_root; by rewrite (grows_cr3 _ _ _ _ _ _ G1)).
  split.
  - apply G2.
  - destruct (grows_free _ _ _ _ _ _ G1) as (k1 & ? & ->), (grows_free _ _ _ _ _ _ G2) as (k2 & ? & ->).
    exists (k1 + k2)%nat. rewrite drop_drop. split; [lia|done].
  - by rewrite (grows_cr3 _ _ _ _ _ _ G2), (grows_cr3 _ _ _ _ _ _ G1).
  - by rewrite (grows_tlb _ _ _ _ _ _ G2), (grows_tlb _ _ _ _ _ _ G1).
  - intros q t Hq Hw. rewrite <- R. apply (grows_walk _ _ _ _ _ _ G2); [done|].
    rewrite R. by apply (grows_walk _ _ _ _ _ _ G1).
  - intros va Hva. rewrite <- (grows_translate _ _ _ _ _ _ G1) by done.
    rewrite <- R. by apply (grows_translate _ _ _ _ _ _ G2).
  - intros a Ha. destruct (decide (word (ram s3) a = word (ram s2) a)) as [E|E].
    + rewrite E in Ha. apply (grows_frame _ _ _ _ _ _ G1) in Ha as (q & t & i & Hq & Hw & Hi).
      exists q, t, i. split_and!; [done| |apply Hi..]. rewrite <- R.
      apply (grows_walk _ _ _ _ _ _ G2); [done|]. by rewrite R.
    + rewrite <- R. by apply (grows_frame _ _ _ _ _ _ G2).
Qed.

Lemma clear_page_run p s :
  p mod 4096 = 0 ->
  exists s', clear_page p s = Ret tt s' /\
    (forall j, 0 <= j < 512 -> word (ram s') (p + 8 * j) = 0) /\
    (forall a, outside_page p a -> word (ram s') a = word (ram s) a) /\
    s' = s <| ram := ram s' |>.
Proof.
  intros Hp. change (seqZ 0 (PAGE_SIZE / 8)) with (seqZ 0 512).
  destruct (for_each_total (fun done s' =>
      (forall j, j ∈ done -> word (ram s') (p + 8 * j) = 0) /\
      (forall a, outside_page p a -> word (ram s') a = word (ram s) a) /\
      s' = s <| ram := ram s' |>) (seqZ 0 512) (fun index => store64 (p + 8 * index) 0))
    with (s := s) as (s' & E & Hz & Hs & Hf).
  - intros pre x post s1 El (Hz & Hs & Hf).
    assert (Hx : 0 <= x < 512).
    { apply elem_of_seqZ with (m := 0) (n := 512). rewrite El. set_solver. }
    rewrite store64_run by by apply page_aligned_8. eexists. split; [done|]. simpl. split_and!.
    + intros j [Hj| ->%list_elem_of_singleton]%elem_of_app; [|by rewrite word_insert_eq].
      destruct (decide (j = x)) as [->|]; [by rewrite word_insert_eq|].
      rewrite word_insert_ne by lia. by apply Hz.
    + intros a Ha. rewrite word_insert_ne; [by apply Hs|]. intros <-. by apply (Ha x).
    + clear El. destruct s1, s. simpl in *. injection Hf. intros. by subst.
  - split_and!; [|done|by destruct s]. intros j Hj. by apply not_elem_of_nil in Hj.
  - exists s'. split_and!; [done| |done|done]. intros j Hj. apply Hz, elem_of_seqZ. lia.
Qed.

(** Hanging the top free page, cleared, into an empty entry. *)
Section hang_table.
Context (own : owner) (free : list Z) (s s' : mm) (q : list Z) (p t i : Z).
Hypothesis Hinv : vm_inv own (p :: free) s.
Hypothesis Hq : good_path own (q ++ [i]).
Hypothesis Ht : walk (ram s) (mm_root s) q = Some t.
Hypothesis Hempty : child (ram s) t i = None.
Hypothesis Hentry : word (ram s') (t + 8 * i) = make_table_entry p.
Hypothesis Hclear : forall j, 0 <= j < 512 -> word (ram s') (p + 8 * j) = 0.
Hypothesis Hsame : forall a, a <> t + 8 * i -> outside_page p a -> word (ram s') a = word (ram s) a.
Hypothesis Hfp : free_pages s' = word (ram s) p.
Hypothesis Hfc : free_page_count s' = wrap64 (Z.of_nat (length free)).
Hypothesis Hcr : cr3 s' = cr3 s.
Hypothesis Htlb : tlb_flushes s' = tlb_flushes s.

Lemma top_page : p mod 4096 = 0 /\ 0 <= p < 4503599627370496.
Proof.
  split; [eapply free_list_aligned; [apply Hinv|left]|].
  by apply (proj1 (Forall_cons _ _ _) (inv_frames _ _ _ Hinv)).
Qed.

Lemma top_not_below : p ∉ free.
Proof. pose proof (free_list_NoDup _ _ (inv_free _ _ _ Hinv)) as Hn. by inversion Hn. Qed.

Lemma top_not_held : p ∉ held own.
Proof. intros Hp. apply (inv_held _ _ _ Hinv p Hp). left. Qed.

Lemma hang_walk r :
  good_path own r ->
  walk (ram s') (mm_root s) r =
  if bool_decide (r = q ++ [i]) then Some p else walk (ram s) (mm_root s) r.
Proof. eapply add_table_walk; eauto using inv_tree, top_page. Qed.

Lemma hang_free_list : free_list s' free.
Proof.
  destruct (alloc_page_cons s p free (inv_free _ _ _ Hinv)) as [_ Hfl].
  eapply free_list_frame; [exact Hfl| |done..]. intros x Hx. simpl.
  assert (Hxa : x mod 4096 = 0) by by eapply free_list_aligned.
  assert (Hta : t mod 4096 = 0) by (eapply walk_aligned; [apply Hinv|done]).
  apply Hsame.
  - intros E. destruct (page_entries_disjoint t x i 0) as [-> _];
      [done|done|by eapply good_path_last|lia|lia|].
    apply (wf_not_free _ _ _ _ (inv_tree _ _ _ Hinv) q x); [by eapply good_path_init|done|by right].
  - replace x with (x + 8 * 0) by lia. apply outside_other_page; [apply top_page|done|lia|].
    intros ->. by apply top_not_below.
Qed.

Lemma hang_table_grows : grows own 1 (p :: free) free s s'.
Proof.
  assert (Hroot : mm_root s' = mm_root s) by (unfold mm_root; by rewrite Hcr).
  pose proof (good_path_init _ _ _ Hq) as Hq0.
  split; [split| |done|done| | |].
  - apply hang_free_list.
  - apply (proj1 (Forall_cons _ _ _) (inv_frames _ _ _ Hinv)).
  - intros x Hx Hin. apply (inv_held _ _ _ Hinv x Hx). by right.
  - rewrite Hroot. eapply add_table_wf; eauto using inv_tree, top_page, top_not_below, top_not_held.
  - exists 1%nat. split; [lia|done].
  - intros r u Hr Hu. rewrite hang_walk by done. case_bool_decide; [|done].
    subst r. rewrite walk_snoc, Ht, Hempty in Hu. done.
  - intros va Hva. eapply add_table_translate; eauto using inv_tree, top_page.
  - intros a Ha. destruct (decide (a = t + 8 * i)) as [->|Hne].
    { exists q, t, i. split_and!; [done| |by eapply good_path_last..|done].
      rewrite hang_walk by done. rewrite bool_decide_eq_false_2; [done|].
      intros E%(f_equal length). rewrite length_app in E. simpl in E. lia. }
    destruct (decide (Exists (fun j => a = p + 8 * j) (seqZ 0 512))) as [He|Hn].
    { apply Exists_exists in He as (j & Hj%elem_of_seqZ & ->). exists (q ++ [i]), p, j.
      rewrite hang_walk, bool_decide_eq_true_2 by done. split_and!; [done..|lia|lia|done]. }
    destruct Ha. apply Hsame; [done|]. intros j Hj ->. apply Hn, Exists_exists.
    exists j. split; [apply elem_of_seqZ; lia|done].
Qed.
End hang_table.

(** One level down: the table is there, or there is no page for it, or the top free
    page becomes it. *)
Lemma ensure_next_table_run own free s q t i :
  vm_inv own free s -> good_path own (q ++ [i]) ->
  walk (ram s) (mm_root s) q = Some t ->
  exists r s' free', ensure_next_table t i s = Ret r s' /\ grows own 1 free free' s s' /\
    match r with
    | inl e => e = - ENOMEM /\ free = []
    | inr u => walk (ram s') (mm_root s) (q ++ [i]) = Some u
    end.
Proof.
  intros Hinv Hq Ht. pose proof (inv_tree _ _ _ Hinv) as Hwf.
  pose proof (walk_aligned _ _ _ _ _ _ Hwf Ht) as Hta.
  unfold ensure_next_table. mrun (load64_run (t + 8 * i) s (page_aligned_8 t i Hta)).
  destruct (is_present _) eqn:Hpres.
  { eexists _, s, free. split_and!; [done|by apply grows_refl|].
    rewrite walk_snoc, Ht. unfold child. by rewrite Hpres. }
  destruct free as [|p free].
  { mrun (alloc_page_empty s (inv_free _ _ _ Hinv)). rewrite bool_decide_eq_true_2 by done.
    eexists _, s, []. split_and!; [done|by apply grows_refl|done..]. }
  destruct (alloc_page_cons s p free (inv_free _ _ _ Hinv)) as [Ea Hfl]. mrun Ea.
  rewrite bool_decide_eq_false_2 by (eapply free_list_nonzero; [apply Hinv|left]).
  pose proof (top_page own free s p Hinv) as [Hpa Hpf].
  set (s1 := _ <| free_page_count := _ |>).
  destruct (clear_page_run p s1 Hpa) as (s2 & Ec & Hz & Hs & Hf). mrun Ec.
  mrun (store64_run (t + 8 * i) (make_table_entry p) s2 (page_aligned_8 t i Hta)).
  eexists _, _, free. split; [done|].
  assert (Htp : t <> p) by exact (walked_not_new _ _ _ _ _ Hwf q t (good_path_init _ _ _ Hq) Ht).
  pose proof (good_path_last _ _ _ Hq) as Hi.
  assert (Hclear : forall j, 0 <= j < 512 ->
    word (<[t + 8 * i := make_table_entry p]> (ram s2)) (p + 8 * j) = 0).
  { intros j Hj. rewrite word_insert_ne; [by apply Hz|]. intros E.
    by destruct (page_entries_disjoint t p i j). }
  assert (Hsame : forall a, a <> t + 8 * i -> outside_page p a ->
    word (<[t + 8 * i := make_table_entry p]> (ram s2)) a = word (ram s) a).
  { intros a Ha Ho. rewrite word_insert_ne by done. by apply Hs. }
  assert (Hempty : child (ram s) t i = None) by (unfold child; by rewrite Hpres).
  split.
  - eapply (hang_table_grows own free s _ q p t i); try done; simpl; try by rewrite Hf.
    apply word_insert_eq.
  - erewrite hang_walk; try done; simpl; [by rewrite bool_decide_eq_true_2|apply word_insert_eq].
Qed.

Lemma try_inr {A B} (m : M mm (Z + A)) (k : A -> M mm (Z + B)) s a s' :
  m s = Ret (inr a) s' -> try m k s = k a s'.
Proof. intros H. unfold try. by mrun H. Qed.

Lemma try_inl {A B} (m : M mm (Z + A)) (k : A -> M mm (Z + B)) s e s' :
  m s = Ret (inl e) s' -> try m k s = Ret (inl e) s'.
Proof. intros H. unfold try. by mrun H. Qed.

Lemma grows_root own n f f' s s' : grows own n f f' s s' -> mm_root s' = mm_root s.
Proof. intros G. unfold mm_root. by rewrite (grows_cr3 _ _ _ _ _ _ G). Qed.

Lemma grows_weaken own n n' f f' s s' :
  grows own n f f' s s' -> (n <= n')%nat -> grows own n' f f' s s'.
Proof.
  intros [? (k & Hk & E) ? ? ? ? ?] Hn. split; try done. exists k. split; [lia|done].
Qed.

Lemma good_path_prefix own virt k :
  own (table_index virt 39) -> good_path own (take k (upper_path virt)).
Proof.
  intros (Hl & Hf & Ho)%good_path_upper. split_and!.
  - rewrite length_take. lia.
  - by apply Forall_take.
  - by destruct k.
Qed.

(** One step of the descent of [page_entry], with the rest of it as [k]. *)
Lemma create_step own free0 free n s0 s path k t i (rest : Z -> M mm (Z + Z)) (P : Z + Z -> mm -> Prop) :
  grows own n free0 free s0 s -> path = take k path ++ [i] -> good_path own path ->
  walk (ram s) (mm_root s0) (take k path) = Some t ->
  (forall s', (exists free', grows own (n + 1) free0 free' s0 s') -> (length free0 <= n)%nat ->
     P (inl (- ENOMEM)) s') ->
  (forall u s' free', grows own (n + 1) free0 free' s0 s' ->
     walk (ram s') (mm_root s0) path = Some u ->
     exists r s'', rest u s' = Ret r s'' /\ P r s'') ->
  exists r s'', try (ensure_next_table t i) rest s = Ret r s'' /\ P r s''.
Proof.
  intros G Epath Hpath Ht Hfail Hok. pose proof (grows_root _ _ _ _ _ _ G) as R.
  rewrite Epath in Hpath. rewrite <- R in Ht.
  destruct (ensure_next_table_run own free s _ t i (grows_inv _ _ _ _ _ _ G) Hpath Ht)
    as ([e|u] & s' & free' & E & G' & Hr); pose proof (grows_trans _ _ _ _ _ _ _ _ _ G G') as GG.
  - destruct Hr as [-> Hnil]. rewrite (try_inl _ _ _ _ _ E). eexists _, _. split; [done|].
    apply Hfail; [by exists free'|]. destruct (grows_free _ _ _ _ _ _ G) as (k' & Hk & ->).
    apply (f_equal length) in Hnil. rewrite length_drop in Hnil. simpl in Hnil. lia.
  - rewrite (try_inr _ _ _ _ _ E). rewrite R, <- Epath in Hr. by eapply Hok.
Qed.

Lemma page_entry_create own free s virt :
  vm_inv own free s -> own (table_index virt 39) ->
  exists r s', page_entry virt true s = Ret r s' /\
    exists free', grows own 3 free free' s s' /\
    match r with
    | inl e => e = - ENOMEM /\ (length free < 3)%nat
    | inr a => leaf_address (ram s') (mm_root s) virt = Some a
    end.
Proof.
  intros Hinv Hown. unfold page_entry, active_pml4. mred.
  eapply (create_step own free free 0 s s (take 1 (upper_path virt)) 0);
    [by apply grows_refl|done|by apply good_path_prefix|done|..].
  { intros s' (f & G) ?. exists f. split; [|split; [done|lia]]. eapply grows_weaken; [exact G|lia]. }
  intros pdpt s1 f1 G1 W1.
  eapply (create_step own free f1 1 s s1 (take 2 (upper_path virt)) 1);
    [done|done|by apply good_path_prefix|done|..].
  { intros s' (f & G) ?. exists f. split; [|split; [done|lia]]. eapply grows_weaken; [exact G|lia]. }
  intros pd s2 f2 G2 W2.
  eapply (create_step own free f2 2 s s2 (upper_path virt) 2);
    [done|done|by apply good_path_upper|done|..].
  { intros s' (f & G) ?. exists f. split; [|split; [done|lia]]. eapply grows_weaken; [exact G|lia]. }
  intros pt s3 f3 G3 W3. eexists _, _. split; [done|]. exists f3. split; [done|].
  unfold leaf_address. by rewrite W3.
Qed.

Lemma next_table_run own free s q t i :
  vm_inv own free s -> walk (ram s) (mm_root s) q = Some t ->
  next_table t i s = Ret (match child (ram s) t i with Some u => inr u | None => inl (- ENOENT) end) s.
Proof.
  intros Hinv Ht. assert (Hta : t mod 4096 = 0) by (eapply walk_aligned; [apply Hinv|done]).
  unfold next_table. mrun (load64_run (t + 8 * i) s (page_aligned_8 t i Hta)).
  unfold child. by destruct (is_present _).
Qed.

Lemma lookup_step own free s q t i (rest : Z -> M mm (Z + Z)) :
  vm_inv own free s -> walk (ram s) (mm_root s) q = Some t ->
  try (next_table t i) rest s =
  match child (ram s) t i with Some u => rest u s | None => Ret (inl (- ENOENT)) s end.
Proof.
  intros Hinv Ht. pose proof (next_table_run _ _ _ _ t i Hinv Ht) as E.
  destruct (child (ram s) t i); [apply (try_inr _ _ _ _ _ E)|apply (try_inl _ _ _ _ _ E)].
Qed.

Lemma page_entry_lookup own free s virt :
  vm_inv own free s ->
  page_entry virt false s =
  Ret (match leaf_address (ram s) (mm_root s) virt with
       | Some a => inr a | None => inl (- ENOENT) end) s.
Proof.
  intros Hinv. unfold page_entry, active_pml4, leaf_address, upper_path. mred. simpl walk.
  rewrite (lookup_step own free s [] _ _ _ Hinv eq_refl).
  destruct (child _ _ _) as [u1|] eqn:E1; [|done].
  rewrite (lookup_step own free s [table_index virt 39] u1 _ _ Hinv)
    by (simpl; by rewrite E1).
  destruct (child _ u1 _) as [u2|] eqn:E2; [|done].
  rewrite (lookup_step own free s [table_index virt 39; table_index virt 30] u2 _ _ Hinv)
    by (simpl; by rewrite E1, E2).
  by destruct (child _ u2 _).
Qed.

Lemma leaf_address_aligned own free s virt a :
  vm_inv own free s -> leaf_address (ram s) (mm_root s) virt = Some a -> a mod 8 = 0.
Proof.
  unfold leaf_address. intros Hinv. destruct (walk _ _ _) eqn:E; [|done]. intros [= <-].
  apply page_aligned_8. eapply walk_aligned; [apply Hinv|done].
Qed.

(** With the tables in place nothing is allocated. *)
Lemma ensure_step own free s q t i u (rest : Z -> M mm (Z + Z)) :
  vm_inv own free s -> walk (ram s) (mm_root s) q = Some t -> child (ram s) t i = Some u ->
  try (ensure_next_table t i) rest s = rest u s.
Proof.
  intros Hinv Ht Hc. assert (Hta : t mod 4096 = 0) by (eapply walk_aligned; [apply Hinv|done]).
  apply try_inr. unfold ensure_next_table.
  mrun (load64_run (t + 8 * i) s (page_aligned_8 t i Hta)).
  unfold child in Hc. destruct (is_present _); [|done]. by injection Hc as ->.
Qed.

Lemma page_entry_create_present own free s virt a :
  vm_inv own free s -> leaf_address (ram s) (mm_root s) virt = Some a ->
  page_entry virt true s = Ret (inr a) s.
Proof.
  intros Hinv. unfold page_entry, active_pml4, leaf_address, upper_path. mred. simpl walk.
  destruct (child _ _ _) as [u1|] eqn:E1; [|done].
  destruct (child _ u1 _) as [u2|] eqn:E2; [|done].
  destruct (child _ u2 _) as [u3|] eqn:E3; [|done]. intros [= <-].
  rewrite (ensure_step own free s [] _ _ u1 _ Hinv eq_refl E1).
  rewrite (ensure_step own free s [table_index virt 39] _ _ u2 _ Hinv); [|simpl; by rewrite E1|done].
  rewrite (ensure_step own free s [table_index virt 39; table_index virt 30] _ _ u3 _ Hinv);
    [done|simpl; by rewrite E1, E2|done].
Qed.

(** ** The operations as map operations *)

Definition leaf_entry (phys flags : Z) : Z :=
  Z.lor (Z.lor (Z.land phys X86_PAGE_MASK) flags) PAGE_PRESENT.

Lemma leaf_entry_present phys flags : is_present (leaf_entry phys flags) = true.
Proof.
  unfold is_present, leaf_entry. rewrite bool_decide_eq_false_2; [done|]. intros H.
  apply (f_equal (fun z => Z.testbit z 0)) in H.
  rewrite Z.land_spec, !Z.lor_spec in H. change (Z.testbit PAGE_PRESENT 0) with true in H.
  by rewrite orb_true_r in H.
Qed.

Arguments leaf_entry : simpl never.
Arguments translate : simpl never.
Arguments vpn : simpl never.
Arguments leaf_address : simpl never.
Arguments table_index : simpl never.

(** Writing the leaf entry of [virt] and flushing its TLB entry. *)
Lemma write_leaf_inv own free s virt a v :
  vm_inv own free s -> own (table_index virt 39) ->
  leaf_address (ram s) (mm_root s) virt = Some a ->
  vm_inv own free (s <| ram ::= <[a := v]> |>) /\
  forall va, own (table_index va 39) ->
    translate (<[a := v]> (ram s)) (mm_root s) va =
    if bool_decide (vpn va = vpn virt) then if is_present v then Some v else None
    else translate (ram s) (mm_root s) va.
Proof.
  intros Hinv Hown Ha. unfold leaf_address in Ha.
  destruct (walk _ _ _) as [t|] eqn:Ht; [|done]. injection Ha as <-.
  pose proof (inv_tree _ _ _ Hinv) as Hwf. set (a := t + _).
  assert (Hsame : forall b, b <> a -> word (<[a := v]> (ram s)) b = word (ram s) b).
  { intros b Hb. by apply word_insert_ne. }
  split.
  - split; [|apply Hinv|apply Hinv|by eapply (write_leaf_wf own (ram s))].
    eapply free_list_frame; [apply Hinv| |done..]. intros x Hx. simpl. apply Hsame. intros ->.
    destruct (page_entries_disjoint t a (table_index virt 12) 0) as [Et _];
      [by eapply walk_aligned|by eapply free_list_aligned; [apply Hinv|]
      |apply table_index_range|lia|unfold a; lia|].
    apply (wf_not_free _ _ _ _ Hwf (upper_path virt) t); [by apply good_path_upper|done|].
    by rewrite Et.
  - intros va Hva. rewrite (write_leaf_translate own (ram s) _ (mm_root s) free virt t) by done.
    fold a. by rewrite word_insert_eq.
Qed.

Lemma vm_inv_flush own free s virt :
  vm_inv own free s -> vm_inv own free (s <| tlb_flushes ::= cons virt |>).
Proof. intros [H1 H2 H3 H4]. by split. Qed.

Lemma map_page_einval virt phys flags s :
  ~ (virt mod 4096 = 0 /\ phys mod 4096 = 0) -> map_page virt phys flags s = Ret (- EINVAL) s.
Proof.
  intros H. unfold map_page. rewrite !aligned_land.
  by repeat case_bool_decide; simpl; try tauto.
Qed.

Lemma map_page_aligned virt phys flags s :
  virt mod 4096 = 0 -> phys mod 4096 = 0 ->
  map_page virt phys flags s =
  (r ← page_entry virt true;
   match r with
   | inl ret => mret ret
   | inr entry =>
       e ← load64 entry;
       if is_present e then mret (- EEXIST)
       else store64 entry (leaf_entry phys flags) ;; flush_tlb_page virt ;; mret 0
   end) s.
Proof.
  intros Hv Hp. unfold map_page. rewrite !aligned_land. by rewrite Hv, Hp.
Qed.

Lemma translate_leaf m root virt e :
  translate m root virt = Some e ->
  exists a, leaf_address m root virt = Some a /\ word m a = e /\ is_present e = true.
Proof.
  unfold translate. destruct (leaf_address _ _ _) as [a|]; [|done].
  destruct (is_present (word m a)) eqn:E; [|done]. intros [= <-]. eauto.
Qed.

Lemma map_page_eexist own free s virt phys flags e :
  vm_inv own free s -> virt mod 4096 = 0 -> phys mod 4096 = 0 ->
  translate (ram s) (mm_root s) virt = Some e -> map_page virt phys flags s = Ret (- EEXIST) s.
Proof.
  intros Hinv Hv Hp (a & Ha & Hw & He)%translate_leaf. rewrite map_page_aligned by done.
  mrun (page_entry_create_present own free s virt a Hinv Ha).
  mrun (load64_run a s (leaf_address_aligned _ _ _ _ _ Hinv Ha)). by rewrite Hw, He.
Qed.

(** What a call that met no mapping may do: install the entry, or run out of
    memory leaving every translation as it was. *)
Lemma map_page_fresh own free s virt phys flags :
  vm_inv own free s -> own (table_index virt 39) ->
  virt mod 4096 = 0 -> phys mod 4096 = 0 ->
  translate (ram s) (mm_root s) virt = None ->
  exists r s' k, map_page virt phys flags s = Ret r s' /\ (k <= 3)%nat /\
    vm_inv own (drop k free) s' /\ cr3 s' = cr3 s /\
    ((r = 0 /\ tlb_flushes s' = virt :: tlb_flushes s /\
      forall va, own (table_index va 39) ->
        translate (ram s') (mm_root s) va =
        if bool_decide (vpn va = vpn virt) then Some (leaf_entry phys flags)
        else translate (ram s) (mm_root s) va) \/
     (r = - ENOMEM /\ (length free < 3)%nat /\ tlb_flushes s' = tlb_flushes s /\
      forall va, own (table_index va 39) ->
        translate (ram s') (mm_root s) va = translate (ram s) (mm_root s) va)).
Proof.
  intros Hinv Hown Hv Hp Hnone. rewrite map_page_aligned by done.
  destruct (page_entry_create own free s virt Hinv Hown) as ([e|a] & s1 & E & f1 & G & Hr);
    mrun E; destruct (grows_free _ _ _ _ _ _ G) as (k & Hk & ->).
  { destruct Hr as [-> Hlen]. eexists _, s1, k. split; [done|]. destruct G.
    split_and!; try done. right. done. }
  rewrite <- (grows_root _ _ _ _ _ _ G) in Hr.
  pose proof (grows_inv _ _ _ _ _ _ G) as Hinv1.
  mrun (load64_run a s1 (leaf_address_aligned _ _ _ _ _ Hinv1 Hr)).
  assert (Hnp : is_present (word (ram s1) a) = false).
  { pose proof (grows_translate _ _ _ _ _ _ G virt Hown) as Et. rewrite Hnone in Et.
    rewrite <- (grows_root _ _ _ _ _ _ G) in Et. unfold translate in Et. rewrite Hr in Et.
    by destruct (is_present _). }
  rewrite Hnp. mrun (store64_run a (leaf_entry phys flags) s1
    (leaf_address_aligned _ _ _ _ _ Hinv1 Hr)).
  destruct (write_leaf_inv own _ s1 virt a (leaf_entry phys flags) Hinv1 Hown Hr) as [Hinv2 Ht].
  eexists _, _, k. split; [done|]. split_and!; [done|by apply vm_inv_flush|apply G|].
  left. split_and!; [done|simpl; by rewrite (grows_tlb _ _ _ _ _ _ G)|].
  intros va Hva. cbn [ram upd]. rewrite <- (grows_root _ _ _ _ _ _ G), Ht, leaf_entry_present by done.
  rewrite (grows_root _ _ _ _ _ _ G). by rewrite (grows_translate _ _ _ _ _ _ G).
Qed.

Lemma virt_to_phys_run own free s virt :
  vm_inv own free s ->
  virt_to_phys virt true s =
  Ret (match translate (ram s) (mm_root s) virt with
       | Some e => inr (Z.lor (Z.land e X86_PAGE_MASK) (Z.land virt (PAGE_SIZE - 1)))
       | None => inl (- ENOENT)
       end) s.
Proof.
  intros Hinv. unfold virt_to_phys, translate. cbn [negb]. mrun (page_entry_lookup own free s virt Hinv).
  destruct (leaf_address _ _ _) as [a|] eqn:Ha; [|done].
  mrun (load64_run a s (leaf_address_aligned _ _ _ _ _ Hinv Ha)). by destruct (is_present _).
Qed.

Lemma unmap_page_run own free s virt :
  vm_inv own free s -> own (table_index virt 39) -> virt mod 4096 = 0 ->
  match translate (ram s) (mm_root s) virt with
  | None => unmap_page virt s = Ret (- ENOENT) s
  | Some _ => exists s', unmap_page virt s = Ret 0 s' /\ vm_inv own free s' /\ cr3 s' = cr3 s /\
      tlb_flushes s' = virt :: tlb_flushes s /\
      forall va, own (table_index va 39) ->
        translate (ram s') (mm_root s) va =
        if bool_decide (vpn va = vpn virt) then None else translate (ram s) (mm_root s) va
  end.
Proof.
  intros Hinv Hown Hv. unfold unmap_page. rewrite !aligned_land, Hv.
  change (negb (bool_decide (0 = 0))) with false. cbv iota.
  mrun (page_entry_lookup own free s virt Hinv). unfold translate at 1.
  destruct (leaf_address _ _ _) as [a|] eqn:Ha; [|done].
  mrun (load64_run a s (leaf_address_aligned _ _ _ _ _ Hinv Ha)).
  destruct (is_present _); [|done].
  mrun (store64_run a 0 s (leaf_address_aligned _ _ _ _ _ Hinv Ha)).
  destruct (write_leaf_inv own _ s virt a 0 Hinv Hown Ha) as [Hinv2 Ht].
  eexists. split; [done|]. split_and!; [by apply vm_inv_flush|done..].
Qed.

(** ** Page numbers *)

Lemma table_index_div virt k : 0 <= k -> table_index virt k = (virt / 2 ^ k) mod 512.
Proof.
  intros Hk. unfold table_index. rewrite Z.shiftr_div_pow2 by done.
  change 511 with (Z.ones 9). by rewrite Z.land_ones.
Qed.

Lemma page_number_digits x :
  x mod 68719476736 =
  x mod 512 + 512 * ((x / 512) mod 512 + 512 * ((x / 262144) mod 512 +
    512 * ((x / 134217728) mod 512))).
Proof.
  change 68719476736 with (512 * (512 * (512 * 512))). rewrite !Z.rem_mul_r by lia.
  by rewrite !Z.div_div by lia.
Qed.

(** The four indices are the 36-bit page number. *)
Lemma vpn_page_number va va' :
  vpn va = vpn va' <-> (va / 4096) mod 2 ^ 36 = (va' / 4096) mod 2 ^ 36.
Proof.
  unfold vpn, upper_path. rewrite !table_index_div by lia. cbn [app].
  change (2 ^ 39) with (4096 * 134217728). change (2 ^ 30) with (4096 * 262144).
  change (2 ^ 21) with (4096 * 512). change (2 ^ 12) with 4096.
  change (2 ^ 36) with 68719476736.
  rewrite <- !(Z.div_div _ 4096) by lia. generalize (va / 4096) (va' / 4096). intros x y.
  rewrite !page_number_digits.
  pose proof (fun z => Z.mod_pos_bound z 512 ltac:(lia)) as B.
  pose proof (B x). pose proof (B (x / 512)). pose proof (B (x / 262144)).
  pose proof (B (x / 134217728)). pose proof (B y). pose proof (B (y / 512)).
  pose proof (B (y / 262144)). pose proof (B (y / 134217728)). clear B.
  split; [by intros [= -> -> -> ->]|].
  repeat match goal with |- context [?z mod 512] => generalize dependent (z mod 512) end.
  intros. repeat f_equal; lia.
Qed.

Lemma page_offset_div va off : va mod 4096 = 0 -> 0 <= off < 4096 -> (va + off) / 4096 = va / 4096.
Proof. intros. div_lia. Qed.

Lemma table_index_offset va off k :
  va mod 4096 = 0 -> 0 <= off < 4096 -> 12 <= k -> table_index (va + off) k = table_index va k.
Proof.
  intros Hv Ho Hk. rewrite !table_index_div by lia.
  replace k with (12 + (k - 12)) by lia. rewrite Z.pow_add_r by lia.
  rewrite <- !Z.div_div by lia. change (2 ^ 12) with 4096. by rewrite page_offset_div.
Qed.

Lemma translate_offset m root va off :
  va mod 4096 = 0 -> 0 <= off < 4096 -> translate m root (va + off) = translate m root va.
Proof.
  intros Hv Ho. unfold translate, leaf_address, upper_path.
  by rewrite !(table_index_offset va off) by lia.
Qed.

Lemma translate_vpn m root va va' : vpn va = vpn va' -> translate m root va = translate m root va'.
Proof.
  unfold vpn. intros [E1 E2]%app_inj_tail. unfold translate, leaf_address. by rewrite E1, E2.
Qed.

(** The physical address an installed entry gives. *)
Lemma leaf_entry_phys phys flags va off :
  phys mod 4096 = 0 -> 0 <= phys < 4503599627370496 -> Z.land flags X86_PAGE_MASK = 0 ->
  va mod 4096 = 0 -> 0 <= off < 4096 ->
  Z.lor (Z.land (leaf_entry phys flags) X86_PAGE_MASK) (Z.land (va + off) (PAGE_SIZE - 1)) = phys + off.
Proof.
  intros Hp Hr Hf Hv Ho. unfold leaf_entry. rewrite !Z.land_lor_distr_l, Hf.
  change (Z.land PAGE_PRESENT X86_PAGE_MASK) with 0. rewrite !Z.lor_0_r.
  rewrite !land_page_mask_id by done || (by rewrite land_page_mask_id).
  rewrite aligned_land, Zplus_mod, Hv, Z.add_0_l, Zmod_mod, Z.mod_small by done.
  apply lor_disjoint_add. apply Z.bits_inj'. intros n Hn. rewrite Z.land_spec, Z.bits_0.
  destruct (Z.lt_ge_cases n 12).
  - apply Z.mod_divide in Hp as [q ->]; [|lia]. change 4096 with (2 ^ 12).
    by rewrite Z.mul_pow2_bits_low by lia.
  - rewrite <- (Z.mod_small off (2 ^ 12)) by lia. rewrite Z.mod_pow2_bits_high by lia.
    apply andb_false_r.
Qed.

(** ** Theorems *)

(** C5.  [map_page] is insertion into a finite map.  Misaligned arguments give
    -EINVAL and a page that is already mapped -EEXIST, with nothing changed.
    Otherwise the page gets exactly the entry asked for and its TLB entry is
    flushed while every other page of the owned part keeps its translation; or,
    only when fewer than three pages were free, -ENOMEM is returned and all
    translations stay.  The tables stay a tree disjoint from the free pages, which
    lose at most three. *)
Theorem map_page_inserts own free s virt phys flags :
  vm_inv own free s -> own (table_index virt 39) ->
  exists r s' k, map_page virt phys flags s = Ret r s' /\ (k <= 3)%nat /\
    vm_inv own (drop k free) s' /\ cr3 s' = cr3 s /\
    if negb (bool_decide (virt mod 4096 = 0 /\ phys mod 4096 = 0)) then r = - EINVAL /\ s' = s
    else if bool_decide (is_Some (translate (ram s) (mm_root s) virt)) then r = - EEXIST /\ s' = s
    else (r = 0 \/ r = - ENOMEM /\ (length free < 3)%nat) /\
      tlb_flushes s' = (if bool_decide (r = 0) then [virt] else []) ++ tlb_flushes s /\
      forall va, own (table_index va 39) ->
        translate (ram s') (mm_root s) va =
        if bool_decide (r = 0 /\ vpn va = vpn virt) then Some (leaf_entry phys flags)
        else translate (ram s) (mm_root s) va.
Proof.
  intros Hinv Hown. case_bool_decide as Hal; cbn [negb].
  2:{ exists (- EINVAL), s, O. rewrite map_page_einval by done. split_and!; [done|lia|done..]. }
  destruct Hal as [Hv Hp]. case_bool_decide as Ht.
  { destruct Ht as [e Ht]. exists (- EEXIST), s, O.
    rewrite (map_page_eexist own free s virt phys flags e) by done. split_and!; [done|lia|done..]. }
  apply eq_None_not_Some in Ht.
  destruct (map_page_fresh own free s virt phys flags Hinv Hown Hv Hp Ht)
    as (r & s' & k & E & Hk & Hinv' & Hcr & Hr).
  exists r, s', k. split_and!; [done|done|done|done|..].
  - destruct Hr as [(-> & _)|(-> & Hl & _)]; [by left|by right].
  - destruct Hr as [(-> & Hf & _)|(-> & _ & Hf & _)]; [by rewrite bool_decide_eq_true_2|done].
  - intros va Hva. destruct Hr as [(-> & _ & Htr)|(-> & _ & _ & Htr)]; rewrite Htr by done.
    + by repeat case_bool_decide; try tauto.
    + rewrite bool_decide_eq_false_2; [done|]. by intros [? _].
Qed.

(** [unmap_page] is deletion: -EINVAL for a misaligned address, -ENOENT with
    nothing changed for a page that is not mapped, and otherwise 0, with the page's
    translation gone, its TLB entry flushed and every other translation as it was. *)
Theorem unmap_page_deletes own free s virt :
  vm_inv own free s -> own (table_index virt 39) ->
  exists r s', unmap_page virt s = Ret r s' /\ vm_inv own free s' /\ cr3 s' = cr3 s /\
    if negb (bool_decide (virt mod 4096 = 0)) then r = - EINVAL /\ s' = s
    else if negb (bool_decide (is_Some (translate (ram s) (mm_root s) virt)))
    then r = - ENOENT /\ s' = s
    else r = 0 /\ tlb_flushes s' = virt :: tlb_flushes s /\
      forall va, own (table_index va 39) ->
        translate (ram s') (mm_root s) va =
        if bool_decide (vpn va = vpn virt) then None else translate (ram s) (mm_root s) va.
Proof.
  intros Hinv Hown. destruct (decide (virt mod 4096 = 0)) as [Hv|Hv].
  2:{ exists (- EINVAL), s. unfold unmap_page. rewrite aligned_land.
      by rewrite bool_decide_eq_false_2. }
  rewrite bool_decide_eq_true_2 by done. cbn [negb].
  pose proof (unmap_page_run own free s virt Hinv Hown Hv) as H.
  destruct (translate _ _ virt) as [e|].
  - destruct H as (s' & E & Hinv' & Hcr & Hf & Ht). exists 0, s'.
    rewrite bool_decide_eq_true_2 by done. done.
  - exists (- ENOENT), s. rewrite bool_decide_eq_false_2 by (by intros [? ?]). done.
Qed.

(** C24.  Round trip: after a successful [map_page] of a frame below 2^52, with flags
    outside the frame field, [virt_to_phys] resolves every byte of the page to the
    same byte of the frame; after the [unmap_page] that follows, which succeeds, it
    gives -ENOENT. *)
Theorem map_resolve_unmap own free s s' virt phys flags off :
  vm_inv own free s -> own (table_index virt 39) ->
  0 <= phys < 4503599627370496 -> Z.land flags X86_PAGE_MASK = 0 -> 0 <= off < 4096 ->
  map_page virt phys flags s = Ret 0 s' ->
  virt_to_phys (virt + off) true s' = Ret (inr (phys + off)) s' /\
  exists s'', unmap_page virt s' = Ret 0 s'' /\
    virt_to_phys (virt + off) true s'' = Ret (inl (- ENOENT)) s''.
Proof.
  intros Hinv Hown Hphys Hflags Hoff Hmap.
  destruct (decide (virt mod 4096 = 0 /\ phys mod 4096 = 0)) as [[Hv Hp]|Hn].
  2:{ rewrite map_page_einval in Hmap by done. done. }
  destruct (translate (ram s) (mm_root s) virt) as [e|] eqn:Ht.
  { rewrite (map_page_eexist own free s virt phys flags e) in Hmap by done. done. }
  destruct (map_page_fresh own free s virt phys flags Hinv Hown Hv Hp Ht)
    as (r & s1 & k & E & Hk & Hinv' & Hcr & Hr).
  rewrite Hmap in E. injection E as <- <-. destruct Hr as [(_ & _ & Htr)|[[=] _]].
  assert (Hroot : mm_root s' = mm_root s) by (unfold mm_root; by rewrite Hcr).
  assert (Hmapped : translate (ram s') (mm_root s') virt = Some (leaf_entry phys flags)).
  { rewrite Hroot, Htr by done. by rewrite bool_decide_eq_true_2. }
  split.
  { rewrite (virt_to_phys_run own (drop k free)), translate_offset, Hmapped by done.
    by rewrite leaf_entry_phys. }
  pose proof (unmap_page_run own _ s' virt Hinv' Hown Hv) as Hu. rewrite Hmapped in Hu.
  destruct Hu as (s'' & Eu & Hinv'' & Hcr' & _ & Htr'). exists s''. split; [done|].
  rewrite (virt_to_phys_run own (drop k free)), translate_offset by done.
  unfold mm_root at 1. rewrite Hcr'. fold (mm_root s').
  rewrite Htr' by done. by rewrite bool_decide_eq_true_2.
Qed.

(** ** A small machine: an empty root at 0x8000 and four free pages at 0x10000 *)

Definition vm_demo : mm :=
  Mm (list_to_map [(65536, 69632); (69632, 73728); (73728, 77824); (77824, 0)])
     32768 [] [] true true 65536 4.
Definition vm_demo_free : list Z := [65536; 69632; 73728; 77824].
Definition slot_510 : owner := Owner (fun i => i = 510) ∅.

Lemma vm_demo_walk p t :
  good_path slot_510 p -> walk (ram vm_demo) (mm_root vm_demo) p = Some t -> p = [] /\ t = 32768.
Proof.
  destruct p as [|i p]; [by intros _ [= <-]|]. intros (_ & _ & Hi).
  rewrite Hi. simpl walk. change (child _ _ _) with (@None Z). done.
Qed.

Lemma vm_demo_inv : vm_inv slot_510 vm_demo_free vm_demo.
Proof.
  split.
  - split_and!; [|by repeat constructor|done]. vm_compute. split_and!; [done..|]. eexists.
    split; [done|]. split_and!; [done..|]. eexists. split; [done|]. split_and!; [done..|].
    eexists. split; [done|]. split_and!; [done..|]. by eexists.
  - by repeat constructor.
  - intros p Hp. by apply not_elem_of_empty in Hp.
  - split; [done| | |].
    + intros p t Hp [_ ->]%vm_demo_walk; [|done].
      apply (bool_decide_eq_true_1 (32768 ∉ vm_demo_free)). reflexivity.
    + intros p t _ _ Hin. by apply not_elem_of_empty in Hin.
    + intros p q t Hp Hq [-> _]%vm_demo_walk [-> _]%vm_demo_walk; done.
Qed.

Definition demo_virt : Z := 18446742974197923840. (* 0xffffff0000000000 *)

Lemma map_page_inserts_witness :
  exists r s' k, map_page demo_virt 77824 PAGE_WRITABLE vm_demo = Ret r s' /\
    vm_inv slot_510 (drop k vm_demo_free) s'.
Proof.
  destruct (map_page_inserts slot_510 vm_demo_free vm_demo demo_virt 77824 PAGE_WRITABLE)
    as (r & s' & k & E & _ & H & _).
  - exact vm_demo_inv.
  - vm_compute. reflexivity.
  - exists r, s', k. exact (conj E H).
Defined.

Lemma unmap_page_deletes_witness :
  exists r s', unmap_page demo_virt vm_demo = Ret r s' /\ vm_inv slot_510 vm_demo_free s'.
Proof.
  destruct (unmap_page_deletes slot_510 vm_demo_free vm_demo demo_virt) as (r & s' & E & H & _).
  - exact vm_demo_inv.
  - vm_compute. reflexivity.
  - exists r, s'. exact (conj E H).
Defined.

Lemma vm_demo_maps :
  exists s', map_page demo_virt 77824 PAGE_WRITABLE vm_demo = Ret 0 s'.
Proof.
  destruct (map_page_fresh slot_510 vm_demo_free vm_demo demo_virt 77824 PAGE_WRITABLE)
    as (r & s' & k & E & _ & _ & _ & [(-> & _)|(_ & Hl & _)]);
    [exact vm_demo_inv|vm_compute; reflexivity..| |].
  - by exists s'.
  - simpl in Hl. lia.
Qed.

Lemma map_resolve_unmap_witness :
  exists s', map_page demo_virt 77824 PAGE_WRITABLE vm_demo = Ret 0 s' /\
    virt_to_phys (demo_virt + 5) true s' = Ret (inr (77824 + 5)) s'.
Proof.
  destruct vm_demo_maps as [s' Em]. exists s'. split; [exact Em|].
  apply (map_resolve_unmap slot_510 vm_demo_free vm_demo s' demo_virt 77824 PAGE_WRITABLE 5).
  - exact vm_demo_inv.
  - vm_compute. reflexivity.
  - lia.
  - vm_compute. reflexivity.
  - lia.
  - exact Em.
Defined.
