(* ===== verification/Heap.v ===== *)
(** * mm/heap.c: the kernel heap

    The heap is a doubly linked list of blocks, each a header followed by its
    payload, that tile the virtual range from [HEAP_BASE] to [heap_end].  Headers
    are modelled as a store of [struct heap_block] values by address, payloads as
    a store of bytes; the two are disjoint parts of the same mapped memory.

    The heap asks the page allocator and the page tables for memory through
    [PageApi]; what it relies on is the class [PageApiSpec], and the theorems are
    proved against it.  [MmInit] gives the instance for the real page allocator
    and page tables. *)

From S2P Require Import Prelude PhysMem PageTable.

Definition HEAP_BASE : Z := 18446743111636877312. (* 0xffffff2000000000 *)
Definition HEAP_ALIGNMENT : Z := 16.
Definition sizeof_heap_block : Z := 32.

Record heap_block := HeapBlock {
  size : Z;
  free : bool;
  prev : Z;
  next : Z
}.

#[export] Instance eta_heap_block : Eta heap_block := fun b =>
  HeapBlock (size b) (free b) (prev b) (next b).

(** The calls the heap makes into mm/page_alloc.c and arch/x86/mm/page_table.c. *)
Class PageApi (S : Type) := {
  api_alloc_page : M S Z;
  api_map_page : Z -> Z -> Z -> M S Z;
  api_free_page : Z -> M S unit
}.

(** What the heap relies on.  [held] is the set of frames handed out and not given
    back, [avail] the number of pages that can still be allocated and [entry_of]
    the translation of a page; a call that fails changes no translation. *)
Class PageApiSpec (S : Type) `{PageApi S} := {
  window : Z -> Prop;
  api_ok : gset Z -> S -> Prop;
  avail : S -> nat;
  entry_of : S -> Z -> option Z;
  heap_window : forall va, HEAP_BASE <= va < 18446744073709551616 -> window va;
  api_alloc_law : forall held s, api_ok held s ->
    exists p s', api_alloc_page s = Ret p s' /\
      (forall va, window va -> entry_of s' va = entry_of s va) /\
      match avail s with
      | O => p = 0 /\ api_ok held s' /\ avail s' = O
      | Datatypes.S n => p <> 0 /\ p mod 4096 = 0 /\ (p ∉ held) /\ api_ok ({[p]} ∪ held) s' /\ avail s' = n
      end;
  api_map_law : forall held s va p flags, api_ok held s -> p mod 4096 = 0 -> window va ->
    va mod 4096 = 0 ->
    exists r s', api_map_page va p flags s = Ret r s' /\ api_ok held s' /\
      (avail s - 3 <= avail s' <= avail s)%nat /\
      match entry_of s va with
      | Some _ => r = - EEXIST /\ s' = s
      | None =>
          (r = 0 \/ r = - ENOMEM /\ (avail s < 3)%nat) /\
          forall va', window va' ->
            entry_of s' va' = if bool_decide (r = 0 /\ vpn va' = vpn va)
                              then Some (leaf_entry p flags) else entry_of s va'
      end;
  api_free_law : forall held s p, api_ok ({[p]} ∪ held) s -> p ∉ held -> p <> 0 -> p mod 4096 = 0 ->
    exists s', api_free_page p s = Ret tt s' /\ api_ok held s' /\ avail s' = Datatypes.S (avail s) /\
      (forall va, window va -> entry_of s' va = entry_of s va)
}.

Section heap.
Context {S : Type} `{PageApi S}.

Record heap_state := HeapState {
  pages : S;
  blocks : gmap Z heap_block;
  payload : gmap Z Z;
  heap_first : Z;
  heap_last : Z;
  heap_end : Z;
  heap_ready : bool
}.

#[export] Instance eta_heap_state : Eta heap_state := fun s =>
  HeapState (pages s) (blocks s) (payload s) (heap_first s) (heap_last s) (heap_end s)
            (heap_ready s).

Definition on_pages {A} (m : M S A) : M heap_state A :=
  zoom pages (fun p s => s <| pages := p |>) m.

Definition align_up_size (value alignment : Z) : Z :=
  Z.land (wrap64 (value + alignment - 1)) (not64 (wrap64 (alignment - 1))).

Definition align_up_addr (value alignment : Z) : Z :=
  Z.land (wrap64 (value + alignment - 1)) (not64 (wrap64 (alignment - 1))).

(** [block->f] read, [block->f = v] on a block, and a write to memory that need
    not hold a header yet. *)
Definition block_at (a : Z) : M heap_state heap_block := deref (fun s => blocks s !! a).

Definition set_block (a : Z) (f : heap_block -> heap_block) : M heap_state unit :=
  b ← block_at a; modify (fun s => s <| blocks ::= <[a := f b]> |>).

Definition poke (a : Z) (f : heap_block -> heap_block) : M heap_state unit :=
  modify (fun s => s <| blocks ::= <[a := f (default (HeapBlock 0 false 0 0) (blocks s !! a))]> |>).

Definition block_insert_after (block nxt : Z) : M heap_state unit :=
  set_block nxt (fun n => n <| prev := block |>) ;;
  b ← block_at block;
  set_block nxt (fun n => n <| next := next b |>) ;;
  (if negb (bool_decide (next b = 0))
   then set_block (next b) (fun n => n <| prev := nxt |>)
   else modify (fun s => s <| heap_last := nxt |>)) ;;
  set_block block (fun b => b <| next := nxt |>).

Definition block_merge_next (block : Z) : M heap_state unit :=
  b ← block_at block;
  let nxt := next b in
  if bool_decide (nxt = 0) then mret tt
  else
    n ← block_at nxt;
    if negb (free n) then mret tt
    else
      set_block block (fun b => b <| size := wrap64 (size b + wrap64 (sizeof_heap_block + size n)) |>) ;;
      set_block block (fun b => b <| next := next n |>) ;;
      if negb (bool_decide (next n = 0))
      then set_block (next n) (fun m => m <| prev := block |>)
      else modify (fun s => s <| heap_last := block |>).

Definition block_split (block sz : Z) : M heap_state unit :=
  b ← block_at block;
  if bool_decide (size b < wrap64 (wrap64 (sz + sizeof_heap_block) + HEAP_ALIGNMENT)) then mret tt
  else
    let nxt := wrap64 (block + sizeof_heap_block + sz) in
    poke nxt (fun n => n <| size := wrap64 (wrap64 (size b - sz) - sizeof_heap_block) |>) ;;
    poke nxt (fun n => n <| free := true |>) ;;
    set_block block (fun b => b <| size := sz |>) ;;
    block_insert_after block nxt.

(** The loop of [map_heap_range].  Each round adds a page to [current] and leaves
    when [current >= end]; [bytes / PAGE_SIZE + 1] rounds are enough. *)
Definition map_loop (end_ current : Z) : M heap_state (Z + Z) :=
  if negb (bool_decide (current < end_)) then mret (inr 0)
  else
    page ← on_pages api_alloc_page;
    if bool_decide (page = 0) then mret (inr (- ENOMEM))
    else
      ret ← on_pages (api_map_page current page (Z.lor PAGE_WRITABLE PAGE_NO_EXECUTE));
      if negb (bool_decide (ret = 0)) then on_pages (api_free_page page) ;; mret (inr ret)
      else mret (inl (wrap64 (current + PAGE_SIZE))).

Definition map_heap_range (start bytes : Z) : M heap_state Z :=
  let end_ := wrap64 (start + bytes) in
  loop (Datatypes.S (Z.to_nat (bytes / PAGE_SIZE))) (map_loop end_) start.

Definition heap_extend (min_size : Z) : M heap_state Z :=
  let bytes := align_up_size (wrap64 (min_size + sizeof_heap_block)) PAGE_SIZE in
  block ← gets heap_end;
  ret ← map_heap_range block bytes;
  if negb (bool_decide (ret = 0)) then mret ret
  else
    modify (fun s => s <| heap_end := wrap64 (heap_end s + bytes) |>) ;;
    poke block (fun b => b <| size := wrap64 (bytes - sizeof_heap_block) |>) ;;
    poke block (fun b => b <| free := true |>) ;;
    last ← gets heap_last;
    poke block (fun b => b <| prev := last |>) ;;
    poke block (fun b => b <| next := 0 |>) ;;
    (if negb (bool_decide (last = 0)) then set_block last (fun l => l <| next := block |>)
     else modify (fun s => s <| heap_first := block |>)) ;;
    modify (fun s => s <| heap_last := block |>) ;;
    b ← block_at block;
    if bool_decide (prev b = 0) then mret 0
    else
      p ← block_at (prev b);
      when (free p) (block_merge_next (prev b)) ;;
      mret 0.

(** Every block takes a header's worth of the heap, which bounds the length of the
    list and so the rounds of the search. *)
Definition find_loop (sz : Z) (block : Z) : M heap_state (Z + Z) :=
  if bool_decide (block = 0) then mret (inr 0)
  else
    b ← block_at block;
    if free b && bool_decide (size b >= sz) then mret (inr block) else mret (inl (next b)).

Definition find_free_block (sz : Z) : M heap_state Z :=
  first ← gets heap_first;
  n ← gets (fun s => Z.to_nat ((heap_end s - HEAP_BASE) / sizeof_heap_block));
  loop (Datatypes.S n) (find_loop sz) first.

Definition kmalloc (size0 : Z) : M heap_state Z :=
  if bool_decide (size0 = 0) then mret 0
  else
    let sz := align_up_size size0 HEAP_ALIGNMENT in
    found ← find_free_block sz;
    block ← (if bool_decide (found = 0) then
               ret ← heap_extend sz;
               if negb (bool_decide (ret = 0)) then mret None
               else b ← find_free_block sz; mret (Some b)
             else mret (Some found));
    match block with
    | None => mret 0
    | Some block =>
        if bool_decide (block = 0) then mret 0
        else
          block_split block sz ;;
          set_block block (fun b => b <| free := false |>) ;;
          mret (wrap64 (block + sizeof_heap_block))
    end.

Definition kfree (ptr : Z) : M heap_state unit :=
  if bool_decide (ptr = 0) then mret tt
  else
    let block := wrap64 (ptr - sizeof_heap_block) in
    set_block block (fun b => b <| free := true |>) ;;
    block_merge_next block ;;
    b ← block_at block;
    if bool_decide (prev b = 0) then mret tt
    else
      p ← block_at (prev b);
      when (free p) (block_merge_next (prev b)).

(** Payload accesses of the selftest, byte by byte in memory order. *)
Definition store_byte (a v : Z) : M heap_state unit :=
  modify (fun s => s <| payload ::= <[a := wrap8 v]> |>).

Definition load_byte (a : Z) : M heap_state Z := deref (fun s => payload s !! a).

Definition store_u64 (a v : Z) : M heap_state unit :=
  for_each (seqZ 0 8) (fun i => store_byte (a + i) (Z.shiftr v (8 * i))).

Definition load_u64 (a : Z) : M heap_state Z :=
  b0 ← load_byte a; b1 ← load_byte (a + 1); b2 ← load_byte (a + 2); b3 ← load_byte (a + 3);
  b4 ← load_byte (a + 4); b5 ← load_byte (a + 5); b6 ← load_byte (a + 6); b7 ← load_byte (a + 7);
  mret (b0 + 256 * (b1 + 256 * (b2 + 256 * (b3 + 256 * (b4 + 256 * (b5 + 256 * (b6 + 256 * b7))))))).

Definition SELFTEST_WORD : Z := 6073472761484297537. (* 0x54494f4c45484541 *)

(** The writes to the two payloads and the test of what is read back. *)
Definition selftest_access (first second : Z) : M heap_state bool :=
  store_u64 first SELFTEST_WORD ;;
  store_byte second 49 ;;
  store_byte (second + 127) 50 ;;
  w ← load_u64 first;
  b0 ← load_byte second;
  b127 ← load_byte (second + 127);
  mret (negb (bool_decide (w = SELFTEST_WORD)) || negb (bool_decide (b0 = 49))
       || negb (bool_decide (b127 = 50))).

Definition heap_selftest : M heap_state unit :=
  first ← kmalloc 8;
  second ← kmalloc 128;
  if bool_decide (first = 0) || bool_decide (second = 0)
  then panic "kernel heap selftest allocation failed"
  else
    corrupted ← selftest_access first second;
    if corrupted : bool
    then panic "kernel heap selftest memory corrupted"
    else
      kfree first ;;
      third ← kmalloc 8;
      if bool_decide (third = 0) then panic "kernel heap selftest reuse failed"
      else kfree third ;; kfree second.

Definition heap_init : M heap_state unit :=
  ready ← gets heap_ready;
  if ready : bool then mret tt
  else
    modify (fun s => s <| heap_end := align_up_addr (heap_end s) PAGE_SIZE |>) ;;
    ret ← heap_extend (PAGE_SIZE - sizeof_heap_block);
    if negb (bool_decide (ret = 0)) then panic "kernel heap initialization failed"
    else
      modify (fun s => s <| heap_ready := true |>) ;;
      heap_selftest.
End heap.
Arguments heap_state S : clear implicits.

(** ** The abstract heap: the list of blocks in address order

    A block is its payload size and whether it is free. *)
Abbreviation blk := (Z * bool)%type.

(** First fit from address [a]: the payload address handed out and the list after
    the block has been split and taken. *)
Definition cut (bs sz : Z) : list blk :=
  if bool_decide (bs < sz + 48) then [(bs, false)] else [(sz, false); (bs - sz - 32, true)].

Fixpoint take_fit (sz a : Z) (bl : list blk) : option (Z * list blk) :=
  match bl with
  | [] => None
  | (bs, fr) :: bl' =>
      if fr && bool_decide (bs >= sz) then Some (a + 32, cut bs sz ++ bl')
      else match take_fit sz (a + 32 + bs) bl' with
           | Some (p, r) => Some (p, (bs, fr) :: r)
           | None => None
           end
  end.

(** A new block at the end, merged into a free last block. *)
Fixpoint grow (bl : list blk) (bytes : Z) : list blk :=
  match bl with
  | [] => [(bytes - 32, true)]
  | [(bs, true)] => [(bs + bytes, true)]
  | b :: bl' => b :: grow bl' bytes
  end.

(** Release of the block whose payload starts at [p]: coalesced with a free block
    after it and then with a free block before it. *)
Definition join_next (bs : Z) (bl : list blk) : list blk :=
  match bl with
  | (bs', true) :: bl' => (bs + 32 + bs', true) :: bl'
  | _ => (bs, true) :: bl
  end.

Definition join_prev (b : blk) (bl : list blk) : list blk :=
  match b, bl with
  | (bs, true), (bs', true) :: bl' => (bs + 32 + bs', true) :: bl'
  | _, _ => b :: bl
  end.

Arguments join_prev : simpl never.

Fixpoint release (p a : Z) (bl : list blk) : list blk :=
  match bl with
  | [] => []
  | (bs, fr) :: bl' =>
      if bool_decide (p = a + 32) then join_next bs bl'
      else
        let r := release p (a + 32 + bs) bl' in
        if bool_decide (p = a + 32 + bs + 32) then join_prev (bs, fr) r else (bs, fr) :: r
  end.

(** The allocated payloads, by address and size. *)
Fixpoint used (a : Z) (bl : list blk) : list (Z * Z) :=
  match bl with
  | [] => []
  | (bs, fr) :: bl' =>
      (if fr : bool then [] else [(a + 32, bs)]) ++ used (a + 32 + bs) bl'
  end.

Fixpoint span (bl : list blk) : Z :=
  match bl with [] => 0 | (bs, _) :: bl' => 32 + bs + span bl' end.

(** No two neighbours are free. *)
Definition head_free (bl : list blk) : bool := match bl with (_, fr) :: _ => fr | [] => false end.

Definition last_free (bl : list blk) : bool := match last bl with Some b => b.2 | None => false end.

Fixpoint coalesced (bl : list blk) : bool :=
  match bl with
  | [] => true
  | b :: bl' => negb (b.2 && head_free bl') && coalesced bl'
  end.

Definition sizes_ok (bl : list blk) : Prop := Forall (fun b => 0 < b.1 /\ b.1 mod 16 = 0) bl.

(** ** Representation *)

Section rep.
Context {S : Type}.
Implicit Types (m : gmap Z heap_block) (bl : list blk) (s : heap_state S).

(** [m] holds the headers of [bl] from [a] on; [p] is the block before [a], [p'] the
    last one of the segment, [nx] the [next] of that last one. *)
Fixpoint seg m (p a : Z) bl (p' nx : Z) : Prop :=
  match bl with
  | [] => p' = p
  | (bs, fr) :: bl' =>
      m !! a = Some (HeapBlock bs fr p (match bl' with [] => nx | _ => a + 32 + bs end)) /\
      seg m a (a + 32 + bs) bl' p' nx
  end.

Lemma span_app bl1 bl2 : span (bl1 ++ bl2) = span bl1 + span bl2.
Proof. induction bl1 as [|[bs fr] bl1 IH]; simpl; lia. Qed.

Lemma span_pos bl : sizes_ok bl -> 0 <= span bl.
Proof.
  induction bl as [|[bs fr] bl IH]; simpl; [lia|]. intros [[? ?] ?]%Forall_cons.
  simpl in *. specialize (IH ltac:(done)). lia.
Qed.

Lemma seg_app m p a bl1 bl2 p' nx :
  seg m p a (bl1 ++ bl2) p' nx <->
  exists pm, seg m p a bl1 pm (match bl2 with [] => nx | _ => a + span bl1 end) /\
             seg m pm (a + span bl1) bl2 p' nx.
Proof.
  revert p a. induction bl1 as [|[bs fr] bl1 IH]; intros p a; simpl.
  - rewrite Z.add_0_r. split; [intros H; by exists p|by intros (pm & -> & H)].
  - rewrite IH. replace (a + (32 + bs + span bl1)) with (a + 32 + bs + span bl1) by lia.
    destruct bl1 as [|b1 bl1]; simpl.
    + rewrite Z.add_0_r. split.
      * intros (Hm & pm & -> & H). exists a. split; [|done]. split; [|done].
        destruct bl2; [done|]. done.
      * intros (pm & [Hm ->] & H). split; [destruct bl2; done|]. by exists a.
    + split; [intros (Hm & pm & H1 & H2)|intros (pm & [Hm H1] & H2)]; eauto.
Qed.

Lemma seg_frame m m' p a bl p' nx :
  sizes_ok bl -> seg m p a bl p' nx ->
  (forall x, a <= x < a + span bl -> m' !! x = m !! x) -> seg m' p a bl p' nx.
Proof.
  revert p a. induction bl as [|[bs fr] bl IH]; intros p a Hok Hs Hm; [done|].
  apply Forall_cons in Hok as [[Hb _] Hok]. simpl in *. destruct Hs as [Ha Hs].
  pose proof (span_pos bl Hok). split; [rewrite Hm; [done|lia]|].
  apply IH; [done|done|]. intros x Hx. apply Hm. lia.
Qed.

Lemma seg_lookup m p a pre bs fr post p' nx :
  seg m p a (pre ++ (bs, fr) :: post) p' nx ->
  exists pm, m !! (a + span pre) =
    Some (HeapBlock bs fr pm (match post with [] => nx | _ => a + span pre + 32 + bs end)) /\
    (pre = [] -> pm = p) /\
    (forall pre' bs' fr', pre = pre' ++ [(bs', fr')] -> pm = a + span pre').
Proof.
  intros (pm & H1 & H2)%seg_app. exists pm. split; [apply H2|]. split.
  - intros ->. apply H1.
  - intros pre' bs' fr' ->. apply seg_app in H1 as (pm' & _ & _ & ->). done.
Qed.

(** The last block of a segment. *)
Lemma seg_last m p a bl bs fr p' nx :
  seg m p a (bl ++ [(bs, fr)]) p' nx -> p' = a + span bl.
Proof. intros (pm & _ & _ & ->)%seg_app. done. Qed.

(** Replacing the middle of the list: outside it only the back link of the block
    that follows may change. *)
Lemma seg_replace m m' a pre mid mid' post p' pm pm' :
  sizes_ok pre -> sizes_ok mid -> sizes_ok post -> mid <> [] -> mid' <> [] ->
  span mid' = span mid ->
  seg m 0 a (pre ++ mid ++ post) p' 0 ->
  seg m 0 a pre pm (a + span pre) ->
  seg m' pm (a + span pre) mid' pm' (match post with [] => 0 | _ => a + span pre + span mid end) ->
  (forall x, ~ (a + span pre <= x < a + span pre + span mid) ->
     (x = a + span pre + span mid -> post = []) -> m' !! x = m !! x) ->
  (forall b, post <> [] -> m !! (a + span pre + span mid) = Some b ->
     m' !! (a + span pre + span mid) = Some (b <| prev := pm' |>)) ->
  seg m' 0 a (pre ++ mid' ++ post) (match post with [] => pm' | _ => p' end) 0.
Proof.
  intros Hpre Hmid Hpost Hne Hne' Hspan Hall Hs Hs' Hout Hback.
  pose proof (span_pos _ Hpre). pose proof (span_pos _ Hmid).
  apply seg_app. exists pm. split.
  { destruct mid'; [done|]. eapply seg_frame; [done|done|]. intros x Hx. apply Hout; lia. }
  apply seg_app. exists pm'. rewrite Hspan. split; [done|].
  rewrite app_assoc in Hall. apply seg_app in Hall as (q & _ & Hall).
  rewrite span_app in Hall. destruct post as [|[bs fr] post]; [done|].
  replace (a + (span pre + span mid)) with (a + span pre + span mid) in Hall by lia.
  destruct Hall as [Hhead Htail]. apply Forall_cons in Hpost as [[Hb _] Hpost]. split.
  - by rewrite (Hback _ ltac:(done) Hhead).
  - eapply seg_frame; [done|done|]. simpl in Hb. intros x Hx. apply Hout; lia.
Qed.

(** The heap holds [bl]. *)
Record heap_rep s bl : Prop := {
  rep_seg : seg (blocks s) 0 HEAP_BASE bl (heap_last s) 0;
  rep_first : heap_first s = (match bl with [] => 0 | _ => HEAP_BASE end);
  rep_end : heap_end s = HEAP_BASE + span bl;
  rep_bound : heap_end s <= 18446744073709547520; (* 2^64 - PAGE_SIZE *)
  rep_sizes : sizes_ok bl
}.

(** What an operation on the list leaves alone. *)
Definition same_env s s' : Prop :=
  pages s' = pages s /\ payload s' = payload s /\ heap_ready s' = heap_ready s /\
  heap_end s' = heap_end s.
End rep.

Section operations.
Context {S : Type} `{PageApi S}.
Implicit Types (s : heap_state S) (bl pre post : list blk).

Lemma block_at_run s a b : blocks s !! a = Some b -> block_at a s = Ret b s.
Proof. intros E. unfold block_at, deref. by rewrite E. Qed.

Lemma set_block_run s a f b :
  blocks s !! a = Some b -> set_block a f s = Ret tt (s <| blocks ::= <[a := f b]> |>).
Proof. intros E. unfold set_block. mrun (block_at_run s a b E). done. Qed.

Lemma sizes_ok_app bl1 bl2 : sizes_ok (bl1 ++ bl2) <-> sizes_ok bl1 /\ sizes_ok bl2.
Proof. apply Forall_app. Qed.

Lemma heap_rep_sizes s pre bs fr post :
  heap_rep s (pre ++ (bs, fr) :: post) ->
  sizes_ok pre /\ (0 < bs /\ bs mod 16 = 0) /\ sizes_ok post.
Proof.
  intros Hr. pose proof (rep_sizes _ _ Hr) as Hs. apply sizes_ok_app in Hs as [H1 H2].
  by apply Forall_cons in H2 as [H2 H3].
Qed.

(** Where the block after [pre] is. *)
Definition addr_after pre : Z := HEAP_BASE + span pre.

(** Everything known of a block in the middle of the list. *)
Lemma heap_rep_block s pre bs fr post :
  heap_rep s (pre ++ (bs, fr) :: post) ->
  exists pm, blocks s !! addr_after pre =
    Some (HeapBlock bs fr pm (match post with [] => 0 | _ => addr_after pre + 32 + bs end)) /\
    seg (blocks s) 0 HEAP_BASE pre pm (addr_after pre) /\
    HEAP_BASE <= addr_after pre /\ addr_after pre + 32 + bs + span post <= 18446744073709547520 /\
    0 <= span post /\
    (heap_last s = match post with [] => addr_after pre | _ => heap_last s end).
Proof.
  intros Hr. destruct (heap_rep_sizes _ _ _ _ _ Hr) as (H1 & [H2 _] & H3).
  pose proof (span_pos _ H1). pose proof (span_pos _ H3).
  pose proof (rep_bound _ _ Hr) as Hb. rewrite (rep_end _ _ Hr), span_app in Hb. simpl in Hb.
  pose proof (rep_seg _ _ Hr) as Hs. apply seg_app in Hs as (pm & Hs1 & Hs2).
  exists pm. unfold addr_after. split_and!; [apply Hs2|apply Hs1|lia|lia|lia|].
  destruct post; [|done]. destruct Hs2 as [_ ->]. done.
Qed.

(** Replacing the blocks [mid] of the list by [mid'], in the store. *)
Lemma heap_rep_replace s s' pre mid mid' post pm pm' :
  heap_rep s (pre ++ mid ++ post) -> mid <> [] -> mid' <> [] -> span mid' = span mid ->
  sizes_ok mid' ->
  seg (blocks s) 0 HEAP_BASE pre pm (addr_after pre) ->
  seg (blocks s') pm (addr_after pre) mid' pm'
    (match post with [] => 0 | _ => addr_after pre + span mid end) ->
  (forall x, ~ (addr_after pre <= x < addr_after pre + span mid) ->
     (x = addr_after pre + span mid -> post = []) -> blocks s' !! x = blocks s !! x) ->
  (forall b, post <> [] -> blocks s !! (addr_after pre + span mid) = Some b ->
     blocks s' !! (addr_after pre + span mid) = Some (b <| prev := pm' |>)) ->
  heap_last s' = (match post with [] => pm' | _ => heap_last s end) ->
  heap_first s' = heap_first s -> heap_end s' = heap_end s ->
  heap_rep s' (pre ++ mid' ++ post).
Proof.
  intros Hr Hne Hne' Hspan Hok Hs1 Hs2 Hout Hback Hlast Hfirst Hend.
  pose proof (rep_sizes _ _ Hr) as Hsz. apply sizes_ok_app in Hsz as [Hpre Hsz].
  apply sizes_ok_app in Hsz as [Hmid Hpost]. split.
  - rewrite Hlast. exact (seg_replace _ _ _ _ _ _ _ _ _ _ Hpre Hmid Hpost Hne Hne' Hspan
      (rep_seg _ _ Hr) Hs1 Hs2 Hout Hback).
  - rewrite Hfirst, (rep_first _ _ Hr). by destruct pre, mid, mid'.
  - rewrite Hend, (rep_end _ _ Hr), !span_app, Hspan. done.
  - rewrite Hend. apply Hr.
  - rewrite !sizes_ok_app. done.
Qed.

(** The header after a block, and its back link. *)
Lemma heap_rep_next s pre bs fr bs2 fr2 post :
  heap_rep s (pre ++ (bs, fr) :: (bs2, fr2) :: post) ->
  blocks s !! (addr_after pre + 32 + bs) =
  Some (HeapBlock bs2 fr2 (addr_after pre)
          (match post with [] => 0 | _ => addr_after pre + 32 + bs + 32 + bs2 end)).
Proof.
  intros Hr. pose proof (rep_seg _ _ Hr) as Hs.
  replace (pre ++ (bs, fr) :: (bs2, fr2) :: post)
    with ((pre ++ [(bs, fr)]) ++ (bs2, fr2) :: post) in Hs by by rewrite <- app_assoc.
  apply seg_lookup in Hs as (pm & Hl & _ & Hp). rewrite span_app in Hl. simpl in Hl.
  unfold addr_after. rewrite (Hp pre bs fr eq_refl) in Hl.
  by replace (HEAP_BASE + (span pre + (32 + bs + 0))) with (HEAP_BASE + span pre + 32 + bs) in Hl by lia.
Qed.

(** Setting the [free] flag of a block. *)
Lemma set_free_run s pre bs fr post fr' :
  heap_rep s (pre ++ (bs, fr) :: post) ->
  exists s', set_block (addr_after pre) (fun b => b <| free := fr' |>) s = Ret tt s' /\
    heap_rep s' (pre ++ (bs, fr') :: post) /\ same_env s s'.
Proof.
  intros Hr. destruct (heap_rep_block _ _ _ _ _ Hr) as (pm & Hb & Hs & _ & _ & _ & Hl).
  destruct (heap_rep_sizes _ _ _ _ _ Hr) as (_ & [Hbs Hmod] & _).
  rewrite (set_block_run _ _ _ _ Hb). eexists. split; [done|]. split; [|done].
  apply (heap_rep_replace s _ pre [(bs, fr)] [(bs, fr')] post pm (addr_after pre)); try done.
  - by repeat constructor.
  - simpl. rewrite lookup_insert_eq. simpl. split; [|done]. destruct post; [done|].
    do 2 f_equal. lia.
  - simpl. intros x Hx _. by rewrite lookup_insert_ne by lia.
  - simpl. intros b Hpost. rewrite lookup_insert_ne by lia.
    replace (addr_after pre + (32 + bs + 0)) with (addr_after pre + 32 + bs) by lia.
    destruct post as [|[bs2 fr2] post]; [done|]. rewrite (heap_rep_next _ _ _ _ _ _ _ Hr).
    by intros [= <-].
Qed.

(** Lookups after stores at addresses arithmetic tells apart. *)
Ltac blocks_simpl :=
  simpl; repeat first [rewrite lookup_insert_eq | rewrite lookup_insert_ne by lia]; simpl.

(** The header after the block that follows. *)
Lemma heap_rep_next2 s pre bs fr bs2 fr2 bs3 fr3 post :
  heap_rep s (pre ++ (bs, fr) :: (bs2, fr2) :: (bs3, fr3) :: post) ->
  exists q n, blocks s !! (addr_after pre + 32 + bs + 32 + bs2) = Some (HeapBlock bs3 fr3 q n).
Proof.
  intros Hr. replace (pre ++ (bs, fr) :: (bs2, fr2) :: (bs3, fr3) :: post)
    with ((pre ++ [(bs, fr)]) ++ (bs2, fr2) :: (bs3, fr3) :: post) in Hr by by rewrite <- app_assoc.
  apply heap_rep_next in Hr. unfold addr_after in *. rewrite span_app in Hr. simpl in Hr.
  replace (HEAP_BASE + (span pre + (32 + bs + 0))) with (HEAP_BASE + span pre + 32 + bs) in Hr by lia.
  eauto.
Qed.

(** What the stores of a merge, and of a split, amount to. *)
Lemma merge_rep s s' pre bs fr bs2 post pm :
  heap_rep s (pre ++ (bs, fr) :: (bs2, true) :: post) ->
  seg (blocks s) 0 HEAP_BASE pre pm (addr_after pre) ->
  same_env s s' -> heap_first s' = heap_first s ->
  blocks s' !! addr_after pre = Some (HeapBlock (bs + 32 + bs2) fr pm
    (match post with [] => 0 | _ => addr_after pre + 32 + bs + 32 + bs2 end)) ->
  (forall x, x <> addr_after pre ->
    (x = addr_after pre + 32 + bs + 32 + bs2 -> post = []) -> blocks s' !! x = blocks s !! x) ->
  (forall b, post <> [] -> blocks s !! (addr_after pre + 32 + bs + 32 + bs2) = Some b ->
    blocks s' !! (addr_after pre + 32 + bs + 32 + bs2) = Some (b <| prev := addr_after pre |>)) ->
  heap_last s' = (match post with [] => addr_after pre | _ => heap_last s end) ->
  heap_rep s' (pre ++ (bs + 32 + bs2, fr) :: post) /\ same_env s s'.
Proof.
  intros Hr Hs (E1 & E2 & E3 & E4) E5 Hat Hout Hback Hlast. split; [|done].
  destruct (heap_rep_sizes _ _ _ _ _ Hr) as (_ & [Hbs Hmod] & Hsz).
  apply Forall_cons in Hsz as [[Hbs2 Hmod2] Hsz]. simpl in Hbs2, Hmod2.
  assert (Esp : addr_after pre + span [(bs, fr); (bs2, true)] = addr_after pre + 32 + bs + 32 + bs2)
    by (simpl; lia).
  apply (heap_rep_replace s s' pre [(bs, fr); (bs2, true)] [(bs + 32 + bs2, fr)] post pm (addr_after pre));
    rewrite ?Esp; try done.
  - simpl. lia.
  - constructor; [|done]. simpl. split; [lia|]. div_lia.
  - intros x Hx Hx'. apply Hout; [lia|done].
Qed.

Lemma split_rep s s' pre bs fr post pm sz :
  heap_rep s (pre ++ (bs, fr) :: post) ->
  seg (blocks s) 0 HEAP_BASE pre pm (addr_after pre) ->
  0 < sz -> sz mod 16 = 0 -> sz + 48 <= bs ->
  same_env s s' -> heap_first s' = heap_first s ->
  blocks s' !! addr_after pre = Some (HeapBlock sz fr pm (addr_after pre + 32 + sz)) ->
  blocks s' !! (addr_after pre + 32 + sz) = Some (HeapBlock (bs - sz - 32) true (addr_after pre)
    (match post with [] => 0 | _ => addr_after pre + 32 + bs end)) ->
  (forall x, x <> addr_after pre -> x <> addr_after pre + 32 + sz ->
    (x = addr_after pre + 32 + bs -> post = []) -> blocks s' !! x = blocks s !! x) ->
  (forall b, post <> [] -> blocks s !! (addr_after pre + 32 + bs) = Some b ->
    blocks s' !! (addr_after pre + 32 + bs) = Some (b <| prev := addr_after pre + 32 + sz |>)) ->
  heap_last s' = (match post with [] => addr_after pre + 32 + sz | _ => heap_last s end) ->
  heap_rep s' (pre ++ [(sz, fr); (bs - sz - 32, true)] ++ post) /\ same_env s s'.
Proof.
  intros Hr Hs Hsz Hszm Hle (E1 & E2 & E3 & E4) E5 Hat Hat2 Hout Hback Hlast. split; [|done].
  destruct (heap_rep_sizes _ _ _ _ _ Hr) as (_ & [Hbs Hmod] & _).
  assert (Esp : addr_after pre + span [(bs, fr)] = addr_after pre + 32 + bs) by (simpl; lia).
  apply (heap_rep_replace s s' pre [(bs, fr)] [(sz, fr); (bs - sz - 32, true)] post pm
    (addr_after pre + 32 + sz)); rewrite ?Esp; try done.
  - simpl. lia.
  - repeat constructor; simpl; try lia. div_lia.
  - intros x Hx Hx'. apply Hout; [lia|lia|done].
Qed.

(** Merging with a free block that follows. *)
Lemma block_merge_next_run s pre bs fr post :
  heap_rep s (pre ++ (bs, fr) :: post) ->
  exists s', block_merge_next (addr_after pre) s = Ret tt s' /\
    heap_rep s' (pre ++ match post with
                        | (bs2, true) :: post' => (bs + 32 + bs2, fr) :: post'
                        | _ => (bs, fr) :: post
                        end) /\ same_env s s'.
Proof.
  intros Hr. destruct (heap_rep_block _ _ _ _ _ Hr) as (pm & Hb & Hs & Hlo & Hhi & _ & _).
  destruct (heap_rep_sizes _ _ _ _ _ Hr) as (_ & [Hbs Hmod] & Hsz).
  unfold block_merge_next. mrun (block_at_run _ _ _ Hb). cbn [next].
  destruct post as [|[bs2 fr2] post]; [by exists s|].
  pose proof (heap_rep_next _ _ _ _ _ _ _ Hr) as Hn.
  apply Forall_cons in Hsz as [[Hbs2 Hmod2] Hsz]. simpl in Hbs2, Hmod2, Hhi.
  pose proof (span_pos _ Hsz).
  assert (HB : 0 < HEAP_BASE) by done.
  rewrite bool_decide_eq_false_2 by lia. mrun (block_at_run _ _ _ Hn). cbn [free].
  destruct fr2; cbn [negb]; [|by exists s].
  assert (Ew : wrap64 (bs + wrap64 (sizeof_heap_block + bs2)) = bs + 32 + bs2).
  { unfold sizeof_heap_block. rewrite !wrap64_id; unfold in64; try lia.
    rewrite wrap64_id; unfold in64; lia. }
  mrun (set_block_run _ _ (fun b => b <| size := wrap64 (size b + wrap64 (sizeof_heap_block + bs2)) |>) _ Hb).
  cbn [size next]. rewrite Ew.
  erewrite (bind_run (set_block _ _)) by (apply set_block_run; blocks_simpl; reflexivity).
  destruct post as [|[bs3 fr3] post].
  - mred. eexists. split; [done|]. apply (merge_rep s _ pre bs fr bs2 _ pm Hr Hs); try done; blocks_simpl; try done.
    intros x Hx _. by rewrite !lookup_insert_ne by done.
  - destruct (heap_rep_next2 _ _ _ _ _ _ _ _ _ Hr) as (q & n & H3).
    rewrite bool_decide_eq_false_2 by lia. cbn [negb].
    erewrite set_block_run by (blocks_simpl; exact H3).
    eexists. split; [done|]. apply (merge_rep s _ pre bs fr bs2 _ pm Hr Hs); try done; blocks_simpl; try done.
    + intros x Hx Hx'. rewrite !lookup_insert_ne; try done. intros <-. naive_solver.
    + intros b _ Hb'. rewrite H3 in Hb'. by injection Hb' as <-.
Qed.

(** Splitting a block leaves a free block after it, when there is room for one. *)
Lemma block_split_run s pre bs fr post sz :
  heap_rep s (pre ++ (bs, fr) :: post) -> 0 < sz -> sz mod 16 = 0 -> sz <= bs ->
  exists s', block_split (addr_after pre) sz s = Ret tt s' /\
    heap_rep s' (pre ++ (if bool_decide (bs < sz + 48) then [(bs, fr)]
                         else [(sz, fr); (bs - sz - 32, true)]) ++ post) /\ same_env s s'.
Proof.
  intros Hr Hsz0 Hszm Hle.
  destruct (heap_rep_block _ _ _ _ _ Hr) as (pm & Hb & Hs & Hlo & Hhi & Hsp & Hl).
  destruct (heap_rep_sizes _ _ _ _ _ Hr) as (_ & [Hbs Hmod] & _).
  assert (HB : HEAP_BASE = 18446743111636877312) by done.
  unfold block_split. mrun (block_at_run _ _ _ Hb). cbn [size].
  unfold sizeof_heap_block, HEAP_ALIGNMENT.
  rewrite (wrap64_id (sz + 32)) by (unfold in64; lia).
  rewrite (wrap64_id (sz + 32 + 16)) by (unfold in64; lia).
  replace (sz + 32 + 16) with (sz + 48) by lia. case_bool_decide as Hc; [by exists s|].
  rewrite (wrap64_id (addr_after pre + 32 + sz)) by (unfold in64; lia).
  rewrite (wrap64_id (bs - sz)) by (unfold in64; lia).
  rewrite (wrap64_id (bs - sz - 32)) by (unfold in64; lia).
  unfold poke. mred. set (nx := addr_after pre + 32 + sz). simpl.
  rewrite insert_insert_eq, lookup_insert_eq. simpl.
  assert (Hnx : nx <> addr_after pre) by (unfold nx; lia).
  erewrite (bind_run (set_block _ _)) by
    (apply set_block_run; simpl; rewrite lookup_insert_ne by done; exact Hb).
  unfold block_insert_after. simpl.
  erewrite (bind_run (set_block _ _)) by
    (apply set_block_run; simpl; rewrite lookup_insert_ne by done;
     rewrite lookup_insert_eq; reflexivity).
  erewrite (bind_run (block_at _)) by
    (apply block_at_run; simpl; rewrite lookup_insert_ne by done;
     rewrite lookup_insert_eq; reflexivity).
  erewrite (bind_run (set_block _ _)) by
    (apply set_block_run; simpl; rewrite lookup_insert_eq; reflexivity).
  destruct post as [|[bs2 fr2] post].
  - rewrite bool_decide_eq_true_2 by done. cbn [negb]. mred.
    erewrite set_block_run by
      (simpl; rewrite !(lookup_insert_ne _ nx) by done; rewrite lookup_insert_eq; reflexivity).
    eexists. split; [done|]. apply (split_rep s _ pre bs fr [] pm sz Hr Hs); try done; try lia;
      fold nx; simpl.
    + by rewrite lookup_insert_eq.
    + rewrite lookup_insert_ne by done. by rewrite lookup_insert_eq.
    + intros x Hx Hx2 _. by rewrite !lookup_insert_ne by done.
  - pose proof (heap_rep_next _ _ _ _ _ _ _ Hr) as Hn. cbn [next].
    rewrite bool_decide_eq_false_2 by lia. cbn [negb].
    assert (Hne1 : nx <> addr_after pre + 32 + bs) by (unfold nx; lia).
    assert (Hne2 : addr_after pre <> addr_after pre + 32 + bs) by lia.
    erewrite (bind_run (set_block _ _)) by
      (apply set_block_run; simpl; rewrite !lookup_insert_ne by done; exact Hn).
    erewrite set_block_run by
      (simpl; rewrite !(lookup_insert_ne _ _ (addr_after pre)) by done;
       rewrite lookup_insert_eq; reflexivity).
    eexists. split; [done|]. apply (split_rep s _ pre bs fr _ pm sz Hr Hs); try done; try lia;
      fold nx; simpl.
    + by rewrite lookup_insert_eq.
    + rewrite !(lookup_insert_ne _ _ nx) by done. by rewrite lookup_insert_eq.
    + intros x Hx Hx2 Hx3. rewrite !lookup_insert_ne; try done. intros <-. by specialize (Hx3 eq_refl).
    + intros b _ Hb'. rewrite Hn in Hb'. injection Hb' as <-.
      rewrite lookup_insert_ne by done. by rewrite lookup_insert_eq.
Qed.

(** ** First fit *)

Definition fits (sz : Z) (b : blk) : bool := b.2 && bool_decide (b.1 >= sz).

Lemma find_loop_step s sz a b :
  a <> 0 -> blocks s !! a = Some b ->
  find_loop sz a s = Ret (if fits sz (size b, free b) then inr a else inl (next b)) s.
Proof.
  intros Ha Hb. unfold find_loop. rewrite bool_decide_eq_false_2 by done.
  mrun (block_at_run _ _ _ Hb). unfold fits. simpl. by destruct (free b && _).
Qed.

Lemma find_loop_run s sz fuel : forall pre post,
  heap_rep s (pre ++ post) -> (length post < fuel)%nat ->
  exists r, loop fuel (find_loop sz) (match post with [] => 0 | _ => addr_after pre end) s = Ret r s /\
    ((r = 0 /\ Forall (fun b => fits sz b = false) post) \/
     exists p1 bs p2, post = p1 ++ (bs, true) :: p2 /\ bs >= sz /\
       Forall (fun b => fits sz b = false) p1 /\ r = addr_after (pre ++ p1)).
Proof.
  induction fuel as [|fuel IH]; intros pre post Hr Hf; [lia|].
  rewrite loop_S. destruct post as [|[bs fr] post].
  { exists 0. split; [done|by left]. }
  destruct (heap_rep_block _ _ _ _ _ Hr) as (pm & Hb & _ & Hlo & _).
  assert (HB : 0 < HEAP_BASE) by done.
  erewrite bind_run by (apply find_loop_step; [|exact Hb]; lia). cbn [size free next].
  destruct (fits sz (bs, fr)) eqn:Hfit.
  - apply andb_true_iff in Hfit as [Hfr Hbs%bool_decide_eq_true_1]. simpl in Hfr. subst fr.
    eexists. split; [done|]. right. exists [], bs, post. by rewrite app_nil_r.
  - destruct (IH (pre ++ [(bs, fr)]) post) as (r & E & Hres);
      [by rewrite <- app_assoc|simpl in Hf; lia|].
    assert (Ea : addr_after (pre ++ [(bs, fr)]) = addr_after pre + 32 + bs).
    { unfold addr_after. rewrite span_app. simpl. lia. }
    rewrite Ea in E. exists r. split; [done|].
    destruct Hres as [[-> Hno]|(p1 & bs1 & p2 & -> & Hge & Hno & ->)].
    + left. split; [done|]. by constructor.
    + right. exists ((bs, fr) :: p1), bs1, p2. split_and!; [done|done|by constructor|].
      by rewrite <- app_assoc.
Qed.

Lemma length_span bl : sizes_ok bl -> 32 * Z.of_nat (length bl) <= span bl.
Proof.
  induction bl as [|[bs fr] bl IH]; simpl; [lia|]. intros [[Hb _] Hok]%Forall_cons.
  simpl in Hb. specialize (IH Hok). lia.
Qed.

Lemma find_free_block_run s sz bl :
  heap_rep s bl ->
  exists r, find_free_block sz s = Ret r s /\
    ((r = 0 /\ Forall (fun b => fits sz b = false) bl) \/
     exists pre bs post, bl = pre ++ (bs, true) :: post /\ bs >= sz /\
       Forall (fun b => fits sz b = false) pre /\ r = addr_after pre).
Proof.
  intros Hr. unfold find_free_block. mred. rewrite (rep_first _ _ Hr), (rep_end _ _ Hr).
  replace (HEAP_BASE + span bl - HEAP_BASE) with (span bl) by lia.
  pose proof (length_span bl (rep_sizes _ _ Hr)).
  destruct (find_loop_run s sz (Datatypes.S (Z.to_nat (span bl / sizeof_heap_block))) [] bl Hr)
    as (r & E & Hres).
  { unfold sizeof_heap_block. apply Nat.lt_succ_r. apply Nat2Z.inj_le.
    rewrite Z2Nat.id; [|apply Z.div_pos; lia]. apply Z.div_le_lower_bound; lia. }
  exists r. split; [|done]. rewrite <- E. unfold addr_after. simpl. by rewrite Z.add_0_r.
Qed.
End operations.

(** ** Getting memory *)

Section extend.
Context {S : Type} `{PageApiSpec S}.
Implicit Types (s : heap_state S) (bl pre post : list blk).

Lemma on_pages_run {A} (m : M S A) s a t :
  m (pages s) = Ret a t -> on_pages m s = Ret a (s <| pages := t |>).
Proof. intros E. unfold on_pages. by erewrite zoom_run by exact E. Qed.

Definition is_mapped (t : S) (va : Z) : Prop := is_Some (entry_of t va).

(** No page of the kernel's half is ever unmapped by the heap. *)
Definition keeps_mapped (t t' : S) : Prop :=
  forall va, window va -> is_mapped t va -> is_mapped t' va.

(** No page beyond the heap's end is mapped. *)
Definition unclaimed (s : heap_state S) : Prop :=
  forall va, heap_end s <= va < 18446744073709551616 -> va mod 4096 = 0 -> ~ is_mapped (pages s) va.

(** At most [n] page frames were taken, and no page from [e] on was mapped. *)
Definition took (n : Z) (e : Z) (t t' : S) : Prop :=
  Z.of_nat (avail t) - n <= Z.of_nat (avail t') /\
  forall va, e <= va < 18446744073709551616 -> va mod 4096 = 0 -> is_mapped t' va -> is_mapped t va.

Lemma heap_vpn va va' :
  HEAP_BASE <= va < 18446744073709551616 -> HEAP_BASE <= va' < 18446744073709551616 ->
  va mod 4096 = 0 -> va' mod 4096 = 0 -> vpn va = vpn va' -> va = va'.
Proof.
  unfold HEAP_BASE. intros H1 H2 H3 H4 E%vpn_page_number. change (2 ^ 36) with 68719476736 in E.
  div_lia.
Qed.

(** What [api_map_law] says of the set of mapped pages. *)
Lemma map_effect (t t' : S) cur p flags r :
  HEAP_BASE <= cur < 18446744073709551616 -> cur mod 4096 = 0 ->
  match entry_of t cur with
  | Some _ => r = - EEXIST /\ t' = t
  | None => (r = 0 \/ r = - ENOMEM /\ (avail t < 3)%nat) /\
      forall va', window va' ->
        entry_of t' va' = if bool_decide (r = 0 /\ vpn va' = vpn cur)
                          then Some (leaf_entry p flags) else entry_of t va'
  end ->
  keeps_mapped t t' /\
  (r = 0 -> is_mapped t' cur /\ ~ is_mapped t cur /\
     forall va, HEAP_BASE <= va < 18446744073709551616 -> va mod 4096 = 0 -> va <> cur ->
       is_mapped t' va -> is_mapped t va) /\
  (r <> 0 -> is_mapped t cur \/ (avail t < 3)%nat).
Proof.
  intros Hcur Hal Hr. pose proof (heap_window cur Hcur) as Hw. unfold keeps_mapped, is_mapped.
  destruct (entry_of t cur) as [en|] eqn:Hen.
  { destruct Hr as [-> ->]. split_and!; [done|done|]. intros _. by left. }
  destruct Hr as [Hr Htr]. split_and!.
  - intros va Hva Hm. rewrite Htr by done. by case_bool_decide.
  - intros ->. split_and!.
    + rewrite Htr by done. by rewrite bool_decide_eq_true_2.
    + by intros [? ?].
    + intros va Hva Hvaa Hne. rewrite Htr by by apply heap_window.
      rewrite bool_decide_eq_false_2; [done|].
      intros [_ Ev]. apply Hne. by eapply heap_vpn.
  - intros Hne. destruct Hr as [?|[_ Hlt]]; [done|]. by right.
Qed.

(** One round of the mapping loop. *)
Lemma map_loop_step s held e cur :
  api_ok held (pages s) -> HEAP_BASE <= cur < e -> cur mod 4096 = 0 -> e <= 18446744073709547520 ->
  exists r t, map_loop e cur s = Ret r (s <| pages := t |>) /\ keeps_mapped (pages s) t /\
    (exists held', api_ok held' t) /\
    match r with
    | inl cur' => cur' = cur + 4096 /\ is_mapped t cur /\ ~ is_mapped (pages s) cur /\
        (avail (pages s) - 4 <= avail t)%nat /\
        (forall va, HEAP_BASE <= va < 18446744073709551616 -> va mod 4096 = 0 -> va <> cur ->
           is_mapped t va -> is_mapped (pages s) va)
    | inr ret => ret <> 0 /\ (is_mapped (pages s) cur \/ (avail (pages s) < 4)%nat)
    end.
Proof.
  intros Hok Hcur Hal He. unfold map_loop. rewrite bool_decide_eq_true_2 by lia. cbn [negb].
  destruct (api_alloc_law held (pages s) Hok) as (p & t1 & E1 & Ht1 & Hp).
  mrun (on_pages_run _ _ _ _ E1).
  assert (Hw : window cur) by (apply heap_window; lia).
  destruct (avail (pages s)) as [|n] eqn:Hav.
  { destruct Hp as (-> & Hok1 & _). eexists (inr _), t1. split; [done|].
    split_and!; [|by eauto|done|right; lia].
    intros va Hva. unfold is_mapped. by rewrite Ht1. }
  destruct Hp as (Hp0 & Hpa & Hph & Hok1 & Hav1). rewrite bool_decide_eq_false_2 by done.
  destruct (api_map_law _ t1 cur p (Z.lor PAGE_WRITABLE PAGE_NO_EXECUTE) Hok1 Hpa Hw Hal)
    as (r & t2 & E2 & Hok2 & Hav2 & Hr).
  mrun (on_pages_run _ (s <| pages := t1 |>) _ _ E2). simpl.
  assert (Hsame : forall va, window va -> is_mapped t1 va <-> is_mapped (pages s) va).
  { intros va Hva. unfold is_mapped. by rewrite Ht1. }
  destruct (map_effect t1 t2 cur p _ r ltac:(lia) Hal Hr) as (Hkeep & Hz & Hnz).
  destruct (decide (r = 0)) as [->|Hr0].
  - rewrite bool_decide_eq_true_2 by done. cbn [negb]. eexists (inl _), t2. split; [done|].
    destruct (Hz eq_refl) as (Hm & Hn & Hother). unfold PAGE_SIZE.
    split_and!; [|by eauto| |done|by rewrite <- Hsame|lia|].
    + intros va Hva Hmv. apply Hkeep; [done|]. by apply Hsame.
    + apply wrap64_id. unfold in64. unfold HEAP_BASE in Hcur. lia.
    + intros va Hva Hvaa Hne Hmv. apply Hsame; [by apply heap_window|]. by apply Hother.
  - rewrite bool_decide_eq_false_2 by done. cbn [negb].
    destruct (api_free_law _ t2 p Hok2 Hph Hp0 Hpa) as (t3 & E3 & Hok3 & Hav3 & Ht3).
    mrun (on_pages_run _ (s <| pages := t1 |> <| pages := t2 |>) _ _ E3).
    eexists (inr _), t3. split; [done|]. split_and!; [|by eauto|done|].
    + intros va Hva Hm. unfold is_mapped. rewrite Ht3 by done. apply Hkeep; [done|]. by apply Hsame.
    + rewrite <- Hsame by done. destruct (Hnz Hr0); [by left|right; lia].
Qed.

(** The whole range: on success every page of it is mapped and was not before; on
    failure one was mapped already or memory ran out. *)
Lemma map_range_run n : forall s held e cur fuel,
  api_ok held (pages s) -> HEAP_BASE <= cur -> cur mod 4096 = 0 -> e = cur + 4096 * Z.of_nat n ->
  e <= 18446744073709547520 -> (n < fuel)%nat ->
  exists r t, loop fuel (map_loop e) cur s = Ret r (s <| pages := t |>) /\
    keeps_mapped (pages s) t /\ (exists held', api_ok held' t) /\
    (r = 0 -> forall va, cur <= va < e -> va mod 4096 = 0 -> is_mapped t va) /\
    (r = 0 -> (0 < n)%nat -> ~ is_mapped (pages s) cur) /\
    (r = 0 -> took (4 * Z.of_nat n) e (pages s) t) /\
    (r <> 0 -> (exists va, cur <= va < e /\ va mod 4096 = 0 /\ is_mapped (pages s) va) \/
               (avail (pages s) < 4 * n)%nat).
Proof.
  induction n as [|n IH]; intros s held e cur fuel Hok Hlo Hal He Hhi Hf;
    (destruct fuel as [|fuel]; [lia|]); rewrite loop_S.
  { erewrite bind_run by (unfold map_loop; rewrite bool_decide_eq_false_2 by lia; reflexivity).
    exists 0, (pages s). split; [by destruct s|]. split_and!; [by intros ???|by eauto|intros; lia|lia|by split; [lia|]|by intros []]. }
  destruct (map_loop_step s held e cur Hok ltac:(lia) Hal Hhi) as (r & t & E & Hk & (held1 & Hok1) & Hr).
  mrun E. destruct r as [cur'|ret].
  - destruct Hr as (-> & Hm & Hnm & Hav & Hoth).
    destruct (IH (s <| pages := t |>) held1 e (cur + 4096) fuel) as (r & t' & E' & Hk' & Hok' & Hz & _ & Ht & Hnz);
      [done|lia|div_lia|lia|lia|lia|]. rewrite E'. exists r, t'. split; [done|]. simpl in *.
    split_and!; [|done| |done| |].
    + intros va Hw Hva. by apply Hk', Hk.
    + intros Hr va Hva Hvaa. destruct (decide (va = cur)) as [->|].
      * apply Hk'; [apply heap_window; lia|done].
      * apply Hz; [done| |done]. clear -Hva Hvaa Hal n0. div_lia.
    + intros Hr. destruct (Ht Hr) as [Ht1 Ht2]. split; [lia|]. intros va Hva Hvaa Hm'. apply Hoth; [lia|done|lia|]. by apply Ht2.
    + intros Hr. destruct (Hnz Hr) as [(va & Hva & Hvaa & Hvm)|]; [|right; lia].
      left. exists va. split_and!; [lia|lia|done|]. apply Hoth; [lia|done|lia|done].
  - destruct Hr as [Hr0 Hr]. exists ret, t. split_and!; [done|done|by eauto|done|done|done|].
    intros _. destruct Hr; [left|right; lia]. exists cur. split_and!; [lia|lia|done|done].
Qed.

Lemma align_up_size_spec v k :
  0 <= v -> 0 <= k < 64 -> v + 2 ^ k - 1 < 18446744073709551616 ->
  align_up_size v (2 ^ k) = (v + 2 ^ k - 1) - (v + 2 ^ k - 1) mod 2 ^ k.
Proof.
  intros Hv Hk Hb. unfold align_up_size.
  assert (0 < 2 ^ k) by (apply Z.pow_pos_nonneg; lia).
  rewrite (wrap64_id (v + 2 ^ k - 1)) by (unfold in64; lia).
  rewrite (wrap64_id (2 ^ k - 1)) by (unfold in64; lia).
  apply land_not_ones; [lia|unfold in64; lia].
Qed.

(** Appending a block at [heap_end]. *)
Lemma seg_append m m' a bl x p :
  sizes_ok bl -> seg m 0 a bl p 0 ->
  m' !! (a + span bl) = Some (HeapBlock x true p 0) ->
  (forall y, a <= y < a + span bl -> y <> p -> m' !! y = m !! y) ->
  (forall b, bl <> [] -> m !! p = Some b -> m' !! p = Some (b <| next := a + span bl |>)) ->
  seg m' 0 a (bl ++ [(x, true)]) (a + span bl) 0.
Proof.
  intros Hok Hs Hnew Hsame Hlast. apply seg_app. exists p. split; [|done].
  destruct bl as [|[bs fr] bl _] using rev_ind; [done|].
  apply sizes_ok_app in Hok as [Hok1 [[Hb _] _]%Forall_cons]. simpl in Hb.
  pose proof (span_pos _ Hok1). rewrite span_app in *. simpl in *.
  pose proof (seg_last _ _ _ _ _ _ _ _ Hs) as Hp.
  apply seg_app in Hs as (pm & Hs1 & Hm & _). apply seg_app. exists pm. split.
  - eapply seg_frame; [done|done|]. intros y Hy. apply Hsame; lia.
  - simpl. split; [|done]. rewrite <- Hp in Hm |- *.
    rewrite (Hlast _ ltac:(by destruct bl) Hm). done.
Qed.

Lemma grow_free bl bs bytes : grow (bl ++ [(bs, true)]) bytes = bl ++ [(bs + bytes, true)].
Proof.
  induction bl as [|[b fr] bl IH]; [done|]. simpl. rewrite IH. by destruct fr, bl.
Qed.

Lemma grow_used bl bs bytes :
  grow (bl ++ [(bs, false)]) bytes = bl ++ [(bs, false); (bytes - 32, true)].
Proof.
  induction bl as [|[b fr] bl IH]; [done|]. simpl. rewrite IH. by destruct fr, bl.
Qed.

(** The stores of [heap_extend] after the mapping, and the merge with a free last
    block. *)
Definition attach (block bytes : Z) : M (heap_state S) Z :=
  modify (fun s => s <| heap_end := wrap64 (heap_end s + bytes) |>) ;;
  poke block (fun b => b <| size := wrap64 (bytes - sizeof_heap_block) |>) ;;
  poke block (fun b => b <| free := true |>) ;;
  last ← gets heap_last;
  poke block (fun b => b <| prev := last |>) ;;
  poke block (fun b => b <| next := 0 |>) ;;
  (if negb (bool_decide (last = 0)) then set_block last (fun l => l <| next := block |>)
   else modify (fun s => s <| heap_first := block |>)) ;;
  modify (fun s => s <| heap_last := block |>) ;;
  b ← block_at block;
  if bool_decide (prev b = 0) then mret 0
  else
    p ← block_at (prev b);
    when (free p) (block_merge_next (prev b)) ;;
    mret 0.

Lemma attach_rep s s' bl bytes :
  heap_rep s bl -> 32 < bytes -> bytes mod 16 = 0 -> heap_end s + bytes <= 18446744073709547520 ->
  heap_end s' = heap_end s + bytes -> heap_last s' = heap_end s ->
  heap_first s' = (match bl with [] => heap_end s | _ => heap_first s end) ->
  blocks s' !! heap_end s = Some (HeapBlock (bytes - 32) true (heap_last s) 0) ->
  (forall y, y <> heap_end s -> (bl <> [] -> y <> heap_last s) -> blocks s' !! y = blocks s !! y) ->
  (forall b, bl <> [] -> blocks s !! heap_last s = Some b ->
     blocks s' !! heap_last s = Some (b <| next := heap_end s |>)) ->
  heap_rep s' (bl ++ [(bytes - 32, true)]).
Proof.
  intros Hr Hb Hbm Hbound E1 E2 E3 Hnew Hsame Hlast. pose proof (rep_end _ _ Hr) as Ee.
  rewrite Ee in *. split.
  - rewrite E2. apply (seg_append (blocks s) _ _ bl _ (heap_last s)); try done; try apply Hr.
    intros y Hy Hyl. apply Hsame; [lia|done].
  - rewrite E3, (rep_first _ _ Hr). destruct bl; [|done]. simpl. lia.
  - rewrite E1, span_app. simpl. lia.
  - lia.
  - apply sizes_ok_app. split; [apply Hr|]. repeat constructor; simpl; [lia|div_lia].
Qed.

Lemma poke_run s a f :
  poke a f s = Ret tt (s <| blocks ::= <[a := f (default (HeapBlock 0 false 0 0) (blocks s !! a))]> |>).
Proof. reflexivity. Qed.

Lemma attach_run s bl bytes :
  heap_rep s bl -> 32 < bytes -> bytes mod 16 = 0 -> heap_end s + bytes <= 18446744073709547520 ->
  exists s', attach (heap_end s) bytes s = Ret 0 s' /\ heap_rep s' (grow bl bytes) /\
    pages s' = pages s /\ payload s' = payload s /\ heap_ready s' = heap_ready s /\
    heap_end s' = heap_end s + bytes.
Proof.
  intros Hr Hb Hbm Hbound. assert (HB : 0 < HEAP_BASE) by done.
  pose proof (rep_end _ _ Hr) as Ee. pose proof (span_pos _ (rep_sizes _ _ Hr)) as Hsp.
  unfold attach, sizeof_heap_block. mred.
  rewrite (wrap64_id (heap_end s + bytes)), (wrap64_id (bytes - 32)) by (unfold in64; lia).
  do 2 (erewrite bind_run by apply poke_run; simpl; rewrite ?lookup_insert_eq, ?insert_insert_eq).
  mred.
  do 2 (erewrite bind_run by apply poke_run; simpl; rewrite ?lookup_insert_eq, ?insert_insert_eq).
  simpl. destruct bl as [|[bs fr] bl _] using rev_ind.
  - assert (El : heap_last s = 0) by apply (rep_seg _ _ Hr).
    rewrite El, bool_decide_eq_true_2 by done. cbn [negb]. mred. simpl.
    erewrite bind_run by (apply block_at_run; simpl; apply lookup_insert_eq).
    rewrite bool_decide_eq_true_2 by done. mred. eexists. split; [done|].
    split; [|done]. apply (attach_rep s _ [] bytes); try done; simpl.
    + by rewrite El, lookup_insert_eq.
    + intros y Hy _. by rewrite lookup_insert_ne.
  - pose proof (seg_last _ _ _ _ _ _ _ _ (rep_seg _ _ Hr)) as El.
    fold (addr_after bl) in El.
    destruct (heap_rep_block _ _ _ _ _ Hr) as (pm & Hm & _ & Hlo & _).
    destruct (heap_rep_sizes _ _ _ _ _ Hr) as (_ & [Hbs _] & _).
    assert (Hne : heap_end s <> addr_after bl).
    { rewrite Ee, span_app. unfold addr_after. simpl. lia. }
    rewrite El, bool_decide_eq_false_2 by lia. cbn [negb].
    erewrite (bind_run (set_block _ _)) by
      (apply set_block_run; simpl; rewrite lookup_insert_ne by done; exact Hm). mred. simpl.
    erewrite bind_run by
      (apply block_at_run; simpl; rewrite lookup_insert_ne by done; apply lookup_insert_eq).
    simpl. rewrite bool_decide_eq_false_2 by lia.
    erewrite bind_run by (apply block_at_run; simpl; apply lookup_insert_eq). simpl.
    set (s1 := HeapState _ _ _ _ _ _ _).
    assert (Hr1 : heap_rep s1 (bl ++ (bs, fr) :: [(bytes - 32, true)])).
    { change (bl ++ (bs, fr) :: [(bytes - 32, true)]) with (bl ++ [(bs, fr)] ++ [(bytes - 32, true)]).
      rewrite app_assoc. apply (attach_rep s _ (bl ++ [(bs, fr)]) bytes); try done; rewrite ?El; simpl.
      - by destruct bl.
      - rewrite lookup_insert_ne by done. by rewrite lookup_insert_eq.
      - intros y Hy Hyl. rewrite !lookup_insert_ne; try done. intros <-. apply Hyl; [by destruct bl|done].
      - intros b _ Hb'. rewrite Hm in Hb'. injection Hb' as <-. by rewrite lookup_insert_eq. }
    destruct fr; mred.
    + destruct (block_merge_next_run s1 bl bs true _ Hr1) as (s2 & E2 & Hr2 & (? & ? & ? & ?)).
      mrun E2. exists s2. split; [done|]. split; [|done]. rewrite grow_free.
      by replace (bs + bytes) with (bs + 32 + (bytes - 32)) by lia.
    + exists s1. split; [done|]. split; [|done]. by rewrite grow_used.
Qed.

(** The bytes [heap_extend] asks for: the request and a header, in whole pages. *)
Definition extent (sz : Z) : Z := (sz + 32 + 4095) - (sz + 32 + 4095) mod 4096.

Lemma extent_spec sz : 0 <= sz -> sz + 32 <= extent sz /\ extent sz mod 4096 = 0 /\ extent sz < sz + 4128.
Proof. intros H1. unfold extent. split_and!; div_lia. Qed.

(** The whole state of the heap: its list, coalesced, whose end is a page boundary,
    with every page of it mapped. *)
Record heap_inv s bl : Prop := {
  inv_rep : heap_rep s bl;
  inv_coalesced : coalesced bl = true;
  inv_end : heap_end s mod 4096 = 0;
  inv_mapped : forall va, HEAP_BASE <= va < heap_end s -> va mod 4096 = 0 -> is_mapped (pages s) va;
  inv_pages : exists held, api_ok held (pages s)
}.

Lemma heap_extend_run s bl sz :
  heap_rep s bl -> heap_end s mod 4096 = 0 -> (exists held, api_ok held (pages s)) ->
  0 < sz -> sz mod 16 = 0 -> heap_end s + sz + 4128 <= 18446744073709547520 ->
  exists r s', heap_extend sz s = Ret r s' /\ keeps_mapped (pages s) (pages s') /\
    (exists held, api_ok held (pages s')) /\ payload s' = payload s /\ heap_ready s' = heap_ready s /\
    (r = 0 -> heap_rep s' (grow bl (extent sz)) /\ heap_end s' = heap_end s + extent sz /\
       (forall va, heap_end s <= va < heap_end s' -> va mod 4096 = 0 -> is_mapped (pages s') va) /\
       ~ is_mapped (pages s) (heap_end s) /\ took (extent sz / 1024) (heap_end s') (pages s) (pages s')) /\
    (r <> 0 -> s' = s <| pages := pages s' |> /\
       ((exists va, heap_end s <= va < heap_end s + extent sz /\ va mod 4096 = 0 /\
           is_mapped (pages s) va) \/
        Z.of_nat (avail (pages s)) < extent sz / 1024)).
Proof.
  intros Hr Hal (held & Hok) Hsz Hszm Hb. destruct (extent_spec sz ltac:(lia)) as (Hx1 & Hx2 & Hx3).
  pose proof (rep_end _ _ Hr) as Ee. pose proof (span_pos _ (rep_sizes _ _ Hr)) as Hsp.
  assert (HB : HEAP_BASE = 18446743111636877312) by done.
  assert (Ea : align_up_size (wrap64 (sz + sizeof_heap_block)) PAGE_SIZE = extent sz).
  { unfold sizeof_heap_block. rewrite (wrap64_id (sz + 32)) by (unfold in64; lia).
    change PAGE_SIZE with (2 ^ 12). rewrite align_up_size_spec by lia. change (2 ^ 12) with 4096.
    by replace (sz + 32 + 4096 - 1) with (sz + 32 + 4095) by lia. }
  unfold heap_extend. rewrite Ea. mred. unfold map_heap_range.
  rewrite (wrap64_id (heap_end s + extent sz)) by (unfold in64; lia).
  destruct (map_range_run (Z.to_nat (extent sz / 4096)) s held (heap_end s + extent sz) (heap_end s)
    (Datatypes.S (Z.to_nat (extent sz / PAGE_SIZE)))) as (r & t & E & Hk & Hok' & Hz & Hzm & Htk & Hnz);
    [done|lia|done| |lia|unfold PAGE_SIZE; lia|].
  { rewrite Z2Nat.id by (apply Z.div_pos; lia). clear -Hx2. div_lia. }
  mrun E. destruct (decide (r = 0)) as [->|Hr0].
  - rewrite bool_decide_eq_true_2 by done. cbn [negb].
    assert (Hr1 : heap_rep (s <| pages := t |>) bl) by by destruct Hr.
    destruct (attach_run (s <| pages := t |>) bl (extent sz) Hr1) as (s' & Eat & Hr' & Ep & Epl & Erd & Een);
      [lia|clear -Hx2; div_lia|simpl; lia|]. simpl in *.
    exists 0, s'. rewrite Ep, Epl, Erd, Een. split_and!; try done.
    intros _. split_and!; try done; [by apply Hz| |].
    + apply Hzm; [done|]. assert (0 < extent sz / 4096) by (clear -Hx1 Hx2 Hsz; div_lia). lia.
    + replace (extent sz / 1024) with (4 * Z.of_nat (Z.to_nat (extent sz / 4096))); [by apply Htk|].
      rewrite Z2Nat.id; clear -Hx1 Hx2 Hsz; div_lia.
  - rewrite bool_decide_eq_false_2 by done. cbn [negb]. eexists _, _. split; [done|]. simpl.
    split_and!; try done. intros _. split; [done|]. destruct (Hnz Hr0) as [?|Hlt]; [by left|right].
    clear -Hlt Hx2 Hx1 Hsz. apply Nat2Z.inj_lt in Hlt. rewrite Nat2Z.inj_mul, Z2Nat.id in Hlt; div_lia.
Qed.

(** ** The operations on the list keep it coalesced and cover the same range *)

Lemma coalesced_app bl1 bl2 :
  coalesced (bl1 ++ bl2) = coalesced bl1 && coalesced bl2 && negb (last_free bl1 && head_free bl2).
Proof.
  induction bl1 as [|b bl1 IH]; simpl; [by rewrite andb_true_r|].
  rewrite IH. unfold last_free. rewrite last_cons.
  destruct bl1 as [|b1 bl1]; simpl.
  - by destruct b as [bs []], (head_free bl2), (coalesced bl2).
  - destruct (last (b1 :: bl1)) eqn:El; [|by apply last_None in El].
    rewrite !andb_assoc. done.
Qed.

Lemma coalesced_cut pre bs post sz :
  coalesced (pre ++ (bs, true) :: post) = true -> coalesced (pre ++ cut bs sz ++ post) = true.
Proof.
  rewrite !coalesced_app. intros H1. unfold cut. simpl in H1.
  destruct (coalesced pre), (coalesced post), (head_free post); simpl in *; try done;
    case_bool_decide; simpl; by rewrite ?andb_false_r.
Qed.

Lemma span_cut bs sz : span (cut bs sz) = 32 + bs.
Proof. unfold cut. case_bool_decide; simpl; lia. Qed.

Lemma coalesced_grow bl bytes : coalesced bl = true -> coalesced (grow bl bytes) = true.
Proof.
  destruct bl as [|[bs fr] bl _] using rev_ind; [done|]. rewrite coalesced_app.
  destruct fr; [rewrite grow_free|rewrite grow_used]; rewrite coalesced_app; simpl;
    by destruct (coalesced bl), (last_free bl).
Qed.

Lemma span_grow bl bytes : span (grow bl bytes) = span bl + bytes.
Proof.
  destruct bl as [|[bs fr] bl _] using rev_ind; [simpl; lia|].
  destruct fr; [rewrite grow_free|rewrite grow_used]; rewrite !span_app; simpl; lia.
Qed.

Lemma used_app a bl1 bl2 : used a (bl1 ++ bl2) = used a bl1 ++ used (a + span bl1) bl2.
Proof.
  revert a. induction bl1 as [|[bs fr] bl1 IH]; intros a; simpl; [by rewrite Z.add_0_r|].
  rewrite IH, <- app_assoc. do 3 f_equal. lia.
Qed.

Lemma used_cut a bs sz : exists n, (sz <= bs -> sz <= n) /\ used a (cut bs sz) = [(a + 32, n)].
Proof.
  unfold cut. case_bool_decide; simpl; [by exists bs|]. exists sz. done.
Qed.

Lemma used_grow a bl bytes : used a (grow bl bytes) = used a bl.
Proof.
  destruct bl as [|[bs fr] bl _] using rev_ind; [done|].
  destruct fr; [rewrite grow_free|rewrite grow_used]; rewrite !used_app; done.
Qed.

Lemma take_fit_none sz a bl :
  Forall (fun b => fits sz b = false) bl -> take_fit sz a bl = None.
Proof.
  revert a. induction bl as [|[bs fr] bl IH]; intros a; [done|]. simpl.
  intros [Hf Hn]%Forall_cons. unfold fits in Hf. simpl in Hf. rewrite Hf. by rewrite IH.
Qed.

Lemma take_fit_none_inv sz a bl :
  take_fit sz a bl = None -> Forall (fun b => fits sz b = false) bl.
Proof.
  revert a. induction bl as [|[bs fr] bl IH]; intros a; simpl; [by constructor|].
  destruct (fr && _) eqn:Hf; [done|].
  destruct (take_fit sz (a + 32 + bs) bl) as [[]|] eqn:E; [done|]. intros _. constructor; [done|].
  by eapply IH.
Qed.

Lemma take_fit_some sz a pre bs post :
  Forall (fun b => fits sz b = false) pre -> bs >= sz ->
  take_fit sz a (pre ++ (bs, true) :: post) = Some (a + span pre + 32, pre ++ cut bs sz ++ post).
Proof.
  intros Hn Hge. revert a. induction pre as [|[b fr] pre IH]; intros a; simpl.
  - rewrite bool_decide_eq_true_2 by done. do 2 f_equal. lia.
  - apply Forall_cons in Hn as [Hf Hn]. unfold fits in Hf. simpl in Hf. rewrite Hf.
    rewrite IH by done. do 2 f_equal. lia.
Qed.

(** After growing by [bytes] a request that fits in them finds a block. *)
Lemma grow_fits bl bytes sz :
  sizes_ok bl -> sz + 32 <= bytes -> ~ Forall (fun b => fits sz b = false) (grow bl bytes).
Proof.
  intros Hok Hb Hall.
  assert (Hlast : exists l x, grow bl bytes = l ++ [(x, true)] /\ x >= sz).
  { destruct bl as [|[bs fr] bl _] using rev_ind; [exists [], (bytes - 32); split; [done|lia]|].
    destruct fr.
    - rewrite grow_free. exists bl, (bs + bytes). split; [done|].
      apply sizes_ok_app in Hok as [_ [[Hbs _] _]%Forall_cons]. simpl in Hbs. lia.
    - rewrite grow_used. exists (bl ++ [(bs, false)]), (bytes - 32). rewrite <- app_assoc. split; [done|lia]. }
  destruct Hlast as (l & x & E & Hx). rewrite E in Hall.
  apply Forall_app in Hall as [_ [Hf _]%Forall_cons]. unfold fits in Hf. simpl in Hf.
  by apply bool_decide_eq_false_1 in Hf.
Qed.

(** The end of [kmalloc]: split the block found and take it. *)
Definition claim (block sz : Z) : M (heap_state S) Z :=
  block_split block sz ;;
  set_block block (fun b => b <| free := false |>) ;;
  mret (wrap64 (block + sizeof_heap_block)).

Lemma claim_run s pre bs post sz :
  heap_rep s (pre ++ (bs, true) :: post) -> 0 < sz -> sz mod 16 = 0 -> sz <= bs ->
  exists s', claim (addr_after pre) sz s = Ret (addr_after pre + 32) s' /\
    heap_rep s' (pre ++ cut bs sz ++ post) /\ same_env s s'.
Proof.
  intros Hr H1 H2 H3. unfold claim, sizeof_heap_block.
  destruct (heap_rep_block _ _ _ _ _ Hr) as (pm & _ & _ & Hlo & Hhi & Hsp & _).
  assert (HB : 0 < HEAP_BASE) by done.
  destruct (block_split_run s pre bs true post sz Hr H1 H2 H3) as (s1 & E1 & Hr1 & (P1 & P2 & P3 & P4)).
  mrun E1. rewrite wrap64_id by (unfold in64; lia). unfold cut.
  assert (Hfin : exists s', set_block (addr_after pre) (fun b => b <| free := false |>) s1 = Ret tt s' /\
    heap_rep s' (pre ++ (if bool_decide (bs < sz + 48) then [(bs, false)]
                         else [(sz, false); (bs - sz - 32, true)]) ++ post) /\ same_env s1 s').
  { case_bool_decide; simpl in *; by eapply set_free_run. }
  destruct Hfin as (s2 & E2 & Hr2 & (Q1 & Q2 & Q3 & Q4)). mrun E2. exists s2.
  unfold same_env. split_and!; try done; congruence.
Qed.

Definition round16 (n : Z) : Z := (n + 15) - (n + 15) mod 16.

Lemma round16_spec n : 0 < n -> n <= round16 n /\ 0 < round16 n /\ round16 n mod 16 = 0 /\ round16 n < n + 16.
Proof. intros Hn. unfold round16. split_and!; div_lia. Qed.

Lemma heap_inv_step s s' bl bl' :
  heap_inv s bl -> heap_rep s' bl' -> coalesced bl' = true -> same_env s s' -> heap_inv s' bl'.
Proof.
  intros [H1 H2 H3 H4 H5] Hr Hc (P1 & P2 & P3 & P4). split; rewrite ?P1, ?P4; try done.
Qed.

(** The first fit found in a well-formed heap is claimed. *)
Lemma claim_found s bl sz r :
  heap_inv s bl -> 0 < sz -> sz mod 16 = 0 ->
  (exists pre bs post, bl = pre ++ (bs, true) :: post /\ bs >= sz /\
     Forall (fun b => fits sz b = false) pre /\ r = addr_after pre) ->
  r <> 0 /\ exists p s' bl', claim r sz s = Ret p s' /\ take_fit sz HEAP_BASE bl = Some (p, bl') /\
    heap_inv s' bl' /\ same_env s s'.
Proof.
  intros Hinv H1 H2 (pre & bs & post & -> & Hge & Hno & ->).
  pose proof (inv_rep _ _ Hinv) as Hr. assert (HB : 0 < HEAP_BASE) by done.
  destruct (heap_rep_block _ _ _ _ _ Hr) as (pm & _ & _ & Hlo & _). split; [lia|].
  destruct (claim_run s pre bs post sz Hr H1 H2 ltac:(lia)) as (s2 & Ec & Hr2' & Henv).
  eexists _, s2, _. split_and!; [done|by apply take_fit_some| |done].
  eapply heap_inv_step; [exact Hinv|exact Hr2'| |done]. apply coalesced_cut, Hinv.
Qed.

(** A heap that has been extended is well formed. *)
Lemma extended_inv s s1 bl sz :
  heap_inv s bl -> 0 < sz -> keeps_mapped (pages s) (pages s1) ->
  (exists held, api_ok held (pages s1)) -> heap_rep s1 (grow bl (extent sz)) ->
  heap_end s1 = heap_end s + extent sz ->
  (forall va, heap_end s <= va < heap_end s1 -> va mod 4096 = 0 -> is_mapped (pages s1) va) ->
  heap_inv s1 (grow bl (extent sz)).
Proof.
  intros Hinv Hsz Hk Hok Hr Hend Hmap. destruct (extent_spec sz ltac:(lia)) as (Hx1 & Hx2 & Hx3).
  pose proof (rep_bound _ _ Hr). split; try done.
  - apply coalesced_grow, Hinv.
  - rewrite Hend, Zplus_mod, Hx2, (inv_end _ _ Hinv). done.
  - intros va Hva Hvaa. destruct (Z.lt_ge_cases va (heap_end s)); [|apply Hmap; [lia|done]].
    apply Hk; [apply heap_window; lia|]. apply (inv_mapped _ _ Hinv); [lia|done].
Qed.

(** [kmalloc] on the list: first fit, or first fit after growing, or NULL with the
    list as it was. *)
Lemma kmalloc_run s bl n :
  heap_inv s bl -> 0 < n -> heap_end s + round16 n + 4128 <= 18446744073709547520 ->
  exists p s' bl', kmalloc n s = Ret p s' /\ heap_inv s' bl' /\ payload s' = payload s /\
    heap_ready s' = heap_ready s /\ keeps_mapped (pages s) (pages s') /\
    match take_fit (round16 n) HEAP_BASE bl with
    | Some (q, bl1) => p = q /\ bl' = bl1 /\ pages s' = pages s
    | None =>
        (take_fit (round16 n) HEAP_BASE (grow bl (extent (round16 n))) = Some (p, bl') /\
         ~ is_mapped (pages s) (heap_end s) /\ took (extent (round16 n) / 1024) (heap_end s') (pages s) (pages s')) \/
        (p = 0 /\ bl' = bl /\
         ((exists va, heap_end s <= va < heap_end s + extent (round16 n) /\ va mod 4096 = 0 /\
             is_mapped (pages s) va) \/
          Z.of_nat (avail (pages s)) < extent (round16 n) / 1024))
    end.
Proof.
  intros Hinv Hn Hb. destruct (round16_spec n Hn) as (Hr1 & Hr2 & Hr3 & Hr4).
  pose proof (inv_rep _ _ Hinv) as Hr. pose proof (rep_end _ _ Hr) as Ee.
  pose proof (span_pos _ (rep_sizes _ _ Hr)) as Hsp.
  assert (HB : HEAP_BASE = 18446743111636877312) by done.
  assert (Ea : align_up_size n HEAP_ALIGNMENT = round16 n).
  { change HEAP_ALIGNMENT with (2 ^ 4). rewrite align_up_size_spec by lia. unfold round16.
    change (2 ^ 4) with 16. by replace (n + 16 - 1) with (n + 15) by lia. }
  unfold kmalloc. rewrite bool_decide_eq_false_2, Ea by lia. set (sz := round16 n) in *.
  destruct (find_free_block_run s sz bl Hr) as (r & Ef & Hres). mrun Ef.
  destruct Hres as [[-> Hno]|Hres].
  - rewrite (take_fit_none _ _ _ Hno). rewrite bool_decide_eq_true_2 by done. mred.
    destruct (heap_extend_run s bl sz Hr (inv_end _ _ Hinv) (inv_pages _ _ Hinv) Hr2 Hr3 Hb)
      as (r & s1 & Ex & Hk & Hok & Hpl & Hrd & Hz & Hnz). mrun Ex.
    destruct (decide (r = 0)) as [->|Hr0].
    + rewrite bool_decide_eq_true_2 by done. cbn [negb]. destruct (Hz eq_refl) as (Hr' & Hend & Hmap & Hnm & Htk).
      pose proof (extended_inv s s1 bl sz Hinv Hr2 Hk Hok Hr' Hend Hmap) as Hinv1.
      mred. destruct (find_free_block_run s1 sz _ Hr') as (r & Ef1 & Hres). mrun Ef1. mred.
      destruct Hres as [[-> Hno1]|Hres].
      { exfalso. apply (grow_fits bl (extent sz) sz (rep_sizes _ _ Hr)); [|done].
        apply extent_spec. lia. }
      destruct (claim_found s1 _ sz r Hinv1 Hr2 Hr3 Hres)
        as (Hr0 & p & s2 & bl2 & Ec & Hfit & Hinv2 & (P1 & P2 & P3 & P4)).
      rewrite bool_decide_eq_false_2 by done. fold (claim r sz).
      exists p, s2, bl2. rewrite P1. split_and!; try done; [congruence..|]. left. by rewrite P4.
    + rewrite bool_decide_eq_false_2 by done. cbn [negb]. mred.
      destruct (Hnz Hr0) as [Es1 Hwhy]. exists 0, s1, bl. split; [done|].
      split_and!; try done; [|by right].
      rewrite Es1 in Hok |- *. destruct Hinv as [[] ? ? ? ?]. split; try done.
      intros va Hva Hvaa. apply Hk; [apply heap_window; simpl in *; lia|by auto].
  - destruct (claim_found s bl sz r Hinv Hr2 Hr3 Hres)
      as (Hr0 & p & s2 & bl2 & Ec & Hfit & Hinv2 & (P1 & P2 & P3 & P4)).
    rewrite bool_decide_eq_false_2 by done. mred. rewrite bool_decide_eq_false_2 by done.
    fold (claim r sz). rewrite Hfit. exists p, s2, bl2. rewrite P1.
    split_and!; try done. by intros ???.
Qed.

(** ** Release *)

Lemma release_first a bs fr post : release (a + 32) a ((bs, fr) :: post) = join_next bs post.
Proof. simpl. by rewrite bool_decide_eq_true_2. Qed.

Lemma release_after a pre b bs fr post :
  sizes_ok (pre ++ [b]) ->
  release (a + span (pre ++ [b]) + 32) a (pre ++ b :: (bs, fr) :: post) =
  pre ++ join_prev b (join_next bs post).
Proof.
  revert a. induction pre as [|[b1 f1] pre IH]; intros a Hok.
  - destruct b as [b1 f1]. apply Forall_cons in Hok as [[Hb _] _]. simpl in *.
    rewrite bool_decide_eq_false_2 by lia. rewrite !bool_decide_eq_true_2 by lia. done.
  - apply Forall_cons in Hok as [[Hb1 _] Hok]. change (sizes_ok (pre ++ [b])) in Hok.
    simpl in Hb1. simpl. pose proof (span_pos _ Hok). rewrite (bool_decide_eq_false_2 (_ = a + 32)) by lia.
    rewrite <- (IH (a + 32 + b1)) by done.
    replace (a + (32 + b1 + span (pre ++ [b])) + 32) with (a + 32 + b1 + span (pre ++ [b]) + 32) by lia.
    rewrite bool_decide_eq_false_2; [done|].
    destruct b as [b2 f2]. rewrite span_app. simpl.
    apply sizes_ok_app in Hok as [Hok1 [[Hb2 _] _]%Forall_cons]. pose proof (span_pos _ Hok1).
    simpl in Hb2. lia.
Qed.

Lemma release_at pre b bs fr post :
  sizes_ok (pre ++ [b]) ->
  release (addr_after (pre ++ [b]) + 32) HEAP_BASE (pre ++ b :: (bs, fr) :: post) =
  pre ++ join_prev b (join_next bs post).
Proof. apply (release_after HEAP_BASE). Qed.

Lemma join_next_merge bs post :
  match post with
  | (bs2, true) :: post' => (bs + 32 + bs2, true) :: post'
  | _ => (bs, true) :: post
  end = join_next bs post.
Proof. by destruct post as [|[? []] ?]. Qed.

Lemma join_next_head bs post : exists x l, join_next bs post = (x, true) :: l.
Proof. destruct post as [|[bs2 []] post]; simpl; eauto. Qed.

Lemma coalesced_join bs pre post :
  coalesced (pre ++ (bs, false) :: post) = true -> last_free pre = false ->
  coalesced (pre ++ join_next bs post) = true.
Proof.
  rewrite !coalesced_app. simpl. intros H1 ->. rewrite andb_true_r.
  destruct post as [|[bs2 []] post]; simpl in *; destruct (coalesced pre); simpl in *; try done;
    by rewrite ?andb_false_r, ?andb_true_r in *.
Qed.

(** What [kfree] does after marking the block. *)
Lemma kfree_merge s pre bs post :
  heap_rep s (pre ++ (bs, false) :: post) ->
  exists s', kfree (addr_after pre + 32) s = Ret tt s' /\ same_env s s' /\
    heap_rep s' (release (addr_after pre + 32) HEAP_BASE (pre ++ (bs, false) :: post)).
Proof.
  intros Hr. assert (HB : HEAP_BASE = 18446743111636877312) by done.
  destruct (heap_rep_block _ _ _ _ _ Hr) as (pm & _ & _ & Hlo & Hhi & Hsp & _).
  destruct (heap_rep_sizes _ _ _ _ _ Hr) as (Hpre & [Hbs _] & _).
  unfold kfree, sizeof_heap_block. rewrite bool_decide_eq_false_2 by lia.
  replace (addr_after pre + 32 - 32) with (addr_after pre) by lia.
  rewrite wrap64_id by (unfold in64; lia).
  destruct (set_free_run s pre bs false post true Hr) as (s1 & E1 & Hr1 & (P1 & P2 & P3 & P4)). mrun E1.
  destruct (block_merge_next_run s1 pre bs true post Hr1) as (s2 & E2 & Hr2 & (Q1 & Q2 & Q3 & Q4)). mrun E2.
  rewrite join_next_merge in Hr2. destruct (join_next_head bs post) as (x & l & Ej).
  rewrite Ej in Hr2. pose proof (rep_seg _ _ Hr2) as Hs2.
  apply seg_lookup in Hs2 as (q & Hb2 & Hnil & Hcons).
  erewrite bind_run by (apply block_at_run; exact Hb2). cbn [prev].
  destruct pre as [|[b1 f1] pre' _] using rev_ind.
  - rewrite (Hnil eq_refl), bool_decide_eq_true_2 by done. exists s2. split; [done|].
    split; [unfold same_env; split_and!; congruence|].
    unfold addr_after. cbn [span app]. rewrite Z.add_0_r, release_first, Ej. done.
  - rewrite (Hcons pre' b1 f1 eq_refl). fold (addr_after pre').
    assert (Hlo' : HEAP_BASE <= addr_after pre').
    { unfold addr_after. apply sizes_ok_app in Hpre as [Hp _]. pose proof (span_pos _ Hp). lia. }
    rewrite bool_decide_eq_false_2 by lia. rewrite <- app_assoc in Hr2 |- *. simpl in Hr2 |- *.
    destruct (heap_rep_block _ _ _ _ _ Hr2) as (pm2 & Hb3 & _).
    erewrite bind_run by (apply block_at_run; exact Hb3). cbn [free].
    rewrite release_at, Ej by done. destruct f1.
    + destruct (block_merge_next_run s2 pre' b1 true _ Hr2) as (s3 & E3 & Hr3 & (R1 & R2 & R3 & R4)).
      exists s3. split; [done|]. split; [unfold same_env; split_and!; congruence|done].
    + exists s2. split; [done|]. split; [unfold same_env; split_and!; congruence|done].
Qed.

Lemma used_join_next a bs post : used a (join_next bs post) = used (a + 32 + bs) post.
Proof. destruct post as [|[bs2 []] post]; simpl; try done. f_equal. lia. Qed.

Lemma used_join_prev a b bl : used a (join_prev b bl) = used a (b :: bl).
Proof. destruct b as [bs []], bl as [|[bs2 []] bl]; simpl; try done. f_equal. lia. Qed.

Lemma coalesced_size x y bl : coalesced ((x, true) :: bl) = coalesced ((y, true) :: bl).
Proof. reflexivity. Qed.

(** Releasing the block [(p, bs)] takes it out of the allocated ones, and nothing
    else, and leaves no two free neighbours. *)
Lemma release_used pre bs post :
  sizes_ok pre ->
  used HEAP_BASE (pre ++ (bs, false) :: post) ≡ₚ
  (addr_after pre + 32, bs) ::
    used HEAP_BASE (release (addr_after pre + 32) HEAP_BASE (pre ++ (bs, false) :: post)).
Proof.
  intros Hok. rewrite used_app. simpl. fold (addr_after pre).
  rewrite <- Permutation_middle. apply Permutation_skip.
  destruct pre as [|b pre _] using rev_ind.
  - unfold addr_after. cbn [span app]. rewrite Z.add_0_r, release_first, used_join_next. done.
  - rewrite <- app_assoc. simpl. rewrite release_at by done.
    rewrite !used_app, used_join_prev, <- app_assoc. f_equiv.
    destruct b as [b1 f1]. simpl. rewrite app_nil_r. f_equiv.
    rewrite used_join_next. unfold addr_after. rewrite span_app. simpl.
    by replace (HEAP_BASE + (span pre + (32 + b1 + 0)) + 32 + bs)
      with (HEAP_BASE + span pre + 32 + b1 + 32 + bs) by lia.
Qed.

Lemma release_coalesced pre bs post :
  sizes_ok pre -> coalesced (pre ++ (bs, false) :: post) = true ->
  coalesced (release (addr_after pre + 32) HEAP_BASE (pre ++ (bs, false) :: post)) = true.
Proof.
  intros Hok Hc. destruct pre as [|[b1 f1] pre _] using rev_ind.
  - unfold addr_after. cbn [span app]. rewrite Z.add_0_r, release_first.
    by apply (coalesced_join bs []).
  - rewrite <- app_assoc. simpl. rewrite release_at by done. destruct f1.
    2:{ pose proof (coalesced_join bs (pre ++ [(b1, false)]) post Hc) as Hj.
        rewrite <- app_assoc in Hj. apply Hj. unfold last_free. by rewrite last_snoc. }
    destruct (join_next_head bs post) as (x & l & Ej).
    pose proof (coalesced_join bs [] post) as Hj. simpl in Hj. rewrite Ej in Hj |- *.
    unfold join_prev. rewrite coalesced_app in Hc |- *. simpl in Hc, Hj |- *.
    rewrite coalesced_app in Hc. simpl in Hc.
    destruct (coalesced pre), (last_free pre); simpl in *; try done;
      rewrite ?andb_false_r in Hc; try done.
    rewrite andb_true_r. apply Hj; [|done]. destruct (coalesced post); [done|].
    by rewrite ?andb_false_r in Hc.
Qed.

(** A payload of the used list is a used block. *)
Lemma used_split a bl p n :
  (p, n) ∈ used a bl -> exists pre post, bl = pre ++ (n, false) :: post /\ p = a + span pre + 32.
Proof.
  revert a. induction bl as [|[bs fr] bl IH]; intros a; simpl; [by intros ?%not_elem_of_nil|].
  intros [Hin|Hin]%elem_of_app.
  - destruct fr; [by apply not_elem_of_nil in Hin|]. apply list_elem_of_singleton in Hin.
    injection Hin as -> ->. exists [], bl. split; [done|]. simpl. lia.
  - apply IH in Hin as (pre & post & -> & ->). exists ((bs, fr) :: pre), post.
    split; [done|]. simpl. lia.
Qed.

Lemma used_bounds a bl p n :
  sizes_ok bl -> a mod 16 = 0 -> (p, n) ∈ used a bl ->
  a + 32 <= p /\ p + n <= a + span bl /\ 0 < n /\ p mod 16 = 0.
Proof.
  revert a. induction bl as [|[bs fr] bl IH]; intros a Hok Ha; simpl; [by intros ?%not_elem_of_nil|].
  apply Forall_cons in Hok as [[Hb Hbm] Hok]. simpl in *. pose proof (span_pos _ Hok).
  intros [Hin|Hin]%elem_of_app.
  - destruct fr; [by apply not_elem_of_nil in Hin|]. apply list_elem_of_singleton in Hin.
    injection Hin as -> ->. split_and!; [lia|lia|lia|div_lia].
  - apply IH in Hin as (? & ? & ? & ?); [|done|div_lia]. split_and!; [lia|lia|lia|done].
Qed.

(** Allocated payloads do not overlap. *)
Lemma used_disjoint a bl :
  sizes_ok bl -> a mod 16 = 0 ->
  forall i j p n q m, used a bl !! i = Some (p, n) -> used a bl !! j = Some (q, m) -> i <> j ->
    p + n <= q \/ q + m <= p.
Proof.
  revert a. induction bl as [|[bs fr] bl IH]; intros a Hok Ha i j p n q m; [done|].
  pose proof Hok as Hok0. apply Forall_cons in Hok as [[Hb Hbm] Hok]. simpl in *.
  assert (Ha' : (a + 32 + bs) mod 16 = 0) by div_lia.
  destruct fr; simpl; [by apply IH|].
  assert (Hrest : forall k r l, used (a + 32 + bs) bl !! k = Some (r, l) -> a + 32 + bs + 32 <= r).
  { intros k r l Hk. apply list_elem_of_lookup_2 in Hk. by apply used_bounds in Hk as [? _]. }
  destruct i as [|i], j as [|j]; simpl; try done.
  - intros [= <- <-] Hq%Hrest _. left. lia.
  - intros Hp%Hrest [= <- <-] _. right. lia.
  - intros Hp Hq Hne. apply (IH (a + 32 + bs) Hok Ha' i j); congruence.
Qed.

Lemma heap_base_16 : HEAP_BASE mod 16 = 0.
Proof. reflexivity. Qed.

(** Taking a first fit adds one payload to the allocated ones. *)
Lemma take_fit_used sz a bl p bl' :
  take_fit sz a bl = Some (p, bl') ->
  exists n, sz <= n /\ used a bl' ≡ₚ (p, n) :: used a bl.
Proof.
  revert a bl'. induction bl as [|[bs fr] bl IH]; intros a bl'; simpl; [done|].
  destruct (fr && _) eqn:Hf.
  - apply andb_true_iff in Hf as [-> Hge%bool_decide_eq_true_1]. intros [= <- <-].
    destruct (used_cut a bs sz) as (n & Hn & Hu). exists n. split; [lia|].
    rewrite used_app, Hu, span_cut. simpl. by replace (a + (32 + bs)) with (a + 32 + bs) by lia.
  - destruct (take_fit sz (a + 32 + bs) bl) as [[q r]|] eqn:E; [|done]. intros [= <- <-].
    destruct (IH _ _ E) as (n & Hn & Hu). exists n. split; [done|]. simpl. rewrite Hu.
    by rewrite Permutation_middle.
Qed.

Lemma fresh_disjoint a bl p n l :
  sizes_ok bl -> a mod 16 = 0 -> used a bl ≡ₚ (p, n) :: l ->
  forall q m, (q, m) ∈ l -> p + n <= q \/ q + m <= p.
Proof.
  intros Hok Ha Hp q m Hin. apply list_elem_of_lookup_1 in Hin as [j Hj].
  symmetry in Hp. apply Permutation_inj in Hp as (_ & f & Hf & Hl).
  apply (used_disjoint a bl Hok Ha (f O) (f (Datatypes.S j))).
  - by rewrite <- Hl.
  - by rewrite <- Hl.
  - intros E%Hf. done.
Qed.

(** ** Theorems *)

(** C6.  [kmalloc] of [n > 0] bytes.  It returns NULL with every allocation as it
    was, and then no free block was large enough and either a page beyond the heap's
    end was already mapped or memory was short; or a 16-byte aligned payload of at
    least [n] bytes that overlaps no other allocation and lies in mapped memory,
    and every earlier allocation is still there, unchanged.  The list stays well
    formed and coalesced, no byte of a payload is written. *)
Theorem kmalloc_allocates s bl n :
  heap_inv s bl -> 0 < n -> heap_end s + round16 n + 4128 <= 18446744073709547520 ->
  exists p s' bl', kmalloc n s = Ret p s' /\ heap_inv s' bl' /\ payload s' = payload s /\
    ((p = 0 /\ bl' = bl /\ Forall (fun b => fits (round16 n) b = false) bl /\
      ((exists va, heap_end s <= va < heap_end s + extent (round16 n) /\ va mod 4096 = 0 /\
          is_mapped (pages s) va) \/
       Z.of_nat (avail (pages s)) < extent (round16 n) / 1024)) \/
     exists m, n <= m /\ p mod 16 = 0 /\ used HEAP_BASE bl' ≡ₚ (p, m) :: used HEAP_BASE bl /\
       (forall q l, (q, l) ∈ used HEAP_BASE bl -> p + m <= q \/ q + l <= p) /\
       (forall va, p <= va < p + m -> is_mapped (pages s') (va - va mod 4096))).
Proof.
  intros Hinv Hn Hb. destruct (round16_spec n Hn) as (Hr1 & _).
  destruct (kmalloc_run s bl n Hinv Hn Hb) as (p & s' & bl' & E & Hinv' & Hpl & _ & _ & Hres).
  exists p, s', bl'. split_and!; [done..|].
  assert (Hgot : forall bl0, take_fit (round16 n) HEAP_BASE bl0 = Some (p, bl') ->
    used HEAP_BASE bl0 = used HEAP_BASE bl ->
    exists m, n <= m /\ p mod 16 = 0 /\ used HEAP_BASE bl' ≡ₚ (p, m) :: used HEAP_BASE bl /\
       (forall q l, (q, l) ∈ used HEAP_BASE bl -> p + m <= q \/ q + l <= p) /\
       (forall va, p <= va < p + m -> is_mapped (pages s') (va - va mod 4096))).
  { intros bl0 Ht Hu. destruct (take_fit_used _ _ _ _ _ Ht) as (m & Hm & Hp). rewrite Hu in Hp.
    pose proof (rep_sizes _ _ (inv_rep _ _ Hinv')) as Hok.
    destruct (used_bounds HEAP_BASE bl' p m Hok heap_base_16) as (B1 & B2 & _ & B4).
    { rewrite Hp. left. }
    exists m. split_and!; [lia|done|done|by apply (fresh_disjoint HEAP_BASE bl')|].
    intros va Hva. rewrite <- (rep_end _ _ (inv_rep _ _ Hinv')) in B2.
    apply (inv_mapped _ _ Hinv'); unfold HEAP_BASE in *; div_lia. }
  destruct (take_fit (round16 n) HEAP_BASE bl) as [[q bl1]|] eqn:Ht.
  - destruct Hres as (-> & -> & _). right. by apply (Hgot bl).
  - destruct Hres as [[Hg _]|(-> & -> & Hwhy)].
    + right. apply (Hgot (grow bl (extent (round16 n)))); [done|by rewrite used_grow].
    + left. split_and!; try done. by eapply take_fit_none_inv.
Qed.

Lemma kfree_run s pre bs post :
  heap_inv s (pre ++ (bs, false) :: post) ->
  exists s', kfree (addr_after pre + 32) s = Ret tt s' /\ same_env s s' /\
    heap_inv s' (release (addr_after pre + 32) HEAP_BASE (pre ++ (bs, false) :: post)).
Proof.
  intros Hinv. pose proof (inv_rep _ _ Hinv) as Hr.
  destruct (heap_rep_sizes _ _ _ _ _ Hr) as (Hpre & _ & _).
  destruct (kfree_merge s pre bs post Hr) as (s' & E & Henv & Hr'). exists s'.
  split_and!; [done|done|]. eapply heap_inv_step; [done|done| |done].
  apply release_coalesced; [done|apply Hinv].
Qed.

(** C11.  [kfree] of an allocation releases exactly that one: every other allocation
    stays where it is with its size, the list is coalesced again, and no payload
    byte, page or mapping changes.  [kfree] of NULL does nothing. *)
Theorem kfree_releases s bl p n :
  heap_inv s bl -> (p, n) ∈ used HEAP_BASE bl ->
  kfree 0 s = Ret tt s /\
  exists s' bl', kfree p s = Ret tt s' /\ heap_inv s' bl' /\ same_env s s' /\
    used HEAP_BASE bl ≡ₚ (p, n) :: used HEAP_BASE bl'.
Proof.
  intros Hinv (pre & post & -> & ->)%used_split. split; [done|].
  destruct (kfree_run s pre n post Hinv) as (s' & E & Henv & Hinv').
  eexists s', _. split_and!; [done|done|done|]. apply release_used.
  by apply (heap_rep_sizes _ _ _ _ _ (inv_rep _ _ Hinv)).
Qed.

(** Releasing what a first fit took gives the list back. *)
Lemma release_take_fit bl sz p bl' :
  sizes_ok bl -> coalesced bl = true -> take_fit sz HEAP_BASE bl = Some (p, bl') ->
  exists pre bs post, bl' = pre ++ (bs, false) :: post /\ p = addr_after pre + 32 /\
    release p HEAP_BASE bl' = bl.
Proof.
  intros Hok Hc Ht.
  destruct (decide (Forall (fun b => fits sz b = false) bl)) as [Hno|Hyes].
  { by rewrite take_fit_none in Ht. }
  assert (exists pre bs post, bl = pre ++ (bs, true) :: post /\ bs >= sz /\
    Forall (fun b => fits sz b = false) pre) as (pre & bs & post & -> & Hge & Hno).
  { clear Ht Hc Hok. induction bl as [|[b fr] bl IH]; [by destruct Hyes|].
    destruct (fits sz (b, fr)) eqn:Hf.
    - apply andb_true_iff in Hf as [Hfr Hge%bool_decide_eq_true_1]. simpl in *. subst fr.
      by exists [], b, bl.
    - destruct IH as (pre & bs & post & -> & Hge & Hn).
      { intros Hall. apply Hyes. by constructor. }
      exists ((b, fr) :: pre), bs, post. split_and!; [done|done|by constructor]. }
  rewrite take_fit_some in Ht by done. injection Ht as <- <-. fold (addr_after pre).
  assert (Hcut : exists b' rest, cut bs sz ++ post = (b', false) :: rest /\
    join_next b' rest = (bs, true) :: post).
  { rewrite coalesced_app in Hc. unfold cut. case_bool_decide.
    - exists bs, post. split; [done|]. destruct post as [|[b2 []] post]; try done.
      simpl in Hc. by rewrite andb_false_r in Hc.
    - eexists _, _. split; [done|]. simpl. by replace (sz + 32 + (bs - sz - 32)) with bs by lia. }
  destruct Hcut as (b' & rest & -> & Ej). exists pre, b', rest. split_and!; [done..|].
  apply sizes_ok_app in Hok as [Hpre _]. destruct pre as [|[b1 f1] pre _] using rev_ind.
  - unfold addr_after. cbn [span app]. by rewrite Z.add_0_r, release_first, Ej.
  - rewrite <- !app_assoc. simpl. rewrite release_at, Ej by done. f_equal.
    destruct f1; [|done]. rewrite coalesced_app in Hc. unfold last_free in Hc.
    rewrite last_snoc in Hc. simpl in Hc. by rewrite andb_false_r in Hc.
Qed.

(** C25.  Round trip: when a free block is large enough, [kmalloc] followed by
    [kfree] of the result gives back the very same list of blocks. *)
Theorem kmalloc_kfree s bl n :
  heap_inv s bl -> 0 < n -> heap_end s + round16 n + 4128 <= 18446744073709547520 ->
  ~ Forall (fun b => fits (round16 n) b = false) bl ->
  exists p s' s'', kmalloc n s = Ret p s' /\ p <> 0 /\ kfree p s' = Ret tt s'' /\ heap_inv s'' bl /\
    pages s'' = pages s /\ payload s'' = payload s /\ heap_end s'' = heap_end s.
Proof.
  intros Hinv Hn Hb Hfit. destruct (kmalloc_run s bl n Hinv Hn Hb) as (p & s' & bl' & E & Hinv' & Hpl & Hrd & _ & Hres).
  destruct (take_fit (round16 n) HEAP_BASE bl) as [[q bl1]|] eqn:Ht;
    [|by apply take_fit_none_inv in Ht]. destruct Hres as (-> & -> & Hpg).
  destruct (release_take_fit bl _ q bl1 (rep_sizes _ _ (inv_rep _ _ Hinv)) (inv_coalesced _ _ Hinv) Ht)
    as (pre & bs & post & -> & -> & Hrel).
  destruct (kfree_run s' pre bs post Hinv') as (s'' & E' & (P1 & P2 & P3 & P4) & Hinv'').
  rewrite Hrel in Hinv''. exists (addr_after pre + 32), s', s''.
  destruct (heap_rep_block _ _ _ _ _ (inv_rep _ _ Hinv')) as (pm & _ & _ & Hlo & _).
  assert (0 < HEAP_BASE) by done. split_and!; try done; [lia|congruence..|].
  by rewrite (rep_end _ _ (inv_rep _ _ Hinv'')), (rep_end _ _ (inv_rep _ _ Hinv)).
Qed.

(** The heap cannot recover from an extension that failed half way.  When the
    page at [heap_end] is already mapped, as [map_heap_range] leaves it after
    -ENOMEM on a later page, every [kmalloc] that no free block serves returns
    NULL, however much memory is free, and leaves the page mapped. *)
Theorem heap_extension_stuck s bl n :
  heap_inv s bl -> 0 < n -> heap_end s + round16 n + 4128 <= 18446744073709547520 ->
  is_mapped (pages s) (heap_end s) -> Forall (fun b => fits (round16 n) b = false) bl ->
  exists s', kmalloc n s = Ret 0 s' /\ heap_inv s' bl /\ is_mapped (pages s') (heap_end s').
Proof.
  intros Hinv Hn Hb Hm Hno. destruct (kmalloc_run s bl n Hinv Hn Hb) as (p & s' & bl' & E & Hinv' & _ & _ & Hk & Hres).
  rewrite take_fit_none in Hres by done. destruct Hres as [(_ & Hnm & _)|(-> & -> & _)]; [done|].
  exists s'. split_and!; [done|done|].
  rewrite (rep_end _ _ (inv_rep _ _ Hinv')), <- (rep_end _ _ (inv_rep _ _ Hinv)).
  pose proof (rep_bound _ _ (inv_rep _ _ Hinv)). pose proof (rep_end _ _ (inv_rep _ _ Hinv)).
  pose proof (span_pos _ (rep_sizes _ _ (inv_rep _ _ Hinv))).
  apply Hk; [apply heap_window; lia|done].
Qed.

(** ** Initialisation *)

Lemma heap_inv_payload s bl m : heap_inv s bl -> heap_inv (s <| payload := m |>) bl.
Proof. intros [[] ? ? ? ?]. split; [split|..]; done. Qed.

Lemma heap_inv_ready s bl b : heap_inv s bl -> heap_inv (s <| heap_ready := b |>) bl.
Proof. intros [[] ? ? ? ?]. split; [split|..]; done. Qed.

Lemma load_byte_run s a v : payload s !! a = Some v -> load_byte a s = Ret v s.
Proof. intros E. unfold load_byte, deref. by rewrite E. Qed.

Lemma lookup_insert_at {A} (m : gmap Z A) i j x : i = j -> <[i := x]> m !! j = Some x.
Proof. intros ->. apply lookup_insert_eq. Qed.

Lemma selftest_access_run s first second :
  first + 8 <= second -> exists m, selftest_access first second s = Ret false (s <| payload := m |>).
Proof.
  intros Hle. eexists. unfold selftest_access, store_u64. simpl. mred. unfold store_byte. mred. simpl.
  unfold load_u64. mred.
  repeat (erewrite bind_run by (apply load_byte_run; simpl;
    repeat (first [rewrite lookup_insert_ne by lia | rewrite lookup_insert_at by lia]); reflexivity); mred).
  reflexivity.
Qed.

(** From the one free block that [heap_init] makes, the selftest runs through and
    gives everything back. *)
Lemma heap_selftest_run s :
  heap_inv s [(4064, true)] ->
  exists s', heap_selftest s = Ret tt s' /\ heap_inv s' [(4064, true)] /\
    heap_ready s' = heap_ready s /\ pages s' = pages s.
Proof.
  intros I0. assert (He : forall s bl, heap_inv s bl -> span bl = 4096 -> heap_end s = HEAP_BASE + 4096).
  { intros t bl Hi Hsp. by rewrite (rep_end _ _ (inv_rep _ _ Hi)), Hsp. }
  unfold heap_selftest.
  destruct (kmalloc_run s _ 8 I0 ltac:(lia)) as (p1 & s1 & bl1 & E1 & I1 & _ & R1 & _ & T1).
  { by rewrite (He _ _ I0). }
  rewrite (ltac:(vm_compute; reflexivity) : take_fit (round16 8) HEAP_BASE [(4064, true)] =
    Some (HEAP_BASE + 32, [(16, false); (4016, true)])) in T1.
  destruct T1 as (-> & -> & P1). mrun E1.
  destruct (kmalloc_run s1 _ 128 I1 ltac:(lia)) as (p2 & s2 & bl2 & E2 & I2 & _ & R2 & _ & T2).
  { by rewrite (He _ _ I1). }
  rewrite (ltac:(vm_compute; reflexivity) : take_fit (round16 128) HEAP_BASE [(16, false); (4016, true)] =
    Some (HEAP_BASE + 80, [(16, false); (128, false); (3856, true)])) in T2.
  destruct T2 as (-> & -> & P2). mrun E2.
  change (bool_decide (HEAP_BASE + 32 = 0) || bool_decide (HEAP_BASE + 80 = 0)) with false. cbv iota.
  destruct (selftest_access_run s2 (HEAP_BASE + 32) (HEAP_BASE + 80) ltac:(lia)) as [m Em].
  mrun Em. apply (heap_inv_payload _ _ m) in I2.
  destruct (kfree_run _ [] 16 _ I2) as (s3 & E3 & (Q1 & Q2 & Q3 & Q4) & I3). mrun E3.
  change (release _ _ _) with [(16, true); (128, false); (3856, true)] in I3.
  destruct (kmalloc_run s3 _ 8 I3 ltac:(lia)) as (p4 & s4 & bl4 & E4 & I4 & _ & R4 & _ & T4).
  { by rewrite (He _ _ I3). }
  rewrite (ltac:(vm_compute; reflexivity) : take_fit (round16 8) HEAP_BASE [(16, true); (128, false); (3856, true)] =
    Some (HEAP_BASE + 32, [(16, false); (128, false); (3856, true)])) in T4.
  destruct T4 as (-> & -> & P4). mrun E4.
  change (bool_decide (HEAP_BASE + 32 = 0)) with false. cbv iota.
  destruct (kfree_run _ [] 16 _ I4) as (s5 & E5 & (U1 & U2 & U3 & U4) & I5). mrun E5.
  change (release _ _ _) with [(16, true); (128, false); (3856, true)] in I5.
  destruct (kfree_run _ [(16, true)] 128 _ I5) as (s6 & E6 & (V1 & V2 & V3 & V4) & I6).
  change (release _ _ _) with [(4064, true)] in I6. exists s6. simpl in *.
  split_and!; [exact E6|done|congruence..].
Qed.

Lemma heap_init_run s held :
  api_ok held (pages s) -> (4 <= avail (pages s))%nat -> ~ is_mapped (pages s) HEAP_BASE ->
  heap_ready s = false -> heap_end s = HEAP_BASE -> heap_first s = 0 -> heap_last s = 0 ->
  exists s', heap_init s = Ret tt s' /\ heap_inv s' [(4064, true)] /\ heap_ready s' = true /\
    took 4 (heap_end s') (pages s) (pages s').
Proof.
  intros Hok Hav Hnm Hrd He Hf Hl. unfold heap_init at 1. mred. rewrite Hrd. mred.
  change (align_up_addr (heap_end s) PAGE_SIZE) with (align_up_addr (heap_end s) 4096).
  rewrite He. change (align_up_addr HEAP_BASE 4096) with HEAP_BASE.
  set (s0 := s <| heap_end := HEAP_BASE |>).
  assert (Hr0 : heap_rep s0 []) by (split; simpl; try done; constructor).
  destruct (heap_extend_run s0 [] 4064 Hr0) as (r & s1 & E & Hk & Hok1 & _ & _ & Hz & Hnz);
    [done|by exists held|done..|].
  change (PAGE_SIZE - sizeof_heap_block) with 4064. mrun E. destruct (decide (r = 0)) as [->|Hr].
  2:{ exfalso. destruct (Hnz Hr) as [_ [(va & Hva & Hal & Hm)|Hlt]].
      - change (extent 4064) with 4096 in Hva. simpl in *. apply Hnm.
        assert (va = HEAP_BASE) as ->; [|done]. unfold HEAP_BASE in *. div_lia.
      - change (extent 4064 / 1024) with 4 in Hlt. simpl in Hlt. lia. }
  destruct (Hz eq_refl) as (Hr1 & He1 & Hm1 & _ & Htk). rewrite bool_decide_eq_true_2 by done. cbn [negb]. mred.
  assert (Hinv0 : heap_inv s0 []).
  { split; [done|done|done| |by exists held]. simpl. lia. }
  pose proof (extended_inv s0 s1 [] 4064 Hinv0 ltac:(lia) Hk Hok1 Hr1 He1 Hm1) as Hinv1.
  apply (heap_inv_ready _ _ true) in Hinv1.
  destruct (heap_selftest_run _ Hinv1) as (s2 & E2 & Hinv2 & Hrd2 & Ep2).
  exists s2. split_and!; [done|done|done|]. rewrite Ep2, (rep_end _ _ (inv_rep _ _ Hinv2)).
  rewrite (rep_end _ _ Hr1) in Htk. exact Htk.
Qed.

(** [heap_init] on a heap that has not been set up, with four pages free and
    nothing mapped at [HEAP_BASE], does not panic: it maps one page, passes its
    selftest and leaves one free block of [PAGE_SIZE - sizeof(struct heap_block)]
    bytes.  A second call changes nothing. *)
Theorem heap_init_succeeds s held :
  api_ok held (pages s) -> (4 <= avail (pages s))%nat -> ~ is_mapped (pages s) HEAP_BASE ->
  heap_ready s = false -> heap_end s = HEAP_BASE -> heap_first s = 0 -> heap_last s = 0 ->
  exists s', heap_init s = Ret tt s' /\ heap_inv s' [(4064, true)] /\ heap_ready s' = true /\
    heap_init s' = Ret tt s'.
Proof.
  intros H1 H2 H3 H4 H5 H6 H7.
  destruct (heap_init_run s held H1 H2 H3 H4 H5 H6 H7) as (s' & E & Hinv & Hrd & _).
  exists s'. split_and!; [done|done|done|]. unfold heap_init. mred. by rewrite Hrd.
Qed.
End extend.
