(* ===== verification/MmInit.v ===== *)
(** * mm_init: the memory manager put together

    [mm_init] of mm/page_alloc.c runs the page allocator's start-up, its selftest,
    the page-table selftest of kernel/selftest/page_table.c and the heap's start-up
    on one state.  The file also shows that the page allocator and the page tables
    provide what the heap relies on, the instance of [PageApiSpec]. *)

From S2P Require Import Prelude LinkedList PhysMem PageTableBoot PageAlloc PageTable Heap.

Definition TEST_VIRTUAL_PAGE : Z := 18446742974197923840. (* 0xffffff0000000000 *)

(** An access through a kernel virtual address: the tables translate it, and a page
    that is not mapped is a page fault. *)
Definition virt_address (va : Z) : M mm Z := deref (fun s =>
  match translate (ram s) (mm_root s) va with
  | Some e => Some (Z.lor (Z.land e X86_PAGE_MASK) (Z.land va (PAGE_SIZE - 1)))
  | None => None
  end).

Definition virt_store64 (va v : Z) : M mm unit := pa ← virt_address va; store64 pa v.
Definition virt_load64 (va : Z) : M mm Z := pa ← virt_address va; load64 pa.

(** [if (call() != expected) panic(msg)] *)
Definition expect {S A} `{EqDecision A} (m : M S A) (expected : A) (msg : string) : M S unit :=
  r ← m; if bool_decide (r = expected) then mret tt else panic msg.

Definition SELFTEST_MMIO_WORD : Z := 6073472761484823885. (* 0x54494f4c45504d4d *)

Definition page_table_selftest (L : layout) : M mm unit :=
  page ← alloc_page;
  if bool_decide (page = 0) then panic "page table selftest allocation failed"
  else
    page_tables_init L ;;
    expect (map_page (TEST_VIRTUAL_PAGE + 1) page PAGE_WRITABLE) (- EINVAL)
      "page table selftest unaligned map errno failed" ;;
    expect (virt_to_phys TEST_VIRTUAL_PAGE false) (inl (- EINVAL))
      "page table selftest null output errno failed" ;;
    expect (virt_to_phys TEST_VIRTUAL_PAGE true) (inl (- ENOENT))
      "page table selftest missing resolve errno failed" ;;
    expect (map_page TEST_VIRTUAL_PAGE page PAGE_WRITABLE) 0 "page table selftest map failed" ;;
    expect (map_page TEST_VIRTUAL_PAGE page PAGE_WRITABLE) (- EEXIST)
      "page table selftest duplicate map errno failed" ;;
    expect (virt_to_phys TEST_VIRTUAL_PAGE true) (inr page) "page table selftest resolve failed" ;;
    virt_store64 TEST_VIRTUAL_PAGE SELFTEST_MMIO_WORD ;;
    expect (virt_load64 TEST_VIRTUAL_PAGE) SELFTEST_MMIO_WORD "page table selftest access failed" ;;
    expect (unmap_page TEST_VIRTUAL_PAGE) 0 "page table selftest unmap failed" ;;
    expect (unmap_page TEST_VIRTUAL_PAGE) (- ENOENT)
      "page table selftest missing unmap errno failed" ;;
    free_page page.

#[export] Instance mm_api : PageApi mm := {|
  api_alloc_page := alloc_page;
  api_map_page := map_page;
  api_free_page := free_page
|}.

(** [boot_info = None] is a NULL pointer. *)
Definition mm_init (L : layout) (boot_info : option boot_info_t) : M (heap_state mm) unit :=
  match boot_info with
  | Some bi =>
      if bool_decide (memory_map bi = 0) || bool_decide (memory_descriptor_size bi = 0)
      then panic "memory map unavailable"
      else
        on_pages (modify (fun s => s <| free_pages := 0 |> <| free_page_count := 0 |>)) ;;
        on_pages (init_free_pages L bi) ;;
        on_pages page_allocator_selftest ;;
        on_pages (page_table_selftest L) ;;
        heap_init
  | None => panic "memory map unavailable"
  end.

(** ** The kernel's part of the address space *)

(** The top two slots of the root hold everything the kernel maps itself. *)
Definition kernel_slot (i : Z) : Prop := 510 <= i.

Definition kernel_view (held : gset Z) : owner := Owner kernel_slot held.

Lemma kernel_window va :
  18446742974197923840 <= va < 18446744073709551616 -> kernel_slot (table_index va 39).
Proof.
  intros Hva. unfold kernel_slot. rewrite table_index_div by lia. change (2 ^ 39) with 549755813888.
  div_lia.
Qed.

Definition pages_ok (held : gset Z) (s : mm) : Prop :=
  exists free, vm_inv (kernel_view held) free s /\
    Z.of_nat (length free + base.size held) < 18446744073709551616 /\
    forall p, p ∈ held -> 0 <= p < 4503599627370496.

Lemma avail_free s free :
  free_list s free -> Z.of_nat (length free) < 18446744073709551616 ->
  Z.to_nat (free_page_count s) = length free.
Proof. intros (_ & _ & ->) Hl. rewrite wrap64_id by (unfold in64; lia). lia. Qed.

(** Taking the top page out of the stack and holding it. *)
Lemma vm_inv_hold held p free s s' :
  vm_inv (kernel_view held) (p :: free) s -> free_list s' free ->
  ram s' = ram s -> cr3 s' = cr3 s ->
  vm_inv (kernel_view ({[p]} ∪ held)) free s'.
Proof.
  intros Hinv Hfl Hram Hcr. assert (Hroot : mm_root s' = mm_root s) by (unfold mm_root; by rewrite Hcr).
  pose proof (top_not_below _ _ _ _ Hinv) as Hnb. destruct Hinv as [H1 H2 H3 H4].
  split; [done|by apply Forall_cons in H2 as [_ ?]| |].
  - intros x [->%elem_of_singleton|Hx]%elem_of_union; [done|]. intros Hin.
    apply (H3 x Hx). by right.
  - rewrite Hram, Hroot. destruct H4 as [W1 W2 W3 W4]. split; try done.
    + intros q t Hq Ht Hin. apply (W2 q t Hq Ht). by right.
    + intros q t Hq Ht [->%elem_of_singleton|Hx]%elem_of_union; [|by apply (W3 q t)].
      apply (W2 q p Hq Ht). left.
Qed.

(** Giving a held page back. *)
Lemma vm_inv_give held p free s s' :
  vm_inv (kernel_view ({[p]} ∪ held)) free s -> p mod 4096 = 0 -> 0 <= p < 4503599627370496 ->
  p ∉ held -> free_list s' (p :: free) ->
  (forall a, a <> p -> word (ram s') a = word (ram s) a) -> cr3 s' = cr3 s ->
  vm_inv (kernel_view held) (p :: free) s' /\
  forall va, kernel_slot (table_index va 39) ->
    translate (ram s') (mm_root s') va = translate (ram s) (mm_root s) va.
Proof.
  intros Hinv Hal Hfr Hnh Hfl Hsame Hcr.
  assert (Hroot : mm_root s' = mm_root s) by (unfold mm_root; by rewrite Hcr).
  pose proof (inv_tree _ _ _ Hinv) as Hwf. rewrite Hroot.
  assert (Hout : forall q t i, good_path kernel_slot q -> walk (ram s) (mm_root s) q = Some t ->
    0 <= i < 512 -> word (ram s') (t + 8 * i) = word (ram s) (t + 8 * i)).
  { intros q t i Hq Ht Hi. apply Hsame. intros E.
    destruct (page_entries_disjoint t p i 0) as [-> _];
      [by eapply walk_aligned|done|done|lia|lia|].
    apply (wf_not_held _ _ _ _ Hwf q p Hq Ht). simpl. set_solver. }
  pose proof (write_outside_walk (kernel_view ({[p]} ∪ held)) _ _ _ Hout) as Hw.
  split.
  - destruct Hinv as [H1 H2 H3 H4], Hwf as [W1 W2 W3 W4]. split; [done|by constructor| |].
    + intros x Hx [->|Hin]%elem_of_cons; [done|]. apply (H3 x); [simpl; set_solver|done].
    + rewrite Hroot. split; [done|..].
      * intros q t Hq. rewrite Hw by done. intros Ht [->|Hin]%elem_of_cons; [|by apply (W2 q t)].
        apply (W3 q p Hq Ht). simpl. set_solver.
      * intros q t Hq. rewrite Hw by done. intros Ht Hin. apply (W3 q t Hq Ht). simpl in *. set_solver.
      * intros q q' t Hq Hq'. rewrite !Hw by done. by apply W4.
  - intros va Hva. by eapply (write_outside_translate (kernel_view ({[p]} ∪ held))).
Qed.

Definition page_avail (s : mm) : nat := Z.to_nat (free_page_count s).
Definition page_translation (s : mm) (va : Z) : option Z := translate (ram s) (mm_root s) va.

Lemma vm_alloc_law held s :
  pages_ok held s ->
  exists p s', alloc_page s = Ret p s' /\
    (forall va, kernel_slot (table_index va 39) -> page_translation s' va = page_translation s va) /\
    match page_avail s with
    | O => p = 0 /\ pages_ok held s' /\ page_avail s' = O
    | S n => p <> 0 /\ p mod 4096 = 0 /\ (p ∉ held) /\ pages_ok ({[p]} ∪ held) s' /\ page_avail s' = n
    end.
Proof.
  intros (free & Hinv & Hlen & Hheld). pose proof (inv_free _ _ _ Hinv) as Hfl.
  unfold page_avail at 1. rewrite (avail_free s free Hfl) by lia. destruct free as [|p free].
  { exists 0, s. rewrite (alloc_page_empty s Hfl). cbn [length]. split_and!; [done|done|done|by exists []|].
    unfold page_avail. by rewrite (avail_free s [] Hfl). }
  destruct (alloc_page_cons s p free Hfl) as [E Hfl']. exists p. eexists. split; [exact E|].
  split; [done|]. cbn [length]. pose proof (top_page _ _ _ _ Hinv) as [Hpa Hpf].
  pose proof (top_not_held _ _ _ _ Hinv) as Hph. simpl in Hph.
  split_and!; [eapply free_list_nonzero; [exact Hfl|left]|done|done| |].
  - exists free. split_and!; [by eapply vm_inv_hold| |].
    + rewrite size_union by set_solver. rewrite size_singleton. simpl in Hlen. lia.
    + intros x [->%elem_of_singleton|Hx]%elem_of_union; [done|by apply Hheld].
  - unfold page_avail. erewrite avail_free; [done|exact Hfl'|simpl in Hlen; lia].
Qed.

Lemma vm_map_law held s va p flags :
  pages_ok held s -> p mod 4096 = 0 -> kernel_slot (table_index va 39) -> va mod 4096 = 0 ->
  exists r s', map_page va p flags s = Ret r s' /\ pages_ok held s' /\
    (page_avail s - 3 <= page_avail s' <= page_avail s)%nat /\
    match page_translation s va with
    | Some _ => r = - EEXIST /\ s' = s
    | None =>
        (r = 0 \/ r = - ENOMEM /\ (page_avail s < 3)%nat) /\
        forall va', kernel_slot (table_index va' 39) ->
          page_translation s' va' = if bool_decide (r = 0 /\ vpn va' = vpn va)
                                    then Some (leaf_entry p flags) else page_translation s va'
    end.
Proof.
  intros (free & Hinv & Hlen & Hheld) Hp Hw Hva. unfold page_translation.
  pose proof (inv_free _ _ _ Hinv) as Hfl.
  assert (Hav : page_avail s = length free) by (apply avail_free; [done|lia]).
  destruct (translate (ram s) (mm_root s) va) as [e|] eqn:Ht.
  { exists (- EEXIST), s. rewrite (map_page_eexist _ free s va p flags e Hinv Hva Hp Ht).
    split_and!; try done; try lia; by exists free. }
  destruct (map_page_fresh _ free s va p flags Hinv Hw Hva Hp Ht)
    as (r & s' & k & E & Hk & Hinv' & Hcr & Hr).
  assert (Hav' : page_avail s' = (length free - k)%nat).
  { rewrite <- length_drop. apply avail_free; [apply Hinv'|]. rewrite length_drop. lia. }
  exists r, s'. rewrite Hav, Hav'. split_and!; [done| |lia|lia| |].
  - exists (drop k free). split_and!; [done| |done]. rewrite length_drop. lia.
  - destruct Hr as [(-> & _)|(-> & Hl & _)]; [by left|by right].
  - intros va' Hva'. unfold mm_root at 1. rewrite Hcr. fold (mm_root s).
    destruct Hr as [(-> & _ & Htr)|(-> & _ & _ & Htr)]; rewrite Htr by done.
    + by repeat case_bool_decide; try tauto.
    + rewrite bool_decide_eq_false_2; [done|]. by intros [? _].
Qed.

Lemma vm_free_law held s p :
  pages_ok ({[p]} ∪ held) s -> p ∉ held -> p <> 0 -> p mod 4096 = 0 ->
  exists s', free_page p s = Ret tt s' /\ pages_ok held s' /\ page_avail s' = S (page_avail s) /\
    (forall va, kernel_slot (table_index va 39) -> page_translation s' va = page_translation s va).
Proof.
  intros (free & Hinv & Hlen & Hheld) Hnh Hp0 Hpa. pose proof (inv_free _ _ _ Hinv) as Hfl.
  rewrite size_union, size_singleton in Hlen by set_solver.
  assert (Hnf : p ∉ free) by (apply (inv_held _ _ _ Hinv); simpl; set_solver).
  destruct (add_free_page_run s free p Hfl Hpa Hp0 Hnf) as (s' & E & Hfl' & Es).
  assert (Hfp : 0 <= p < 4503599627370496) by (apply Hheld; set_solver).
  destruct (vm_inv_give held p free s s' Hinv Hpa Hfp Hnh Hfl') as [Hinv' Htr].
  { intros a Ha. subst s'. simpl. by apply word_insert_ne. }
  { by subst s'. }
  exists s'. split_and!; [| | |done].
  - unfold free_page. rewrite aligned_land, Hpa. rewrite (bool_decide_eq_false_2 (p = 0)) by done. done.
  - exists (p :: free). split_and!; [done|simpl; lia|]. intros x Hx. apply Hheld. set_solver.
  - unfold page_avail. rewrite (avail_free s' _ Hfl') by (simpl; lia).
    by rewrite (avail_free s _ Hfl) by lia.
Qed.

Lemma heap_in_window va :
  HEAP_BASE <= va < 18446744073709551616 -> kernel_slot (table_index va 39).
Proof. unfold HEAP_BASE. intros Hva. apply kernel_window. lia. Qed.

(** The page allocator and the page tables are what the heap relies on. *)
#[export] Instance mm_api_spec : PageApiSpec mm := {|
  window := fun va => kernel_slot (table_index va 39);
  api_ok := pages_ok;
  avail := page_avail;
  entry_of := page_translation;
  heap_window := heap_in_window;
  api_alloc_law := vm_alloc_law;
  api_map_law := vm_map_law;
  api_free_law := vm_free_law
|}.

(** ** Taking over the root *)

Lemma page_tables_init_run L s :
  page_tables_ready s = false -> kernel_pml4 L mod 4096 = 0 ->
  0 <= kernel_pml4 L < 4503599627370496 -> mm_root s <> kernel_pml4 L ->
  exists s', page_tables_init L s = Ret tt s' /\
    (forall i, 0 <= i < 512 -> word (ram s') (kernel_pml4 L + 8 * i) = word (ram s) (mm_root s + 8 * i)) /\
    (forall a, outside_page (kernel_pml4 L) a -> word (ram s') a = word (ram s) a) /\
    s' = s <| ram := ram s' |> <| cr3 := kernel_pml4 L |> <| page_tables_ready := true |>.
Proof.
  intros Hrd Ha Hb Hne. unfold mm_root in *.
  destruct (copy_root_run L (Z.land (cr3 s) X86_PAGE_MASK) s) as (s1 & E & [Hd Hf] & Es1);
    [apply land_page_mask_aligned|done|done|].
  eexists. split.
  { unfold page_tables_init, active_pml4. mred. rewrite Hrd. mred. mrun E. unfold load_cr3. mred.
    reflexivity. }
  simpl. split_and!.
  - intros i Hi. apply Hd, elem_of_seqZ. unfold X86_PAGE_TABLE_ENTRIES. lia.
  - intros a Hout. apply Hf. intros i Hi%elem_of_seqZ. apply Hout. unfold X86_PAGE_TABLE_ENTRIES in Hi. lia.
  - rewrite Es1. by destruct s.
Qed.

(** The new root is the old one with another first page: no other walk changes. *)
Section new_root.
Context (own : owner) (free : list Z) (m m' : gmap Z Z) (root root' : Z).
Hypothesis Hwf : tree_wf own free m root.
Hypothesis Hal : root' mod 4096 = 0.
Hypothesis Hfresh : forall q, good_path own q -> walk m root q <> Some root'.
Hypothesis Hnf : root' ∉ free.
Hypothesis Hnh : root' ∉ held own.
Hypothesis Hcopy : forall i, 0 <= i < 512 -> word m' (root' + 8 * i) = word m (root + 8 * i).
Hypothesis Hout : forall a, outside_page root' a -> word m' a = word m a.

Lemma new_root_walk q :
  good_path own q -> q <> [] -> walk m' root' q = walk m root q.
Proof.
  induction q as [|i q IH] using rev_ind; intros Hq Hne; [done|].
  pose proof (good_path_init _ _ _ Hq) as Hq'. pose proof (good_path_last _ _ _ Hq) as Hi.
  rewrite !walk_snoc. destruct q as [|j q0]; [unfold child; simpl; by rewrite Hcopy|].
  rewrite IH by done. destruct (walk m root (j :: q0)) as [u|] eqn:Hu; [|done].
  apply child_ext, Hout. apply outside_other_page; [done|by eapply walk_aligned|done|].
  intros ->. by apply (Hfresh (j :: q0)).
Qed.

Lemma new_root_wf : tree_wf own free m' root'.
Proof.
  assert (Hcase : forall q t, good_path own q -> walk m' root' q = Some t ->
    (q = [] /\ t = root') \/ (q <> [] /\ walk m root q = Some t)).
  { intros [|i q] t Hq Ht; [left; by injection Ht as <-|right]. by rewrite new_root_walk in Ht. }
  split; [done|..].
  - intros q t Hq [[_ ->]|[_ Ht]]%Hcase; [done| |done]. by apply (wf_not_free _ _ _ _ Hwf q t).
  - intros q t Hq [[_ ->]|[_ Ht]]%Hcase; [done| |done]. by apply (wf_not_held _ _ _ _ Hwf q t).
  - intros q q' t Hq Hq' Ht Ht'.
    destruct (Hcase q t Hq Ht) as [[-> ->]|[Hne Hw]], (Hcase q' _ Hq' Ht') as [[-> ?]|[Hne' Hw']];
      subst; try done.
    + by destruct (Hfresh q' Hq').
    + by destruct (Hfresh q Hq).
    + by apply (wf_unique _ _ _ _ Hwf q q' t).
Qed.

Lemma new_root_translate va :
  own (table_index va 39) -> translate m' root' va = translate m root va.
Proof.
  intros Hva. pose proof (good_path_upper own va Hva) as Hg.
  unfold translate, leaf_address. rewrite new_root_walk by done.
  destruct (walk m root (upper_path va)) as [u|] eqn:Hu; [|done].
  rewrite Hout; [done|]. apply outside_other_page; [done|by eapply walk_aligned|apply table_index_range|].
  intros ->. by apply (Hfresh (upper_path va)).
Qed.
End new_root.

(** [page_tables_init] in a well-formed memory manager. *)
Lemma page_tables_init_ok L held s :
  pages_ok held s -> page_tables_ready s = false -> kernel_pml4 L mod 4096 = 0 ->
  0 <= kernel_pml4 L < 4503599627370496 -> mm_root s <> kernel_pml4 L ->
  (forall q, good_path kernel_slot q -> walk (ram s) (mm_root s) q <> Some (kernel_pml4 L)) ->
  (forall free, free_list s free -> kernel_pml4 L ∉ free) -> kernel_pml4 L ∉ held ->
  exists s', page_tables_init L s = Ret tt s' /\ pages_ok held s' /\ page_avail s' = page_avail s /\
    mm_root s' = kernel_pml4 L /\
    forall va, kernel_slot (table_index va 39) -> page_translation s' va = page_translation s va.
Proof.
  intros (free & Hinv & Hlen & Hheld) Hrd Ha Hb Hne Hfresh Hnf Hnh.
  destruct (page_tables_init_run L s Hrd Ha Hb Hne) as (s' & E & Hcopy & Hout & Es).
  exists s'. assert (Hroot : mm_root s' = kernel_pml4 L).
  { unfold mm_root. rewrite Es. simpl. by apply land_page_mask_id. }
  pose proof (Hnf free (inv_free _ _ _ Hinv)) as Hnf'.
  split_and!; [done| | |done|].
  - exists free. split_and!; [|done|done]. destruct Hinv as [H1 H2 H3 H4]. split; [|done|done|].
    + eapply free_list_frame; [done| |by rewrite Es..]. intros x Hx. apply Hout.
      replace x with (x + 8 * 0) by lia.
      apply outside_other_page; [done|by eapply free_list_aligned|lia|]. by intros ->.
    + rewrite Hroot. by eapply (new_root_wf (kernel_view held) free (ram s) (ram s') (mm_root s)).
  - unfold page_avail. by rewrite Es.
  - intros va Hva. unfold page_translation. rewrite Hroot.
    by eapply (new_root_translate (kernel_view held) free (ram s) (ram s') (mm_root s));
      [apply Hinv|..].
Qed.

(** The other calls of the selftest, at the same level. *)
Lemma pages_resolve held s va :
  pages_ok held s ->
  virt_to_phys va true s =
  Ret (match page_translation s va with
       | Some e => inr (Z.lor (Z.land e X86_PAGE_MASK) (Z.land va (PAGE_SIZE - 1)))
       | None => inl (- ENOENT)
       end) s.
Proof. intros (free & Hinv & _). by apply (virt_to_phys_run (kernel_view held) free). Qed.

Lemma pages_unmap held s va :
  pages_ok held s -> kernel_slot (table_index va 39) -> va mod 4096 = 0 ->
  match page_translation s va with
  | None => unmap_page va s = Ret (- ENOENT) s
  | Some _ => exists s', unmap_page va s = Ret 0 s' /\ pages_ok held s' /\
      page_avail s' = page_avail s /\
      forall va', kernel_slot (table_index va' 39) ->
        page_translation s' va' = if bool_decide (vpn va' = vpn va) then None else page_translation s va'
  end.
Proof.
  intros (free & Hinv & Hlen & Hheld) Hw Hva. pose proof (unmap_page_run _ free s va Hinv Hw Hva) as Hu.
  unfold page_translation. destruct (translate (ram s) (mm_root s) va); [|done].
  destruct Hu as (s' & E & Hinv' & Hcr & _ & Htr). exists s'. split_and!; [done|by exists free| |].
  - unfold page_avail. by rewrite (avail_free s' free (inv_free _ _ _ Hinv')), (avail_free s free (inv_free _ _ _ Hinv)) by lia.
  - intros va' Hva'. unfold mm_root at 1. rewrite Hcr. by apply Htr.
Qed.

Lemma pages_store held s p v :
  pages_ok held s -> p ∈ held -> p mod 4096 = 0 ->
  exists s', store64 p v s = Ret tt s' /\ pages_ok held s' /\ page_avail s' = page_avail s /\
    word (ram s') p = v /\
    forall va, kernel_slot (table_index va 39) -> page_translation s' va = page_translation s va.
Proof.
  intros (free & Hinv & Hlen & Hheld) Hp Hpa. rewrite store64_run by by apply aligned_8.
  pose proof (inv_tree _ _ _ Hinv) as Hwf. eexists. split; [done|].
  assert (Hout : forall q t i, good_path kernel_slot q -> walk (ram s) (mm_root s) q = Some t ->
    0 <= i < 512 -> word (<[p := v]> (ram s)) (t + 8 * i) = word (ram s) (t + 8 * i)).
  { intros q t i Hq Ht Hi. apply word_insert_ne. intros E.
    destruct (page_entries_disjoint t p i 0) as [-> _]; [by eapply walk_aligned|done|done|lia|lia|].
    by apply (wf_not_held _ _ _ _ Hwf q p Hq Ht). }
  pose proof (write_outside_walk (kernel_view held) _ _ _ Hout) as Hw.
  split_and!; [|done|apply word_insert_eq|].
  - exists free. split_and!; [|done|done]. destruct Hinv as [H1 H2 H3 H4]. split; [|done|done|].
    + eapply free_list_frame; [done| |done..]. intros x Hx. apply word_insert_ne.
      intros ->. by apply (H3 x).
    + destruct Hwf as [W1 W2 W3 W4]. split; [done|..].
      * intros q t Hq. rewrite Hw by done. by apply W2.
      * intros q t Hq. rewrite Hw by done. by apply W3.
      * intros q q' t Hq Hq'. rewrite !Hw by done. by apply W4.
  - intros va Hva. unfold page_translation. by eapply (write_outside_translate (kernel_view held)).
Qed.

Lemma expect_run {S A} `{EqDecision A} (m : M S A) e msg s s' :
  m s = Ret e s' -> expect m e msg s = Ret tt s'.
Proof. intros E. unfold expect. mrun E. by rewrite bool_decide_eq_true_2. Qed.

(** What the selftest needs of the machine: the kernel's root page is not used for
    anything yet, the test page is not mapped and four pages are free. *)
Record selftest_ready (L : layout) (held : gset Z) (s : mm) : Prop := {
  ready_pages : pages_ok held s;
  ready_avail : (4 <= page_avail s)%nat;
  ready_boot : page_tables_ready s = false;
  ready_aligned : kernel_pml4 L mod 4096 = 0;
  ready_frame : 0 <= kernel_pml4 L < 4503599627370496;
  ready_root : mm_root s <> kernel_pml4 L;
  ready_table : forall q, good_path kernel_slot q -> walk (ram s) (mm_root s) q <> Some (kernel_pml4 L);
  ready_free : forall free, free_list s free -> kernel_pml4 L ∉ free;
  ready_held : kernel_pml4 L ∉ held;
  ready_unmapped : page_translation s TEST_VIRTUAL_PAGE = None
}.

Lemma test_page_slot : kernel_slot (table_index TEST_VIRTUAL_PAGE 39).
Proof. apply kernel_window. done. Qed.

(** The part of the selftest between taking over the root and giving the page
    back. *)
Lemma selftest_calls held s p :
  pages_ok held s -> p ∈ held -> p mod 4096 = 0 -> 0 <= p < 4503599627370496 ->
  (3 <= page_avail s)%nat -> page_translation s TEST_VIRTUAL_PAGE = None ->
  exists s', (
    expect (map_page (TEST_VIRTUAL_PAGE + 1) p PAGE_WRITABLE) (- EINVAL)
      "page table selftest unaligned map errno failed" ;;
    expect (virt_to_phys TEST_VIRTUAL_PAGE false) (inl (- EINVAL))
      "page table selftest null output errno failed" ;;
    expect (virt_to_phys TEST_VIRTUAL_PAGE true) (inl (- ENOENT))
      "page table selftest missing resolve errno failed" ;;
    expect (map_page TEST_VIRTUAL_PAGE p PAGE_WRITABLE) 0 "page table selftest map failed" ;;
    expect (map_page TEST_VIRTUAL_PAGE p PAGE_WRITABLE) (- EEXIST)
      "page table selftest duplicate map errno failed" ;;
    expect (virt_to_phys TEST_VIRTUAL_PAGE true) (inr p) "page table selftest resolve failed" ;;
    virt_store64 TEST_VIRTUAL_PAGE SELFTEST_MMIO_WORD ;;
    expect (virt_load64 TEST_VIRTUAL_PAGE) SELFTEST_MMIO_WORD "page table selftest access failed" ;;
    expect (unmap_page TEST_VIRTUAL_PAGE) 0 "page table selftest unmap failed" ;;
    expect (unmap_page TEST_VIRTUAL_PAGE) (- ENOENT)
      "page table selftest missing unmap errno failed" ;;
    free_page p) s = free_page p s' /\
    pages_ok held s' /\ (page_avail s - 3 <= page_avail s')%nat /\
    forall va, kernel_slot (table_index va 39) -> page_translation s' va = page_translation s va.
Proof.
  intros Hok Hp Hpa Hpf Hav Hnone. pose proof test_page_slot as Hw.
  assert (Hal : TEST_VIRTUAL_PAGE mod 4096 = 0) by done.
  assert (Ephys : Z.lor (Z.land (leaf_entry p PAGE_WRITABLE) X86_PAGE_MASK)
    (Z.land TEST_VIRTUAL_PAGE (PAGE_SIZE - 1)) = p).
  { pose proof (leaf_entry_phys p PAGE_WRITABLE TEST_VIRTUAL_PAGE 0 Hpa Hpf eq_refl Hal) as El.
    rewrite !Z.add_0_r in El. apply El. lia. }
  erewrite bind_run by (apply expect_run, map_page_einval; intros [? _]; done).
  erewrite bind_run by (apply expect_run; reflexivity).
  erewrite bind_run by (apply expect_run; rewrite (pages_resolve held), Hnone by done; reflexivity).
  destruct (vm_map_law held s TEST_VIRTUAL_PAGE p PAGE_WRITABLE Hok Hpa Hw Hal)
    as (r & s1 & E1 & Hok1 & Hav1 & Hr). rewrite Hnone in Hr. destruct Hr as [Hr Ht1].
  assert (r = 0) as -> by (destruct Hr as [->|[_ ?]]; [done|lia]).
  assert (Hm1 : page_translation s1 TEST_VIRTUAL_PAGE = Some (leaf_entry p PAGE_WRITABLE)).
  { rewrite Ht1 by done. by rewrite bool_decide_eq_true_2. }
  erewrite bind_run by (apply expect_run; exact E1).
  destruct (vm_map_law held s1 TEST_VIRTUAL_PAGE p PAGE_WRITABLE Hok1 Hpa Hw Hal)
    as (r & s2 & E2 & _ & _ & Hr2). rewrite Hm1 in Hr2. destruct Hr2 as [-> ->].
  erewrite bind_run by (apply expect_run; exact E2).
  erewrite bind_run by (apply expect_run; rewrite (pages_resolve held), Hm1, Ephys by done; reflexivity).
  assert (Hva : forall t, page_translation t TEST_VIRTUAL_PAGE = Some (leaf_entry p PAGE_WRITABLE) ->
    virt_address TEST_VIRTUAL_PAGE t = Ret p t).
  { intros t Ht. unfold virt_address, deref, page_translation in *. by rewrite Ht, Ephys. }
  destruct (pages_store held s1 p SELFTEST_MMIO_WORD Hok1 Hp Hpa) as (s3 & E3 & Hok3 & Hav3 & Hw3 & Ht3).
  erewrite (bind_run (virt_store64 _ _)) by (unfold virt_store64; mrun (Hva s1 Hm1); exact E3).
  assert (Hm3 : page_translation s3 TEST_VIRTUAL_PAGE = Some (leaf_entry p PAGE_WRITABLE)) by by rewrite Ht3.
  erewrite bind_run by (apply expect_run; unfold virt_load64; mrun (Hva s3 Hm3);
    rewrite load64_run, Hw3 by (by apply aligned_8); reflexivity).
  pose proof (pages_unmap held s3 TEST_VIRTUAL_PAGE Hok3 Hw Hal) as Hu. rewrite Hm3 in Hu.
  destruct Hu as (s4 & E4 & Hok4 & Hav4 & Ht4). erewrite bind_run by (apply expect_run; exact E4).
  pose proof (pages_unmap held s4 TEST_VIRTUAL_PAGE Hok4 Hw Hal) as Hu.
  rewrite (Ht4 TEST_VIRTUAL_PAGE Hw), bool_decide_eq_true_2 in Hu by done.
  erewrite bind_run by (apply expect_run; exact Hu).
  exists s4. split_and!; [done|done|lia|]. intros va Hva'. rewrite Ht4, Ht3, Ht1 by done.
  case_bool_decide as Ev; [|rewrite bool_decide_eq_false_2 by tauto; done].
  rewrite <- Hnone. unfold page_translation. symmetry. by apply translate_vpn.
Qed.

Lemma free_list_det s l l' : free_list s l -> free_list s l' -> l = l'.
Proof. intros (H1 & _) (H2 & _). by eapply lseg_det. Qed.

Lemma page_table_selftest_run L held s :
  selftest_ready L held s ->
  exists s', page_table_selftest L s = Ret tt s' /\ pages_ok held s' /\
    (page_avail s - 3 <= page_avail s')%nat /\
    forall va, kernel_slot (table_index va 39) -> page_translation s' va = page_translation s va.
Proof.
  intros [Hok Hav Hrd Hka Hkf Hroot Htab Hfree Hheld Hnone]. unfold page_table_selftest.
  pose proof Hok as (free & Hinv & Hlen & _).
  pose proof (avail_free s free (inv_free _ _ _ Hinv) ltac:(lia)) as Hlav.
  destruct (vm_alloc_law held s Hok) as (p & s1 & E1 & Ht1 & Hp). mrun E1.
  unfold page_avail in Hav at 1. destruct (page_avail s) as [|n] eqn:Hn; [unfold page_avail in Hn; lia|].
  destruct Hp as (Hp0 & Hpa & Hph & Hok1 & Hav1). rewrite bool_decide_eq_false_2 by done.
  destruct free as [|p' free]; [unfold page_avail in Hn; simpl in Hlav; lia|].
  destruct (alloc_page_cons s p' free (inv_free _ _ _ Hinv)) as [E1' Hfl1].
  rewrite E1 in E1'. injection E1' as -> ->.
  pose proof (Hfree _ (inv_free _ _ _ Hinv)) as Hkn.
  destruct (page_tables_init_ok L _ _ Hok1) as (s2 & E2 & Hok2 & Hav2 & _ & Ht2); try done.
  { intros free' Hfl'. rewrite (free_list_det _ _ _ Hfl' Hfl1). set_solver. }
  { set_solver. }
  mrun E2. pose proof (top_page _ _ _ _ Hinv) as [_ Hpf].
  destruct (selftest_calls _ s2 p' Hok2 ltac:(set_solver) Hpa Hpf) as (s3 & E3 & Hok3 & Hav3 & Ht3).
  { unfold page_avail in *. lia. }
  { by rewrite Ht2, Ht1 by apply test_page_slot. }
  rewrite E3. destruct (vm_free_law held s3 p' Hok3 Hph Hp0 Hpa) as (s4 & E4 & Hok4 & Hav4 & Ht4).
  exists s4. split_and!; [done|done|lia|]. intros va Hva. by rewrite Ht4, Ht3, Ht2, Ht1 by done.
Qed.

(** The page-table selftest passes on a machine that is ready for it: every
    error code it expects is the one returned, the word written through the new
    mapping is read back, and at the end every kernel translation is as before,
    with at most three pages spent on tables. *)
Theorem page_table_selftest_passes L held s :
  selftest_ready L held s ->
  exists s', page_table_selftest L s = Ret tt s' /\ pages_ok held s' /\
    (page_avail s - 3 <= page_avail s')%nat /\
    forall va, kernel_slot (table_index va 39) -> page_translation s' va = page_translation s va.
Proof.
  intros Hready. apply page_table_selftest_run. exact Hready.
Qed.

(** ** The whole start-up *)

(** The machine as the boot loader hands it over: a sound memory map with seven
    usable pages, the firmware's tables counted, the kernel's slots of the root
    empty, the kernel's own root page inside the reserved kernel image. *)
Record boot_ready (L : layout) (bi : boot_info_t) (R : list Z) (s : heap_state mm) : Prop := {
  boot_map : map_ok L bi R (ram (pages s));
  boot_map_addr : memory_map bi <> 0;
  boot_tables : tables_known R (pages s);
  boot_root : mm_root (pages s) ∈ R;
  boot_slots : forall i, kernel_slot i -> i < 512 ->
    is_present (word (ram (pages s)) (mm_root (pages s) + 8 * i)) = false;
  boot_own_root : in_fixed_ranges L bi (kernel_pml4 L) = true;
  boot_own_aligned : kernel_pml4 L mod 4096 = 0;
  boot_own_frame : 0 <= kernel_pml4 L < 4503599627370496;
  boot_own_fresh : mm_root (pages s) <> kernel_pml4 L;
  boot_once : page_tables_ready (pages s) = false;
  boot_frames : Forall (fun p => 0 <= p < 4503599627370496)
    (usable_pages L bi R (ram (pages s)) 0 (desc_count bi));
  boot_enough : (7 <= length (usable_pages L bi R (ram (pages s)) 0 (desc_count bi)))%nat;
  boot_count : Z.of_nat (length (usable_pages L bi R (ram (pages s)) 0 (desc_count bi)))
    < 18446744073709551616;
  boot_heap : heap_ready s = false /\ heap_end s = HEAP_BASE /\ heap_first s = 0 /\ heap_last s = 0
}.

Lemma walk_empty_slots m root q t :
  (forall i, kernel_slot i -> i < 512 -> is_present (word m (root + 8 * i)) = false) ->
  good_path kernel_slot q -> walk m root q = Some t -> q = [] /\ t = root.
Proof.
  intros He. destruct q as [|i q]; [by intros _ [= <-]|]. intros (_ & [Hi _]%Forall_cons & Hs).
  simpl. unfold child. rewrite He by (done || lia). done.
Qed.

(** A page of the list of usable pages is neither in a fixed range nor a table. *)
Lemma usable_not_reserved L bi R m k n p :
  p ∈ usable_pages L bi R m k n -> in_fixed_ranges L bi p = false /\ p ∉ R.
Proof.
  rewrite elem_of_usable_pages. intros (j & _ & Hp). unfold unreserved in Hp.
  apply list_elem_of_filter in Hp as [Hp _]. unfold is_reserved in Hp.
  apply orb_false_iff in Hp as [H1 H2%bool_decide_eq_false_1]. done.
Qed.

(** The stack of pages [mm_init] builds, with the empty kernel slots, is a
    well-formed memory manager. *)
Lemma init_pages_ok R s l s' :
  (forall i, kernel_slot i -> i < 512 -> is_present (word (ram s) (mm_root s + 8 * i)) = false) ->
  pushed R s [] l s' -> Forall (fun p => 0 <= p < 4503599627370496) l -> mm_root s ∉ l ->
  Z.of_nat (length l) < 18446744073709551616 ->
  (forall i, kernel_slot i -> i < 512 -> is_present (word (ram s') (mm_root s' + 8 * i)) = false) /\
  mm_root s' = mm_root s /\ vm_inv (kernel_view ∅) l s' /\ pages_ok ∅ s' /\
  page_avail s' = length l.
Proof.
  intros He [Hl _ Hmem [Hcr _]] Hfr Hnin Hlen. rewrite app_nil_r in Hl.
  assert (Hroot : mm_root s' = mm_root s) by (unfold mm_root; by rewrite Hcr).
  assert (Hra : mm_root s mod 4096 = 0) by apply land_page_mask_aligned.
  assert (He' : forall i, kernel_slot i -> i < 512 ->
    is_present (word (ram s') (mm_root s' + 8 * i)) = false).
  { intros i Hi Hi'. rewrite Hroot, Hmem; [by apply He|]. intros Hin.
    assert (Hia : (mm_root s + 8 * i) mod 4096 = 0) by by eapply free_list_aligned.
    unfold kernel_slot in Hi. div_lia. }
  assert (Hinv : vm_inv (kernel_view ∅) l s').
  { split; [done|done|by intros p Hp%not_elem_of_empty|]. split.
    - by rewrite Hroot.
    - intros q t Hq [_ ->]%(walk_empty_slots _ _ _ _ He'); [by rewrite Hroot|done].
    - intros q t _ _ Hp. by apply not_elem_of_empty in Hp.
    - intros q q' t Hq Hq' [-> _]%(walk_empty_slots _ _ _ _ He') [-> _]%(walk_empty_slots _ _ _ _ He'); done. }
  split_and!; try done.
  - exists l. split_and!; [done|rewrite size_empty; lia|by intros p Hp%not_elem_of_empty].
  - apply avail_free; [done|lia].
Qed.

(** The allocator's selftest takes two pages and puts them back as they were. *)
Lemma page_allocator_selftest_run s p q l :
  free_list s (p :: q :: l) ->
  exists s', page_allocator_selftest s = Ret tt s' /\ free_list s' (p :: q :: l) /\
    (forall a, word (ram s') a = word (ram s) a) /\ cr3 s' = cr3 s /\
    page_tables_ready s' = page_tables_ready s.
Proof.
  intros Hfl. pose proof (free_list_NoDup _ _ Hfl) as Hnd.
  assert (Hp0 : p <> 0) by (eapply free_list_nonzero; [exact Hfl|left]).
  assert (Hq0 : q <> 0) by (eapply free_list_nonzero; [exact Hfl|right; left]).
  assert (Hpa : p mod 4096 = 0) by (eapply free_list_aligned; [exact Hfl|left]).
  assert (Hqa : q mod 4096 = 0) by (eapply free_list_aligned; [exact Hfl|right; left]).
  apply NoDup_cons in Hnd as [Hnp [Hnq _]%NoDup_cons].
  pose proof Hfl as ((Ep & _ & n & [= En] & (Eq & _ & n' & [= En'] & Hl)) & _).
  unfold page_allocator_selftest.
  destruct (alloc_page_cons s p _ Hfl) as [E1 F1]. mrun E1.
  destruct (alloc_page_cons _ q _ F1) as [E2 F2]. mrun E2. simpl in F2.
  rewrite !bool_decide_eq_false_2 by (done || (intros ->; apply Hnp; left)). cbn [orb].
  destruct (add_free_page_run _ l q F2 Hqa Hq0 Hnq) as (s3 & E3 & F3 & Es3).
  destruct (add_free_page_run s3 (q :: l) p F3 Hpa Hp0 Hnp) as (s4 & E4 & F4 & Es4).
  erewrite bind_run by (unfold free_page; rewrite aligned_land, Hqa, (bool_decide_eq_false_2 (q = 0)) by done; exact E3).
  exists s4. split.
  { unfold free_page. rewrite aligned_land, Hpa, (bool_decide_eq_false_2 (p = 0)) by done. exact E4. }
  rewrite Es4, Es3. split_and!; try done; [by rewrite <- Es3, <- Es4|].
  simpl. intros a. destruct (decide (a = p)) as [->|]; [|destruct (decide (a = q)) as [->|]].
  - rewrite word_insert_eq. congruence.
  - rewrite word_insert_ne, word_insert_eq by (intros ->; apply Hnp; left). done.
  - by rewrite !word_insert_ne by done.
Qed.

(** Memory that reads the same is as well formed. *)
Lemma vm_inv_same held free s s' :
  vm_inv (kernel_view held) free s -> free_list s' free ->
  (forall a, word (ram s') a = word (ram s) a) -> cr3 s' = cr3 s ->
  vm_inv (kernel_view held) free s' /\
  forall q, good_path kernel_slot q -> walk (ram s') (mm_root s') q = walk (ram s) (mm_root s) q.
Proof.
  intros [H1 H2 H3 [W1 W2 W3 W4]] Hfl Hw Hcr.
  assert (Hroot : mm_root s' = mm_root s) by (unfold mm_root; by rewrite Hcr).
  assert (Hwalk : forall q, good_path kernel_slot q ->
    walk (ram s') (mm_root s') q = walk (ram s) (mm_root s) q).
  { intros q Hq. rewrite Hroot. by eapply (write_outside_walk (kernel_view held)). }
  split; [|done]. split; [done|done|done|]. split; [by rewrite Hroot|..].
  - intros q t Hq. rewrite Hwalk by done. by apply W2.
  - intros q t Hq. rewrite Hwalk by done. by apply W3.
  - intros q q' t Hq Hq'. rewrite !Hwalk by done. by apply W4.
Qed.

Lemma translate_empty_slots m root va :
  (forall i, kernel_slot i -> i < 512 -> is_present (word m (root + 8 * i)) = false) ->
  kernel_slot (table_index va 39) -> translate m root va = None.
Proof.
  intros He Hs. unfold translate, leaf_address.
  destruct (walk m root (upper_path va)) as [t|] eqn:Ht; [|done].
  apply (walk_empty_slots _ _ _ _ He) in Ht as [? _]; [done|by apply (good_path_upper kernel_slot)].
Qed.

(** The state of the pages after the first two steps of [mm_init]. *)
Lemma boot_pages L bi R s :
  boot_ready L bi R s ->
  let t0 := (pages s) <| free_pages := 0 |> <| free_page_count := 0 |> in
  exists t1 t2, init_free_pages L bi t0 = Ret tt t1 /\ page_allocator_selftest t1 = Ret tt t2 /\
    selftest_ready L ∅ t2 /\ page_avail t2 = length (usable_pages L bi R (ram (pages s)) 0 (desc_count bi)) /\
    forall va, kernel_slot (table_index va 39) -> page_translation t2 va = None.
Proof.
  intros B t0.
  destruct (init_free_pages_run L bi R t0) as (t1 & E1 & P1);
    [apply B|apply B|by repeat constructor|].
  pose proof (boot_enough _ _ _ _ B) as Hen. pose proof (boot_count _ _ _ _ B) as Hc.
  pose proof (boot_frames _ _ _ _ B) as Hfr.
  change (usable_pages L bi R (ram t0) 0 (desc_count bi)) with
    (usable_pages L bi R (ram (pages s)) 0 (desc_count bi)) in P1.
  assert (Hres : forall x, x ∈ usable_pages L bi R (ram (pages s)) 0 (desc_count bi) ->
    x <> mm_root (pages s) /\ x <> kernel_pml4 L).
  { intros x [Hx1 Hx2]%usable_not_reserved. split; intros ->; [apply Hx2, B|].
    by rewrite (boot_own_root _ _ _ _ B) in Hx1. }
  destruct (usable_pages _ _ _ _ _ _) as [|p [|q l]]; [simpl in Hen; lia..|].
  destruct (init_pages_ok R t0 _ t1 (boot_slots _ _ _ _ B) P1 Hfr) as (He1 & Hroot1 & Hinv1 & _ & _);
    [by intros [? _]%Hres|done|].
  destruct (page_allocator_selftest_run t1 p q l (inv_free _ _ _ Hinv1)) as (t2 & E2 & F2 & W2 & C2 & R2).
  destruct (vm_inv_same _ _ t1 t2 Hinv1 F2 W2 C2) as [Hinv2 Hwalk2].
  assert (Hroot2 : mm_root t2 = mm_root (pages s)) by (unfold mm_root in *; by rewrite C2).
  assert (He2 : forall i, kernel_slot i -> i < 512 ->
    is_present (word (ram t2) (mm_root t2 + 8 * i)) = false).
  { intros i Hi Hi'. rewrite W2, Hroot2. change (mm_root (pages s)) with (mm_root t0).
    rewrite <- Hroot1. by apply He1. }
  assert (Hav2 : page_avail t2 = length (p :: q :: l)) by (apply avail_free; [done|simpl in *; lia]).
  exists t1, t2. split_and!; [done|done| |done|].
  2:{ intros va Hva. by apply translate_empty_slots. }
  split; try apply B.
  - exists (p :: q :: l). split_and!; [done|rewrite size_empty; simpl in *; lia|].
    by intros x Hx%not_elem_of_empty.
  - lia.
  - rewrite R2. destruct (pushed_cr3 _ _ _ _ _ P1) as [_ ->]. apply B.
  - rewrite Hroot2. apply B.
  - intros r Hr Hw. apply (walk_empty_slots _ _ _ _ He2) in Hw as [_ Hw]; [|done].
    rewrite Hroot2 in Hw. by apply (boot_own_fresh _ _ _ _ B).
  - intros free Hfl. rewrite (free_list_det _ _ _ Hfl F2). by intros [_ ?]%Hres.
  - apply not_elem_of_empty.
  - apply translate_empty_slots; [done|apply test_page_slot].
Qed.

Lemma mm_init_run L bi R s :
  boot_ready L bi R s ->
  exists s', mm_init L (Some bi) s = Ret tt s' /\ heap_inv s' [(4064, true)] /\ heap_ready s' = true /\
    Z.of_nat (length (usable_pages L bi R (ram (pages s)) 0 (desc_count bi))) - 7 <= Z.of_nat (avail (pages s')) /\
    unclaimed s'.
Proof.
  intros B. pose proof (boot_enough _ _ _ _ B) as Hen.
  destruct (boot_pages L bi R s B) as (t1 & t2 & E1 & E2 & Hready & Hav & Hnone).
  destruct (page_table_selftest_run L ∅ t2 Hready) as (t3 & E3 & Hok3 & Hav3 & Htr3).
  destruct (boot_heap _ _ _ _ B) as (Hr & He & Hf & Hl).
  unfold mm_init. rewrite (bool_decide_eq_false_2 (memory_map bi = 0)) by apply B.
  rewrite bool_decide_eq_false_2 by (pose proof (map_desc _ _ _ _ (boot_map _ _ _ _ B)); lia). cbn [orb].
  erewrite bind_run by (apply on_pages_run; reflexivity).
  erewrite bind_run by (apply on_pages_run; exact E1).
  erewrite bind_run by (apply on_pages_run; exact E2).
  erewrite bind_run by (apply on_pages_run; exact E3).
  match goal with |- context [heap_init ?t] => set (s3 := t) end.
  assert (Hnm : forall va, HEAP_BASE <= va < 18446744073709551616 -> ~ is_mapped (pages s3) va).
  { intros va Hva. unfold is_mapped. change (entry_of (pages s3) va) with (page_translation t3 va).
    rewrite Htr3, Hnone by by apply heap_in_window. by intros [? ?]. }
  destruct (heap_init_run s3 ∅) as (s' & E & Hinv & Hrd & Htk & Hun); simpl; try done.
  - change (4 <= page_avail t3)%nat. lia.
  - by apply Hnm.
  - exists s'. split_and!; [exact E|done|done| |].
    + assert (Z.of_nat (page_avail t3) - 4 <= Z.of_nat (page_avail (pages s'))) by exact Htk.
      change (avail (pages s')) with (page_avail (pages s')). lia.
    + intros va Hva Hal Hm. apply (Hnm va); [|by apply Hun].
      pose proof (rep_end _ _ (inv_rep _ _ Hinv)) as Ee. simpl in Ee. lia.
Qed.

(** C12.  [mm_init] refuses a missing memory map, and on a machine handed over as
    [boot_ready] says it returns without a panic, a fault or running for ever:
    the allocator's, the page tables' and the heap's selftests pass, the heap is ready
    with one free block, and all but seven of the usable pages are still free. *)
Theorem mm_init_boots L bi R s :
  boot_ready L bi R s ->
  mm_init L None s = Panicked "memory map unavailable" s /\
  exists s', mm_init L (Some bi) s = Ret tt s' /\ heap_inv s' [(4064, true)] /\ heap_ready s' = true /\
    Z.of_nat (length (usable_pages L bi R (ram (pages s)) 0 (desc_count bi))) - 7 <= Z.of_nat (page_avail (pages s')).
Proof.
  intros B. split; [done|]. destruct (mm_init_run L bi R s B) as (s' & E & Hinv & Hrd & Hav & _). by exists s'.
Qed.

(** ** A machine that boots

    One conventional region of twelve pages at 0x10000, an empty firmware root at
    0x8000, the kernel image from 0x100000 with its own root page in it. *)
Definition boot_layout : layout := Layout 1048576 1572864 20480 1052672.
Definition boot_map_info : boot_info_t := BootInfo 2 0 24576 48 0 48 1 0 0 0 0 0 0 0.
Definition boot_mm : mm :=
  Mm (list_to_map [(24576, 7); (24584, 65536); (24600, 12)]) 32768 [] [] false false 0 0.
Definition boot_state : heap_state mm := HeapState boot_mm ∅ ∅ 0 0 HEAP_BASE false.
Definition boot_usable : list Z := (fun k => 65536 + 4096 * k) <$> seqZ 0 12.

Lemma boot_usable_pages :
  usable_pages boot_layout boot_map_info [32768] (ram boot_mm) 0 (desc_count boot_map_info) = boot_usable.
Proof. vm_compute. reflexivity. Qed.

Lemma boot_tables_known : tables_known [32768] boot_mm.
Proof. vm_compute. done. Qed.

Lemma boot_state_ready : boot_ready boot_layout boot_map_info [32768] boot_state.
Proof.
  assert (Hn : desc_count boot_map_info = 1%nat) by reflexivity.
  assert (E0 : unreserved boot_layout boot_map_info [32768]
      (desc_pages boot_map_info (ram boot_mm) 0) = boot_usable) by (vm_compute; reflexivity).
  assert (Em : ram (pages boot_state) = ram boot_mm) by reflexivity.
  split; rewrite ?Em, ?boot_usable_pages.
  - split; rewrite ?Hn; [reflexivity|reflexivity|simpl; lia..| | |].
    + intros [|k] Hk; [vm_compute; done|lia].
    + intros [|k] [|k'] p Hk Hk'; try lia; done.
    + intros [|k] Hk; [|lia]. rewrite E0.
      apply (bool_decide_eq_true_1 (0 ∉ boot_usable)). reflexivity.
  - done.
  - exact boot_tables_known.
  - left.
  - intros i Hi Hi'. unfold kernel_slot in Hi. assert (i = 510 \/ i = 511) as [->| ->] by lia; reflexivity.
  - reflexivity.
  - reflexivity.
  - simpl. lia.
  - done.
  - reflexivity.
  - by repeat constructor.
  - simpl. lia.
  - simpl. lia.
  - done.
Qed.

Lemma mm_init_boots_witness :
  exists s', mm_init boot_layout (Some boot_map_info) boot_state = Ret tt s' /\ heap_ready s' = true.
Proof.
  destruct (mm_init_boots boot_layout boot_map_info [32768] boot_state) as [_ (s' & E & _ & H & _)].
  - exact boot_state_ready.
  - exists s'. exact (conj E H).
Defined.

(** The booted pages, and the same with one page mapped at the heap's base. *)
Lemma booted_pages :
  exists t, selftest_ready boot_layout ∅ t /\ (7 <= page_avail t)%nat /\
    page_translation t HEAP_BASE = None.
Proof.
  destruct (boot_pages boot_layout boot_map_info [32768] boot_state boot_state_ready)
    as (t1 & t & _ & _ & H1 & H2 & H3). exists t. split_and!; [done| |by apply H3, heap_in_window].
  rewrite H2. apply boot_enough with (s := boot_state). exact boot_state_ready.
Qed.

Lemma mapped_pages :
  exists t, pages_ok ∅ t /\ is_mapped t HEAP_BASE.
Proof.
  destruct booted_pages as (t & Hr & Hav & Hnone).
  destruct (vm_map_law ∅ t HEAP_BASE 65536 PAGE_WRITABLE (ready_pages _ _ _ Hr))
    as (r & t' & E & Hok & _ & Hm); [done|by apply heap_in_window|done|].
  rewrite Hnone in Hm. destruct Hm as [Hr0 Hm]. exists t'. split; [done|].
  unfold is_mapped. change (entry_of t' HEAP_BASE) with (page_translation t' HEAP_BASE).
  rewrite Hm by by apply heap_in_window. rewrite bool_decide_eq_true_2; [by eexists|].
  split; [|done]. destruct Hr0 as [?|[_ ?]]; [done|lia].
Qed.

Lemma empty_heap_inv (t : mm) :
  pages_ok ∅ t -> heap_inv (HeapState t ∅ ∅ 0 0 HEAP_BASE false) [].
Proof.
  intros Hok. split; [split; simpl; try done; constructor|done|done| |by exists ∅].
  simpl. lia.
Qed.

(** A heap of one page with one block. *)
Definition one_block (t : mm) (fr : bool) : heap_state mm :=
  HeapState t {[HEAP_BASE := HeapBlock 4064 fr 0 0]} ∅ HEAP_BASE HEAP_BASE (HEAP_BASE + 4096) true.

Lemma one_block_inv (t : mm) fr :
  pages_ok ∅ t -> is_mapped t HEAP_BASE -> heap_inv (one_block t fr) [(4064, fr)].
Proof.
  intros Hok Hm. split; [split; simpl; try done|by destruct fr|done| |by exists ∅].
  - by repeat constructor.
  - simpl. intros va Hva Hal. assert (va = HEAP_BASE) as ->; [|done]. unfold HEAP_BASE in *. div_lia.
Qed.

Lemma page_table_selftest_passes_witness :
  exists t t', page_table_selftest boot_layout t = Ret tt t' /\ pages_ok ∅ t'.
Proof.
  destruct booted_pages as (t & Hr & _).
  destruct (page_table_selftest_passes boot_layout ∅ t) as (t' & E & H & _).
  - exact Hr.
  - exists t, t'. exact (conj E H).
Defined.

Lemma kmalloc_allocates_witness :
  exists (t : mm) p s' bl', kmalloc 24 (HeapState t ∅ ∅ 0 0 HEAP_BASE false) = Ret p s' /\ heap_inv s' bl'.
Proof.
  destruct booted_pages as (t & Hr & _).
  destruct (kmalloc_allocates (HeapState t ∅ ∅ 0 0 HEAP_BASE false) [] 24) as (p & s' & bl' & E & H & _).
  - apply empty_heap_inv, Hr.
  - lia.
  - vm_compute. done.
  - exists t, p, s', bl'. exact (conj E H).
Defined.

Lemma kfree_releases_witness :
  exists (t : mm) s' bl', kfree (HEAP_BASE + 32) (one_block t false) = Ret tt s' /\ heap_inv s' bl'.
Proof.
  destruct mapped_pages as (t & Hok & Hm).
  destruct (kfree_releases (one_block t false) [(4064, false)] (HEAP_BASE + 32) 4064)
    as (_ & s' & bl' & E & H & _).
  - by apply one_block_inv.
  - left.
  - exists t, s', bl'. exact (conj E H).
Defined.

Lemma kmalloc_kfree_witness :
  exists (t : mm) p s' s'', kmalloc 100 (one_block t true) = Ret p s' /\ kfree p s' = Ret tt s'' /\
    heap_inv s'' [(4064, true)].
Proof.
  destruct mapped_pages as (t & Hok & Hm).
  destruct (kmalloc_kfree (one_block t true) [(4064, true)] 100) as (p & s' & s'' & E & _ & E' & H & _).
  - by apply one_block_inv.
  - lia.
  - vm_compute. done.
  - intros Hno. by apply Forall_cons in Hno as [? _].
  - exists t, p, s', s''. exact (conj E (conj E' H)).
Defined.

Lemma heap_extension_stuck_witness :
  exists (t : mm) s', kmalloc 24 (HeapState t ∅ ∅ 0 0 HEAP_BASE false) = Ret 0 s'.
Proof.
  destruct mapped_pages as (t & Hok & Hm).
  destruct (heap_extension_stuck (HeapState t ∅ ∅ 0 0 HEAP_BASE false) [] 24) as (s' & E & _).
  - by apply empty_heap_inv.
  - lia.
  - vm_compute. done.
  - exact Hm.
  - constructor.
  - exists t, s'. exact E.
Defined.

Lemma heap_init_succeeds_witness :
  exists (t : mm) s', heap_init (HeapState t ∅ ∅ 0 0 HEAP_BASE false) = Ret tt s' /\ heap_ready s' = true.
Proof.
  destruct booted_pages as (t & Hr & Hav & Hnone).
  destruct (heap_init_succeeds (HeapState t ∅ ∅ 0 0 HEAP_BASE false) ∅) as (s' & E & _ & H & _).
  - apply Hr.
  - simpl. change (4 <= page_avail t)%nat. lia.
  - unfold is_mapped. simpl. change (entry_of t HEAP_BASE) with (page_translation t HEAP_BASE).
    rewrite Hnone. by intros [? ?].
  - reflexivity.
  - reflexivity.
  - reflexivity.
  - reflexivity.
  - exists t, s'. exact (conj E H).
Defined.

(** A request within 15 bytes of 2^64 is rounded up to zero: [kmalloc] answers with
    a block of no bytes instead of NULL. *)
Example kmalloc_huge_gets_empty_block :
  match kmalloc 18446744073709551601 (one_block boot_mm true) with
  | Ret p s => p = HEAP_BASE + 32 /\ blocks s !! HEAP_BASE = Some (HeapBlock 0 false 0 (HEAP_BASE + 32))
  | _ => False
  end.
Proof. vm_compute. done. Qed.
