(* ===== verification/BootLoader.v ===== *)
(** * arch/x86/boot: the UEFI boot loader

    The loader reads kernel.elf, puts its segments where the linker script wants them,
    fetches the memory map and leaves boot services.  The firmware's services are
    parameters, the class [Efi]; [EfiSpec] states what the UEFI specification promises of
    them: among it that a read starts at the file's position and moves it.  Memory is a store of bytes by address, shared with the firmware.  Debug output
    is left out. *)

From S2P Require Import Prelude PhysMem.

(** ** Constants and layouts: arch/x86/include/efi.h, include/tianole/elf.h *)

Definition EFI_SUCCESS : Z := 0.
Definition EFI_LOAD_ERROR : Z := 0x8000000000000001.
Definition EFI_BUFFER_TOO_SMALL : Z := 0x8000000000000005.
Definition EFI_INVALID_PARAMETER : Z := 0x8000000000000002.
Definition EFI_ALLOCATE_ADDRESS : Z := 2.
Definition EFI_LOADER_DATA : Z := 4.
Definition EFI_OPEN_MODE_READ : Z := 1.

Record efi_guid_t := EfiGuid { data1 : Z; data2 : Z; data3 : Z; data4 : list Z }.

Definition efi_file_info_guid : efi_guid_t :=
  EfiGuid 0x09576e92 0x6d3f 0x11d2 [0x8e; 0x39; 0x00; 0xa0; 0xc9; 0x69; 0x72; 0x3b].
Definition efi_simple_file_system_protocol_guid : efi_guid_t :=
  EfiGuid 0x964e5b22 0x6459 0x11d2 [0x8e; 0x39; 0x00; 0xa0; 0xc9; 0x69; 0x72; 0x3b].
Definition efi_loaded_image_protocol_guid : efi_guid_t :=
  EfiGuid 0x5b1b31a1 0x9562 0x11d2 [0x8e; 0x3f; 0x00; 0xa0; 0xc9; 0x69; 0x72; 0x3b].
Definition efi_graphics_output_protocol_guid : efi_guid_t :=
  EfiGuid 0x9042a9de 0x23dc 0x4a38 [0x96; 0xfb; 0x7a; 0xde; 0xd0; 0x80; 0x51; 0x6a].

Definition ELF_MAGIC : Z := 0x464c457f.
Definition ELFCLASS64 : Z := 2.
Definition ELFDATA2LSB : Z := 1.
Definition EV_CURRENT : Z := 1.
Definition ET_EXEC : Z := 2.
Definition EM_X86_64 : Z := 62.
Definition PT_LOAD : Z := 1.
Definition sizeof_elf64_ehdr : Z := 64.
Definition sizeof_elf64_phdr : Z := 56.

Definition BOOT_INFO_VERSION : Z := 2.
Definition BOOT_FLAG_SERVICES_ACTIVE : Z := Z.shiftl 1 0.

#[export] Instance eta_boot_info : Eta boot_info_t := fun b =>
  BootInfo (version b) (boot_flags b) (memory_map b) (memory_map_size b) (memory_map_key b)
    (memory_descriptor_size b) (memory_descriptor_version b) (reserved0 b) (framebuffer_base b)
    (framebuffer_size b) (framebuffer_width b) (framebuffer_height b)
    (framebuffer_pixels_per_scan_line b) (framebuffer_pixel_format b).

(** ** The machine before the kernel *)

Record boot (F : Type) := Boot { firmware : F; bytes : gmap Z Z }.
Arguments Boot {F} _ _.
Arguments firmware {F} _.
Arguments bytes {F} _.
#[export] Instance eta_boot {F} : Eta (boot F) := fun s => Boot (firmware s) (bytes s).

(** The in and out parameters of [get_memory_map]. *)
Record map_args := MapArgs { ma_size : Z; ma_key : Z; ma_descriptor_size : Z; ma_descriptor_version : Z }.

(** The services the loader calls.  Results are the status and the out parameters. *)
Class Efi (F : Type) := {
  allocate_pages : Z -> Z -> Z -> Z -> M (boot F) (Z * Z);
  allocate_pool : Z -> Z -> M (boot F) (Z * Z);
  free_pool : Z -> M (boot F) Z;
  get_memory_map : Z -> map_args -> M (boot F) (Z * map_args);
  exit_boot_services : Z -> Z -> M (boot F) Z;
  handle_protocol : Z -> efi_guid_t -> M (boot F) (Z * Z);
  locate_protocol : efi_guid_t -> M (boot F) (Z * Z);
  open_volume : Z -> M (boot F) (Z * Z);
  file_open : Z -> list Z -> Z -> Z -> M (boot F) (Z * Z);
  file_close : Z -> M (boot F) Z;
  file_read : Z -> Z -> Z -> M (boot F) (Z * Z);
  file_get_info : Z -> efi_guid_t -> Z -> Z -> M (boot F) (Z * Z)
}.

Section loader.
Context {F : Type} `{Efi F}.
Abbreviation B := (M (boot F)).

Definition load_byte (a : Z) : B Z := deref (fun s => bytes s !! wrap64 a).

Definition store_byte (a v : Z) : B unit :=
  _ ← load_byte a;
  modify (fun s => s <| bytes ::= <[wrap64 a := v]> |>).

(** A little-endian field of [n] bytes. *)
Fixpoint load_le (n : nat) (a : Z) : B Z :=
  match n with
  | O => mret 0
  | S n => b ← load_byte a; rest ← load_le n (a + 1); mret (b + 256 * rest)
  end.

(** ** elf_loader.c *)

Definition mem_copy (dst src size : Z) : B unit :=
  for_each (seqZ 0 size) (fun i => v ← load_byte (src + i); store_byte (dst + i) v).

Definition mem_zero (dst size : Z) : B unit :=
  for_each (seqZ 0 size) (fun i => store_byte (dst + i) 0).

Definition validate_kernel_elf (ehdr : Z) : B Z :=
  magic ← load_le 4 ehdr;
  if negb (bool_decide (magic = ELF_MAGIC)) then mret EFI_LOAD_ERROR
  else
    class ← load_byte (ehdr + 4);
    data ← load_byte (ehdr + 5);
    if negb (bool_decide (class = ELFCLASS64)) || negb (bool_decide (data = ELFDATA2LSB)) then mret EFI_LOAD_ERROR
    else
      ident_version ← load_byte (ehdr + 6);
      version ← load_le 4 (ehdr + 20);
      if negb (bool_decide (ident_version = EV_CURRENT)) || negb (bool_decide (version = EV_CURRENT))
      then mret EFI_LOAD_ERROR
      else
        type ← load_le 2 (ehdr + 16);
        machine ← load_le 2 (ehdr + 18);
        if negb (bool_decide (type = ET_EXEC)) || negb (bool_decide (machine = EM_X86_64)) then mret EFI_LOAD_ERROR
        else
          phentsize ← load_le 2 (ehdr + 54);
          if negb (bool_decide (phentsize = sizeof_elf64_phdr)) then mret EFI_LOAD_ERROR
          else mret EFI_SUCCESS.

(** One round of the loop over the program headers. *)
Definition load_segment (kernel_image kernel_size phdrs index : Z) : B (Z + Z) :=
  phnum ← load_le 2 (kernel_image + 56);
  if bool_decide (phnum <= index) then mret (inr EFI_SUCCESS)
  else
    let phdr := phdrs + index * sizeof_elf64_phdr in
    type ← load_le 4 phdr;
    if negb (bool_decide (type = PT_LOAD)) then mret (inl (index + 1))
    else
      memsz ← load_le 8 (phdr + 40);
      filesz ← load_le 8 (phdr + 32);
      if bool_decide (memsz < filesz) then mret (inr EFI_LOAD_ERROR)
      else
        offset ← load_le 8 (phdr + 8);
        if bool_decide (kernel_size < wrap64 (offset + filesz)) then mret (inr EFI_LOAD_ERROR)
        else
          paddr ← load_le 8 (phdr + 24);
          let page_count := Z.shiftr (wrap64 (memsz + 0xfff)) 12 in
          '(status, _) ← allocate_pages EFI_ALLOCATE_ADDRESS EFI_LOADER_DATA page_count paddr;
          if negb (bool_decide (status = EFI_SUCCESS)) then mret (inr status)
          else
            mem_zero paddr memsz ;;
            mem_copy paddr (kernel_image + offset) filesz ;;
            mret (inl (index + 1)).

(** The status and the entry point stored to [*entry_out].  A 16-bit [phnum] bounds the
    number of rounds. *)
Definition boot_load_kernel_elf (kernel_image kernel_size : Z) : B (Z * option Z) :=
  if bool_decide (kernel_size < sizeof_elf64_ehdr) then mret (EFI_LOAD_ERROR, None)
  else
    status ← validate_kernel_elf kernel_image;
    if negb (bool_decide (status = EFI_SUCCESS)) then mret (status, None)
    else
      phoff ← load_le 8 (kernel_image + 32);
      status ← loop (Z.to_nat 65537) (load_segment kernel_image kernel_size (kernel_image + phoff)) 0;
      if negb (bool_decide (status = EFI_SUCCESS)) then mret (status, None)
      else
        entry ← load_le 8 (kernel_image + 24);
        mret (EFI_SUCCESS, Some entry).

(** ** memory_map.c *)

Definition fetch_memory_map (boot_info : boot_info_t) : B (Z * boot_info_t) :=
  '(status, a) ← get_memory_map 0 (MapArgs 0 0 0 0);
  if negb (bool_decide (status = EFI_BUFFER_TOO_SMALL)) then mret (status, boot_info)
  else
    let map_size := wrap64 (ma_size a + wrap64 (ma_descriptor_size a * 8)) in
    '(status, map) ← allocate_pool EFI_LOADER_DATA map_size;
    if negb (bool_decide (status = EFI_SUCCESS)) then mret (status, boot_info)
    else
      '(status, a) ← get_memory_map map
        (MapArgs map_size (ma_key a) (ma_descriptor_size a) (ma_descriptor_version a));
      if negb (bool_decide (status = EFI_SUCCESS)) then
        free_pool map ;;
        mret (status, boot_info)
      else
        mret (EFI_SUCCESS, boot_info <| memory_map := map |> <| memory_map_size := ma_size a |>
          <| memory_map_key := ma_key a |> <| memory_descriptor_size := ma_descriptor_size a |>
          <| memory_descriptor_version := ma_descriptor_version a |>).

Definition exit_round (image_handle : Z) (v : Z * Z * boot_info_t) : B (Z * Z * boot_info_t + Z * boot_info_t) :=
  let '(exit_try, last, boot_info) := v in
  if bool_decide (2 <= exit_try) then mret (inr (last, boot_info))
  else
    '(status, boot_info) ← fetch_memory_map boot_info;
    if negb (bool_decide (status = EFI_SUCCESS)) then mret (inr (status, boot_info))
    else
      status ← exit_boot_services image_handle (memory_map_key boot_info);
      if bool_decide (status = EFI_SUCCESS)
      then mret (inr (EFI_SUCCESS, boot_info <| boot_flags := Z.ldiff (boot_flags boot_info) BOOT_FLAG_SERVICES_ACTIVE |>))
      else mret (inl (exit_try + 1, status, boot_info)).

Definition boot_exit_services_with_latest_memory_map (image_handle : Z) (boot_info : boot_info_t) : B (Z * boot_info_t) :=
  loop 3 (exit_round image_handle) (0, 0, boot_info).

(** ** file.c *)

(** [loaded_image->device_handle] is at offset 24. *)
Definition open_root (image_handle : Z) : B (Z * Z) :=
  '(status, loaded_image) ← handle_protocol image_handle efi_loaded_image_protocol_guid;
  if negb (bool_decide (status = EFI_SUCCESS)) then mret (status, 0)
  else
    device_handle ← load_le 8 (loaded_image + 24);
    '(status, fs) ← handle_protocol device_handle efi_simple_file_system_protocol_guid;
    if negb (bool_decide (status = EFI_SUCCESS)) then mret (status, 0)
    else open_volume fs.

(** The status, the buffer and the size; [file_info->file_size] is at offset 8. *)
Definition boot_read_file (image_handle : Z) (path : list Z) : B (Z * option (Z * Z)) :=
  '(status, root) ← open_root image_handle;
  if negb (bool_decide (status = EFI_SUCCESS)) then mret (status, None)
  else
    '(status, file) ← file_open root path EFI_OPEN_MODE_READ 0;
    file_close root ;;
    if negb (bool_decide (status = EFI_SUCCESS)) then mret (status, None)
    else
      '(status, info_size) ← file_get_info file efi_file_info_guid 0 0;
      if negb (bool_decide (status = EFI_BUFFER_TOO_SMALL)) then file_close file ;; mret (status, None)
      else
        '(status, file_info) ← allocate_pool EFI_LOADER_DATA info_size;
        if negb (bool_decide (status = EFI_SUCCESS)) then file_close file ;; mret (status, None)
        else
          '(status, _) ← file_get_info file efi_file_info_guid info_size file_info;
          if negb (bool_decide (status = EFI_SUCCESS)) then file_close file ;; mret (status, None)
          else
            size ← load_le 8 (file_info + 8);
            '(status, buffer) ← allocate_pool EFI_LOADER_DATA size;
            if negb (bool_decide (status = EFI_SUCCESS)) then file_close file ;; mret (status, None)
            else
              '(status, read_size) ← file_read file size buffer;
              file_close file ;;
              if negb (bool_decide (status = EFI_SUCCESS)) then mret (status, None)
              else if negb (bool_decide (read_size = size)) then mret (EFI_LOAD_ERROR, None)
              else mret (EFI_SUCCESS, Some (buffer, size)).

(** ** framebuffer.c *)

(** [pointers = false] when one of the two arguments is NULL.  The mode pointer is at
    offset 24 of the protocol, [info] at 8 of the mode. *)
Definition boot_capture_framebuffer (pointers : bool) (boot_info : boot_info_t) : B (Z * boot_info_t) :=
  if negb pointers then mret (EFI_INVALID_PARAMETER, boot_info)
  else
  '(status, gop) ← locate_protocol efi_graphics_output_protocol_guid;
  if negb (bool_decide (status = EFI_SUCCESS)) || bool_decide (gop = 0) then mret (status, boot_info)
  else
    mode ← load_le 8 (gop + 24);
    if bool_decide (mode = 0) then mret (status, boot_info)
    else
      info ← load_le 8 (mode + 8);
      if bool_decide (info = 0) then mret (status, boot_info)
      else
        base ← load_le 8 (mode + 24);
        size ← load_le 8 (mode + 32);
        width ← load_le 4 (info + 4);
        height ← load_le 4 (info + 8);
        ppsl ← load_le 4 (info + 32);
        format ← load_le 4 (info + 12);
        mret (EFI_SUCCESS, boot_info <| framebuffer_base := base |> <| framebuffer_size := size |>
          <| framebuffer_width := width |> <| framebuffer_height := height |>
          <| framebuffer_pixels_per_scan_line := ppsl |> <| framebuffer_pixel_format := format |>).

(** ** main.c *)

(** [u"\\kernel.elf"] *)
Definition kernel_path_text : list Z := [92; 107; 101; 114; 110; 101; 108; 46; 101; 108; 102].

Definition fresh_boot_info : boot_info_t :=
  BootInfo BOOT_INFO_VERSION BOOT_FLAG_SERVICES_ACTIVE 0 0 0 0 0 0 0 0 0 0 0 0.

(** The status it fails with, or the entry point it jumps to and what it passes. *)
Definition efi_main (image_handle : Z) : B (Z + Z * boot_info_t) :=
  '(_, boot_info) ← boot_capture_framebuffer true fresh_boot_info;
  '(status, image) ← boot_read_file image_handle kernel_path_text;
  if negb (bool_decide (status = EFI_SUCCESS)) then mret (inl status)
  else
    '(kernel_image, kernel_size) ← deref (fun _ => image);
    '(status, entry) ← boot_load_kernel_elf kernel_image kernel_size;
    if negb (bool_decide (status = EFI_SUCCESS)) then mret (inl status)
    else
      '(status, boot_info) ← boot_exit_services_with_latest_memory_map image_handle boot_info;
      if negb (bool_decide (status = EFI_SUCCESS)) then mret (inl status)
      else
        entry ← deref (fun _ => entry);
        mret (inr (entry, boot_info)).
End loader.

(** ** What the firmware promises *)

Definition in_range (r : Z * Z) (x : Z) : Prop := r.1 <= x < r.1 + r.2.
Definition apart (r q : Z * Z) : Prop := forall x, in_range r x -> ~ in_range q x.
Definition is_byte (b : Z) : Prop := 0 <= b < 256.

(** The bytes [l] lie at [a]. *)
Definition holds_at {F} (s : boot F) (a : Z) (l : list Z) : Prop :=
  forall i b, l !! i = Some b -> bytes s !! (a + Z.of_nat i) = Some b.

Definition readable {F} (s : boot F) (a n : Z) : Prop :=
  forall i, 0 <= i < n -> is_Some (bytes s !! wrap64 (a + i)).

Section promises.
Context {F : Type} (allocated : F -> list (Z * Z)) (volume : F -> list Z -> option (list Z))
  (contents : F -> Z -> option (list Z * nat)).
Implicit Types s : boot F.

(** Memory the loader was given stays its own; only the bytes of [r] may change. *)
Definition keeps_but (r : Z * Z) s s' : Prop :=
  (forall q, q ∈ allocated (firmware s) -> q ∈ allocated (firmware s') /\
    (apart q r -> forall x, in_range q x -> bytes s' !! x = bytes s !! x)) /\
  volume (firmware s') = volume (firmware s) /\
  (forall f c, contents (firmware s) f = Some c -> contents (firmware s') f = Some c).

Definition keeps s s' : Prop := keeps_but (0, 0) s s'.

(** [r] is newly given to the loader: memory that no one else uses. *)
Definition granted (r : Z * Z) s s' : Prop :=
  keeps s s' /\ r ∈ allocated (firmware s') /\ 0 <= r.1 /\ 0 <= r.2 /\ r.1 + r.2 <= 18446744073709551616 /\
  (forall q, q ∈ allocated (firmware s) -> apart q r) /\ (forall x, in_range r x -> is_Some (bytes s' !! x)).
End promises.

(** All the open files but [f]. *)
Definition other_files {F} (contents : F -> Z -> option (list Z * nat)) (f : Z) (fw : F) (g : Z) : option (list Z * nat) :=
  if decide (g = f) then None else contents fw g.

(** The services behave as the UEFI specification says.  [allocated] are the ranges the
    loader owns, [current_map] and [current_key] the memory map as it is now, [volume] the
    files of the boot volume, [contents] what each open file holds and its current
    position: a file is opened at position 0, and a read starts at the position and
    advances it by the bytes it gives. *)
Class EfiSpec (F : Type) `{Efi F} := {
  allocated : F -> list (Z * Z);
  volume : F -> list Z -> option (list Z);
  contents : F -> Z -> option (list Z * nat);
  current_map : F -> list Z;
  current_key : F -> Z;
  current_map_nonempty : forall fw, current_map fw <> [];
  volume_bytes : forall fw path c, volume fw path = Some c -> Forall is_byte c;
  allocate_pages_law : forall ty n a (s : boot F), 0 <= n ->
    exists st a' s', allocate_pages EFI_ALLOCATE_ADDRESS ty n a s = Ret (st, a') s' /\
      keeps allocated volume contents s s' /\
      (st = EFI_SUCCESS -> granted allocated volume contents (a, 4096 * n) s s');
  allocate_pool_law : forall ty n (s : boot F), 0 <= n ->
    exists st b s', allocate_pool ty n s = Ret (st, b) s' /\ keeps allocated volume contents s s' /\
      (st = EFI_SUCCESS -> granted allocated volume contents (b, n) s s');
  free_pool_law : forall b (s : boot F), exists st s', free_pool b s = Ret st s';
  get_map_law : forall buf a (s : boot F),
    (ma_size a < Z.of_nat (length (current_map (firmware s))) ->
      exists a' s', get_memory_map buf a s = Ret (EFI_BUFFER_TOO_SMALL, a') s' /\ keeps allocated volume contents s s') /\
    (Z.of_nat (length (current_map (firmware s))) <= ma_size a -> (buf, ma_size a) ∈ allocated (firmware s) ->
      exists a' s', get_memory_map buf a s = Ret (EFI_SUCCESS, a') s' /\
        keeps_but allocated volume contents (buf, ma_size a) s s' /\
        ma_size a' = Z.of_nat (length (current_map (firmware s))) /\ ma_key a' = current_key (firmware s) /\
        current_map (firmware s') = current_map (firmware s) /\ current_key (firmware s') = current_key (firmware s) /\
        holds_at s' buf (current_map (firmware s)));
  exit_law : forall h key (s : boot F), exists st s', exit_boot_services h key s = Ret st s' /\
    keeps allocated volume contents s s' /\
    (st = EFI_SUCCESS -> key = current_key (firmware s) /\ current_map (firmware s') = current_map (firmware s));
  handle_law : forall h g (s : boot F), exists st p s', handle_protocol h g s = Ret (st, p) s' /\
    keeps allocated volume contents s s' /\
    (st = EFI_SUCCESS -> g = efi_loaded_image_protocol_guid -> readable s' (p + 24) 8);
  locate_law : forall (s : boot F), exists st p s', locate_protocol efi_graphics_output_protocol_guid s = Ret (st, p) s' /\
    keeps allocated volume contents s s' /\
    (st = EFI_SUCCESS -> p <> 0 -> readable s' (p + 24) 8 /\
      forall mode, load_le 8 (p + 24) s' = Ret mode s' -> mode <> 0 -> readable s' mode 40 /\
        forall info, load_le 8 (mode + 8) s' = Ret info s' -> info <> 0 -> readable s' info 36);
  open_volume_law : forall fs (s : boot F), exists st root s', open_volume fs s = Ret (st, root) s' /\
    keeps allocated volume contents s s';
  open_law : forall root path m at_ (s : boot F), exists st f s', file_open root path m at_ s = Ret (st, f) s' /\
    keeps allocated volume contents s s' /\
    (st = EFI_SUCCESS -> f <> root /\ is_Some (volume (firmware s) path) /\ contents (firmware s') f = (fun c => (c, 0%nat)) <$> volume (firmware s) path);
  close_law : forall f (s : boot F), exists st s', file_close f s = Ret st s' /\
    keeps allocated volume (other_files contents f) s s';
  get_info_law : forall f c p size buf (s : boot F), contents (firmware s) f = Some (c, p) ->
    (size = 0 -> exists st need s', file_get_info f efi_file_info_guid size buf s = Ret (st, need) s' /\
      keeps allocated volume contents s s' /\ st <> EFI_SUCCESS /\ (st = EFI_BUFFER_TOO_SMALL -> 16 <= need)) /\
    (16 <= size -> (buf, size) ∈ allocated (firmware s) ->
      exists st need s', file_get_info f efi_file_info_guid size buf s = Ret (st, need) s' /\
        keeps_but allocated volume contents (buf, size) s s' /\
        (st = EFI_SUCCESS -> load_le 8 (buf + 8) s' = Ret (Z.of_nat (length c)) s'));
  read_law : forall f c p size buf (s : boot F), contents (firmware s) f = Some (c, p) -> 0 <= size -> (buf, size) ∈ allocated (firmware s) ->
    exists st n s', file_read f size buf s = Ret (st, n) s' /\
      keeps_but allocated volume (other_files contents f) (buf, size) s s' /\
      (st = EFI_SUCCESS -> n = Z.min size (Z.of_nat (length (drop p c))) /\ holds_at s' buf (take (Z.to_nat n) (drop p c)) /\
        contents (firmware s') f = Some (c, (p + Z.to_nat n)%nat))
}.

(** ** What an image says *)

Fixpoint le_val (l : list Z) : Z := match l with [] => 0 | b :: l => b + 256 * le_val l end.

Definition field (img : list Z) (off n : Z) : Z := le_val (take (Z.to_nat n) (drop (Z.to_nat off) img)).

Definition elf_entry (img : list Z) : Z := field img 24 8.
Definition elf_phoff (img : list Z) : Z := field img 32 8.
Definition elf_phnum (img : list Z) : Z := field img 56 2.

Record segment := Segment { sg_type : Z; sg_offset : Z; sg_paddr : Z; sg_filesz : Z; sg_memsz : Z }.

Definition elf_segment (img : list Z) (i : Z) : segment :=
  let at_ := elf_phoff img + i * 56 in
  Segment (field img at_ 4) (field img (at_ + 8) 8) (field img (at_ + 24) 8) (field img (at_ + 32) 8) (field img (at_ + 40) 8).

(** An executable for this machine. *)
Definition elf_header_ok (img : list Z) : bool :=
  bool_decide (64 <= length img)%nat && bool_decide (field img 0 4 = ELF_MAGIC) &&
  bool_decide (field img 4 1 = ELFCLASS64) && bool_decide (field img 5 1 = ELFDATA2LSB) &&
  bool_decide (field img 6 1 = EV_CURRENT) && bool_decide (field img 20 4 = EV_CURRENT) &&
  bool_decide (field img 16 2 = ET_EXEC) && bool_decide (field img 18 2 = EM_X86_64) &&
  bool_decide (field img 54 2 = sizeof_elf64_phdr).

(** The header table lies in the file and the sizes of the segments do not wrap; the
    loader does not check this. *)
Definition elf_bounded (img : list Z) : Prop :=
  elf_phoff img + elf_phnum img * 56 <= Z.of_nat (length img) /\
  forall i, 0 <= i < elf_phnum img -> sg_type (elf_segment img i) = PT_LOAD ->
    sg_offset (elf_segment img i) + sg_filesz (elf_segment img i) < 18446744073709551616 /\
    sg_memsz (elf_segment img i) + 4095 < 18446744073709551616.

(** The bytes a segment has in memory: its part of the file, then zeros. *)
Definition segment_bytes (img : list Z) (g : segment) : list Z :=
  take (Z.to_nat (sg_filesz g)) (drop (Z.to_nat (sg_offset g)) img) ++
  replicate (Z.to_nat (sg_memsz g - sg_filesz g)) 0.

(** Every loadable segment is in its place. *)
Definition kernel_loaded {F} (s : boot F) (img : list Z) : Prop :=
  forall i, 0 <= i < elf_phnum img -> sg_type (elf_segment img i) = PT_LOAD ->
    holds_at s (sg_paddr (elf_segment img i)) (segment_bytes img (elf_segment img i)).

(** ** Reading fields *)

Lemma le_val_bound l : Forall is_byte l -> 0 <= le_val l < 256 ^ Z.of_nat (length l).
Proof.
  induction 1 as [|b l Hb _ IH]; [done|]. cbn [le_val length]. rewrite Nat2Z.inj_succ, Z.pow_succ_r by lia.
  unfold is_byte in Hb. lia.
Qed.

Lemma field_bound img off n : Forall is_byte img -> 0 <= n -> 0 <= field img off n < 256 ^ n.
Proof.
  intros Hb Hn. unfold field.
  assert (Hb' : Forall is_byte (take (Z.to_nat n) (drop (Z.to_nat off) img))) by by apply Forall_take, Forall_drop.
  apply le_val_bound in Hb'. rewrite length_take in Hb'. split; [lia|].
  eapply Z.lt_le_trans; [apply Hb'|]. apply Z.pow_le_mono_r; lia.
Qed.

Section reading.
Context {F : Type} `{Efi F}.
Implicit Types s : boot F.

Lemma boot_byte_run s a b : 0 <= a < 18446744073709551616 -> bytes s !! a = Some b -> load_byte a s = Ret b s.
Proof. intros Ha Hb. unfold load_byte, deref. by rewrite wrap64_id, Hb. Qed.

Lemma load_le_run n : forall a s l, length l = n -> 0 <= a -> a + Z.of_nat n <= 18446744073709551616 ->
  holds_at s a l -> load_le n a s = Ret (le_val l) s.
Proof.
  induction n as [|n IH]; intros a s l Hl Ha Hs Hat; destruct l as [|b l]; try done. cbn [load_le le_val].
  pose proof (Hat 0%nat b eq_refl) as Hb. rewrite Z.add_0_r in Hb.
  rewrite (bind_run _ _ _ _ _ (boot_byte_run s a b ltac:(lia) Hb)).
  injection Hl as Hl. rewrite (bind_run _ _ _ _ _ (IH (a + 1) s l Hl ltac:(lia) ltac:(lia) ltac:(
    intros i c Hi; specialize (Hat (S i) c Hi); by replace (a + 1 + Z.of_nat i) with (a + Z.of_nat (S i)) by lia))).
  done.
Qed.

Lemma readable_le n : forall a s, readable s a (Z.of_nat n) -> exists v, load_le n a s = Ret v s.
Proof.
  induction n as [|n IH]; intros a s Hr; [by exists 0|]. cbn [load_le].
  destruct (Hr 0) as [b Hb]; [lia|]. rewrite Z.add_0_r in Hb.
  destruct (IH (a + 1) s) as [v Hv].
  { intros i Hi. replace (a + 1 + i) with (a + (1 + i)) by lia. apply Hr. lia. }
  exists (b + 256 * v). unfold load_byte. erewrite (bind_deref (fun s => bytes s !! _)) by exact Hb.
  by rewrite (bind_run _ _ _ _ _ Hv).
Qed.

(** The image [img] lies at [base]. *)
Definition image_at s (base : Z) (img : list Z) : Prop :=
  0 <= base /\ base + Z.of_nat (length img) <= 18446744073709551616 /\ holds_at s base img.

Lemma holds_at_part s a l off n : holds_at s a l -> holds_at s (a + Z.of_nat off) (take n (drop off l)).
Proof.
  intros Hat i b Hi. apply lookup_take_Some in Hi as [Hi _]. rewrite lookup_drop in Hi.
  replace (a + Z.of_nat off + Z.of_nat i) with (a + Z.of_nat (off + i)) by lia. by apply Hat.
Qed.

Lemma field_run s base img a off n : image_at s base img -> a = base + off -> 0 <= off ->
  off + Z.of_nat n <= Z.of_nat (length img) -> load_le n a s = Ret (field img off (Z.of_nat n)) s.
Proof.
  intros (Hb & Hl & Hat) -> Ho Hn. unfold field. rewrite Nat2Z.id. apply load_le_run; [|lia|lia|].
  - rewrite length_take, length_drop. lia.
  - replace (base + off) with (base + Z.of_nat (Z.to_nat off)) by lia. by apply holds_at_part.
Qed.

Lemma byte_run s base img a off : image_at s base img -> a = base + off -> 0 <= off ->
  off < Z.of_nat (length img) -> load_byte a s = Ret (field img off 1) s.
Proof.
  intros (Hb & Hl & Hat) -> Ho Hn. destruct (lookup_lt_is_Some_2 img (Z.to_nat off)) as [b Hb']; [lia|].
  assert (Ef : field img off 1 = b).
  { unfold field. rewrite (drop_S img b) by done. change (Z.to_nat 1) with 1%nat. cbn [take le_val]. by rewrite Z.add_0_r. }
  rewrite Ef. apply boot_byte_run; [lia|]. replace off with (Z.of_nat (Z.to_nat off)) by lia. by apply Hat.
Qed.

Lemma validate_run s base img : image_at s base img -> (64 <= length img)%nat ->
  validate_kernel_elf base s = Ret (if elf_header_ok img then EFI_SUCCESS else EFI_LOAD_ERROR) s.
Proof.
  intros Hi Hl. unfold validate_kernel_elf, elf_header_ok. rewrite (bool_decide_eq_true_2 (64 <= length img)%nat) by done.
  rewrite (bind_run _ _ _ _ _ (field_run s base img base 0 4 Hi ltac:(lia) ltac:(lia) ltac:(lia))).
  change (Z.of_nat 4) with 4. destruct (bool_decide (field img 0 4 = ELF_MAGIC)); [|done]. cbn [negb andb].
  rewrite (bind_run _ _ _ _ _ (byte_run s base img _ 4 Hi eq_refl ltac:(lia) ltac:(lia))).
  rewrite (bind_run _ _ _ _ _ (byte_run s base img _ 5 Hi eq_refl ltac:(lia) ltac:(lia))).
  destruct (bool_decide (field img 4 1 = ELFCLASS64)), (bool_decide (field img 5 1 = ELFDATA2LSB)); try done. cbn [negb andb orb].
  rewrite (bind_run _ _ _ _ _ (byte_run s base img _ 6 Hi eq_refl ltac:(lia) ltac:(lia))).
  rewrite (bind_run _ _ _ _ _ (field_run s base img _ 20 4 Hi eq_refl ltac:(lia) ltac:(lia))). change (Z.of_nat 4) with 4.
  destruct (bool_decide (field img 6 1 = EV_CURRENT)), (bool_decide (field img 20 4 = EV_CURRENT)); try done. cbn [negb andb orb].
  rewrite (bind_run _ _ _ _ _ (field_run s base img _ 16 2 Hi eq_refl ltac:(lia) ltac:(lia))).
  rewrite (bind_run _ _ _ _ _ (field_run s base img _ 18 2 Hi eq_refl ltac:(lia) ltac:(lia))). change (Z.of_nat 2) with 2.
  destruct (bool_decide (field img 16 2 = ET_EXEC)), (bool_decide (field img 18 2 = EM_X86_64)); try done. cbn [negb andb orb].
  rewrite (bind_run _ _ _ _ _ (field_run s base img _ 54 2 Hi eq_refl ltac:(lia) ltac:(lia))). change (Z.of_nat 2) with 2.
  by destruct (bool_decide (field img 54 2 = sizeof_elf64_phdr)).
Qed.

(** ** Clearing and copying *)

(** [s'] differs from [s] only in the bytes of the range at [a], which are [l]. *)
Definition written s (a : Z) (l : list Z) s' : Prop :=
  firmware s' = firmware s /\ holds_at s' a l /\
  forall x, ~ in_range (a, Z.of_nat (length l)) x -> bytes s' !! x = bytes s !! x.

Lemma store_byte_run s a v : 0 <= a < 18446744073709551616 -> is_Some (bytes s !! a) ->
  store_byte a v s = Ret tt (s <| bytes ::= <[a := v]> |>).
Proof.
  intros Ha [b Hb]. unfold store_byte. rewrite (bind_run _ _ _ _ _ (boot_byte_run s a b Ha Hb)).
  by rewrite modify_run, wrap64_id.
Qed.

(** Storing a list, byte by byte. *)
Lemma store_loop s a (l : list Z) (body : Z -> M (boot F) unit) :
  0 <= a -> a + Z.of_nat (length l) <= 18446744073709551616 ->
  (forall x, in_range (a, Z.of_nat (length l)) x -> is_Some (bytes s !! x)) ->
  (forall i v s', l !! Z.to_nat i = Some v -> 0 <= i -> written s a (take (Z.to_nat i) l) s' -> body i s' = store_byte (a + i) v s') ->
  exists s', for_each (seqZ 0 (Z.of_nat (length l))) body s = Ret tt s' /\ written s a l s'.
Proof.
  intros Ha Hl Hm Hb.
  destruct (for_each_total (fun pre s' => written s a (take (length pre) l) s') (seqZ 0 (Z.of_nat (length l))) body) with (s := s)
    as (s' & E & Hw).
  - intros pre i post s' El (Ef & Hat & Hout).
    assert (Hi : seqZ 0 (Z.of_nat (length l)) !! length pre = Some i) by (rewrite El; by apply list_lookup_middle).
    apply lookup_seqZ in Hi as [-> Hi]. rewrite Z.add_0_l.
    destruct (lookup_lt_is_Some_2 l (length pre)) as [v Hv]; [lia|].
    assert (Hpre : length (take (length pre) l) = length pre) by (rewrite length_take; lia).
    rewrite (Hb (Z.of_nat (length pre)) v s') by (rewrite ?Nat2Z.id; first [done|lia|by split]).
    rewrite store_byte_run; [|lia|].
    2: { rewrite Hout; [apply Hm; unfold in_range; cbn; lia|]. unfold in_range. cbn. rewrite Hpre. lia. }
    eexists. split; [reflexivity|]. rewrite length_app. cbn [length]. rewrite Nat.add_1_r, (take_S_r l _ v) by done.
    split; [done|]. split.
    + intros j b Hj. cbn. apply lookup_app_Some in Hj as [Hj|[Hj Hb']].
      * rewrite lookup_insert_ne; [by apply Hat|]. apply lookup_lt_Some in Hj. lia.
      * rewrite Hpre in Hj, Hb'. assert (j = length pre) as -> by (apply lookup_lt_Some in Hb'; cbn in Hb'; lia).
        rewrite Nat.sub_diag in Hb'. injection Hb' as <-. apply lookup_insert_eq.
    + intros x Hx. cbn. unfold in_range in *. rewrite length_app, Hpre in Hx. cbn in Hx.
      rewrite lookup_insert_ne by lia. apply Hout. unfold in_range. cbn. rewrite Hpre. lia.
  - split; [done|]. split; [by intros i b|done].
  - exists s'. split; [done|]. rewrite length_seqZ, Nat2Z.id, take_ge in Hw by lia. done.
Qed.

Lemma mem_zero_run s a n : 0 <= a -> 0 <= n -> a + n <= 18446744073709551616 ->
  (forall x, in_range (a, n) x -> is_Some (bytes s !! x)) ->
  exists s', mem_zero a n s = Ret tt s' /\ written s a (replicate (Z.to_nat n) 0) s'.
Proof.
  intros Ha Hn Hl Hm. unfold mem_zero.
  destruct (store_loop s a (replicate (Z.to_nat n) 0) (fun i => store_byte (a + i) 0)) as (s' & E & Hw);
    rewrite ?length_replicate, ?Z2Nat.id in * by lia; [done|done|done| |by exists s'].
  intros i v s' Hv Hi _. by apply lookup_replicate in Hv as [-> _].
Qed.

Lemma mem_copy_run s dst src l : 0 <= dst -> dst + Z.of_nat (length l) <= 18446744073709551616 ->
  0 <= src -> src + Z.of_nat (length l) <= 18446744073709551616 ->
  (forall x, in_range (dst, Z.of_nat (length l)) x -> is_Some (bytes s !! x)) ->
  holds_at s src l -> apart (src, Z.of_nat (length l)) (dst, Z.of_nat (length l)) ->
  exists s', mem_copy dst src (Z.of_nat (length l)) s = Ret tt s' /\ written s dst l s'.
Proof.
  intros Hd Hdl Hs Hsl Hm Hat Hap. unfold mem_copy. apply store_loop; [done|done|done|].
  intros i v s' Hv Hi (_ & _ & Hout).
  pose proof (lookup_lt_Some _ _ _ Hv) as Hlt.
  assert (Hsrc : in_range (src, Z.of_nat (length l)) (src + i)) by (unfold in_range; cbn; lia).
  assert (Hb : bytes s' !! (src + i) = Some v).
  { rewrite Hout.
    - replace i with (Z.of_nat (Z.to_nat i)) by lia. by apply Hat.
    - intros Hin. apply (Hap _ Hsrc). unfold in_range in *. cbn in *. rewrite length_take in Hin. lia. }
  by rewrite (bind_run _ _ _ _ _ (boot_byte_run s' (src + i) v ltac:(lia) Hb)).
Qed.
End reading.
