(* ===== verification/BootKernel.v ===== *)
(** * The boot loader at work

    Loading the kernel's segments, fetching the final memory map and the whole of
    [efi_main], against what the firmware promises. *)

From S2P Require Import Prelude PhysMem BootLoader.

(** Whether a service succeeded: [t] deals with the failure. *)
Tactic Notation "succeeds" constr(st) "else" tactic3(t) :=
  destruct (decide (st = EFI_SUCCESS)) as [->|Hne];
  [rewrite bool_decide_eq_true_2 by done; cbn [negb orb]|rewrite bool_decide_eq_false_2 by done; cbn [negb orb]; t].

Section loading.
Context {F : Type} `{EfiSpec F}.
Implicit Types s : boot F.
Abbreviation keeps := (keeps allocated volume contents).
Abbreviation keeps_but := (keeps_but allocated volume contents).
Abbreviation granted := (granted allocated volume contents).

Lemma apart_empty q : apart q (0, 0).
Proof. intros x _. unfold in_range. cbn. lia. Qed.

Lemma keeps_bytes s s' q : keeps s s' -> q ∈ allocated (firmware s) ->
  q ∈ allocated (firmware s') /\ forall x, in_range q x -> bytes s' !! x = bytes s !! x.
Proof. intros [K _] Hq. destruct (K q Hq) as [Hin Hb]. split; [done|]. apply Hb, apart_empty. Qed.

Lemma holds_at_same s s' a l : holds_at s a l ->
  (forall x, in_range (a, Z.of_nat (length l)) x -> bytes s' !! x = bytes s !! x) -> holds_at s' a l.
Proof.
  intros Hat Hs i b Hi. rewrite Hs; [by apply Hat|]. apply lookup_lt_Some in Hi. unfold in_range. cbn. lia.
Qed.

(** Bytes [l] at [a] in memory the loader owns. *)
Definition owns s (a : Z) (l : list Z) : Prop :=
  holds_at s a l /\ exists n, (a, n) ∈ allocated (firmware s) /\ Z.of_nat (length l) <= n.

Lemma owns_keeps s s' a l : owns s a l -> keeps s s' -> owns s' a l.
Proof.
  intros (Hat & n & Hn & Hl) K. destruct (keeps_bytes s s' _ K Hn) as [Hn' Hb]. split; [|by exists n].
  apply (holds_at_same s s' a l Hat). intros x Hx. apply Hb. unfold in_range in *. cbn in *. lia.
Qed.

(** A service that was just given the range [r] to fill leaves what was owned before. *)
Lemma owns_filled r s s1 s2 a l : owns s a l -> granted r s s1 -> keeps_but r s1 s2 -> owns s2 a l.
Proof.
  intros (Hat & n & Hn & Hl) (K & _ & _ & _ & _ & Hap & _) [K2 _].
  destruct (keeps_bytes s s1 _ K Hn) as [Hn1 Hb1]. destruct (K2 _ Hn1) as [Hn2 Hb2]. split; [|by exists n].
  apply (holds_at_same s s2 a l Hat). intros x Hx. assert (in_range (a, n) x) by (unfold in_range in *; cbn in *; lia).
  rewrite Hb2, Hb1; [done|done|by apply Hap|done].
Qed.

(** What is owned is apart from what is granted next. *)
Lemma owns_granted r s s' a l : owns s a l -> granted r s s' -> owns s' a l /\ apart (a, Z.of_nat (length l)) r.
Proof.
  intros O (K & _ & _ & _ & _ & Hap & _). split; [by apply (owns_keeps s)|].
  destruct O as (_ & n & Hn & Hl). intros x Hx. apply (Hap _ Hn). unfold in_range in *. cbn in *. lia.
Qed.

Lemma owns_written s s' a l b m : owns s a l -> apart (a, Z.of_nat (length l)) (b, Z.of_nat (length m)) ->
  written s b m s' -> owns s' a l.
Proof.
  intros (Hat & n & Hn & Hl) Hap (Ef & _ & Hout). split; [|exists n; by rewrite Ef].
  apply (holds_at_same s s' a l Hat). intros x Hx. by apply Hout, Hap.
Qed.

Lemma apart_sub a n r b m : apart (a, n) r -> a <= b -> b + m <= a + n -> apart (b, m) r.
Proof. intros Hap Hb Hm x Hx. apply Hap. unfold in_range in *. cbn in *. lia. Qed.

Lemma apart_sub_r q a n b m : apart q (a, n) -> a <= b -> b + m <= a + n -> apart q (b, m).
Proof. intros Hap Hb Hm x Hx Hin. apply (Hap x Hx). unfold in_range in *. cbn in *. lia. Qed.

(** ** Segments *)

Definition fits (img : list Z) (g : segment) : Prop :=
  sg_filesz g <= sg_memsz g /\ sg_offset g + sg_filesz g <= Z.of_nat (length img).

Lemma segment_bytes_length img g : fits img g -> 0 <= sg_filesz g -> 0 <= sg_offset g ->
  Z.of_nat (length (segment_bytes img g)) = sg_memsz g.
Proof.
  intros [Hm Hf] Hz Ho. unfold segment_bytes. rewrite length_app, length_take, length_drop, length_replicate. lia.
Qed.

(** Allocating, clearing and copying one segment. *)
Lemma place_segment s base img g :
  owns s base img -> 0 <= base -> base + Z.of_nat (length img) <= 18446744073709551616 ->
  fits img g -> 0 <= sg_offset g -> 0 <= sg_filesz g -> sg_memsz g + 4095 < 18446744073709551616 ->
  (exists st a' s', allocate_pages EFI_ALLOCATE_ADDRESS EFI_LOADER_DATA (Z.shiftr (wrap64 (sg_memsz g + 0xfff)) 12) (sg_paddr g) s
      = Ret (st, a') s' /\ st <> EFI_SUCCESS) \/
  (exists a' s1 s2 s3, allocate_pages EFI_ALLOCATE_ADDRESS EFI_LOADER_DATA (Z.shiftr (wrap64 (sg_memsz g + 0xfff)) 12) (sg_paddr g) s
      = Ret (EFI_SUCCESS, a') s1 /\
    mem_zero (sg_paddr g) (sg_memsz g) s1 = Ret tt s2 /\
    mem_copy (sg_paddr g) (base + sg_offset g) (sg_filesz g) s2 = Ret tt s3 /\
    owns s3 (sg_paddr g) (segment_bytes img g) /\ forall a l, owns s a l -> owns s3 a l).
Proof.
  intros Oi Hb Hbl Hfit Ho Hz Hm. destruct Hfit as [Hfm Hfo].
  set (pages := Z.shiftr (wrap64 (sg_memsz g + 0xfff)) 12).
  assert (Hp : sg_memsz g <= 4096 * pages /\ 0 <= pages).
  { unfold pages. rewrite wrap64_id by (unfold in64; lia). rewrite Z.shiftr_div_pow2 by lia. change (2 ^ 12) with 4096. div_lia. }
  destruct (allocate_pages_law EFI_LOADER_DATA pages (sg_paddr g) s ltac:(lia)) as (st & a' & s1 & E1 & K1 & G1).
  destruct (decide (st = EFI_SUCCESS)) as [->|Hne].
  2: { left. by exists st, a', s1. }
  specialize (G1 eq_refl). pose proof G1 as (_ & Hin & Hpa & _ & Hpl & _ & Hmap). cbn in Hpa, Hpl.
  destruct (mem_zero_run s1 (sg_paddr g) (sg_memsz g)) as (s2 & E2 & W2); [lia|lia|lia| |].
  { intros x Hx. apply Hmap. unfold in_range in *. cbn in *. lia. }
  assert (Hlen2 : Z.of_nat (length (replicate (Z.to_nat (sg_memsz g)) 0)) = sg_memsz g) by (rewrite length_replicate; lia).
  set (part := take (Z.to_nat (sg_filesz g)) (drop (Z.to_nat (sg_offset g)) img)).
  assert (Hpart : Z.of_nat (length part) = sg_filesz g) by (unfold part; rewrite length_take, length_drop; lia).
  destruct (owns_granted _ s s1 base img Oi G1) as [Oi1 Hapi].
  assert (Oi2 : owns s2 base img).
  { apply (owns_written s1 s2 base img (sg_paddr g) (replicate (Z.to_nat (sg_memsz g)) 0) Oi1); [|exact W2]. rewrite Hlen2.
    eapply apart_sub_r; [exact Hapi|lia|lia]. }
  assert (Hsrc : holds_at s2 (base + sg_offset g) part).
  { replace (sg_offset g) with (Z.of_nat (Z.to_nat (sg_offset g))) at 1 by lia. apply holds_at_part, Oi2. }
  destruct (mem_copy_run s2 (sg_paddr g) (base + sg_offset g) part) as (s3 & E3 & W3); rewrite ?Hpart in *; [lia|lia|lia|lia| |done| |].
  { intros x Hx. destruct W2 as (_ & Hat2 & _).
    assert (Hi : replicate (Z.to_nat (sg_memsz g)) 0 !! Z.to_nat (x - sg_paddr g) = Some 0).
    { apply lookup_replicate. unfold in_range in Hx. cbn in Hx. split; [done|lia]. }
    apply Hat2 in Hi. replace (sg_paddr g + _) with x in Hi by (unfold in_range in Hx; cbn in Hx; lia). by exists 0. }
  { eapply apart_sub_r; [eapply apart_sub; [exact Hapi|lia|lia]|lia|lia]. }
  right. exists a', s1, s2, s3. assert (Hkeep : forall a l, owns s a l -> owns s3 a l).
  { intros a l Oa. destruct (owns_granted _ s s1 a l Oa G1) as [Oa1 Hapa].
    apply (owns_written s2 s3 a l (sg_paddr g) part); [|rewrite Hpart; eapply apart_sub_r; [exact Hapa|lia|lia]|exact W3].
    apply (owns_written s1 s2 a l (sg_paddr g) (replicate (Z.to_nat (sg_memsz g)) 0) Oa1); [|exact W2]. rewrite Hlen2. eapply apart_sub_r; [exact Hapa|lia|lia]. }
  split_and!; [done|done|done| |done]. split.
  - intros i b Hi. unfold segment_bytes in Hi. fold part in Hi. destruct W3 as (_ & Hat3 & Hout3), W2 as (_ & Hat2 & _).
    apply lookup_app_Some in Hi as [Hi|[Hge Hi]]; [by apply Hat3|].
    rewrite Hout3 by (unfold in_range; cbn; lia). apply Hat2. apply lookup_replicate in Hi as [-> Hi].
    apply lookup_replicate. split; [done|lia].
  - exists (4096 * pages). split; [destruct W3 as (-> & _), W2 as (-> & _); exact Hin|].
    rewrite segment_bytes_length; [lia|done|done|done].
Qed.

(** ** The loop over the program headers *)

Section image.
Context (base : Z) (img : list Z) (Hbase : 0 <= base) (Hend : base + Z.of_nat (length img) <= 18446744073709551616)
  (Hbytes : Forall is_byte img) (Hlen : (64 <= length img)%nat) (Hbounded : elf_bounded img).

Lemma owns_image s : owns s base img -> image_at s base img.
Proof. intros [Hat _]. by split. Qed.

Lemma phnum_bound : 0 <= elf_phnum img < 65536.
Proof. pose proof (field_bound img 56 2 Hbytes ltac:(lia)) as Hb. change (256 ^ 2) with 65536 in Hb. exact Hb. Qed.

Lemma phoff_bound : 0 <= elf_phoff img.
Proof. apply (field_bound img 32 8 Hbytes ltac:(lia)). Qed.

(** The segments before the [i]th are in place. *)
Definition placed (i : Z) s : Prop :=
  owns s base img /\ forall j, 0 <= j < i -> sg_type (elf_segment img j) = PT_LOAD ->
    fits img (elf_segment img j) /\ owns s (sg_paddr (elf_segment img j)) (segment_bytes img (elf_segment img j)).

(** Why loading fails: a segment does not fit the file, or the firmware refuses its pages. *)
Definition load_failure (st : Z) : Prop :=
  (st = EFI_LOAD_ERROR /\ exists i, 0 <= i < elf_phnum img /\ sg_type (elf_segment img i) = PT_LOAD /\ ~ fits img (elf_segment img i)) \/
  (st <> EFI_SUCCESS /\ exists n a a' s s', allocate_pages EFI_ALLOCATE_ADDRESS EFI_LOADER_DATA n a s = Ret (st, a') s').

Lemma load_segment_run i s : 0 <= i -> placed i s ->
  exists r s', load_segment base (Z.of_nat (length img)) (base + elf_phoff img) i s = Ret r s' /\
    match r with
    | inl j => j = i + 1 /\ i < elf_phnum img /\ placed (i + 1) s' /\ (forall a l, owns s a l -> owns s' a l)
    | inr st => if decide (i < elf_phnum img) then load_failure st else st = EFI_SUCCESS /\ s' = s
    end.
Proof.
  intros Hi [Oi Hpl]. pose proof (owns_image s Oi) as Him. unfold load_segment.
  rewrite (bind_run _ _ _ _ _ (field_run s base img _ 56 2 Him eq_refl ltac:(lia) ltac:(lia))). change (field img 56 (Z.of_nat 2)) with (elf_phnum img).
  destruct (decide (i < elf_phnum img)) as [Hlt|Hge].
  2: { rewrite bool_decide_eq_true_2 by lia. by eexists _, s. }
  rewrite bool_decide_eq_false_2 by lia. destruct Hbounded as [Htab Hseg]. pose proof phoff_bound as Hpo.
  unfold sizeof_elf64_phdr. set (o := elf_phoff img + i * 56). set (g := elf_segment img i).
  assert (Hf : forall off n, 0 <= off -> off + Z.of_nat n <= 56 ->
    load_le n (base + elf_phoff img + i * 56 + off) s = Ret (field img (o + off) (Z.of_nat n)) s).
  { intros off n Ho Hn. apply (field_run s base img); [done|unfold o; lia|unfold o; lia|unfold o; lia]. }
  pose proof (Hf 0 4%nat ltac:(lia) ltac:(lia)) as Et. rewrite !Z.add_0_r in Et.
  rewrite (bind_run _ _ _ _ _ Et). change (field img o (Z.of_nat 4)) with (sg_type g).
  destruct (decide (sg_type g = PT_LOAD)) as [Hload|Hno].
  2: { rewrite bool_decide_eq_false_2 by done. eexists _, s. split; [reflexivity|]. split_and!; [done|done| |done].
       split; [done|]. intros j Hj Ht. destruct (decide (j = i)) as [->|]; [done|]. apply Hpl; [lia|done]. }
  rewrite bool_decide_eq_true_2 by done. cbn [negb]. specialize (Hseg i ltac:(lia) Hload). fold g in Hseg.
  rewrite (bind_run _ _ _ _ _ (Hf 40 8%nat ltac:(lia) ltac:(lia))). change (field img (o + 40) (Z.of_nat 8)) with (sg_memsz g).
  rewrite (bind_run _ _ _ _ _ (Hf 32 8%nat ltac:(lia) ltac:(lia))). change (field img (o + 32) (Z.of_nat 8)) with (sg_filesz g).
  assert (Hz : 0 <= sg_filesz g) by apply (field_bound img _ 8 Hbytes ltac:(lia)).
  assert (Ho : 0 <= sg_offset g) by apply (field_bound img _ 8 Hbytes ltac:(lia)).
  destruct (decide (sg_memsz g < sg_filesz g)) as [Hms|Hms].
  { rewrite bool_decide_eq_true_2 by done. eexists _, s. split; [reflexivity|]. left. split; [done|]. exists i.
    split_and!; [lia|lia|done|]. fold g. unfold fits. lia. }
  rewrite bool_decide_eq_false_2 by done.
  rewrite (bind_run _ _ _ _ _ (Hf 8 8%nat ltac:(lia) ltac:(lia))). change (field img (o + 8) (Z.of_nat 8)) with (sg_offset g).
  rewrite wrap64_id by (unfold in64; lia). destruct (decide (Z.of_nat (length img) < sg_offset g + sg_filesz g)) as [Hof|Hof].
  { rewrite bool_decide_eq_true_2 by done. eexists _, s. split; [reflexivity|]. left. split; [done|]. exists i.
    split_and!; [lia|lia|done|]. fold g. unfold fits. lia. }
  rewrite bool_decide_eq_false_2 by done.
  rewrite (bind_run _ _ _ _ _ (Hf 24 8%nat ltac:(lia) ltac:(lia))). change (field img (o + 24) (Z.of_nat 8)) with (sg_paddr g).
  assert (Hfit : fits img g) by (unfold fits; lia).
  destruct (place_segment s base img g Oi Hbase Hend Hfit Ho Hz ltac:(lia))
    as [(st & a' & s' & E & Hst)|(a' & s1 & s2 & s3 & E1 & E2 & E3 & Og & Hk)].
  - rewrite (bind_run _ _ _ _ _ E). cbv beta iota. rewrite bool_decide_eq_false_2 by done. eexists _, s'. split; [reflexivity|].
    right. split; [done|]. by eexists _, _, _, _, _.
  - rewrite (bind_run _ _ _ _ _ E1). cbv beta iota. rewrite bool_decide_eq_true_2 by done. cbn [negb].
    rewrite (bind_run _ _ _ _ _ E2), (bind_run _ _ _ _ _ E3). eexists _, s3. split; [reflexivity|].
    split_and!; [done|done| |done]. split; [by apply Hk|]. intros j Hj Ht. destruct (decide (j = i)) as [->|]; [done|].
    destruct (Hpl j ltac:(lia) Ht) as [Hfj Oj]. split; [done|]. by apply Hk.
Qed.

Lemma load_segments_run n : forall i s, 0 <= i <= elf_phnum img -> placed i s -> elf_phnum img - i < Z.of_nat n ->
  exists st s', loop n (load_segment base (Z.of_nat (length img)) (base + elf_phoff img)) i s = Ret st s' /\
    ((st = EFI_SUCCESS /\ placed (elf_phnum img) s' /\ forall a l, owns s a l -> owns s' a l) \/ load_failure st).
Proof.
  induction n as [|n IH]; intros i s Hi Hp Hn.
  - lia.
  - rewrite loop_S. destruct (load_segment_run i s ltac:(lia) Hp) as (r & s1 & E & Hr). rewrite (bind_run _ _ _ _ _ E).
    destruct r as [j|st].
    + destruct Hr as (-> & Hlt & Hp1 & Hk1). destruct (IH (i + 1) s1 ltac:(lia) Hp1 ltac:(lia)) as (st & s' & E' & Hs).
      exists st, s'. split; [done|]. destruct Hs as [(-> & Hp' & Hk')|Hs]; [left|by right]. split_and!; [done|done|]. eauto.
    + exists st, s1. split; [done|]. destruct (decide (i < elf_phnum img)); [by right|]. destruct Hr as [-> ->]. left.
      split_and!; [done| |done]. destruct Hp as [Oi Hpl]. split; [done|]. intros j Hj. apply Hpl. lia.
Qed.

Lemma load_kernel_run s : owns s base img ->
  exists st e s', boot_load_kernel_elf base (Z.of_nat (length img)) s = Ret (st, e) s' /\
    ((st = EFI_SUCCESS /\ elf_header_ok img = true /\ e = Some (elf_entry img) /\ placed (elf_phnum img) s' /\
      forall a l, owns s a l -> owns s' a l) \/
     (st <> EFI_SUCCESS /\ e = None /\ ((elf_header_ok img = false /\ st = EFI_LOAD_ERROR /\ s' = s) \/ load_failure st))).
Proof.
  intros Oi. pose proof (owns_image s Oi) as Him. unfold boot_load_kernel_elf.
  rewrite bool_decide_eq_false_2 by (unfold sizeof_elf64_ehdr; lia).
  rewrite (bind_run _ _ _ _ _ (validate_run s base img Him Hlen)). destruct (elf_header_ok img) eqn:Eh.
  2: { rewrite bool_decide_eq_false_2 by done. eexists _, _, s. split; [reflexivity|]. right. split_and!; [done|done|by left]. }
  rewrite bool_decide_eq_true_2 by done. cbn [negb].
  rewrite (bind_run _ _ _ _ _ (field_run s base img _ 32 8 Him eq_refl ltac:(lia) ltac:(lia))).
  change (field img 32 (Z.of_nat 8)) with (elf_phoff img). pose proof phnum_bound as Hpn.
  destruct (load_segments_run (Z.to_nat 65537) 0 s) as (st & s' & E & Hs); [lia| |rewrite Z2Nat.id by lia; lia|].
  { split; [done|]. intros j Hj. lia. }
  rewrite (bind_run _ _ _ _ _ E). destruct Hs as [(-> & Hp & Hk)|Hf].
  - rewrite bool_decide_eq_true_2 by done. cbn [negb]. pose proof (owns_image s' (proj1 Hp)) as Him'.
    rewrite (bind_run _ _ _ _ _ (field_run s' base img _ 24 8 Him' eq_refl ltac:(lia) ltac:(lia))).
    eexists _, _, s'. split; [reflexivity|]. by left.
  - assert (Hne : st <> EFI_SUCCESS) by (by destruct Hf as [[-> _]|[? _]]).
    rewrite bool_decide_eq_false_2 by done. eexists _, _, s'. split; [reflexivity|]. right. split_and!; [done|done|by right].
Qed.

Lemma placed_loaded s : placed (elf_phnum img) s -> kernel_loaded s img.
Proof. intros [_ Hp] i Hi Ht. apply Hp; done. Qed.
End image.

(** The ELF loader: given a file in memory the loader owns, it returns with the
    kernel loaded or with an error.  On success the file is an executable for this
    machine, the entry point is the one it names, every loadable segment lies at its
    physical address as the bytes of the file followed by zeros, and neither the file nor
    anything else the loader owned was overwritten.  Otherwise the header is wrong, a
    segment does not fit the file, or the firmware refused the pages. *)
Theorem kernel_image_loads base img s :
  owns s base img -> 0 <= base -> base + Z.of_nat (length img) <= 18446744073709551616 ->
  Forall is_byte img -> (64 <= length img)%nat -> elf_bounded img ->
  exists st e s', boot_load_kernel_elf base (Z.of_nat (length img)) s = Ret (st, e) s' /\
    ((st = EFI_SUCCESS /\ elf_header_ok img = true /\ e = Some (elf_entry img) /\ kernel_loaded s' img /\
      forall a l, owns s a l -> owns s' a l) \/
     (st <> EFI_SUCCESS /\ e = None /\ ((elf_header_ok img = false /\ st = EFI_LOAD_ERROR /\ s' = s) \/ load_failure img st))).
Proof.
  intros Oi Hb He Hby Hl Hbd.
  destruct (load_kernel_run base img Hb He Hby Hl Hbd s Oi) as (st & e & s' & E & [(-> & Hh & -> & Hp & Hk)|Hf]);
    eexists _, _, s'; (split; [exact E|]).
  - left. split_and!; [done|done|done| |done]. by eapply placed_loaded.
  - by right.
Qed.

(** ** The memory map *)

(** [b] describes the memory map as it is in [s]. *)
Definition describes s (b : boot_info_t) : Prop :=
  holds_at s (memory_map b) (current_map (firmware s)) /\
  memory_map_size b = Z.of_nat (length (current_map (firmware s))).

Definition same_but_map (b b' : boot_info_t) : Prop :=
  b' = b <| memory_map := memory_map b' |> <| memory_map_size := memory_map_size b' |> <| memory_map_key := memory_map_key b' |>
    <| memory_descriptor_size := memory_descriptor_size b' |> <| memory_descriptor_version := memory_descriptor_version b' |>.

Lemma same_but_map_trans b1 b2 b3 : same_but_map b1 b2 -> same_but_map b2 b3 -> same_but_map b1 b3.
Proof. unfold same_but_map. intros -> ->. by destruct b1. Qed.

Lemma fetch_memory_map_run b s :
  exists st b' s', fetch_memory_map b s = Ret (st, b') s' /\
    (st = EFI_SUCCESS -> same_but_map b b' /\ describes s' b' /\ memory_map_key b' = current_key (firmware s') /\
      (exists n, (memory_map b', n) ∈ allocated (firmware s') /\ memory_map_size b' <= n) /\
      forall a l, owns s a l -> owns s' a l).
Proof.
  unfold fetch_memory_map. destruct (get_map_law 0 (MapArgs 0 0 0 0) s) as [Hsmall _].
  destruct Hsmall as (a1 & s1 & E1 & K1).
  { pose proof (current_map_nonempty (firmware s)). destruct (current_map (firmware s)); [done|]. cbn. lia. }
  rewrite (bind_run _ _ _ _ _ E1). cbv beta iota. rewrite bool_decide_eq_true_2 by done. cbn [negb].
  set (size := wrap64 (ma_size a1 + wrap64 (ma_descriptor_size a1 * 8))).
  assert (Hsz : 0 <= size) by (unfold size, wrap64; apply Z.mod_pos_bound; lia).
  destruct (allocate_pool_law EFI_LOADER_DATA size s1 Hsz) as (st & buf & s2 & E2 & K2 & G2).
  rewrite (bind_run _ _ _ _ _ E2). cbv beta iota. destruct (decide (st = EFI_SUCCESS)) as [->|Hne].
  2: { rewrite bool_decide_eq_false_2 by done. eexists _, _, s2. split; [reflexivity|]. by intros ->. }
  specialize (G2 eq_refl). rewrite bool_decide_eq_true_2 by done. cbn [negb].
  destruct (get_map_law buf (MapArgs size (ma_key a1) (ma_descriptor_size a1) (ma_descriptor_version a1)) s2) as [Hsm Hfit].
  destruct (decide (size < Z.of_nat (length (current_map (firmware s2))))) as [Hlt|Hge].
  - destruct (Hsm Hlt) as (a3 & s3 & E3 & _). rewrite (bind_run _ _ _ _ _ E3). cbv beta iota.
    rewrite bool_decide_eq_false_2 by done. cbn [negb]. destruct (free_pool_law buf s3) as (st' & s4 & E4).
    rewrite (bind_run _ _ _ _ _ E4). by eexists _, _, s4.
  - destruct (Hfit ltac:(cbn; lia) ltac:(apply G2)) as (a3 & s3 & E3 & K3 & Esz & Ekey & Emap & Eck & Hat).
    rewrite (bind_run _ _ _ _ _ E3). cbv beta iota. rewrite bool_decide_eq_true_2 by done. cbn [negb].
    eexists _, _, s3. split; [reflexivity|]. intros _. split_and!; [by destruct b| | | |].
    + split; cbn; [by rewrite Emap|by rewrite Emap].
    + cbn. by rewrite Eck.
    + exists size. split; [apply K3; apply G2|cbn; lia].
    + intros a l Oa. apply (owns_filled (buf, size) s1 s2 s3); [by apply (owns_keeps s)|exact G2|exact K3].
Qed.

Lemma exit_services_run h b s :
  exists st b' s', boot_exit_services_with_latest_memory_map h b s = Ret (st, b') s' /\
    (st = EFI_SUCCESS -> boot_flags b' = Z.ldiff (boot_flags b) BOOT_FLAG_SERVICES_ACTIVE /\
      same_but_map (b <| boot_flags := boot_flags b' |>) b' /\ describes s' b' /\ forall a l, owns s a l -> owns s' a l).
Proof.
  assert (Hround : forall t last c s0, same_but_map b c -> (forall a l, owns s a l -> owns s0 a l) -> t < 2 ->
    exists r s1, exit_round h (t, last, c) s0 = Ret r s1 /\
      match r with
      | inr (st, b') => st = EFI_SUCCESS -> boot_flags b' = Z.ldiff (boot_flags b) BOOT_FLAG_SERVICES_ACTIVE /\
          same_but_map (b <| boot_flags := boot_flags b' |>) b' /\ describes s1 b' /\ forall a l, owns s a l -> owns s1 a l
      | inl (t', st, c') => t' = t + 1 /\ st <> EFI_SUCCESS /\ same_but_map b c' /\ forall a l, owns s a l -> owns s1 a l
      end).
  { intros t last c s0 Hc Hk Ht. unfold exit_round. rewrite bool_decide_eq_false_2 by lia.
    destruct (fetch_memory_map_run c s0) as (st & c' & s1 & E1 & Hf). rewrite (bind_run _ _ _ _ _ E1). cbv beta iota.
    destruct (decide (st = EFI_SUCCESS)) as [->|Hne].
    2: { rewrite bool_decide_eq_false_2 by done. eexists _, s1. split; [reflexivity|]. by intros ->. }
    rewrite bool_decide_eq_true_2 by done. cbn [negb]. destruct (Hf eq_refl) as (Hsb & [Hat Hsz] & Hkey & (n & Hn & Hle) & Hk1).
    destruct (exit_law h (memory_map_key c') s1) as (st & s2 & E2 & K2 & Hok). rewrite (bind_run _ _ _ _ _ E2).
    assert (Hk2 : forall a l, owns s a l -> owns s2 a l) by (intros a l Oa; apply (owns_keeps s1); eauto).
    destruct (decide (st = EFI_SUCCESS)) as [->|Hne].
    - rewrite bool_decide_eq_true_2 by done. eexists _, s2. split; [reflexivity|]. intros _. destruct (Hok eq_refl) as [_ Em].
      assert (Ef : boot_flags c' = boot_flags b).
      { pose proof (same_but_map_trans _ _ _ Hc Hsb) as ->. by destruct b. }
      split_and!; [cbn; by rewrite Ef| | |done].
      + pose proof (same_but_map_trans _ _ _ Hc Hsb) as E. unfold same_but_map in *. rewrite E. by destruct b.
      + split; cbn; rewrite Em; [|done]. destruct (keeps_bytes s1 s2 _ K2 Hn) as [_ Hb].
        apply (holds_at_same s1 s2 _ _ Hat). intros x Hx. apply Hb. unfold in_range in *. cbn in *. lia.
    - rewrite bool_decide_eq_false_2 by done. eexists _, s2. split; [reflexivity|].
      split_and!; [done|done|by eapply same_but_map_trans|done]. }
  unfold boot_exit_services_with_latest_memory_map.
  assert (Hb : same_but_map b b) by by destruct b.
  rewrite loop_S. destruct (Hround 0 0 b s Hb ltac:(auto) ltac:(lia)) as (r1 & s1 & E1 & H1).
  rewrite (bind_run _ _ _ _ _ E1). destruct r1 as [[[t1 st1] b1]|[st1 b1]]; [|by exists st1, b1, s1].
  destruct H1 as (-> & _ & Hb1 & Hk1). rewrite loop_S.
  destruct (Hround (0 + 1) st1 b1 s1 Hb1 Hk1 ltac:(lia)) as (r2 & s2 & E2 & H2).
  rewrite (bind_run _ _ _ _ _ E2). destruct r2 as [[[t2 st2] b2]|[st2 b2]]; [|by exists st2, b2, s2].
  destruct H2 as (-> & Hne & _). rewrite loop_S.
  rewrite (bind_run _ _ s2 (inr (st2, b2)) s2) by reflexivity.
  exists st2, b2, s2. split; [reflexivity|]. by intros ->.
Qed.

(** ** Reading the file *)

Lemma keeps_volume s s' : keeps s s' -> volume (firmware s') = volume (firmware s).
Proof. by intros (_ & E & _). Qed.

Lemma open_root_run h s :
  exists st root s', open_root h s = Ret (st, root) s' /\ volume (firmware s') = volume (firmware s).
Proof.
  unfold open_root. destruct (handle_law h efi_loaded_image_protocol_guid s) as (st & p & s1 & E1 & K1 & R1).
  rewrite (bind_run _ _ _ _ _ E1). cbv beta iota. apply keeps_volume in K1 as V1.
  succeeds st else (by eexists _, _, s1).
  destruct (readable_le 8 (p + 24) s1 (R1 eq_refl eq_refl)) as [dev Edev]. rewrite (bind_run _ _ _ _ _ Edev).
  destruct (handle_law dev efi_simple_file_system_protocol_guid s1) as (st & fs & s2 & E2 & K2 & _).
  rewrite (bind_run _ _ _ _ _ E2). cbv beta iota. apply keeps_volume in K2 as V2.
  succeeds st else (eexists _, _, s2; split; [reflexivity|congruence]).
  destruct (open_volume_law fs s2) as (st & root & s3 & E3 & K3%keeps_volume). exists st, root, s3. split; [done|congruence].
Qed.

(** Closing a file, on the way out. *)
Lemma close_then_run {A} f (r : A) s : exists s', (file_close f ;; mret r) s = Ret r s'.
Proof. destruct (close_law f s) as (st & s' & E & _). exists s'. by rewrite (bind_run _ _ _ _ _ E). Qed.

Lemma owns_granted_new s s' a l : holds_at s' a l -> granted (a, Z.of_nat (length l)) s s' -> owns s' a l.
Proof. intros Hat G. split; [done|]. exists (Z.of_nat (length l)). split; [apply G|lia]. Qed.

(** A successful read puts the file on the volume into memory of the loader's own. *)
Lemma read_file_run h path s :
  exists st r s', boot_read_file h path s = Ret (st, r) s' /\
    (st = EFI_SUCCESS -> exists img buf, volume (firmware s) path = Some img /\ r = Some (buf, Z.of_nat (length img)) /\
      owns s' buf img /\ 0 <= buf /\ buf + Z.of_nat (length img) <= 18446744073709551616).
Proof.
  unfold boot_read_file. destruct (open_root_run h s) as (st & root & s1 & E1 & V1).
  rewrite (bind_run _ _ _ _ _ E1). cbv beta iota.
  succeeds st else (by eexists _, _, s1).
  destruct (open_law root path EFI_OPEN_MODE_READ 0 s1) as (st & f & s2 & E2 & _ & O2). rewrite (bind_run _ _ _ _ _ E2). cbv beta iota.
  destruct (close_law root s2) as (cst & s3 & E3 & K3). rewrite (bind_run _ _ _ _ _ E3).
  succeeds st else (by eexists _, _, s3). destruct (O2 eq_refl) as (Hfr & [img Hvol] & Hc2).
  rewrite Hvol in Hc2. assert (Hc3 : contents (firmware s3) f = Some (img, 0%nat)).
  { destruct K3 as (_ & _ & C3). specialize (C3 f (img, 0%nat)). unfold other_files in C3. rewrite !decide_False in C3 by done. auto. }
  rewrite V1 in Hvol.
  assert (Hout : forall st (s5 : boot F), st <> EFI_SUCCESS -> exists st' r s', (file_close f ;; mret (st, None : option (Z * Z))) s5 = Ret (st', r) s' /\
    (st' = EFI_SUCCESS -> exists img0 buf, volume (firmware s) path = Some img0 /\ r = Some (buf, Z.of_nat (length img0)) /\
      owns s' buf img0 /\ 0 <= buf /\ buf + Z.of_nat (length img0) <= 18446744073709551616)).
  { intros st s5 Hne. destruct (close_then_run f (st, None : option (Z * Z)) s5) as [s6 E6]. by exists st, None, s6. }
  destruct (proj1 (get_info_law f img 0 0 0 s3 Hc3) eq_refl) as (st & need & s4 & E4 & K4 & Hns & Hneed).
  rewrite (bind_run _ _ _ _ _ E4). cbv beta iota. destruct K4 as (_ & _ & C4). specialize (C4 f (img, 0%nat) Hc3).
  destruct (decide (st = EFI_BUFFER_TOO_SMALL)) as [->|Hne]; [|rewrite bool_decide_eq_false_2 by done; by apply Hout].
  rewrite bool_decide_eq_true_2 by done. cbn [negb]. specialize (Hneed eq_refl).
  destruct (allocate_pool_law EFI_LOADER_DATA need s4 ltac:(lia)) as (st & info & s5 & E5 & K5 & G5).
  rewrite (bind_run _ _ _ _ _ E5). cbv beta iota. destruct K5 as (_ & _ & C5). specialize (C5 f (img, 0%nat) C4).
  succeeds st else (by apply Hout). specialize (G5 eq_refl).
  destruct (proj2 (get_info_law f img 0 need info s5 C5) Hneed ltac:(apply G5)) as (st & n6 & s6 & E6 & K6 & Hsz).
  rewrite (bind_run _ _ _ _ _ E6). cbv beta iota. destruct K6 as (_ & _ & C6). specialize (C6 f (img, 0%nat) C5).
  succeeds st else (by apply Hout). rewrite (bind_run _ _ _ _ _ (Hsz eq_refl)).
  destruct (allocate_pool_law EFI_LOADER_DATA (Z.of_nat (length img)) s6 ltac:(lia)) as (st & buf & s7 & E7 & K7 & G7).
  rewrite (bind_run _ _ _ _ _ E7). cbv beta iota. destruct K7 as (_ & _ & C7). specialize (C7 f (img, 0%nat) C6).
  succeeds st else (by apply Hout). specialize (G7 eq_refl).
  destruct (read_law f img 0 (Z.of_nat (length img)) buf s7 C7 ltac:(lia) ltac:(apply G7)) as (st & n8 & s8 & E8 & K8 & Hrd).
  rewrite (bind_run _ _ _ _ _ E8). cbv beta iota. destruct (close_law f s8) as (cst' & s9 & E9 & K9).
  rewrite (bind_run _ _ _ _ _ E9).
  succeeds st else (by eexists _, _, s9). destruct (Hrd eq_refl) as (-> & Hat & _). rewrite drop_0 in Hat |- *. rewrite Z.min_id.
  rewrite bool_decide_eq_true_2 by done. cbn [negb]. eexists _, _, s9. split; [reflexivity|]. intros _.
  rewrite Z.min_id, Nat2Z.id, take_ge in Hat by lia.
  destruct G7 as (_ & Hin & Hb0 & _ & Hbl & _). cbn in Hb0, Hbl. destruct K8 as [K8 _], K9 as [K9 _].
  destruct (K8 _ Hin) as [Hin8 _]. destruct (K9 _ Hin8) as [Hin9 Hb9]. exists img, buf. split_and!; [done|done| |done|done].
  split; [|by exists (Z.of_nat (length img))]. apply (holds_at_same s8 s9 buf img Hat). apply Hb9, apart_empty.
Qed.

(** ** The graphics mode *)

Definition same_but_mode (b b' : boot_info_t) : Prop :=
  b' = b <| framebuffer_base := framebuffer_base b' |> <| framebuffer_size := framebuffer_size b' |>
    <| framebuffer_width := framebuffer_width b' |> <| framebuffer_height := framebuffer_height b' |>
    <| framebuffer_pixels_per_scan_line := framebuffer_pixels_per_scan_line b' |>
    <| framebuffer_pixel_format := framebuffer_pixel_format b' |>.

Lemma readable_part s a n off m : readable s a n -> 0 <= off -> off + Z.of_nat m <= n ->
  exists v, load_le m (a + off) s = Ret v s.
Proof.
  intros Hr Ho Hm. apply readable_le. intros i Hi. replace (a + off + i) with (a + (off + i)) by lia. apply Hr. lia.
Qed.

Lemma capture_run b s :
  exists st b' s', boot_capture_framebuffer true b s = Ret (st, b') s' /\ same_but_mode b b' /\
    volume (firmware s') = volume (firmware s).
Proof.
  assert (Hb : same_but_mode b b) by by destruct b.
  unfold boot_capture_framebuffer. cbn [negb]. destruct (locate_law s) as (st & gop & s1 & E1 & K1%keeps_volume & Hgop).
  rewrite (bind_run _ _ _ _ _ E1). cbv beta iota.
  succeeds st else (by eexists _, _, s1).
  destruct (decide (gop = 0)) as [->|Hg]; [rewrite bool_decide_eq_true_2 by done; by eexists _, _, s1|].
  rewrite bool_decide_eq_false_2 by done. destruct (Hgop eq_refl Hg) as [Hr Hmode].
  destruct (readable_le 8 _ s1 Hr) as [mode Em]. rewrite (bind_run _ _ _ _ _ Em). specialize (Hmode mode Em).
  destruct (decide (mode = 0)) as [->|Hm]; [rewrite bool_decide_eq_true_2 by done; by eexists _, _, s1|].
  rewrite bool_decide_eq_false_2 by done. destruct (Hmode Hm) as [Hrm Hinfo].
  destruct (readable_part s1 mode 40 8 8 Hrm ltac:(lia) ltac:(lia)) as [info Ei]. rewrite (bind_run _ _ _ _ _ Ei).
  specialize (Hinfo info Ei). destruct (decide (info = 0)) as [->|Hi]; [rewrite bool_decide_eq_true_2 by done; by eexists _, _, s1|].
  rewrite bool_decide_eq_false_2 by done. specialize (Hinfo Hi).
  destruct (readable_part s1 mode 40 24 8 Hrm ltac:(lia) ltac:(lia)) as [v1 E]. rewrite (bind_run _ _ _ _ _ E). clear E.
  destruct (readable_part s1 mode 40 32 8 Hrm ltac:(lia) ltac:(lia)) as [v2 E]. rewrite (bind_run _ _ _ _ _ E). clear E.
  destruct (readable_part s1 info 36 4 4 Hinfo ltac:(lia) ltac:(lia)) as [v3 E]. rewrite (bind_run _ _ _ _ _ E). clear E.
  destruct (readable_part s1 info 36 8 4 Hinfo ltac:(lia) ltac:(lia)) as [v4 E]. rewrite (bind_run _ _ _ _ _ E). clear E.
  destruct (readable_part s1 info 36 32 4 Hinfo ltac:(lia) ltac:(lia)) as [v5 E]. rewrite (bind_run _ _ _ _ _ E). clear E.
  destruct (readable_part s1 info 36 12 4 Hinfo ltac:(lia) ltac:(lia)) as [v6 E]. rewrite (bind_run _ _ _ _ _ E). clear E.
  by eexists _, _, s1.
Qed.

(** ** The loader as a whole *)

(** C13. On a firmware that keeps UEFI's promises ([EfiSpec]), and with a kernel.elf whose
    program header table lies in the file and whose segment sizes do not wrap around
    ([elf_bounded], which the loader does not check), the boot loader returns with an error
    status or hands the machine over.  When it jumps to the kernel, kernel.elf of the boot
    volume is an executable for this machine, the target of the jump is its entry point,
    every loadable segment is in place, the flag of active boot services is clear, and the
    memory map it passes is the firmware's final one. *)
Theorem efi_main_hands_over h s :
  (forall img, volume (firmware s) kernel_path_text = Some img -> (64 <= length img)%nat -> elf_bounded img) ->
  exists r s', efi_main h s = Ret r s' /\
    match r with
    | inl st => st <> EFI_SUCCESS
    | inr (entry, b) => exists img, volume (firmware s) kernel_path_text = Some img /\
        elf_header_ok img = true /\ entry = elf_entry img /\ kernel_loaded s' img /\
        version b = BOOT_INFO_VERSION /\ boot_flags b = 0 /\ describes s' b
    end.
Proof.
  intros Hbd. unfold efi_main. destruct (capture_run fresh_boot_info s) as (st0 & b0 & s0 & E0 & Hb0 & V0).
  rewrite (bind_run _ _ _ _ _ E0). cbv beta iota.
  destruct (read_file_run h kernel_path_text s0) as (st & r & s1 & E1 & Hrd). rewrite (bind_run _ _ _ _ _ E1). cbv beta iota.
  succeeds st else (by eexists _, s1).
  destruct (Hrd eq_refl) as (img & buf & Hvol & -> & Oi & Hbuf & Hend). rewrite V0 in Hvol.
  erewrite (bind_deref (fun _ => Some _)) by reflexivity. cbv beta iota.
  destruct (decide (64 <= length img)%nat) as [Hlen|Hshort].
  2: { exists (inl EFI_LOAD_ERROR), s1. split; [|done]. unfold boot_load_kernel_elf.
       rewrite (bool_decide_eq_true_2 (_ < sizeof_elf64_ehdr)) by (unfold sizeof_elf64_ehdr; lia). reflexivity. }
  pose proof (volume_bytes _ _ _ Hvol) as Hby.
  destruct (load_kernel_run buf img Hbuf Hend Hby Hlen (Hbd img Hvol Hlen) s1 Oi)
    as (st & e & s2 & E2 & [(-> & Hh & -> & [_ Hp] & Hk)|(Hne & _)]); rewrite (bind_run _ _ _ _ _ E2); cbv beta iota.
  2: { rewrite bool_decide_eq_false_2 by done. by eexists _, s2. }
  rewrite bool_decide_eq_true_2 by done. cbn [negb].
  destruct (exit_services_run h b0 s2) as (st & b & s3 & E3 & Hex). rewrite (bind_run _ _ _ _ _ E3). cbv beta iota.
  succeeds st else (by eexists _, s3). destruct (Hex eq_refl) as (Hfl & Hsb & Hd & Hk3).
  erewrite (bind_deref (fun _ => Some _)) by reflexivity. eexists _, s3. split; [reflexivity|]. exists img.
  split_and!; [done|done|done| | | |done].
  - intros i Hi Ht. destruct (Hp i Hi Ht) as [_ Oj]. by destruct (Hk3 _ _ Oj) as [? _].
  - rewrite Hsb. cbn. rewrite Hb0. done.
  - rewrite Hfl, Hb0. done.
Qed.
End loading.
