(* ===== verification/FirmwareWitness.v ===== *)
(** * A firmware, and a kernel it boots

    A small firmware that meets [EfiSpec]: it hands out memory that is present and unused,
    knows one file and one memory descriptor, and takes back its services for the current
    key.  The theorems on the loader are applied to it. *)

From S2P Require Import Prelude PhysMem BootLoader BootKernel.

(** ** A file: one segment of four bytes and as many zeros, at 0x4000 *)

Definition le (n : nat) (v : Z) : list Z := (fun i => (v / 256 ^ i) mod 256) <$> seqZ 0 (Z.of_nat n).

Definition demo_kernel : list Z :=
  [127; 69; 76; 70; 2; 1; 1; 0] ++ replicate 8 0 ++
  le 2 2 ++ le 2 62 ++ le 4 1 ++ le 8 0x4000 ++ le 8 64 ++ le 8 0 ++ le 4 0 ++ le 2 64 ++ le 2 56 ++ le 2 1 ++ le 6 0 ++
  le 4 1 ++ le 4 5 ++ le 8 120 ++ le 8 0x4000 ++ le 8 0x4000 ++ le 8 4 ++ le 8 8 ++ le 8 4096 ++
  [0xfa; 0xf4; 0xeb; 0xfd].

Definition demo_map : list Z := le 4 7 ++ le 4 0 ++ le 8 0x5000 ++ le 8 0 ++ le 8 1 ++ le 8 0.

(** ** The firmware *)

(** [toy_open] gives the open handles their positions in the one file, [toy_handle] is the
    handle of the next open. *)
Record toy := Toy { toy_alloc : list (Z * Z); toy_next : Z; toy_open : gmap Z nat; toy_handle : Z }.
#[export] Instance eta_toy : Eta toy := fun t => Toy (toy_alloc t) (toy_next t) (toy_open t) (toy_handle t).

Definition separate (q r : Z * Z) : Prop := q.1 + q.2 <= r.1 \/ r.1 + r.2 <= q.1.

Definition grantable (r : Z * Z) (s : boot toy) : Prop :=
  0 <= r.1 /\ 0 <= r.2 /\ r.1 + r.2 <= 18446744073709551616 /\
  Forall (fun q => separate q r) (toy_alloc (firmware s)) /\ Forall (fun x => is_Some (bytes s !! x)) (seqZ r.1 r.2).
#[export] Instance grantable_dec r s : Decision (grantable r s).
Proof. unfold grantable, separate. apply _. Defined.

Definition grant (r : Z * Z) : M (boot toy) Z := fun s =>
  if decide (grantable r s) then Ret EFI_SUCCESS (s <| firmware ::= (fun t => t <| toy_alloc ::= cons r |>) |>)
  else Ret 0x8000000000000009 s.

Fixpoint write_list (a : Z) (l : list Z) (m : gmap Z Z) : gmap Z Z :=
  match l with [] => m | b :: l => <[a := b]> (write_list (a + 1) l m) end.

(** A buffer the loader owns and passes with its size. *)
Definition owned_buffer (buf size : Z) (s : boot toy) : Prop :=
  (buf, size) ∈ toy_alloc (firmware s) /\ 0 <= buf /\ buf + size <= 18446744073709551616.
#[export] Instance owned_buffer_dec buf size s : Decision (owned_buffer buf size s).
Proof. unfold owned_buffer. apply _. Defined.

#[export] Instance toy_efi : Efi toy := {|
  allocate_pages ty mt n a := st ← grant (a, 4096 * n); mret (st, a);
  allocate_pool mt n := fun s =>
    (let a := toy_next (firmware s) in
     st ← grant (a, n); modify (fun s => s <| firmware ::= (fun t => t <| toy_next := a + n |>) |>) ;; mret (st, a)) s;
  free_pool b := mret EFI_SUCCESS;
  get_memory_map buf a := fun s =>
    if decide (ma_size a < 40) then Ret (EFI_BUFFER_TOO_SMALL, MapArgs 40 (ma_key a) 40 1) s
    else Ret (EFI_SUCCESS, MapArgs 40 (Z.of_nat (length (toy_alloc (firmware s)))) 40 1)
           (s <| bytes ::= write_list buf demo_map |>);
  exit_boot_services h key := fun s =>
    if decide (key = Z.of_nat (length (toy_alloc (firmware s)))) then Ret EFI_SUCCESS s else Ret EFI_INVALID_PARAMETER s;
  handle_protocol h g := fun s =>
    if decide (Forall (fun x => is_Some (bytes s !! x)) (seqZ 24 8)) then Ret (EFI_SUCCESS, 0) s
    else Ret (0x800000000000000e, 0) s;
  locate_protocol g := mret (0x800000000000000e, 0);
  open_volume fs := mret (EFI_SUCCESS, 1);
  file_open root path m at_ := fun s =>
    let h := toy_handle (firmware s) in
    if decide (path = kernel_path_text /\ h <> root /\ toy_open (firmware s) !! h = None) then
      Ret (EFI_SUCCESS, h) (s <| firmware ::= (fun t => t <| toy_open ::= <[h := 0%nat]> |> <| toy_handle := h + 1 |>) |>)
    else Ret (0x800000000000000e, 0) s;
  file_close f := modify (fun s => s <| firmware ::= (fun t => t <| toy_open ::= delete f |>) |>) ;; mret EFI_SUCCESS;
  file_read f size buf := fun s =>
    match toy_open (firmware s) !! f with
    | Some p =>
        let n := Z.min size (Z.of_nat (length (drop p demo_kernel))) in
        Ret (EFI_SUCCESS, n) (s <| bytes ::= write_list buf (take (Z.to_nat n) (drop p demo_kernel)) |>
          <| firmware ::= (fun t => t <| toy_open ::= <[f := (p + Z.to_nat n)%nat]> |>) |>)
    | None => Ret (EFI_LOAD_ERROR, 0) s
    end;
  file_get_info f g size buf := fun s =>
    if decide (16 <= size /\ owned_buffer buf size s) then
      Ret (EFI_SUCCESS, 16) (s <| bytes ::= write_list (buf + 8) (le 8 (Z.of_nat (length demo_kernel))) |>)
    else Ret (EFI_BUFFER_TOO_SMALL, 16) s
|}.

Definition toy_volume (t : toy) (path : list Z) : option (list Z) :=
  if decide (path = kernel_path_text) then Some demo_kernel else None.
Definition toy_contents (t : toy) (f : Z) : option (list Z * nat) := (fun p => (demo_kernel, p)) <$> toy_open t !! f.

Lemma write_list_outside a l m x : ~ in_range (a, Z.of_nat (length l)) x -> write_list a l m !! x = m !! x.
Proof.
  revert a. induction l as [|b l IH]; intros a Hx; [done|]. unfold in_range in *. cbn [fst snd length] in *. cbn [write_list].
  rewrite lookup_insert_ne by lia. apply IH. cbn. lia.
Qed.

Lemma write_list_inside a l m i b : l !! i = Some b -> write_list a l m !! (a + Z.of_nat i) = Some b.
Proof.
  revert a i. induction l as [|c l IH]; intros a i Hi; [done|]. destruct i as [|i]; cbn [write_list].
  - injection Hi as ->. rewrite Z.add_0_r. apply lookup_insert_eq.
  - rewrite lookup_insert_ne by lia. replace (a + Z.of_nat (S i)) with (a + 1 + Z.of_nat i) by lia. by apply IH.
Qed.

Lemma toy_keeps_id contents (s : boot toy) : keeps toy_alloc toy_volume contents s s.
Proof. by split_and!. Qed.

Lemma toy_filled (s : boot toy) buf size a l :
  buf <= a -> a + Z.of_nat (length l) <= buf + size ->
  keeps_but toy_alloc toy_volume toy_contents (buf, size) s (s <| bytes ::= write_list a l |>).
Proof.
  intros Ha Hl. split_and!; [|done|done]. intros q Hq. split; [done|]. intros Hap x Hx. cbn. apply write_list_outside.
  intros Hin. apply (Hap x Hx). unfold in_range in *. cbn in *. lia.
Qed.

Lemma grant_run r (s : boot toy) :
  exists st s', grant r s = Ret st s' /\ bytes s' = bytes s /\ keeps toy_alloc toy_volume toy_contents s s' /\
    (st = EFI_SUCCESS -> granted toy_alloc toy_volume toy_contents r s s').
Proof.
  unfold grant. case_decide as Hg; eexists _, _; (split; [reflexivity|]); [|by split_and!].
  assert (K : keeps toy_alloc toy_volume toy_contents s (s <| firmware ::= (fun t => t <| toy_alloc ::= cons r |>) |>)).
  { split_and!; [|done|done]. intros q Hq. split; [by right|done]. }
  split_and!; [done|done|]. intros _. destruct Hg as (H1 & H2 & H3 & Hsep & Hram).
  split_and!; [done|by left|done|done|done| |].
  - intros q Hq x Hx Hr. rewrite Forall_forall in Hsep. specialize (Hsep q Hq). unfold separate, in_range in *. lia.
  - intros x Hx. rewrite Forall_forall in Hram. apply Hram, elem_of_seqZ. exact Hx.
Qed.

#[export] Program Instance toy_spec : EfiSpec toy := {|
  allocated := toy_alloc; volume := toy_volume; contents := toy_contents;
  current_map _ := demo_map; current_key t := Z.of_nat (length (toy_alloc t))
|}.
Next Obligation. done. Qed.
Next Obligation.
  intros t path c. unfold toy_volume. case_decide; [|done]. intros [= <-].
  apply (bool_decide_unpack _). vm_compute. exact Logic.I.
Qed.
Next Obligation.
  intros ty n a s Hn. destruct (grant_run (a, 4096 * n) s) as (st & s' & E & _ & K & G). exists st, a, s'.
  split; [|by split]. cbn [allocate_pages toy_efi]. by rewrite (bind_run _ _ _ _ _ E).
Qed.
Next Obligation.
  intros ty n s Hn. destruct (grant_run (toy_next (firmware s), n) s) as (st & s' & E & _ & K & G). eexists st, _, _.
  split; [cbn [allocate_pool toy_efi]; rewrite (bind_run _ _ _ _ _ E), bind_modify; reflexivity|]. by split.
Qed.
Next Obligation. intros b s. by eexists _, s. Qed.
Next Obligation.
  intros buf a s. split; intros Hl; change (Z.of_nat (length demo_map)) with 40 in Hl; cbn [get_memory_map toy_efi].
  - rewrite decide_True by done. eexists _, s. split; [done|apply toy_keeps_id].
  - intros Hin. rewrite decide_False by lia. eexists _, _. split; [reflexivity|].
    split_and!; [apply toy_filled; [lia|change (Z.of_nat (length demo_map)) with 40; lia]|done..|].
    intros i b Hi. cbn. by apply write_list_inside.
Qed.
Next Obligation.
  intros h key s. cbn [exit_boot_services toy_efi]. case_decide; eexists _, s; (split; [reflexivity|]); (split; [apply toy_keeps_id|]); done.
Qed.
Next Obligation.
  intros h g s. cbn [handle_protocol toy_efi]. case_decide as Hr; eexists _, _, s; (split; [reflexivity|]); (split; [apply toy_keeps_id|]); [|done].
  intros _ _ i Hi. rewrite wrap64_id by (unfold in64; lia). rewrite Forall_forall in Hr. apply Hr, elem_of_seqZ. lia.
Qed.
Next Obligation. intros s. eexists _, _, s. split; [reflexivity|]. split; [apply toy_keeps_id|done]. Qed.
Next Obligation. intros fs s. eexists _, _, s. split; [reflexivity|apply toy_keeps_id]. Qed.
Next Obligation.
  intros root path m at_ s. cbn [file_open toy_efi]. case_decide as Hp; eexists _, _, _; (split; [reflexivity|]); [|split; [apply toy_keeps_id|done]].
  destruct Hp as (-> & Hr & Hn). split.
  - split_and!; [done|done|]. intros f c Hc. unfold toy_contents in *. cbn. destruct (decide (f = toy_handle (firmware s))) as [->|Hf].
    + by rewrite Hn in Hc.
    + by rewrite lookup_insert_ne.
  - intros _. unfold toy_volume, toy_contents. rewrite !decide_True by done. cbn. rewrite lookup_insert_eq. by split_and!; [|eexists|].
Qed.
Next Obligation.
  intros f s. eexists _, _. split; [reflexivity|]. split_and!; [done|done|]. intros g c. unfold other_files, toy_contents. cbn.
  case_decide; [done|]. by rewrite lookup_delete_ne.
Qed.
Next Obligation.
  intros f c p size buf s Hc. apply fmap_Some in Hc as (p' & _ & [= -> ->]).
  cbn [file_get_info toy_efi]. split.
  - intros ->. rewrite decide_False by lia. eexists _, _, s. split; [reflexivity|]. split_and!; [apply toy_keeps_id|done|done].
  - intros Hs Hin. case_decide as Ho.
    + destruct Ho as (_ & _ & Hb & He). eexists _, _, _. split; [reflexivity|].
      split; [apply toy_filled; [lia|change (Z.of_nat (length (le 8 (Z.of_nat (length demo_kernel))))) with 8; lia]|]. intros _.
      rewrite (load_le_run 8 (buf + 8) _ (le 8 (Z.of_nat (length demo_kernel)))); [done|done|lia|lia|].
      intros i b Hi. cbn. by apply write_list_inside.
    + eexists _, _, s. split; [reflexivity|]. split; [|done]. by split_and!.
Qed.
Next Obligation.
  intros f c p size buf s Hc Hsz Hin. apply fmap_Some in Hc as (p' & Hp & [= -> ->]).
  cbn [file_read toy_efi]. rewrite Hp. eexists _, _, _. split; [reflexivity|].
  set (n := Z.min size _). split; [split_and!|].
  - intros q Hq. split; [done|]. intros Hap x Hx. cbn. apply write_list_outside.
    intros Hn. apply (Hap x Hx). unfold in_range in *. cbn in *. rewrite length_take in Hn. lia.
  - done.
  - intros g c. unfold other_files, toy_contents. cbn. case_decide; [done|]. by rewrite lookup_insert_ne.
  - intros _. split_and!; [done| |].
    + intros i b Hi. cbn. by apply write_list_inside.
    + unfold toy_contents. cbn. by rewrite lookup_insert_eq.
Qed.

(** ** Booting *)

(** Six pages of memory, all zero. *)
Definition demo_boot : boot toy := Boot (Toy [] 8192 ∅ 2) (write_list 0 (replicate (Z.to_nat 24576) 0) ∅).

Lemma demo_kernel_bounded : elf_bounded demo_kernel.
Proof.
  split; [by vm_compute|]. assert (Hn : elf_phnum demo_kernel = 1) by by vm_compute. rewrite Hn. intros i Hi _.
  assert (i = 0) as -> by lia. by vm_compute.
Qed.

(** What is left of a run: the entry point and the flags. *)
Definition jump_of (o : outcome (boot toy) (Z + Z * boot_info_t)) : option (Z * Z * Z) :=
  match o with Ret (inr (entry, b)) _ => Some (entry, boot_flags b, memory_map_size b) | _ => None end.

Lemma demo_jumps : jump_of (efi_main 1 demo_boot) = Some (0x4000, 0, 40).
Proof. vm_compute. reflexivity. Qed.

Lemma efi_main_hands_over_witness :
  exists b s', efi_main 1 demo_boot = Ret (inr (0x4000, b)) s' /\ kernel_loaded s' demo_kernel /\
    boot_flags b = 0 /\ holds_at s' (memory_map b) demo_map.
Proof.
  destruct (efi_main_hands_over 1 demo_boot) as (r & s' & E & Hr).
  - intros img Hv _. injection Hv as <-. exact demo_kernel_bounded.
  - pose proof demo_jumps as Hj. rewrite E in Hj. destruct r as [st|[entry b]]; [discriminate Hj|].
    injection Hj as <- _ _. destruct Hr as (img & Hv & _ & _ & Hk & _ & Hfl & Hd & _). injection Hv as <-.
    exists b, s'. split; [exact E|]. split; [exact Hk|]. split; [exact Hfl|exact Hd].
Defined.

(** The same file as the loader has read it. *)
Definition demo_read : boot toy :=
  Boot (Toy [(8192, 124)] 8316 ∅ 3) (write_list 8192 demo_kernel (bytes demo_boot)).

Lemma kernel_image_loads_witness :
  exists st e s', boot_load_kernel_elf 8192 124 demo_read = Ret (st, e) s' /\
    ((st = EFI_SUCCESS /\ e = Some 0x4000 /\ kernel_loaded s' demo_kernel) \/ st <> EFI_SUCCESS).
Proof.
  destruct (kernel_image_loads 8192 demo_kernel demo_read) as (st & e & s' & E & Hs).
  - split; [|exists 124; split; [left|vm_compute; discriminate]]. intros i b Hi. by apply write_list_inside.
  - lia.
  - vm_compute. discriminate.
  - apply (bool_decide_unpack _). vm_compute. exact Logic.I.
  - apply (bool_decide_unpack _). vm_compute. exact Logic.I.
  - exact demo_kernel_bounded.
  - exists st, e, s'. split; [exact E|]. destruct Hs as [(Hst & _ & He & Hk & _)|(Hst & _)].
    + left. split; [exact Hst|]. split; [exact He|exact Hk].
    + right. exact Hst.
Defined.
