(* ===== verification/Switch.v ===== *)
(** * arch/x86/kernel/switch.S and the first stack of a thread

    [arch_context_switch] is modelled instruction by instruction on the registers
    it touches and on the memory that holds kernel stacks.  A stack word is a
    number or a code address, named by the function it points into. *)

From S2P Require Import Prelude.

Inductive stack_word :=
| Word (z : Z)
| Code (symbol : string).

#[export] Instance stack_word_eq_dec : EqDecision stack_word.
Proof. solve_decision. Defined.

(** The callee-saved registers of the System V ABI, the stack pointer, and where
    execution goes on. *)
Record cpu := Cpu {
  rsp : Z;
  rbp : stack_word;
  rbx : stack_word;
  r12 : stack_word;
  r13 : stack_word;
  r14 : stack_word;
  r15 : stack_word;
  rip : stack_word
}.

#[export] Instance eta_cpu : Eta cpu := fun c =>
  Cpu (rsp c) (rbp c) (rbx c) (r12 c) (r13 c) (r14 c) (r15 c) (rip c).

Record machine := Machine {
  regs : cpu;
  stacks : gmap Z stack_word
}.

#[export] Instance eta_machine : Eta machine := fun m => Machine (regs m) (stacks m).

Definition push (w : stack_word) : M machine unit :=
  modify (fun m => m <| regs ::= (fun c => c <| rsp := rsp c - 8 |>) |>
                     <| stacks ::= <[rsp (regs m) - 8 := w]> |>).

Definition pop : M machine stack_word :=
  w ← deref (fun m => stacks m !! rsp (regs m));
  modify (fun m => m <| regs ::= (fun c => c <| rsp := rsp c + 8 |>) |>) ;;
  mret w.

Definition set_reg (f : cpu -> cpu) : M machine unit := modify (fun m => m <| regs ::= f |>).

(** [arch_context_switch(&old, new)]: the caller's [call] has pushed the return
    address.  The result is the value stored to [*old]. *)
Definition arch_context_switch (next_sp : Z) : M machine Z :=
  c ← gets regs; push (rbp c) ;;
  c ← gets regs; push (rbx c) ;;
  c ← gets regs; push (r12 c) ;;
  c ← gets regs; push (r13 c) ;;
  c ← gets regs; push (r14 c) ;;
  c ← gets regs; push (r15 c) ;;
  saved ← gets (fun m => rsp (regs m));
  set_reg (fun c => c <| rsp := next_sp |>) ;;
  w ← pop; set_reg (fun c => c <| r15 := w |>) ;;
  w ← pop; set_reg (fun c => c <| r14 := w |>) ;;
  w ← pop; set_reg (fun c => c <| r13 := w |>) ;;
  w ← pop; set_reg (fun c => c <| r12 := w |>) ;;
  w ← pop; set_reg (fun c => c <| rbx := w |>) ;;
  w ← pop; set_reg (fun c => c <| rbp := w |>) ;;
  w ← pop; set_reg (fun c => c <| rip := w |>) ;;
  mret saved.

(** [call arch_context_switch] from the function [caller]. *)
Definition call_context_switch (caller : string) (next_sp : Z) : M machine Z :=
  push (Code caller) ;; arch_context_switch next_sp.

(** kernel/sched/thread.c *)
Definition prepare_initial_stack (stack_top : Z) : M machine Z :=
  let write (i : Z) (w : stack_word) := modify (fun m => m <| stacks ::= <[stack_top - 8 * i := w]> |>) in
  write 1 (Word 0) ;;
  write 2 (Code "thread_trampoline") ;;
  write 3 (Word 0) ;;
  write 4 (Word 0) ;;
  write 5 (Word 0) ;;
  write 6 (Word 0) ;;
  write 7 (Word 0) ;;
  write 8 (Word 0) ;;
  mret (stack_top - 64).

(** ** Saved contexts *)

(** The seven words above a saved stack pointer, as the switch pops them. *)
Definition saved_context (mem : gmap Z stack_word) (sp : Z) (c : cpu) : Prop :=
  mem !! sp = Some (r15 c) /\ mem !! (sp + 8) = Some (r14 c) /\
  mem !! (sp + 16) = Some (r13 c) /\ mem !! (sp + 24) = Some (r12 c) /\
  mem !! (sp + 32) = Some (rbx c) /\ mem !! (sp + 40) = Some (rbp c) /\
  mem !! (sp + 48) = Some (rip c) /\ rsp c = sp + 56.

(** The words a switch writes: the context of the thread that leaves. *)
Definition frame_of (caller : string) (c : cpu) : cpu :=
  c <| rip := Code caller |>.

Lemma pop_run m w :
  stacks m !! rsp (regs m) = Some w ->
  pop m = Ret w (m <| regs ::= (fun c => c <| rsp := rsp c + 8 |>) |>).
Proof. intros E. unfold pop. by rewrite (bind_deref (fun m => stacks m !! rsp (regs m)) _ m w E). Qed.

(** Taking a saved context off the stack puts all of it into the registers. *)
Lemma restore_run (m : machine) c (saved : Z) :
  saved_context (stacks m) (rsp (regs m)) c ->
  (w ← pop; set_reg (fun c => c <| r15 := w |>) ;;
   w ← pop; set_reg (fun c => c <| r14 := w |>) ;;
   w ← pop; set_reg (fun c => c <| r13 := w |>) ;;
   w ← pop; set_reg (fun c => c <| r12 := w |>) ;;
   w ← pop; set_reg (fun c => c <| rbx := w |>) ;;
   w ← pop; set_reg (fun c => c <| rbp := w |>) ;;
   w ← pop; set_reg (fun c => c <| rip := w |>) ;;
   mret saved) m = Ret saved (m <| regs := c |>).
Proof.
  intros (H1 & H2 & H3 & H4 & H5 & H6 & H7 & H8). unfold set_reg.
  erewrite (bind_run pop) by (apply pop_run; exact H1). mred.
  do 5 (erewrite (bind_run pop) by (apply pop_run; simpl; rewrite <- ?Z.add_assoc; simpl; eassumption); mred).
  erewrite (bind_run pop) by (apply pop_run; simpl; rewrite <- ?Z.add_assoc; simpl; eassumption). mred.
  destruct c. simpl in *. subst. rewrite <- !Z.add_assoc. done.
Qed.

Definition in_frame (sp a : Z) : Prop := sp <= a < sp + 56.

Lemma saved_context_frame mem mem' sp c :
  saved_context mem sp c -> (forall a, in_frame sp a -> mem' !! a = mem !! a) ->
  saved_context mem' sp c.
Proof.
  intros (H1 & H2 & H3 & H4 & H5 & H6 & H7 & H8) Hsame.
  unfold saved_context. by rewrite !Hsame by (unfold in_frame; lia).
Qed.

Lemma call_context_switch_run caller next_sp m cn :
  saved_context (stacks m) next_sp cn ->
  (forall a, in_frame next_sp a -> ~ in_frame (rsp (regs m) - 56) a) ->
  exists mem', call_context_switch caller next_sp m =
      Ret (rsp (regs m) - 56) (Machine cn mem') /\
    saved_context mem' (rsp (regs m) - 56) (frame_of caller (regs m)) /\
    (forall a, ~ in_frame (rsp (regs m) - 56) a -> mem' !! a = stacks m !! a).
Proof.
  intros Hn Hdis. unfold call_context_switch, arch_context_switch, push. mred.
  destruct m as [c mem]. simpl in *. replace (rsp c - 8 - 8 - 8 - 8 - 8 - 8 - 8) with (rsp c - 56) by lia.
  set (mem' := <[rsp c - 56 := _]> _).
  assert (Hmem : saved_context mem' (rsp c - 56) (frame_of caller c) /\
    forall a, ~ in_frame (rsp c - 56) a -> mem' !! a = mem !! a).
  { unfold mem', saved_context, in_frame. simpl. split.
    - split_and!; try lia;
        repeat first [rewrite lookup_insert_ne by lia | apply lookup_insert_eq
                     | (rewrite lookup_insert; rewrite decide_True by lia; reflexivity)].
    - intros a Ha. by rewrite !lookup_insert_ne by lia. }
  destruct Hmem as [Hsave Hsame].
  erewrite (bind_run (set_reg _)) by reflexivity. cbv beta.
  erewrite (restore_run _ cn); [exists mem'; done|]. simpl.
  eapply saved_context_frame; [exact Hn|]. intros a Ha. apply Hsame. by apply Hdis.
Qed.

(** ** Theorems *)

(** C26.  Leaving and coming back: a thread that calls the switch and is later
    switched to again, its seven saved words untouched in between, continues after
    the call with its stack pointer and all callee-saved registers as they were. *)
Theorem context_switch_round_trip caller m sp_b cb caller' m2 sp_a :
  saved_context (stacks m) sp_b cb ->
  (forall a, in_frame sp_b a -> ~ in_frame (rsp (regs m) - 56) a) ->
  sp_a = rsp (regs m) - 56 ->
  exists m1, call_context_switch caller sp_b m = Ret sp_a m1 /\ regs m1 = cb /\
    ((forall a, in_frame sp_a a -> stacks m2 !! a = stacks m1 !! a) ->
     (forall a, in_frame sp_a a -> ~ in_frame (rsp (regs m2) - 56) a) ->
     exists sp_b' mem3, call_context_switch caller' sp_a m2 =
       Ret sp_b' (Machine ((regs m) <| rip := Code caller |>) mem3)).
Proof.
  intros Hb Hdis ->. destruct (call_context_switch_run caller sp_b m cb Hb Hdis) as (mem1 & E1 & Hs1 & _).
  eexists. split; [exact E1|]. split; [done|]. intros Hsame Hdis2. simpl in Hsame.
  destruct (call_context_switch_run caller' (rsp (regs m) - 56) m2 (frame_of caller (regs m)))
    as (mem3 & E3 & _ & _).
  - eapply saved_context_frame; [exact Hs1|done].
  - done.
  - eexists _, mem3. exact E3.
Qed.

(** A new thread's first context: switching to the stack that
    [prepare_initial_stack] built on a 16-byte aligned top enters
    [thread_trampoline] with cleared registers, the stack aligned as at a function's
    entry, and a NULL return address above it. *)
Theorem initial_stack_enters_trampoline stack_top m caller :
  stack_top mod 16 = 0 ->
  (forall a, in_frame (stack_top - 64) a -> ~ in_frame (rsp (regs m) - 56) a) ->
  ~ in_frame (rsp (regs m) - 56) (stack_top - 8) ->
  exists m1 sp m2, prepare_initial_stack stack_top m = Ret sp m1 /\ sp = stack_top - 64 /\
    call_context_switch caller sp m1 = Ret (rsp (regs m) - 56) m2 /\
    regs m2 = Cpu (stack_top - 8) (Word 0) (Word 0) (Word 0) (Word 0) (Word 0) (Word 0)
                  (Code "thread_trampoline") /\
    (rsp (regs m2) + 8) mod 16 = 0 /\ stacks m2 !! rsp (regs m2) = Some (Word 0).
Proof.
  intros Hal Hdis Htop. unfold prepare_initial_stack. mred. simpl.
  match goal with |- context [Ret (stack_top - 64) ?t = _] => set (m1 := t) end.
  destruct (call_context_switch_run caller (stack_top - 64) m1
    (Cpu (stack_top - 8) (Word 0) (Word 0) (Word 0) (Word 0) (Word 0) (Word 0) (Code "thread_trampoline")))
    as (mem & E & _ & Hsame).
  { unfold saved_context, m1. simpl. split_and!; try lia;
      repeat first [rewrite lookup_insert_ne by lia | apply lookup_insert_eq
                   | (rewrite lookup_insert; rewrite decide_True by lia; reflexivity)]. }
  { exact Hdis. }
  exists m1, (stack_top - 64). eexists. split; [done|]. split; [done|].
  split; [exact E|]. simpl. split_and!; [done|div_lia|].
  rewrite Hsame by done. unfold m1. simpl.
  repeat first [rewrite lookup_insert_ne by lia | apply lookup_insert_eq].
Qed.

(** ** Two threads on two stacks *)

Definition demo_cpu : cpu := Cpu 8192 (Word 1) (Word 2) (Word 3) (Word 4) (Word 5) (Word 6) (Code "worker").
Definition demo_machine : machine := Machine demo_cpu ∅.

Lemma initial_stack_enters_trampoline_witness :
  exists m1 sp m2, prepare_initial_stack 16384 demo_machine = Ret sp m1 /\
    call_context_switch "sched_yield" sp m1 = Ret 8136 m2.
Proof.
  destruct (initial_stack_enters_trampoline 16384 demo_machine "sched_yield")
    as (m1 & sp & m2 & E1 & _ & E2 & _).
  - reflexivity.
  - unfold in_frame. simpl. lia.
  - unfold in_frame. simpl. lia.
  - exists m1, sp, m2. exact (conj E1 E2).
Defined.

Definition demo_two : machine :=
  match prepare_initial_stack 16384 demo_machine with Ret _ m => m | _ => demo_machine end.

Lemma context_switch_round_trip_witness :
  exists m1, call_context_switch "sched_yield" 16320 demo_two = Ret 8136 m1 /\
    exists sp mem, call_context_switch "sched_yield" 8136 m1 =
      Ret sp (Machine (demo_cpu <| rip := Code "sched_yield" |>) mem).
Proof.
  set (cb := Cpu 16376 (Word 0) (Word 0) (Word 0) (Word 0) (Word 0) (Word 0) (Code "thread_trampoline")).
  destruct (call_context_switch "sched_yield" 16320 demo_two) as [sp m1| | |] eqn:E; [|vm_compute in E; done..].
  destruct (context_switch_round_trip "sched_yield" demo_two 16320 cb "sched_yield" m1 8136) as (m1' & E1 & Hc & H).
  - vm_compute. repeat split.
  - unfold in_frame. simpl. lia.
  - reflexivity.
  - rewrite E in E1. injection E1 as -> ->. exists m1'. split; [reflexivity|]. apply H.
    + intros a _. reflexivity.
    + rewrite Hc. unfold in_frame. simpl. lia.
Defined.
