(* ===== verification/KState.v ===== *)
(** * The state the scheduler shares, and kernel/locking/spinlock.c

    Threads, wait queues and locks are objects at addresses; the globals of
    kernel/sched/core.c, kernel/time/timer.c and kernel/locking/spinlock.c are
    fields of one record.  Memory comes from an allocator behind [KAlloc], what
    the scheduler relies on is [KAllocSpec]; [KHeap] shows the heap provides it. *)

From S2P Require Import Prelude PhysMem Switch.

(** ** The allocator's interface *)

Class KAlloc (H : Type) := {
  mem_alloc : Z -> M H Z;
  mem_free : Z -> M H unit
}.

(** [live] maps the payloads handed out to their sizes; [room] is how many more
    bytes of address space the allocator may take; all payloads lie between
    [mem_lo] and [mem_hi]. *)
Class KAllocSpec (H : Type) `{KAlloc H} := {
  mem_ok : gmap Z Z -> H -> Prop;
  mem_room : H -> Z;
  mem_alloc_law : forall live h n, mem_ok live h -> 0 < n -> n + 4200 <= mem_room h ->
    exists p h', mem_alloc n h = Ret p h' /\ mem_room h - (n + 4200) <= mem_room h' /\
      ((p = 0 /\ mem_ok live h') \/
       (0 < p /\ p + n < 18446744073709551616 /\ p mod 16 = 0 /\ live !! p = None /\
        exists m, n <= m /\ mem_ok (<[p := m]> live) h'));
  mem_free_law : forall live h p m, mem_ok (<[p := m]> live) h -> live !! p = None ->
    exists h', mem_free p h = Ret tt h' /\ mem_room h' = mem_room h /\ mem_ok live h';
  mem_disjoint_law : forall live h p m q n, mem_ok live h ->
    live !! p = Some m -> live !! q = Some n -> p <> q -> p + m <= q \/ q + n <= p;
  mem_lo : Z;
  mem_hi : Z;
  mem_range_law : forall live h p m, mem_ok live h -> live !! p = Some m -> mem_lo <= p /\ p + m <= mem_hi
}.

(** ** Threads and wait queues *)

Inductive thread_state :=
| THREAD_READY
| THREAD_RUNNING
| THREAD_SLEEPING
| THREAD_WAITING
| THREAD_ZOMBIE
| THREAD_DEAD.

#[export] Instance thread_state_eq_dec : EqDecision thread_state.
Proof. solve_decision. Defined.

Record thread := Thread {
  id : Z;
  state : thread_state;
  stack_pointer : Z;
  entry : Z;
  arg : Z;
  stack_base : Z;
  stack_top : Z;
  stack_size : Z;
  wake_tick : Z;
  next : Z;
  wait_next : Z;
  wait_queue : Z;
  name : string
}.

#[export] Instance eta_thread : Eta thread := fun t =>
  Thread (id t) (state t) (stack_pointer t) (entry t) (arg t) (stack_base t) (stack_top t)
    (stack_size t) (wake_tick t) (next t) (wait_next t) (wait_queue t) (name t).

(** Its lock is the lock of [QueueLock] at its address. *)
Record wait_queue_t := WaitQueue { head : Z; tail : Z }.

#[export] Instance eta_wait_queue : Eta wait_queue_t := fun q => WaitQueue (head q) (tail q).

(** The spinlocks of the kernel: the scheduler's, the one in each wait queue, and
    those of other static objects. *)
Inductive lock_ref :=
| SchedulerLock
| QueueLock (queue : Z)
| StaticLock (symbol : string).

#[export] Instance lock_ref_eq_dec : EqDecision lock_ref.
Proof. solve_decision. Defined.

#[export] Instance lock_ref_countable : Countable lock_ref.
Proof.
  refine (inj_countable'
    (fun l => match l with
      | SchedulerLock => inl tt | QueueLock q => inr (inl q) | StaticLock s => inr (inr s) end)
    (fun x : unit + (Z + string) => match x with
      | inl _ => SchedulerLock | inr (inl q) => QueueLock q | inr (inr s) => StaticLock s end) _).
  by intros [].
Defined.

Section kernel.
Context {H : Type}.

Record kernel := Kernel {
  kheap : H;
  mach : machine;
  threads : gmap Z thread;
  queues : gmap Z wait_queue_t;
  locks : gmap lock_ref Z;
  rflags : Z;
  spinlock_depth : Z;
  run_queue_head : Z;
  run_queue_tail : Z;
  current_thread : Z;
  boot_stack_pointer : Z;
  next_thread_id : Z;
  scheduler_ready : bool;
  schedule_locked : bool;
  need_resched : bool;
  irq_depth : Z;
  idle_thread : Z;
  tick_count : Z
}.

#[export] Instance eta_kernel : Eta kernel := fun k =>
  Kernel (kheap k) (mach k) (threads k) (queues k) (locks k) (rflags k) (spinlock_depth k)
    (run_queue_head k) (run_queue_tail k) (current_thread k) (boot_stack_pointer k)
    (next_thread_id k) (scheduler_ready k) (schedule_locked k) (need_resched k) (irq_depth k)
    (idle_thread k) (tick_count k).

Definition on_heap {A} (m : M H A) : M kernel A := zoom kheap (fun h k => k <| kheap := h |>) m.
Definition on_machine {A} (m : M machine A) : M kernel A := zoom mach (fun h k => k <| mach := h |>) m.

Definition thread_at (t : Z) : M kernel thread := deref (fun k => threads k !! t).
Definition set_thread (t : Z) (f : thread -> thread) : M kernel unit :=
  x ← thread_at t; modify (fun k => k <| threads ::= <[t := f x]> |>).

Definition queue_at (q : Z) : M kernel wait_queue_t := deref (fun k => queues k !! q).
Definition set_queue (q : Z) (f : wait_queue_t -> wait_queue_t) : M kernel unit :=
  x ← queue_at q; modify (fun k => k <| queues ::= <[q := f x]> |>).

(** ** arch/x86/kernel/irq.c: the interrupt flag, bit 9 of RFLAGS *)

Definition RFLAGS_IF : Z := Z.shiftl 1 9.

Definition arch_irq_save : M kernel Z :=
  flags ← gets rflags;
  modify (fun k => k <| rflags ::= (fun f => Z.ldiff f RFLAGS_IF) |>) ;;
  mret flags.

Definition arch_irq_restore (flags : Z) : M kernel unit :=
  when (negb (bool_decide (Z.land flags RFLAGS_IF = 0)))
    (modify (fun k => k <| rflags ::= (fun f => Z.lor f RFLAGS_IF) |>)).

(** ** kernel/locking/spinlock.c *)

Definition spinlock_held_count : M kernel Z := gets spinlock_depth.

(** [lock = None] and [flags = false] stand for NULL pointers.  The result is what
    is stored to [*flags]. *)
Definition spin_lock_irqsave (lock : option lock_ref) (flags : bool) : M kernel Z :=
  match lock, flags with
  | Some l, true =>
      saved_flags ← arch_irq_save;
      locked ← deref (fun k => locks k !! l);
      if negb (bool_decide (locked = 0)) then panic "spinlock recursion or contention"
      else
        modify (fun k => k <| locks ::= <[l := 1]> |>) ;;
        modify (fun k => k <| spinlock_depth ::= Z.add 1 |>) ;;
        mret saved_flags
  | _, _ => panic "invalid spinlock acquire"
  end.

Definition spin_unlock_irqrestore (lock : option lock_ref) (flags : Z) : M kernel unit :=
  match lock with
  | Some l =>
      locked ← deref (fun k => locks k !! l);
      if bool_decide (locked = 0) then panic "invalid spinlock release"
      else
        depth ← gets spinlock_depth;
        if bool_decide (depth <= 0) then panic "spinlock depth underflow"
        else
          modify (fun k => k <| spinlock_depth ::= (fun d => d - 1) |>) ;;
          modify (fun k => k <| locks ::= <[l := 0]> |>) ;;
          arch_irq_restore flags
  | None => panic "invalid spinlock release"
  end.

(** ** Critical sections *)

Definition irqs_on (k : kernel) : bool := negb (bool_decide (Z.land (rflags k) RFLAGS_IF = 0)).

(** The state inside a critical section entered from [k]. *)
Definition enter (l : lock_ref) (k : kernel) : kernel :=
  k <| rflags ::= (fun f => Z.ldiff f RFLAGS_IF) |> <| locks ::= <[l := 1]> |>
    <| spinlock_depth ::= Z.add 1 |>.

(** The state after leaving one, where [flags] were saved on entry. *)
Definition leave (l : lock_ref) (flags : Z) (k : kernel) : kernel :=
  let k := k <| spinlock_depth ::= (fun d => d - 1) |> <| locks ::= <[l := 0]> |> in
  if negb (bool_decide (Z.land flags RFLAGS_IF = 0))
  then k <| rflags ::= (fun f => Z.lor f RFLAGS_IF) |> else k.

Lemma spin_lock_run k l :
  locks k !! l = Some 0 -> spin_lock_irqsave (Some l) true k = Ret (rflags k) (enter l k).
Proof.
  intros Hl. unfold spin_lock_irqsave, arch_irq_save. mred.
  erewrite bind_deref by exact Hl. by mred.
Qed.

Lemma spin_lock_contended k l n :
  locks k !! l = Some n -> n <> 0 ->
  exists k', spin_lock_irqsave (Some l) true k = Panicked "spinlock recursion or contention" k'.
Proof.
  intros Hl Hn. unfold spin_lock_irqsave, arch_irq_save. mred.
  erewrite bind_deref by exact Hl. rewrite bool_decide_eq_false_2 by done. by eexists.
Qed.

Lemma spin_unlock_run k l n flags :
  locks k !! l = Some n -> n <> 0 -> 0 < spinlock_depth k ->
  spin_unlock_irqrestore (Some l) flags k = Ret tt (leave l flags k).
Proof.
  intros Hl Hn Hd. unfold spin_unlock_irqrestore. erewrite bind_deref by exact Hl.
  rewrite bool_decide_eq_false_2 by done. mred. rewrite bool_decide_eq_false_2 by lia. mred.
  unfold arch_irq_restore, leave. by destruct (negb _).
Qed.

Lemma restore_flags f :
  (if negb (bool_decide (Z.land f RFLAGS_IF = 0)) then Z.lor (Z.ldiff f RFLAGS_IF) RFLAGS_IF
   else Z.ldiff f RFLAGS_IF) = f.
Proof.
  assert (Hbits : forall n, 0 <= n -> Z.testbit RFLAGS_IF n = Z.eqb n 9).
  { intros n Hn. unfold RFLAGS_IF. rewrite Z.shiftl_1_l, Z.pow2_bits_eqb by lia. apply Z.eqb_sym. }
  apply Z.bits_inj'. intros n Hn. case_bool_decide as E; cbn [negb].
  - rewrite Z.ldiff_spec, Hbits by done. destruct (Z.eqb_spec n 9) as [->|]; simpl; [|apply andb_true_r].
    apply (f_equal (fun z => Z.testbit z 9)) in E. rewrite Z.land_spec, Hbits, Z.bits_0 in E by done.
    simpl in E. rewrite andb_true_r in E. by rewrite E.
  - rewrite Z.lor_spec, Z.ldiff_spec, Hbits by done. destruct (Z.eqb_spec n 9) as [->|]; simpl.
    + rewrite orb_true_r. destruct (Z.testbit f 9) eqn:Et; [done|]. destruct E. apply Z.bits_inj'.
      intros m Hm. rewrite Z.land_spec, Hbits, Z.bits_0 by done.
      destruct (Z.eqb_spec m 9) as [->|]; cbn [andb]; [by rewrite Et|apply andb_false_r].
    + by rewrite andb_true_r, orb_false_r.
Qed.

(** What a critical section leaves behind: the lock, the depth and the flags are as
    before it, whatever else its body changed. *)
Lemma leave_enter l k k' :
  locks k !! l = Some 0 ->
  locks k' = <[l := 1]> (locks k) -> spinlock_depth k' = 1 + spinlock_depth k ->
  rflags k' = Z.ldiff (rflags k) RFLAGS_IF ->
  leave l (rflags k) k' =
  k' <| locks := locks k |> <| spinlock_depth := spinlock_depth k |> <| rflags := rflags k |>.
Proof.
  intros Hl E1 E2 E3. pose proof (restore_flags (rflags k)) as Hf. unfold leave.
  assert (El : <[l := 0]> (locks k') = locks k) by (rewrite E1, insert_insert_eq; by apply insert_id).
  assert (Ed : spinlock_depth k' - 1 = spinlock_depth k) by lia. simpl. rewrite El, Ed.
  revert Hf. destruct (negb _); intros Hf; simpl; rewrite E3, Hf; done.
Qed.

Lemma flags_off f : Z.land (Z.ldiff f RFLAGS_IF) RFLAGS_IF = 0.
Proof. apply Z.bits_inj'. intros n Hn. rewrite Z.land_spec, Z.ldiff_spec, Z.bits_0. by destruct (Z.testbit f n), (Z.testbit RFLAGS_IF n). Qed.

(** C27.  A critical section: taking a free lock turns interrupts off and counts it;
    taking the same lock again inside panics; releasing it puts lock, count and
    interrupt flag back to what they were before, whatever else the section changed,
    and releasing it once more panics. *)
Theorem spinlock_section k l :
  locks k !! l = Some 0 -> 0 <= spinlock_depth k ->
  exists flags k1, spin_lock_irqsave (Some l) true k = Ret flags k1 /\
    irqs_on k1 = false /\ spinlock_depth k1 = spinlock_depth k + 1 /\
    (exists k', spin_lock_irqsave (Some l) true k1 = Panicked "spinlock recursion or contention" k') /\
    forall k2, locks k2 = locks k1 -> spinlock_depth k2 = spinlock_depth k1 -> rflags k2 = rflags k1 ->
      exists k3, spin_unlock_irqrestore (Some l) flags k2 = Ret tt k3 /\
        k3 = k2 <| locks := locks k |> <| spinlock_depth := spinlock_depth k |> <| rflags := rflags k |> /\
        exists k', spin_unlock_irqrestore (Some l) flags k3 = Panicked "invalid spinlock release" k'.
Proof.
  intros Hl Hd. exists (rflags k), (enter l k). split; [by apply spin_lock_run|]. split_and!.
  - unfold irqs_on, enter. simpl. by rewrite flags_off.
  - simpl. lia.
  - apply (spin_lock_contended _ l 1); [apply lookup_insert_eq|done].
  - intros k2 E1 E2 E3. exists (leave l (rflags k) k2). split_and!.
    + apply (spin_unlock_run k2 l 1); [rewrite E1; apply lookup_insert_eq|done|rewrite E2; simpl; lia].
    + by apply leave_enter.
    + rewrite (leave_enter l k k2) by done. eexists. unfold spin_unlock_irqrestore.
      erewrite bind_deref by exact Hl. done.
Qed.
End kernel.
Arguments kernel H : clear implicits.
