(* ===== verification/Sched.v ===== *)
(** * kernel/sched/core.c and kernel/sched/thread.c: threads and the scheduler

    The run queue holds every thread from creation to reaping, in creation order;
    [sched_yield] looks round it from the current thread on.  [schedule] is
    [sched_yield] up to and including the context switch: the state after it is
    the one the next thread goes on with. *)

From S2P Require Import Prelude LinkedList PhysMem Switch KState.

Section sched.
Context {H : Type} `{KAlloc H}.
Abbreviation K := (M (kernel H)).

(** ** kernel/sched/sched.h *)

Definition sched_assert_can_switch : K unit :=
  sl ← gets schedule_locked;
  if sl : bool then panic "scheduler reentry while switch locked"
  else
    n ← spinlock_held_count;
    if negb (bool_decide (n = 0)) then panic "scheduler called while spinlock held"
    else
      d ← gets irq_depth;
      if negb (bool_decide (d = 0)) then panic "scheduler called from irq context" else mret tt.

(** [thread != 0 && thread->state == s], for a [thread] that may be NULL. *)
Definition thread_is (s : thread_state) (t : Z) : K bool :=
  if bool_decide (t = 0) then mret false
  else x ← thread_at t; mret (bool_decide (state x = s)).

Definition thread_is_ready : Z -> K bool := thread_is THREAD_READY.
Definition thread_is_running : Z -> K bool := thread_is THREAD_RUNNING.
Definition thread_is_sleeping : Z -> K bool := thread_is THREAD_SLEEPING.
Definition thread_is_waiting : Z -> K bool := thread_is THREAD_WAITING.
Definition thread_is_zombie : Z -> K bool := thread_is THREAD_ZOMBIE.
Definition thread_is_dead : Z -> K bool := thread_is THREAD_DEAD.

Definition thread_state_transition_is_valid (from to : thread_state) : bool :=
  if bool_decide (from = to) then true
  else
    match from with
    | THREAD_READY => bool_decide (to = THREAD_RUNNING)
    | THREAD_RUNNING =>
        bool_decide (to = THREAD_READY) || bool_decide (to = THREAD_SLEEPING)
        || bool_decide (to = THREAD_WAITING) || bool_decide (to = THREAD_ZOMBIE)
    | THREAD_SLEEPING | THREAD_WAITING =>
        bool_decide (to = THREAD_READY) || bool_decide (to = THREAD_ZOMBIE)
    | THREAD_ZOMBIE => bool_decide (to = THREAD_DEAD)
    | THREAD_DEAD => false
    end.

Definition thread_validate_state_transition (t : Z) (s : thread_state) : K unit :=
  if bool_decide (t = 0) then panic "null thread state transition"
  else
    x ← thread_at t;
    if negb (thread_state_transition_is_valid (state x) s)
    then panic "invalid thread state transition" else mret tt.

Definition thread_set_state (t : Z) (s : thread_state) : K unit :=
  thread_validate_state_transition t s ;; set_thread t (fun x => x <| state := s |>).

Definition thread_init_ready (t : Z) : K unit :=
  set_thread t (fun x => x <| wake_tick := 0 |>) ;;
  set_thread t (fun x => x <| state := THREAD_READY |>).

Definition thread_set_ready (t : Z) : K unit :=
  thread_set_state t THREAD_READY ;; set_thread t (fun x => x <| wake_tick := 0 |>).

Definition thread_set_running (t : Z) : K unit := thread_set_state t THREAD_RUNNING.

Definition thread_set_sleeping (t wake : Z) : K unit :=
  thread_validate_state_transition t THREAD_SLEEPING ;;
  set_thread t (fun x => x <| wake_tick := wake |>) ;;
  set_thread t (fun x => x <| state := THREAD_SLEEPING |>).

Definition thread_set_waiting (t : Z) : K unit :=
  thread_set_state t THREAD_WAITING ;; set_thread t (fun x => x <| wake_tick := 0 |>).

Definition thread_set_zombie (t : Z) : K unit :=
  thread_set_state t THREAD_ZOMBIE ;; set_thread t (fun x => x <| wake_tick := 0 |>).

Definition thread_set_dead (t : Z) : K unit :=
  thread_set_state t THREAD_DEAD ;; set_thread t (fun x => x <| wake_tick := 0 |>).

(** ** kernel/sched/thread.c *)

Definition KERNEL_STACK_SIZE : Z := PAGE_SIZE * 4.
Definition STACK_ALIGNMENT : Z := 16.
Definition sizeof_thread : Z := 128.

Definition align_down_uintptr (value alignment : Z) : Z :=
  Z.land value (not64 (wrap64 (alignment - 1))).

(** The string in [dest] afterwards; [src = None] is a NULL name. *)
Fixpoint copy_chars (room : nat) (src : string) : string :=
  match room, src with
  | S (S room'), String c src' => String c (copy_chars (S room') src')
  | _, _ => EmptyString
  end.

Definition copy_thread_name (dest_size : nat) (src : option string) : string :=
  copy_chars dest_size (default "thread"%string src).

Definition enqueue_thread (t : Z) : K unit :=
  set_thread t (fun x => x <| next := 0 |>) ;;
  tl ← gets run_queue_tail;
  (if negb (bool_decide (tl = 0)) then set_thread tl (fun x => x <| next := t |>)
   else modify (fun k => k <| run_queue_head := t |>)) ;;
  modify (fun k => k <| run_queue_tail := t |>).

(** A fresh thread object: what [kmalloc] returns is not initialised; the fields
    are all assigned below before they are read. *)
Definition raw_thread : thread := Thread 0 THREAD_DEAD 0 0 0 0 0 0 0 0 0 0 "".

Definition kernel_thread_create (nm : option string) (ent a : Z) : K Z :=
  if bool_decide (ent = 0) then mret 0
  else
    t ← on_heap (mem_alloc sizeof_thread);
    if bool_decide (t = 0) then mret 0
    else
      base ← on_heap (mem_alloc KERNEL_STACK_SIZE);
      if bool_decide (base = 0) then on_heap (mem_free t) ;; mret 0
      else
        modify (fun k => k <| threads ::= <[t := raw_thread <| stack_base := base |>]> |>) ;;
        let top := wrap64 (base + KERNEL_STACK_SIZE) in
        thread_init_ready t ;;
        set_thread t (fun x => x <| entry := ent |>) ;;
        set_thread t (fun x => x <| arg := a |>) ;;
        set_thread t (fun x => x <| stack_top := align_down_uintptr top STACK_ALIGNMENT |>) ;;
        sp ← on_machine (prepare_initial_stack (align_down_uintptr top STACK_ALIGNMENT));
        set_thread t (fun x => x <| stack_pointer := sp |>) ;;
        set_thread t (fun x => x <| stack_size := KERNEL_STACK_SIZE |>) ;;
        set_thread t (fun x => x <| wake_tick := 0 |>) ;;
        set_thread t (fun x => x <| next := 0 |>) ;;
        set_thread t (fun x => x <| wait_next := 0 |>) ;;
        set_thread t (fun x => x <| wait_queue := 0 |>) ;;
        set_thread t (fun x => x <| name := copy_thread_name 32 nm |>) ;;
        flags ← spin_lock_irqsave (Some SchedulerLock) true;
        tid ← gets next_thread_id;
        modify (fun k => k <| next_thread_id := wrap64 (tid + 1) |>) ;;
        set_thread t (fun x => x <| id := tid |>) ;;
        enqueue_thread t ;;
        spin_unlock_irqrestore (Some SchedulerLock) flags ;;
        mret t.

(** [kfree(thread)] ends the object: no later access to it is defined. *)
Definition release_thread (t : Z) : K unit :=
  cur ← gets current_thread;
  if bool_decide (t = 0) || bool_decide (t = cur) then panic "invalid thread release target"
  else
    dead ← thread_is_dead t;
    if negb dead then panic "reaping thread before DEAD state"
    else
      x ← thread_at t;
      if negb (bool_decide (wait_queue x = 0)) || negb (bool_decide (wait_next x = 0))
      then panic "reaping thread still on wait queue"
      else if negb (bool_decide (wake_tick x = 0)) then panic "reaping thread still has wake deadline"
      else if bool_decide (stack_base x = 0) || bool_decide (stack_size x = 0)
      then panic "reaping thread without kernel stack"
      else
        on_heap (mem_free (stack_base x)) ;;
        on_heap (mem_free t) ;;
        modify (fun k => k <| threads ::= delete t |>).

(** The walk of [sched_reap_dead_threads]: the loop variables are [prev], [thread]
    and [reap_list]. *)
Definition reap_loop (v : Z * Z * Z) : K (Z * Z * Z + Z) :=
  let '(prv, t, reap) := v in
  if bool_decide (t = 0) then mret (inr reap)
  else
    x ← thread_at t;
    zombie ← thread_is_zombie t;
    cur ← gets current_thread;
    if (zombie : bool) && negb (bool_decide (t = cur)) then
      thread_set_dead t ;;
      (if negb (bool_decide (prv = 0)) then set_thread prv (fun y => y <| next := next x |>)
       else modify (fun k => k <| run_queue_head := next x |>)) ;;
      tl ← gets run_queue_tail;
      when (bool_decide (tl = t)) (modify (fun k => k <| run_queue_tail := prv |>)) ;;
      set_thread t (fun y => y <| next := reap |>) ;;
      mret (inl (prv, next x, t))
    else mret (inl (t, next x, reap)).

Definition release_loop (reap : Z) : K (Z + unit) :=
  if bool_decide (reap = 0) then mret (inr tt)
  else
    x ← thread_at reap;
    set_thread reap (fun y => y <| next := 0 |>) ;;
    release_thread reap ;;
    mret (inl (next x)).

(** Both walks pass over each thread once at most: the number of thread objects
    bounds their rounds. *)
Definition thread_fuel : K nat := gets (fun k => S (size (threads k))).

Definition sched_reap_dead_threads : K unit :=
  t ← gets run_queue_head;
  fuel ← thread_fuel;
  flags ← spin_lock_irqsave (Some SchedulerLock) true;
  reap ← loop fuel reap_loop (0, t, 0);
  spin_unlock_irqrestore (Some SchedulerLock) flags ;;
  loop fuel release_loop reap.

(** ** kernel/sched/core.c *)

(** [while (thread != stop)]: the first ready thread that is not the idle one. *)
Definition find_ready_loop (stop : Z) (t : Z) : K (Z + option Z) :=
  if bool_decide (t = stop) then mret (inr None)
  else
    ready ← thread_is_ready t;
    idle ← gets idle_thread;
    if (ready : bool) && negb (bool_decide (t = idle)) then mret (inr (Some t))
    else x ← thread_at t; mret (inl (next x)).

Definition next_runnable_thread : K Z :=
  cur ← gets current_thread;
  hd ← gets run_queue_head;
  start ← (if bool_decide (cur = 0) then mret hd
           else x ← thread_at cur; mret (if bool_decide (next x = 0) then hd else next x));
  fuel ← thread_fuel;
  first ← loop fuel (find_ready_loop 0) start;
  match first with
  | Some t => mret t
  | None =>
      second ← loop fuel (find_ready_loop start) hd;
      match second with
      | Some t => mret t
      | None =>
          idle ← gets idle_thread;
          ready ← thread_is_ready idle;
          mret (if ready : bool then idle else 0)
      end
  end.

Definition wake_loop (tick : Z) (t : Z) : K (Z + unit) :=
  if bool_decide (t = 0) then mret (inr tt)
  else
    sleeping ← thread_is_sleeping t;
    x ← thread_at t;
    when ((sleeping : bool) && bool_decide (wake_tick x <= tick)) (thread_set_ready t) ;;
    x ← thread_at t;
    mret (inl (next x)).

Definition wake_sleeping_threads (tick : Z) : K unit :=
  hd ← gets run_queue_head;
  fuel ← thread_fuel;
  loop fuel (wake_loop tick) hd.

(** [sched_yield] up to the switch; the result says which switch took place. *)
Definition schedule : K (option (Z * Z)) :=
  sched_assert_can_switch ;;
  sched_reap_dead_threads ;;
  prv ← gets current_thread;
  nxt ← next_runnable_thread;
  if bool_decide (nxt = 0) || bool_decide (nxt = prv) then mret None
  else
    modify (fun k => k <| schedule_locked := true |>) ;;
    running ← thread_is_running prv;
    when running (thread_set_ready prv) ;;
    thread_set_running nxt ;;
    modify (fun k => k <| current_thread := nxt |>) ;;
    modify (fun k => k <| schedule_locked := false |>) ;;
    x ← thread_at nxt;
    saved ← on_machine (call_context_switch "sched_yield" (stack_pointer x));
    (if bool_decide (prv = 0) then modify (fun k => k <| boot_stack_pointer := saved |>)
     else set_thread prv (fun y => y <| stack_pointer := saved |>)) ;;
    mret (Some (prv, nxt)).

(** [sched_yield] as its caller sees it: when there was a switch, the call comes
    back after everything [others] did: the other threads and the interrupts that
    ran until this thread was switched to again. *)
Definition sched_yield (others : K unit) : K unit :=
  r ← schedule; match r with Some _ => others | None => mret tt end.

Definition sched_tick (tick : Z) : K unit :=
  wake_sleeping_threads tick ;;
  cur ← gets current_thread;
  running ← thread_is_running cur;
  when running (modify (fun k => k <| need_resched := true |>)).

Definition sched_irq_enter : K unit := modify (fun k => k <| irq_depth ::= Z.add 1 |>).

Definition sched_irq_exit (others : K unit) : K unit :=
  d ← gets irq_depth;
  if bool_decide (d <= 0) then panic "scheduler irq exit without irq entry"
  else
    modify (fun k => k <| irq_depth ::= (fun d => d - 1) |>) ;;
    d ← gets irq_depth;
    if negb (bool_decide (d = 0)) then mret tt
    else
      nr ← gets need_resched;
      cur ← gets current_thread;
      sl ← gets schedule_locked;
      if negb nr || bool_decide (cur = 0) || (sl : bool) then mret tt
      else
        modify (fun k => k <| need_resched := false |>) ;;
        sched_yield others.

(** kernel/time/timer.c *)
Definition timer_tick : K unit :=
  modify (fun k => k <| tick_count ::= (fun t => wrap64 (t + 1)) |>) ;;
  t ← gets tick_count;
  sched_tick t.

Definition timer_ticks : K Z := gets tick_count.

Definition sched_sleep (others : K unit) (ticks : Z) : K unit :=
  cur ← gets current_thread;
  if bool_decide (cur = 0) || bool_decide (ticks = 0) then mret tt
  else
    sched_assert_can_switch ;;
    now ← timer_ticks;
    thread_set_sleeping cur (wrap64 (now + ticks)) ;;
    sched_yield others.

(** [sched_thread_exit] up to its loop of yields, from which it never returns. *)
Definition sched_thread_exit_mark : K unit :=
  cur ← gets current_thread;
  if bool_decide (cur = 0) then panic "thread exit without current thread"
  else
    z ← thread_is_zombie cur;
    d ← thread_is_dead cur;
    if (z : bool) || (d : bool) then panic "thread exit entered twice"
    else thread_set_zombie cur.

(** kernel/sched/idle.c *)
Definition sched_idle_create (idle_thread_entry : Z) : K Z :=
  t ← kernel_thread_create (Some "idle"%string) idle_thread_entry 0;
  modify (fun k => k <| idle_thread := t |>) ;;
  mret (if bool_decide (t = 0) then - ENOMEM else 0).
End sched.
