(* ===== verification/SchedCore.v ===== *)
(** * Who runs next, and who wakes up

    The walks of kernel/sched/core.c over the run queue, against their meaning on
    the list of threads: round robin from the current thread, and the sleepers
    whose deadline has passed. *)

From S2P Require Import Prelude LinkedList PhysMem Switch KState Sched.

Section core.
Context {H : Type} `{KAlloc H}.
Implicit Types (k : kernel H) (rq l pre post : list Z).

Definition tnext k (t : Z) : option Z := next <$> threads k !! t.

(** The run queue is the list [rq]. *)
Definition run_queue k rq : Prop := queue_rep (tnext k) (run_queue_head k) (run_queue_tail k) rq.

Lemma run_queue_thread k rq t : run_queue k rq -> t ∈ rq -> exists x, threads k !! t = Some x.
Proof.
  intros [Hl _] Ht. destruct (lseg_next_is_Some _ _ _ _ _ Hl Ht) as [n Hn].
  unfold tnext in Hn. apply fmap_Some in Hn as (x & Hx & _). by exists x.
Qed.

Lemma run_queue_nonzero k rq t : run_queue k rq -> t ∈ rq -> t <> 0.
Proof. intros [Hl _] Ht. by eapply lseg_nonzero. Qed.

(** A run queue has no more members than there are threads. *)
Lemma NoDup_size (m : gmap Z thread) l :
  NoDup l -> (forall t, t ∈ l -> is_Some (m !! t)) -> (length l <= size m)%nat.
Proof.
  intros Hnd Hin. rewrite <- size_dom. rewrite <- (size_list_to_set (C := gset Z) l Hnd).
  apply subseteq_size. intros t Ht%elem_of_list_to_set. by apply elem_of_dom, Hin.
Qed.

Lemma run_queue_length k rq : run_queue k rq -> (length rq < S (size (threads k)))%nat.
Proof.
  intros Hq. apply Nat.lt_succ_r, NoDup_size; [by eapply queue_rep_NoDup|].
  intros t Ht. destruct (run_queue_thread _ _ _ Hq Ht) as [x Hx]. by exists x.
Qed.

(** ** Round robin *)

Definition is_in (s : thread_state) k (t : Z) : bool :=
  match threads k !! t with Some x => bool_decide (state x = s) | None => false end.

Definition eligible k (t : Z) : bool := is_in THREAD_READY k t && negb (bool_decide (t = idle_thread k)).

(** The search order from [cur]: the threads after it, then from the head round to
    [cur] itself. *)
Inductive search_order rq (cur : Z) : list Z -> Prop :=
| OrderBoot : cur = 0 -> search_order rq cur rq
| OrderFrom pre post : rq = pre ++ cur :: post -> cur <> 0 -> search_order rq cur (post ++ pre ++ [cur]).

(** The choice: the first eligible thread in the search order, else the idle thread
    if it is ready, else none. *)
Definition pick k (order : list Z) : Z :=
  match List.find (eligible k) order with
  | Some t => t
  | None => if is_in THREAD_READY k (idle_thread k) then idle_thread k else 0
  end.

Lemma thread_at_run k t x : threads k !! t = Some x -> thread_at t k = Ret x k.
Proof. intros E. unfold thread_at, deref. by rewrite E. Qed.

Lemma set_thread_run k t f x :
  threads k !! t = Some x -> set_thread t f k = Ret tt (k <| threads ::= <[t := f x]> |>).
Proof. intros E. unfold set_thread. mrun (thread_at_run _ _ _ E). done. Qed.

Lemma thread_is_run s k t x :
  t <> 0 -> threads k !! t = Some x -> thread_is s t k = Ret (is_in s k t) k.
Proof.
  intros Ht E. unfold thread_is. rewrite bool_decide_eq_false_2 by done.
  mrun (thread_at_run _ _ _ E). unfold is_in. by rewrite E.
Qed.

Lemma find_ready_step k stop t x :
  t <> 0 -> t <> stop -> threads k !! t = Some x ->
  find_ready_loop stop t k = Ret (if eligible k t then inr (Some t) else inl (next x)) k.
Proof.
  intros Ht Hs E. unfold find_ready_loop. rewrite bool_decide_eq_false_2 by done.
  erewrite bind_run by by apply (thread_is_run THREAD_READY k t x). mred. unfold eligible.
  destruct (is_in _ _ _ && _); [done|]. by mrun (thread_at_run _ _ _ E).
Qed.

Lemma find_ready_run k stop l : forall fuel p,
  lseg (tnext k) p l stop -> stop ∉ l -> (length l < fuel)%nat ->
  loop fuel (find_ready_loop stop) p k = Ret (List.find (eligible k) l) k.
Proof.
  induction l as [|t l IH]; intros fuel p Hl Hs Hf; (destruct fuel as [|fuel]; [simpl in Hf; lia|]);
    rewrite loop_S.
  - simpl in Hl. subst p.
    assert (E : find_ready_loop stop stop k = Ret (inr None) k).
    { unfold find_ready_loop. by rewrite bool_decide_eq_true_2. }
    by mrun E.
  - destruct Hl as (-> & Ht & n & Hn & Hl). unfold tnext in Hn.
    apply fmap_Some in Hn as (x & Hx & ->). apply not_elem_of_cons in Hs as [Hs Hs'].
    erewrite bind_run by by apply find_ready_step. simpl. destruct (eligible k t); [done|].
    apply IH; [done|done|simpl in Hf; lia].
Qed.

Lemma find_app (f : Z -> bool) l1 l2 :
  List.find f (l1 ++ l2) = match List.find f l1 with Some x => Some x | None => List.find f l2 end.
Proof. induction l1 as [|x l1 IH]; simpl; [done|]. by destruct (f x). Qed.

Lemma idle_ready_run k rq :
  run_queue k rq -> (idle_thread k = 0 \/ idle_thread k ∈ rq) ->
  thread_is_ready (idle_thread k) k = Ret (is_in THREAD_READY k (idle_thread k)) k \/
  (idle_thread k = 0 /\ thread_is_ready 0 k = Ret false k).
Proof.
  intros Hq [Hi|Hi]; [right; by rewrite Hi|left].
  destruct (run_queue_thread _ _ _ Hq Hi) as [x Hx].
  apply (thread_is_run THREAD_READY k _ x); [by eapply run_queue_nonzero|done].
Qed.

(** The two walks of [next_runnable_thread] cover the search order. *)
Lemma next_runnable_walks k rq order :
  run_queue k rq -> search_order rq (current_thread k) order ->
  exists start l1 l2, order = l1 ++ l2 /\ lseg (tnext k) start l1 0 /\
    lseg (tnext k) (run_queue_head k) l2 start /\ (start ∉ l2) /\ (0 ∉ l1) /\
    (length l1 <= length rq)%nat /\ (length l2 <= length rq)%nat /\
    (if bool_decide (current_thread k = 0) then mret (run_queue_head k)
     else x ← thread_at (current_thread k);
          mret (if bool_decide (next x = 0) then run_queue_head k else next x)) k = Ret start k.
Proof.
  intros Hq Hord. pose proof Hq as [Hl _]. pose proof (queue_rep_NoDup _ _ _ _ Hq) as Hnd.
  assert (Hz : 0 ∉ rq) by (intros Hin; by eapply run_queue_nonzero).
  destruct Hord as [Hc|pre post Erq Hc].
  - exists (run_queue_head k), rq, []. rewrite app_nil_r, bool_decide_eq_true_2 by done.
    split_and!; try done; [apply not_elem_of_nil|simpl; lia].
  - subst rq. rewrite bool_decide_eq_false_2 by done.
    destruct (run_queue_thread _ _ (current_thread k) Hq) as [x Hx]; [set_solver|].
    mrun (thread_at_run _ _ _ Hx).
    assert (Hsplit : lseg (tnext k) (run_queue_head k) (pre ++ [current_thread k]) (next x) /\
                     lseg (tnext k) (next x) post 0).
    { apply lseg_app in Hl as (m & Hl1 & (-> & _ & n & Hn & Hl2)). unfold tnext in Hn.
      rewrite Hx in Hn. injection Hn as <-. split; [|done]. apply lseg_snoc. split_and!; try done.
      unfold tnext. by rewrite Hx. }
    destruct Hsplit as [Hl1 Hl2]. destruct post as [|y post].
    + simpl in Hl2. rewrite Hl2, bool_decide_eq_true_2 by done.
      exists (run_queue_head k), (pre ++ [current_thread k]), []. simpl.
      rewrite app_nil_r. rewrite Hl2 in Hl1.
      split_and!; try done; [apply not_elem_of_nil|lia].
    + destruct Hl2 as (Ey & Hy & n & Hn & Hl2). rewrite Ey in *.
      rewrite bool_decide_eq_false_2 by done.
      exists y, (y :: post), (pre ++ [current_thread k]). rewrite !length_app. simpl.
      split_and!; try done; try lia.
      * by exists n.
      * apply NoDup_app in Hnd as (_ & Hd & Hnd). apply NoDup_cons in Hnd as [Hn1 _]. set_solver.
      * set_solver.
Qed.

Lemma next_runnable_run k rq order :
  run_queue k rq -> (idle_thread k = 0 \/ idle_thread k ∈ rq) ->
  search_order rq (current_thread k) order ->
  next_runnable_thread k = Ret (pick k order) k.
Proof.
  intros Hq Hi Hord. pose proof (run_queue_length _ _ Hq) as Hf.
  destruct (next_runnable_walks k rq order Hq Hord)
    as (start & l1 & l2 & -> & L1 & L2 & N2 & N1 & F1 & F2 & Es).
  unfold next_runnable_thread, thread_fuel. mred. mrun Es. mred.
  erewrite bind_run by (apply find_ready_run; [exact L1|done|lia]). unfold pick. rewrite find_app.
  destruct (List.find (eligible k) l1); [done|].
  erewrite bind_run by (apply find_ready_run; [exact L2|done|lia]).
  destruct (List.find (eligible k) l2); [done|]. mred.
  destruct (idle_ready_run k rq Hq Hi) as [E|[E0 E]].
  - by mrun E.
  - rewrite E0. mrun E. by destruct (is_in _ _ _).
Qed.

(** ** Waking sleepers *)

Definition wake (tick : Z) (x : thread) : thread :=
  if bool_decide (state x = THREAD_SLEEPING) && bool_decide (wake_tick x <= tick)
  then x <| state := THREAD_READY |> <| wake_tick := 0 |> else x.

Lemma wake_next tick x : next (wake tick x) = next x.
Proof. unfold wake. by destruct (_ && _). Qed.

Lemma set_state_run k t x s :
  t <> 0 -> threads k !! t = Some x -> thread_state_transition_is_valid (state x) s = true ->
  thread_set_state t s k = Ret tt (k <| threads ::= <[t := x <| state := s |>]> |>).
Proof.
  intros Ht E Hv. unfold thread_set_state, thread_validate_state_transition.
  rewrite bool_decide_eq_false_2 by done. mred. mrun (thread_at_run _ _ _ E). rewrite Hv. cbn [negb]. mred.
  by rewrite (set_thread_run _ _ _ _ E).
Qed.

(** [thread_set_state] followed by a write of [wake_tick]. *)
Lemma set_state_tick_run k t x s w :
  t <> 0 -> threads k !! t = Some x -> thread_state_transition_is_valid (state x) s = true ->
  (thread_set_state t s ;; set_thread t (fun y => y <| wake_tick := w |>)) k =
  Ret tt (k <| threads ::= <[t := x <| state := s |> <| wake_tick := w |>]> |>).
Proof.
  intros Ht E Hv. mrun (set_state_run k t x s Ht E Hv).
  erewrite set_thread_run by (simpl; apply lookup_insert_eq). simpl. by rewrite insert_insert_eq.
Qed.

Lemma insert_same k t x : threads k !! t = Some x -> k <| threads ::= <[t := x]> |> = k.
Proof. intros E. destruct k. simpl in *. by rewrite insert_id. Qed.

Lemma wake_step k tick t x :
  t <> 0 -> threads k !! t = Some x ->
  wake_loop tick t k = Ret (inl (next x)) (k <| threads ::= <[t := wake tick x]> |>).
Proof.
  intros Ht E. unfold wake_loop. rewrite bool_decide_eq_false_2 by done.
  erewrite bind_run by by apply (thread_is_run THREAD_SLEEPING k t x).
  mrun (thread_at_run _ _ _ E). unfold is_in, wake. rewrite E.
  destruct (decide (state x = THREAD_SLEEPING)) as [Hs|Hs].
  - rewrite !(bool_decide_eq_true_2 (state x = _)) by done. cbn [andb].
    destruct (decide (wake_tick x <= tick)) as [Hw|Hw].
    + rewrite !bool_decide_eq_true_2 by done. mred.
      assert (Hv : thread_state_transition_is_valid (state x) THREAD_READY = true) by by rewrite Hs.
      erewrite bind_run by exact (set_state_tick_run k t x THREAD_READY 0 Ht E Hv).
      by erewrite bind_run by (apply thread_at_run; simpl; apply lookup_insert_eq).
    + rewrite !bool_decide_eq_false_2 by done. mred. mrun (thread_at_run _ _ _ E).
      by rewrite (insert_same k t x).
  - rewrite !(bool_decide_eq_false_2 (state x = _)) by done. cbn [andb]. mred. mrun (thread_at_run _ _ _ E).
    by rewrite (insert_same k t x).
Qed.

Lemma wake_run tick l : forall fuel p k,
  lseg (tnext k) p l 0 -> (length l < fuel)%nat ->
  exists k', loop fuel (wake_loop tick) p k = Ret tt k' /\ k' = k <| threads := threads k' |> /\
    forall t, threads k' !! t =
      (if bool_decide (t ∈ l) then wake tick <$> threads k !! t else threads k !! t).
Proof.
  induction l as [|t l IH]; intros fuel p k Hl Hf; (destruct fuel as [|fuel]; [simpl in Hf; lia|]);
    rewrite loop_S.
  - simpl in Hl. subst p. exists k. split_and!; [done|by destruct k|]. intros t.
    by rewrite bool_decide_eq_false_2 by apply not_elem_of_nil.
  - pose proof (lseg_NoDup _ _ _ Hl) as Hnd. apply NoDup_cons in Hnd as [Hnin _].
    destruct Hl as (-> & Ht & n & Hn & Hl). unfold tnext in Hn.
    apply fmap_Some in Hn as (x & Hx & ->).
    erewrite bind_run by by apply wake_step.
    destruct (IH fuel (next x) (k <| threads ::= <[t := wake tick x]> |>)) as (k' & E & Ek & Hthr).
    { eapply lseg_ext; [|exact Hl]. intros y Hy. unfold tnext. simpl.
      rewrite lookup_insert_ne; [done|]. by intros ->. }
    { simpl in Hf. lia. }
    exists k'. split_and!; [done|by rewrite Ek|]. intros y. rewrite Hthr. simpl.
    destruct (decide (y = t)) as [->|Hne].
    + rewrite lookup_insert_eq, (bool_decide_eq_false_2 (t ∈ l)) by done.
      rewrite bool_decide_eq_true_2 by left. by rewrite Hx.
    + rewrite lookup_insert_ne by done. rewrite (bool_decide_ext (y ∈ t :: l) (y ∈ l)); [done|].
      set_solver.
Qed.

Lemma thread_is_cur s k rq t :
  run_queue k rq -> (t = 0 \/ t ∈ rq) -> threads k !! 0 = None -> thread_is s t k = Ret (is_in s k t) k.
Proof.
  intros Hq [->|Hc] Hz; [unfold is_in; by rewrite Hz|].
  destruct (run_queue_thread _ _ _ Hq Hc) as [x Hx].
  apply (thread_is_run s k t x); [by eapply run_queue_nonzero|done].
Qed.

Lemma wake_is_running tick x :
  bool_decide (state (wake tick x) = THREAD_RUNNING) = bool_decide (state x = THREAD_RUNNING).
Proof.
  unfold wake. destruct (_ && _) eqn:E; [|done]. apply andb_true_iff in E as [E%bool_decide_eq_true_1 _].
  by rewrite E.
Qed.

(** [sched_tick] on a run queue: every sleeper whose deadline has come is ready. *)
Lemma sched_tick_run k rq tick :
  run_queue k rq -> (current_thread k = 0 \/ current_thread k ∈ rq) -> threads k !! 0 = None ->
  exists k', sched_tick tick k = Ret tt k' /\ run_queue k' rq /\
    (forall t, threads k' !! t =
       (if bool_decide (t ∈ rq) then wake tick <$> threads k !! t else threads k !! t)) /\
    need_resched k' = (need_resched k || is_in THREAD_RUNNING k (current_thread k)) /\
    k' = k <| threads := threads k' |> <| need_resched := need_resched k' |>.
Proof.
  intros Hq Hc Hz. unfold sched_tick, wake_sleeping_threads, thread_fuel. mred.
  destruct (wake_run tick rq _ _ k (proj1 Hq) (run_queue_length _ _ Hq)) as (k1 & E1 & Ek1 & Ht1).
  mrun E1. mred.
  assert (Hq1 : run_queue k1 rq).
  { destruct Hq as [Hl Htl]. rewrite Ek1. split; [|done]. eapply lseg_ext; [|exact Hl].
    intros t Ht. unfold tnext. simpl. rewrite Ht1, bool_decide_eq_true_2 by done.
    destruct (threads k !! t); [|done]. simpl. by rewrite wake_next. }
  assert (Ec : current_thread k1 = current_thread k) by (rewrite Ek1; done).
  assert (Ez : threads k1 !! 0 = None) by (rewrite Ht1, Hz; by case_bool_decide).
  erewrite bind_run by (apply (thread_is_cur THREAD_RUNNING k1 rq); [done|by rewrite Ec|done]).
  rewrite Ec. assert (Er : is_in THREAD_RUNNING k1 (current_thread k) = is_in THREAD_RUNNING k (current_thread k)).
  { unfold is_in. rewrite Ht1. destruct (threads k !! current_thread k); [|by case_bool_decide].
    case_bool_decide; [|done]. simpl. apply wake_is_running. }
  rewrite Er. clear Er. destruct (is_in _ _ _); mred; eexists.
  - split; [reflexivity|]. split_and!; [exact Hq1|done|by rewrite orb_true_r|by rewrite Ek1].
  - split; [reflexivity|]. split_and!; [exact Hq1|done|rewrite orb_false_r, Ek1; done|by rewrite Ek1].
Qed.
End core.
