(* ===== verification/SchedReap.v ===== *)
(** * Reaping exited threads

    [sched_reap_dead_threads] of kernel/sched/thread.c unlinks every zombie but the
    current thread from the run queue under the scheduler lock and then frees
    their stacks and objects. *)

From S2P Require Import Prelude LinkedList PhysMem Switch KState Sched SchedCore.

Section reap.
Context {H : Type} `{KAllocSpec H}.
Implicit Types (k : kernel H) (rq keep rest dead : list Z).

Definition reapable k (t : Z) : bool :=
  is_in THREAD_ZOMBIE k t && negb (bool_decide (t = current_thread k)).

(** A thread record that differs in its run-queue link at most. *)
Definition same_but_next (x y : thread) : Prop := y = x <| next := next y |>.

Definition buried (x : thread) : thread := x <| state := THREAD_DEAD |> <| wake_tick := 0 |>.

(** The walk in the middle: [keep] and [rest] are still queued, [dead] is the chain
    of threads taken out, newest first. *)
Record reaping k0 (keep rest dead : list Z) (reap : Z) k : Prop := {
  rp_queue : run_queue k (keep ++ rest);
  rp_dead : lseg (tnext k) reap dead 0;
  rp_disjoint : forall t, t ∈ dead -> t ∉ keep ++ rest;
  rp_dom : forall t, threads k !! t = None <-> threads k0 !! t = None;
  rp_threads : forall t x, threads k0 !! t = Some x ->
    exists y, threads k !! t = Some y /\
      same_but_next (if bool_decide (t ∈ dead) then buried x else x) y;
  rp_frame : k = k0 <| threads := threads k |> <| run_queue_head := run_queue_head k |>
                    <| run_queue_tail := run_queue_tail k |>
}.

Lemma reaping_current k0 keep rest dead reap k :
  reaping k0 keep rest dead reap k -> current_thread k = current_thread k0.
Proof. intros R. rewrite (rp_frame _ _ _ _ _ _ R). done. Qed.

Lemma reaping_is_in k0 keep rest dead reap k s t :
  reaping k0 keep rest dead reap k -> t ∉ dead -> is_in s k t = is_in s k0 t.
Proof.
  intros R Ht. unfold is_in. destruct (threads k0 !! t) as [x|] eqn:Hx.
  - destruct (rp_threads _ _ _ _ _ _ R t x Hx) as (y & -> & Hy).
    rewrite bool_decide_eq_false_2 in Hy by done. by rewrite Hy.
  - by apply (rp_dom _ _ _ _ _ _ R) in Hx as ->.
Qed.

(** A thread that stays: only the loop variables move on. *)
Lemma reap_keep k0 keep t rest dead reap k x :
  reaping k0 keep (t :: rest) dead reap k -> threads k !! t = Some x -> reapable k0 t = false ->
  reap_loop (default 0 (last keep), t, reap) k = Ret (inl (t, next x, reap)) k /\
  reaping k0 (keep ++ [t]) rest dead reap k.
Proof.
  intros R Hx Hr. assert (Ht : t <> 0) by (eapply run_queue_nonzero; [apply R|set_solver]).
  assert (Hnd : t ∉ dead) by (intros Hin; apply (rp_disjoint _ _ _ _ _ _ R t Hin); set_solver).
  split.
  - unfold reap_loop. rewrite bool_decide_eq_false_2 by done. mrun (thread_at_run _ _ _ Hx).
    erewrite bind_run by by apply (thread_is_run THREAD_ZOMBIE k t x). mred.
    rewrite (reaping_is_in _ _ _ _ _ _ _ _ R Hnd), (reaping_current _ _ _ _ _ _ R).
    fold (reapable k0 t). by rewrite Hr.
  - destruct R as [R1 R2 R3 R4 R5 R6]. split; try done.
    + by rewrite <- app_assoc.
    + intros y Hy. rewrite <- app_assoc. by apply R3.
Qed.

Lemma tnext_insert k t x y :
  tnext (k <| threads ::= <[t := x]> |>) y = if bool_decide (y = t) then Some (next x) else tnext k y.
Proof.
  unfold tnext. simpl. case_bool_decide as E.
  - by rewrite E, lookup_insert_eq.
  - by rewrite lookup_insert_ne.
Qed.

(** The queue after taking [t] out from behind [keep]. *)
Lemma unlink_queue k k' keep t rest n :
  run_queue k (keep ++ t :: rest) -> tnext k t = Some n ->
  (forall y, y ∈ keep ++ rest -> Some y <> last keep -> tnext k' y = tnext k y) ->
  (forall p, last keep = Some p -> tnext k' p = Some n) ->
  run_queue_head k' = (if bool_decide (default 0 (last keep) = 0) then n else run_queue_head k) ->
  run_queue_tail k' = (if bool_decide (run_queue_tail k = t) then default 0 (last keep)
                       else run_queue_tail k) ->
  run_queue k' (keep ++ rest).
Proof.
  intros Hq Hn Hsame Hlast Hh Htl. unfold run_queue. rewrite Hh, Htl.
  by apply (queue_rep_remove (tnext k) (tnext k')).
Qed.

(** The thread map after [t] was buried and unlinked behind [p]. *)
Definition buried_map (m : gmap Z thread) (keep : list Z) (t : Z) (x : thread) (reap : Z) : gmap Z thread :=
  let m1 := <[t := buried x]> m in
  let m2 := match last keep with
            | Some p => match m1 !! p with Some y => <[p := y <| next := next x |>]> m1 | None => m1 end
            | None => m1
            end in
  <[t := buried x <| next := reap |>]> m2.

Lemma reap_bury_run k keep t rest x reap :
  run_queue k (keep ++ t :: rest) -> threads k !! t = Some x -> is_in THREAD_ZOMBIE k t = true ->
  t <> current_thread k ->
  reap_loop (default 0 (last keep), t, reap) k =
  Ret (inl (default 0 (last keep), next x, t))
    (k <| threads := buried_map (threads k) keep t x reap |>
       <| run_queue_head := if bool_decide (default 0 (last keep) = 0) then next x else run_queue_head k |>
       <| run_queue_tail := if bool_decide (run_queue_tail k = t) then default 0 (last keep)
                            else run_queue_tail k |>).
Proof.
  intros Hq Hx Hz Hc. assert (Ht : t <> 0) by (eapply run_queue_nonzero; [exact Hq|set_solver]).
  pose proof (queue_rep_NoDup _ _ _ _ Hq) as Hnd.
  assert (Hs : state x = THREAD_ZOMBIE).
  { unfold is_in in Hz. rewrite Hx in Hz. by apply bool_decide_eq_true_1 in Hz. }
  unfold reap_loop. rewrite (bool_decide_eq_false_2 (t = 0)) by done. mrun (thread_at_run _ _ _ Hx).
  erewrite bind_run by by apply (thread_is_run THREAD_ZOMBIE k t x). mred. rewrite Hz.
  rewrite (bool_decide_eq_false_2 (t = current_thread k)) by done. cbn [andb negb].
  assert (Hv : thread_state_transition_is_valid (state x) THREAD_DEAD = true) by by rewrite Hs.
  erewrite (bind_run (thread_set_dead t)) by exact (set_state_tick_run k t x THREAD_DEAD 0 Ht Hx Hv).
  fold (buried x). unfold buried_map. destruct (last keep) as [p|] eqn:El; simpl.
  - assert (Hp : p ∈ keep) by by apply last_Some_elem_of in El.
    assert (Hp0 : p <> 0) by (eapply run_queue_nonzero; [exact Hq|set_solver]).
    assert (Hpt : p <> t).
    { intros ->. apply NoDup_app in Hnd as (_ & Hd & _). apply (Hd t Hp). left. }
    destruct (run_queue_thread k _ p Hq) as [y Hy]; [set_solver|].
    rewrite bool_decide_eq_false_2 by done. cbn [negb].
    assert (Hpy : <[t := buried x]> (threads k) !! p = Some y) by by rewrite lookup_insert_ne.
    erewrite (bind_run (set_thread _ _)) by (apply set_thread_run; exact Hpy). rewrite Hpy. mred. simpl.
    case_bool_decide; mred.
    + erewrite bind_run by (apply set_thread_run; simpl; rewrite lookup_insert_ne by done; apply lookup_insert_eq).
      done.
    + erewrite bind_run by (apply set_thread_run; simpl; rewrite lookup_insert_ne by done; apply lookup_insert_eq).
      by destruct k.
  - mred. simpl. case_bool_decide; mred.
    + erewrite bind_run by (apply set_thread_run; simpl; apply lookup_insert_eq). done.
    + erewrite bind_run by (apply set_thread_run; simpl; apply lookup_insert_eq). done.
Qed.

Lemma buried_map_lookup m keep t x reap y :
  m !! t = Some x -> (forall p, last keep = Some p -> p <> t /\ is_Some (m !! p)) ->
  buried_map m keep t x reap !! y =
  if bool_decide (y = t) then Some (buried x <| next := reap |>)
  else if bool_decide (Some y = last keep) then (fun z => z <| next := next x |>) <$> m !! y
  else m !! y.
Proof.
  intros Hx Hp. unfold buried_map. case_bool_decide as Ey.
  { subst y. by rewrite lookup_insert_eq. }
  rewrite lookup_insert_ne by done. destruct (last keep) as [p|].
  2:{ rewrite bool_decide_eq_false_2 by done. by rewrite lookup_insert_ne. }
  destruct (Hp p eq_refl) as [Hpt [z Hz]]. rewrite lookup_insert_ne, Hz by done.
  case_bool_decide as Eyp.
  - injection Eyp as ->. by rewrite lookup_insert_eq, Hz.
  - rewrite !lookup_insert_ne by congruence. done.
Qed.

Lemma same_but_next_refl x : same_but_next x x.
Proof. unfold same_but_next. by destruct x. Qed.

Lemma same_but_next_set x y n : same_but_next x y -> same_but_next x (y <| next := n |>).
Proof. unfold same_but_next. intros ->. done. Qed.

(** A zombie: it leaves the queue for the list of the dead. *)
Lemma reap_bury k0 keep t rest dead reap k x :
  reaping k0 keep (t :: rest) dead reap k -> threads k !! t = Some x -> reapable k0 t = true ->
  exists k', reap_loop (default 0 (last keep), t, reap) k =
      Ret (inl (default 0 (last keep), next x, t)) k' /\
    reaping k0 keep rest (t :: dead) t k'.
Proof.
  intros R Hx Hr. apply andb_true_iff in Hr as [Hz Hc%negb_true_iff%bool_decide_eq_false_1].
  pose proof (rp_queue _ _ _ _ _ _ R) as Hq. pose proof (queue_rep_NoDup _ _ _ _ Hq) as Hnd.
  assert (Ht : t <> 0) by (eapply run_queue_nonzero; [exact Hq|set_solver]).
  assert (Htd : t ∉ dead) by (intros Hin; apply (rp_disjoint _ _ _ _ _ _ R t Hin); set_solver).
  assert (Hlast : forall p, last keep = Some p -> p <> t /\ is_Some (threads k !! p)).
  { intros p Hp%last_Some_elem_of. split.
    - intros ->. apply NoDup_app in Hnd as (_ & Hd & _). apply (Hd t Hp). left.
    - destruct (run_queue_thread k _ p Hq) as [y Hy]; [set_solver|by exists y]. }
  eexists. split.
  { eapply reap_bury_run; [exact Hq|done| |].
    - by rewrite (reaping_is_in _ _ _ _ _ _ _ _ R Htd).
    - by rewrite (reaping_current _ _ _ _ _ _ R). }
  set (k' := k <| threads := _ |> <| run_queue_head := _ |> <| run_queue_tail := _ |>).
  assert (Hlook : forall y, threads k' !! y = if bool_decide (y = t) then Some (buried x <| next := reap |>)
    else if bool_decide (Some y = last keep) then (fun z => z <| next := next x |>) <$> threads k !! y
    else threads k !! y) by (intros y; by apply buried_map_lookup).
  assert (Hnext : forall y, y <> t -> Some y <> last keep -> tnext k' y = tnext k y).
  { intros y Hy1 Hy2. unfold tnext. by rewrite Hlook, !bool_decide_eq_false_2. }
  split.
  - eapply (unlink_queue k k' keep t rest (next x)); [exact Hq|unfold tnext; by rewrite Hx| | |done|done].
    + intros y Hy Hny. apply Hnext; [|done]. intros ->.
      apply NoDup_app in Hnd as (_ & Hd & [Hnd _]%NoDup_cons).
      apply elem_of_app in Hy as [Hy|Hy]; [apply (Hd t Hy); left|done].
    + intros p Hp. destruct (Hlast p Hp) as [Hpt [z Hz']]. unfold tnext.
      rewrite Hlook, bool_decide_eq_false_2, bool_decide_eq_true_2 by done. by rewrite Hz'.
  - simpl. split_and!; [done|done|]. exists reap. split.
    { unfold tnext. by rewrite Hlook, bool_decide_eq_true_2. }
    eapply lseg_ext; [|apply R]. intros y Hy. apply Hnext; [by intros ->|].
    intros Hl. symmetry in Hl. apply last_Some_elem_of in Hl.
    apply (rp_disjoint _ _ _ _ _ _ R y Hy). set_solver.
  - intros y [->|Hy]%elem_of_cons.
    + apply NoDup_app in Hnd as (_ & Hd & [Hnd _]%NoDup_cons). intros [Hin|Hin]%elem_of_app; [|done].
      apply (Hd t Hin). left.
    + intros Hin. apply (rp_disjoint _ _ _ _ _ _ R y Hy). set_solver.
  - intros y. rewrite <- (rp_dom _ _ _ _ _ _ R), Hlook. case_bool_decide as E1.
    { subst y. by rewrite Hx. }
    case_bool_decide; [|done]. by rewrite fmap_None.
  - intros y x0 Hx0. destruct (rp_threads _ _ _ _ _ _ R y x0 Hx0) as (z & Hz' & Hsame).
    rewrite Hlook. destruct (decide (y = t)) as [->|Hyt].
    + rewrite bool_decide_eq_true_2 by done. eexists. split; [done|].
      rewrite bool_decide_eq_true_2 by left. rewrite bool_decide_eq_false_2 in Hsame by done.
      assert (z = x) as -> by congruence. rewrite Hsame. done.
    + rewrite bool_decide_eq_false_2 by done.
      rewrite (bool_decide_ext (y ∈ t :: dead) (y ∈ dead)) by set_solver.
      rewrite Hz'. destruct (bool_decide (Some y = last keep)); eexists; (split; [done|]);
        [by apply same_but_next_set|done].
  - pose proof (rp_frame _ _ _ _ _ _ R) as Ef. clear -Ef. unfold k'.
    destruct k, k0. simpl in *. injection Ef. intros. by subst.
Qed.

(** The whole walk: the zombies are taken out, the others stay in order. *)
Lemma reap_walk k0 rest : forall fuel keep dead reap k t,
  reaping k0 keep rest dead reap k -> t = default 0 (hd_error rest) -> (length rest < fuel)%nat ->
  exists reap' k', loop fuel reap_loop (default 0 (last keep), t, reap) k = Ret reap' k' /\
    reaping k0 (keep ++ List.filter (fun t => negb (reapable k0 t)) rest) []
      (reverse (List.filter (reapable k0) rest) ++ dead) reap' k'.
Proof.
  induction rest as [|t rest IH]; intros fuel keep dead reap k p R -> Hf;
    (destruct fuel as [|fuel]; [simpl in Hf; lia|]); rewrite loop_S.
  { exists reap, k. split; [done|]. simpl. by rewrite app_nil_r. }
  simpl. destruct (run_queue_thread k _ t (rp_queue _ _ _ _ _ _ R)) as [x Hx]; [set_solver|].
  assert (Hn : next x = default 0 (hd_error rest)).
  { destruct (rp_queue _ _ _ _ _ _ R) as [Hl _]. apply lseg_app in Hl as (m & _ & (-> & _ & n & Hn & Hl)).
    unfold tnext in Hn. rewrite Hx in Hn. injection Hn as <-. by apply lseg_head in Hl. }
  destruct (reapable k0 t) eqn:Hr; simpl.
  - destruct (reap_bury _ _ _ _ _ _ _ _ R Hx Hr) as (k1 & E1 & R1). mrun E1.
    destruct (IH fuel keep (t :: dead) t k1 (next x) R1 Hn) as (reap' & k' & E' & R'); [simpl in Hf; lia|].
    exists reap', k'. split; [done|]. by rewrite reverse_cons, <- app_assoc.
  - destruct (reap_keep _ _ _ _ _ _ _ _ R Hx Hr) as (E1 & R1). mrun E1.
    destruct (IH fuel (keep ++ [t]) dead reap k (next x) R1 Hn) as (reap' & k' & E' & R'); [simpl in Hf; lia|].
    rewrite last_snoc in E'. exists reap', k'. split; [done|]. by rewrite <- app_assoc in R'.
Qed.

(** ** Releasing the dead *)

Lemma mem_free_live live (h : H) p m :
  mem_ok live h -> live !! p = Some m ->
  exists h', mem_free p h = Ret tt h' /\ mem_room h' = mem_room h /\ mem_ok (delete p live) h'.
Proof.
  intros Hok Hp. apply mem_free_law with (m := m); [by rewrite insert_delete_id|apply lookup_delete_eq].
Qed.

Lemma on_heap_run {A} (m : M H A) k a h :
  m (kheap k) = Ret a h -> on_heap m k = Ret a (k <| kheap := h |>).
Proof. intros E. unfold on_heap. by erewrite zoom_run by exact E. Qed.

(** What [release_thread] insists on. *)
Definition releasable (x : thread) : Prop :=
  state x = THREAD_DEAD /\ wait_queue x = 0 /\ wait_next x = 0 /\ wake_tick x = 0 /\
  stack_base x <> 0 /\ stack_size x <> 0.

Lemma release_thread_run k live t x m1 m2 :
  t <> 0 -> t <> current_thread k -> threads k !! t = Some x -> releasable x ->
  mem_ok live (kheap k) -> live !! stack_base x = Some m1 -> live !! t = Some m2 -> stack_base x <> t ->
  exists h', release_thread t k = Ret tt (k <| kheap := h' |> <| threads ::= delete t |>) /\
    mem_room h' = mem_room (kheap k) /\ mem_ok (delete t (delete (stack_base x) live)) h'.
Proof.
  intros Ht Hc Hx (S1 & S2 & S3 & S4 & S5 & S6) Hok Hl1 Hl2 Hne.
  destruct (mem_free_live live (kheap k) (stack_base x) m1 Hok Hl1) as (h1 & E1 & R1 & Hok1).
  destruct (mem_free_live _ h1 t m2 Hok1) as (h2 & E2 & R2 & Hok2); [by rewrite lookup_delete_ne|].
  exists h2. split_and!; [|congruence|done].
  unfold release_thread. mred. rewrite !bool_decide_eq_false_2 by done. cbn [orb].
  erewrite (bind_run (thread_is_dead t)) by by apply (thread_is_run THREAD_DEAD k t x).
  unfold is_in. rewrite Hx, S1, bool_decide_eq_true_2 by done. cbn [negb].
  mrun (thread_at_run _ _ _ Hx). rewrite S2, S3, S4.
  rewrite !(bool_decide_eq_true_2 (0 = 0)) by done. cbn [negb orb].
  rewrite !bool_decide_eq_false_2 by done. cbn [orb].
  erewrite bind_run by (apply on_heap_run; exact E1).
  erewrite bind_run by (apply on_heap_run; exact E2). done.
Qed.

(** The addresses of the stacks and objects of the threads in a list. *)
Definition thread_addrs (m : gmap Z thread) (l : list Z) : list Z :=
  flat_map (fun t => match m !! t with Some x => [stack_base x; t] | None => [] end) l.

Definition deletes {A} (l : list Z) (m : gmap Z A) : gmap Z A := foldl (fun m a => delete a m) m l.

Lemma deletes_lookup {A} l (m : gmap Z A) a :
  deletes l m !! a = if bool_decide (a ∈ l) then None else m !! a.
Proof.
  revert m. induction l as [|b l IH]; intros m; simpl.
  { done. }
  rewrite IH. destruct (decide (a ∈ l)) as [Hin|Hin].
  { rewrite !bool_decide_eq_true_2 by set_solver. done. }
  rewrite (bool_decide_eq_false_2 (a ∈ l)) by done. destruct (decide (a = b)) as [->|Hne].
  - rewrite bool_decide_eq_true_2 by left. apply lookup_delete_eq.
  - rewrite bool_decide_eq_false_2 by set_solver. by rewrite lookup_delete_ne.
Qed.

Lemma thread_addrs_ext m m' l :
  (forall t, t ∈ l -> stack_base <$> m' !! t = stack_base <$> m !! t) ->
  thread_addrs m' l = thread_addrs m l.
Proof.
  induction l as [|t l IH]; intros Hext; simpl; [done|].
  assert (Et := Hext t ltac:(left)). f_equal.
  - destruct (m' !! t), (m !! t); simpl in Et; try done. by injection Et as ->.
  - apply IH. intros y Hy. apply Hext. by right.
Qed.

Lemma release_walk dead : forall fuel reap k live,
  lseg (tnext k) reap dead 0 -> (length dead < fuel)%nat ->
  (forall t, t ∈ dead -> t <> current_thread k /\ exists x, threads k !! t = Some x /\ releasable x) ->
  mem_ok live (kheap k) -> NoDup (thread_addrs (threads k) dead) ->
  (forall a, a ∈ thread_addrs (threads k) dead -> is_Some (live !! a)) ->
  exists h', loop fuel release_loop reap k =
      Ret tt (k <| kheap := h' |> <| threads ::= deletes dead |>) /\
    mem_room h' = mem_room (kheap k) /\ mem_ok (deletes (thread_addrs (threads k) dead) live) h'.
Proof.
  induction dead as [|t dead IH]; intros fuel reap k live Hl Hf Hd Hok Hnd Hlive;
    (destruct fuel as [|fuel]; [simpl in Hf; lia|]); rewrite loop_S.
  { simpl in Hl. subst reap. exists (kheap k). split; [by destruct k|done]. }
  pose proof (lseg_NoDup _ _ _ Hl) as Hnd0. apply NoDup_cons in Hnd0 as [Hnin _].
  destruct Hl as (-> & Ht & n & Hn & Hl). destruct (Hd t) as (Hc & x & Hx & Hrel); [left|].
  unfold tnext in Hn. rewrite Hx in Hn. injection Hn as <-.
  simpl in Hnd, Hlive. rewrite Hx in Hnd, Hlive. simpl in Hnd, Hlive.
  apply NoDup_cons in Hnd as [Hn1 Hnd]. apply NoDup_cons in Hnd as [Hn2 Hnd].
  destruct (Hlive (stack_base x)) as [m1 Hm1]; [left|]. destruct (Hlive t) as [m2 Hm2]; [right; left|].
  set (x' := x <| next := 0 |>). set (k1 := k <| threads ::= <[t := x']> |>).
  destruct (release_thread_run k1 live t x' m1 m2) as (h1 & E1 & R1 & Hok1); try done.
  { unfold k1. simpl. apply lookup_insert_eq. }
  { intros E. change (stack_base x = t) in E. apply Hn1. rewrite E. left. }
  assert (Estep : release_loop t k = Ret (inl (next x)) (k1 <| kheap := h1 |> <| threads ::= delete t |>)).
  { unfold release_loop. rewrite bool_decide_eq_false_2 by done. mrun (thread_at_run _ _ _ Hx).
    erewrite bind_run by (apply set_thread_run; exact Hx). fold x' k1. by mrun E1. }
  mrun Estep. set (k2 := k1 <| kheap := h1 |> <| threads ::= delete t |>).
  assert (Hlook : forall y, y <> t -> threads k2 !! y = threads k !! y).
  { intros y Hy. unfold k2, k1. simpl. rewrite lookup_delete_ne, lookup_insert_ne by done. done. }
  assert (Ea : thread_addrs (threads k2) dead = thread_addrs (threads k) dead).
  { apply thread_addrs_ext. intros y Hy. rewrite Hlook; [done|]. by intros ->. }
  destruct (IH fuel (next x) k2 (delete t (delete (stack_base x) live))) as (h2 & E2 & R2 & Hok2).
  - eapply lseg_ext; [|exact Hl]. intros y Hy. unfold tnext. rewrite Hlook; [done|]. by intros ->.
  - simpl in Hf. lia.
  - intros y Hy. destruct (Hd y) as (Hyc & z & Hz & Hzr); [by right|]. split; [done|].
    exists z. rewrite Hlook; [done|]. by intros ->.
  - done.
  - by rewrite Ea.
  - rewrite Ea. intros a Ha. rewrite !lookup_delete_ne; [apply Hlive; by right; right| |].
    + intros <-. apply Hn1. by right.
    + by intros <-.
  - exists h2. rewrite Ea in Hok2. split_and!; [|simpl in *; congruence|].
    + rewrite E2. f_equal. unfold k2, k1. simpl. by rewrite delete_insert_eq.
    + simpl. by rewrite Hx.
Qed.

(** ** The scheduler's invariant *)

Record thread_ok k (t : Z) (x : thread) : Prop := {
  ok_alive : state x <> THREAD_DEAD;
  ok_running : state x = THREAD_RUNNING -> t = current_thread k;
  ok_zombie : state x = THREAD_ZOMBIE -> wait_queue x = 0 /\ wait_next x = 0 /\ t <> idle_thread k;
  ok_stack : stack_base x <> 0 /\ stack_size x <> 0
}.

Record sched_inv (live : gmap Z Z) rq k : Prop := {
  si_queue : run_queue k rq;
  si_null : threads k !! 0 = None;
  si_current : current_thread k = 0 \/ current_thread k ∈ rq;
  si_idle : idle_thread k = 0 \/ idle_thread k ∈ rq;
  si_lock : locks k !! SchedulerLock = Some 0;
  si_depth : 0 <= spinlock_depth k;
  si_mem : mem_ok live (kheap k);
  si_addrs : NoDup (thread_addrs (threads k) rq);
  si_live : forall a, a ∈ thread_addrs (threads k) rq -> is_Some (live !! a);
  si_threads : forall t x, t ∈ rq -> threads k !! t = Some x -> thread_ok k t x
}.

Lemma elem_of_thread_addrs m l a :
  a ∈ thread_addrs m l <-> exists t x, t ∈ l /\ m !! t = Some x /\ (a = stack_base x \/ a = t).
Proof.
  induction l as [|t l IH]; simpl.
  - split; [by intros ?%not_elem_of_nil|]. intros (? & ? & Hin & _). by apply not_elem_of_nil in Hin.
  - rewrite elem_of_app, IH. split.
    + intros [Hin|(t' & x & ? & ? & ?)]; [|exists t', x; set_solver].
      destruct (m !! t) as [x|] eqn:Hx; [|by apply not_elem_of_nil in Hin].
      exists t, x. set_solver.
    + intros (t' & x & [->|Hin]%elem_of_cons & Hx & Ha); [left; rewrite Hx; set_solver|right; eauto].
Qed.

Lemma thread_addrs_app m l1 l2 : thread_addrs m (l1 ++ l2) = thread_addrs m l1 ++ thread_addrs m l2.
Proof. unfold thread_addrs. apply flat_map_app. Qed.

(** Splitting the addresses by what happens to their threads. *)
Lemma thread_addrs_filter m l (f : Z -> bool) :
  thread_addrs m l ≡ₚ thread_addrs m (List.filter (fun t => negb (f t)) l) ++
                      thread_addrs m (reverse (List.filter f l)).
Proof.
  assert (Hrev : forall l, thread_addrs m (reverse l) ≡ₚ thread_addrs m l).
  { intros l'. induction l' as [|t l' IH]; [done|]. rewrite reverse_cons, thread_addrs_app, IH. simpl.
    rewrite app_nil_r. apply Permutation_app_comm. }
  rewrite Hrev. induction l as [|t l IH]; [done|]. simpl. destruct (f t); simpl.
  - rewrite IH. rewrite !app_assoc. f_equiv. apply Permutation_app_comm.
  - rewrite IH. by rewrite app_assoc.
Qed.

Lemma elem_of_List_filter (f : Z -> bool) t l : t ∈ List.filter f l <-> f t = true /\ t ∈ l.
Proof. rewrite !list_elem_of_In, List.filter_In. tauto. Qed.

Lemma reaping_start live rq k :
  sched_inv live rq k -> reaping (enter SchedulerLock k) [] rq [] 0 (enter SchedulerLock k).
Proof.
  intros I. split; try done.
  - apply I.
  - intros t Ht. by apply not_elem_of_nil in Ht.
  - intros t x Hx. exists x. split; [done|]. apply same_but_next_refl.
Qed.

(** What reaping does to the thread map. *)
Definition reaped k rq (m' : gmap Z thread) : Prop :=
  forall t, match threads k !! t with
            | None => m' !! t = None
            | Some x => if bool_decide (t ∈ rq) && reapable k t then m' !! t = None
                        else exists y, m' !! t = Some y /\ same_but_next x y
            end.

Lemma reaped_addrs k rq m' l :
  reaped k rq m' -> (forall t, t ∈ l -> reapable k t = false) -> thread_addrs m' l = thread_addrs (threads k) l.
Proof.
  intros Hr Hl. apply thread_addrs_ext. intros t Ht. specialize (Hr t).
  destruct (threads k !! t) as [x|]; [|by rewrite Hr].
  rewrite (Hl t Ht), andb_false_r in Hr. destruct Hr as (y & -> & ->). done.
Qed.

Lemma thread_ok_next k k' t x y :
  thread_ok k t x -> same_but_next x y -> current_thread k' = current_thread k ->
  idle_thread k' = idle_thread k -> thread_ok k' t y.
Proof.
  intros [O1 O2 O3 O4] Hs Hc Hi. unfold same_but_next in Hs. rewrite Hs.
  split; simpl; rewrite ?Hc, ?Hi; done.
Qed.

(** The threads the walk takes out. *)
Lemma dead_zombie live rq k t :
  sched_inv live rq k -> t ∈ reverse (List.filter (reapable k) rq) ->
  exists x, threads k !! t = Some x /\ thread_ok k t x /\ state x = THREAD_ZOMBIE /\ t <> current_thread k.
Proof.
  intros I Ht. rewrite elem_of_reverse, elem_of_List_filter in Ht.
  destruct Ht as [Hr Ht]. apply andb_true_iff in Hr as [Hz Hc%negb_true_iff%bool_decide_eq_false_1].
  destruct (run_queue_thread k rq t (si_queue _ _ _ I) Ht) as [x Hx]. exists x. split_and!; try done.
  - by apply (si_threads _ _ _ I).
  - unfold is_in in Hz. rewrite Hx in Hz. by apply bool_decide_eq_true_1 in Hz.
Qed.

Lemma released_reaped k rq k1 keep reap :
  reaping (enter SchedulerLock k) keep [] (reverse (List.filter (reapable k) rq)) reap k1 ->
  reaped k rq (deletes (reverse (List.filter (reapable k) rq)) (threads k1)).
Proof.
  intros R t. rewrite deletes_lookup. destruct (threads k !! t) as [x|] eqn:Hx.
  - assert (Hiff : bool_decide (t ∈ reverse (List.filter (reapable k) rq)) = bool_decide (t ∈ rq) && reapable k t).
    { destruct (reapable k t) eqn:Er.
      - rewrite andb_true_r. apply bool_decide_ext. rewrite elem_of_reverse, elem_of_List_filter. naive_solver.
      - rewrite andb_false_r. apply bool_decide_eq_false_2.
        rewrite elem_of_reverse, elem_of_List_filter. by intros [? _]; congruence. }
    destruct (rp_threads _ _ _ _ _ _ R t x Hx) as (y & Hy & Hs). rewrite <- Hiff. case_bool_decide; [done|]. by exists y.
  - case_bool_decide; [done|]. by apply (rp_dom _ _ _ _ _ _ R) in Hx.
Qed.

(** The two walks together. *)
Lemma reap_and_release live rq k :
  sched_inv live rq k ->
  exists k' h', sched_reap_dead_threads k = Ret tt k' /\
    run_queue k' (List.filter (fun t => negb (reapable k t)) rq) /\ reaped k rq (threads k') /\
    mem_room h' = mem_room (kheap k) /\
    mem_ok (deletes (thread_addrs (threads k) (reverse (List.filter (reapable k) rq))) live) h' /\
    k' = k <| kheap := h' |> <| threads := threads k' |> <| run_queue_head := run_queue_head k' |>
           <| run_queue_tail := run_queue_tail k' |>.
Proof.
  intros I. unfold sched_reap_dead_threads, thread_fuel. mred.
  mrun (spin_lock_run k SchedulerLock (si_lock _ _ _ I)).
  set (dead := reverse (List.filter (reapable k) rq)).
  pose proof (run_queue_length _ _ (si_queue _ _ _ I)) as Hf.
  destruct (reap_walk (enter SchedulerLock k) rq (S (size (threads k))) [] [] 0 _ (run_queue_head k)
    (reaping_start live rq k I)) as (reap & k1 & E1 & R); [|done|].
  { destruct (si_queue _ _ _ I) as [Hl _]. by apply lseg_head in Hl. }
  simpl in R. rewrite app_nil_r in R. change (reapable (enter SchedulerLock k)) with (reapable k) in R.
  fold dead in R. change (default 0 (last [])) with 0 in E1. mrun E1.
  pose proof (rp_frame _ _ _ _ _ _ R) as Ef.
  assert (Hl1 : locks k1 = <[SchedulerLock := 1]> (locks k)) by (rewrite Ef; done).
  assert (Hd1 : spinlock_depth k1 = 1 + spinlock_depth k) by (rewrite Ef; done).
  assert (Hf1 : rflags k1 = Z.ldiff (rflags k) RFLAGS_IF) by (rewrite Ef; done).
  erewrite bind_run by (eapply (spin_unlock_run _ _ 1); [rewrite Hl1; apply lookup_insert_eq|done|];
    rewrite Hd1; pose proof (si_depth _ _ _ I); lia).
  rewrite (leave_enter SchedulerLock k k1 (si_lock _ _ _ I) Hl1 Hd1 Hf1).
  set (k2 := k1 <| locks := _ |> <| spinlock_depth := _ |> <| rflags := _ |>).
  pose proof (fun t => dead_zombie live rq k t I) as Hdead. fold dead in Hdead.
  assert (Ea : thread_addrs (threads k1) dead = thread_addrs (threads k) dead).
  { apply thread_addrs_ext. intros t Ht. destruct (Hdead t Ht) as (x & Hx & _).
    destruct (rp_threads _ _ _ _ _ _ R t x Hx) as (y & Hy & Hs). rewrite Hx, Hy.
    rewrite bool_decide_eq_true_2 in Hs by done. rewrite Hs. done. }
  pose proof (thread_addrs_filter (threads k) rq (reapable k)) as Hperm. fold dead in Hperm.
  destruct (release_walk dead (S (size (threads k))) reap k2 live) as (h' & E2 & Hroom & Hok).
  - exact (rp_dead _ _ _ _ _ _ R).
  - unfold dead. rewrite length_reverse. eapply Nat.le_lt_trans; [apply List.filter_length_le|lia].
  - intros t Ht. destruct (Hdead t Ht) as (x & Hx & Hox & Hz & Hc). split; [unfold k2; by rewrite Ef|].
    destruct (rp_threads _ _ _ _ _ _ R t x Hx) as (y & Hy & Hs). exists y. split; [done|].
    rewrite bool_decide_eq_true_2 in Hs by done. rewrite Hs. destruct Hox as [_ _ O3 [O4 O5]].
    destruct (O3 Hz) as (? & ? & _). unfold releasable. simpl. done.
  - unfold k2. simpl. rewrite Ef. apply I.
  - change (threads k2) with (threads k1). rewrite Ea.
    pose proof (si_addrs _ _ _ I) as Hnd. rewrite Hperm in Hnd. by apply NoDup_app in Hnd as (_ & _ & ?).
  - change (threads k2) with (threads k1). rewrite Ea. intros a Hin. apply (si_live _ _ _ I). rewrite Hperm.
    apply elem_of_app. by right.
  - change (threads k2) with (threads k1) in Hok. rewrite Ea in Hok.
    eexists _, h'. split; [exact E2|].
    assert (Hq2 : run_queue (k2 <| kheap := h' |> <| threads ::= deletes dead |>)
      (List.filter (fun t => negb (reapable k t)) rq)).
    { pose proof (rp_queue _ _ _ _ _ _ R) as [Hl Htl]. rewrite app_nil_r in Hl, Htl.
      split; [|exact Htl]. eapply lseg_ext; [|exact Hl]. intros t Ht. unfold tnext. simpl.
      rewrite deletes_lookup, bool_decide_eq_false_2; [done|]. intros Hd.
      apply (rp_disjoint _ _ _ _ _ _ R t Hd). by rewrite app_nil_r. }
    split_and!; [exact Hq2| |unfold k2 in Hroom; simpl in Hroom; by rewrite Hroom, Ef|done|].
    + by apply (released_reaped k rq k1 _ reap R).
    + unfold k2. rewrite Ef. by destruct k.
Qed.

Definition survivors k rq : list Z := List.filter (fun t => negb (reapable k t)) rq.

Lemma reapable_current k : reapable k (current_thread k) = false.
Proof. unfold reapable. by rewrite bool_decide_eq_true_2, andb_false_r. Qed.

Lemma reapable_idle live rq k : sched_inv live rq k -> reapable k (idle_thread k) = false.
Proof.
  intros I. unfold reapable, is_in. destruct (si_idle _ _ _ I) as [Hi|Hi].
  - by rewrite Hi, (si_null _ _ _ I).
  - destruct (run_queue_thread k rq _ (si_queue _ _ _ I) Hi) as [x Hx]. rewrite Hx.
    destruct (decide (state x = THREAD_ZOMBIE)) as [Hz|Hz]; [|by rewrite bool_decide_eq_false_2].
    by destruct (ok_zombie _ _ _ (si_threads _ _ _ I _ x Hi Hx) Hz) as (_ & _ & []).
Qed.

Lemma elem_of_survivors k rq t : (t ∈ survivors k rq) <-> (reapable k t = false) /\ t ∈ rq.
Proof. unfold survivors. rewrite elem_of_List_filter. by rewrite negb_true_iff. Qed.

(** Reaping keeps the invariant: the queue without the zombies, the allocator
    without their memory. *)
Lemma reap_inv live rq k :
  sched_inv live rq k ->
  exists k' live', sched_reap_dead_threads k = Ret tt k' /\ sched_inv live' (survivors k rq) k' /\
    reaped k rq (threads k') /\ mem_room (kheap k') = mem_room (kheap k) /\
    live' = deletes (thread_addrs (threads k) (reverse (List.filter (reapable k) rq))) live /\
    k' = k <| kheap := kheap k' |> <| threads := threads k' |> <| run_queue_head := run_queue_head k' |>
           <| run_queue_tail := run_queue_tail k' |>.
Proof.
  intros I. destruct (reap_and_release live rq k I) as (k' & h' & E & Hq & Hr & Hroom & Hok & Ek).
  eexists k', _. split; [exact E|].
  assert (Eh : kheap k' = h') by by rewrite Ek.
  assert (Ec : current_thread k' = current_thread k) by by rewrite Ek.
  assert (Ei : idle_thread k' = idle_thread k) by by rewrite Ek.
  assert (Ha : thread_addrs (threads k') (survivors k rq) = thread_addrs (threads k) (survivors k rq)).
  { apply (reaped_addrs k rq); [done|]. intros t [Ht _]%elem_of_survivors. done. }
  pose proof (thread_addrs_filter (threads k) rq (reapable k)) as Hperm. fold (survivors k rq) in Hperm.
  pose proof (si_addrs _ _ _ I) as Hnd. rewrite Hperm in Hnd. apply NoDup_app in Hnd as (Hnd & Hdis & _).
  split; [|split_and!; [done|by rewrite Eh|reflexivity|by rewrite Eh]].
  split.
  - done.
  - specialize (Hr 0). by rewrite (si_null _ _ _ I) in Hr.
  - rewrite Ec. destruct (si_current _ _ _ I) as [Hc|Hc]; [by left|right].
    apply elem_of_survivors. split; [apply reapable_current|done].
  - rewrite Ei. destruct (si_idle _ _ _ I) as [Hc|Hc]; [by left|right].
    apply elem_of_survivors. split; [by eapply reapable_idle|done].
  - rewrite Ek. apply I.
  - rewrite Ek. apply I.
  - by rewrite Eh.
  - by rewrite Ha.
  - rewrite Ha. intros a Hin. rewrite deletes_lookup, bool_decide_eq_false_2 by by apply Hdis.
    apply (si_live _ _ _ I). rewrite Hperm. apply elem_of_app. by left.
  - intros t y [Ht Hin]%elem_of_survivors Hy. specialize (Hr t).
    destruct (run_queue_thread k rq t (si_queue _ _ _ I) Hin) as [x Hx].
    rewrite Hx, Ht, andb_false_r in Hr. destruct Hr as (y' & Hy' & Hs).
    assert (y' = y) as -> by congruence.
    eapply thread_ok_next; [by apply (si_threads _ _ _ I)|done|done|done].
Qed.
End reap.
