(* ===== verification/SchedYield.v ===== *)
(** * Switching threads

    [sched_yield] as a whole: the scheduler's invariant, the saved contexts on the
    threads' stacks, the choice, the switch and its fairness. *)

From S2P Require Import Prelude LinkedList PhysMem Switch KState Sched SchedCore SchedReap.

Section yield.
Context {H : Type} `{KAllocSpec H}.
Implicit Types (k : kernel H) (rq order : list Z).

(** What [sched_assert_can_switch] asks for. *)
Definition can_switch k : Prop :=
  schedule_locked k = false /\ spinlock_depth k = 0 /\ irq_depth k = 0.

(** ** Stacks and contexts *)

(** The kernel stack of a thread is one allocation. *)
Definition stack_owned (live : gmap Z Z) (x : thread) : Prop :=
  exists m, live !! stack_base x = Some m /\ stack_size x <= m.

Definition on_stack (x : thread) (lo hi : Z) : Prop :=
  stack_base x <= lo /\ hi <= stack_base x + stack_size x.

(** A thread that is not running has its context saved on its own stack. *)
Definition parked k (x : thread) : Prop :=
  exists c, saved_context (stacks (mach k)) (stack_pointer x) c /\
    on_stack x (stack_pointer x) (stack_pointer x + 56).

(** The running code is on the current thread's stack, or on the boot stack, with
    room for the frame of a switch. *)
Definition cpu_stack_ok k : Prop :=
  match threads k !! current_thread k with
  | Some x => on_stack x (rsp (regs (mach k)) - 56) (rsp (regs (mach k)))
  | None => rsp (regs (mach k)) <= mem_lo \/ mem_hi <= rsp (regs (mach k)) - 56
  end.

Record ctx_inv (live : gmap Z Z) rq k : Prop := {
  cx_owned : forall t x, t ∈ rq -> threads k !! t = Some x -> stack_owned live x;
  cx_parked : forall t x, t ∈ rq -> t <> current_thread k -> threads k !! t = Some x -> parked k x;
  cx_cpu : cpu_stack_ok k
}.

Lemma thread_addrs_inj m l t1 t2 x1 x2 :
  NoDup (thread_addrs m l) -> t1 ∈ l -> t2 ∈ l -> m !! t1 = Some x1 -> m !! t2 = Some x2 ->
  t1 <> t2 -> stack_base x1 <> stack_base x2.
Proof.
  intros Hnd Ht1 Ht2 E1 E2 Hne Heq. induction l as [|t l IH]; [by apply not_elem_of_nil in Ht1|].
  simpl in Hnd. apply NoDup_app in Hnd as (_ & Hdis & Hnd).
  assert (Hbad : forall a b x y, t = a -> m !! a = Some x -> b ∈ l -> m !! b = Some y ->
    stack_base x = stack_base y -> False).
  { intros a b x y -> Ea Hb Eb Es. rewrite Ea in Hdis. apply (Hdis (stack_base x)); [left|].
    apply elem_of_thread_addrs. exists b, y. auto. }
  apply elem_of_cons in Ht1 as [->|Ht1]; apply elem_of_cons in Ht2 as [->|Ht2]; try done.
  - by eapply Hbad.
  - by eapply Hbad.
  - by apply IH.
Qed.

(** Where a switch saves the leaving context is on no other thread's stack. *)
Lemma save_area_apart live rq k t x a :
  sched_inv live rq k -> ctx_inv live rq k -> t ∈ rq -> t <> current_thread k ->
  threads k !! t = Some x -> stack_base x <= a < stack_base x + stack_size x ->
  ~ in_frame (rsp (regs (mach k)) - 56) a.
Proof.
  intros I C Ht Hc Hx Ha Hin. unfold in_frame in Hin.
  destruct (cx_owned _ _ _ C t x Ht Hx) as (m & Hm & Hs).
  pose proof (cx_cpu _ _ _ C) as Hcpu. unfold cpu_stack_ok in Hcpu.
  destruct (threads k !! current_thread k) as [y|] eqn:Hy.
  - destruct (si_current _ _ _ I) as [Hz|Hcin]; [by rewrite Hz, (si_null _ _ _ I) in Hy|].
    destruct (cx_owned _ _ _ C _ y Hcin Hy) as (n & Hn & Hsn).
    pose proof (thread_addrs_inj _ _ _ _ _ _ (si_addrs _ _ _ I) Ht Hcin Hx Hy Hc) as Hne.
    destruct (mem_disjoint_law live (kheap k) _ _ _ _ (si_mem _ _ _ I) Hm Hn Hne);
      unfold on_stack in Hcpu; lia.
  - destruct (mem_range_law live (kheap k) _ _ (si_mem _ _ _ I) Hm). lia.
Qed.

(** ** The switch *)

(** [sched_yield] after the choice. *)
Definition switch_tail (prv nxt : Z) : M (kernel H) (option (Z * Z)) :=
  if bool_decide (nxt = 0) || bool_decide (nxt = prv) then mret None
  else
    modify (fun k => k <| schedule_locked := true |>) ;;
    running ← thread_is_running prv;
    when running (thread_set_ready prv) ;;
    thread_set_running nxt ;;
    modify (fun k => k <| current_thread := nxt |>) ;;
    modify (fun k => k <| schedule_locked := false |>) ;;
    x ← thread_at nxt;
    saved ← on_machine (call_context_switch "sched_yield" (stack_pointer x));
    (if bool_decide (prv = 0) then modify (fun k => k <| boot_stack_pointer := saved |>)
     else set_thread prv (fun y => y <| stack_pointer := saved |>)) ;;
    mret (Some (prv, nxt)).

(** A thread record after a switch from [prv] to [nxt]. *)
Definition after_switch (prv nxt saved : Z) (t : Z) (x : thread) : thread :=
  if bool_decide (t = nxt) then x <| state := THREAD_RUNNING |>
  else if bool_decide (t = prv) then
    (if bool_decide (state x = THREAD_RUNNING) then x <| state := THREAD_READY |> <| wake_tick := 0 |> else x)
      <| stack_pointer := saved |>
  else x.

Lemma on_machine_run {A} (m : M machine A) k a h :
  m (mach k) = Ret a h -> on_machine m k = Ret a (k <| mach := h |>).
Proof. intros E. unfold on_machine. by erewrite zoom_run by exact E. Qed.

(** [if (thread_is_running(prev)) thread_set_ready(prev);] *)
Definition demote (x : thread) : thread :=
  if bool_decide (state x = THREAD_RUNNING) then x <| state := THREAD_READY |> <| wake_tick := 0 |> else x.

Lemma demote_run {A} k prv (rest : M (kernel H) A) :
  threads k !! 0 = None -> (prv = 0 \/ is_Some (threads k !! prv)) ->
  (running ← thread_is_running prv; when running (thread_set_ready prv) ;; rest) k =
  rest (k <| threads ::= alter demote prv |>).
Proof.
  intros Hz Hp. destruct (decide (prv = 0)) as [->|Hp0].
  - assert (E : k <| threads ::= alter demote 0 |> = k).
    { destruct k. simpl in *. by rewrite alter_id by (intros ?; congruence). }
    rewrite E. unfold thread_is_running, thread_is. by rewrite bool_decide_eq_true_2.
  - destruct Hp as [|[x Hx]]; [done|].
    erewrite bind_run by by apply (thread_is_run THREAD_RUNNING k prv x). unfold is_in. rewrite Hx.
    assert (Ea : k <| threads ::= alter demote prv |> = k <| threads ::= <[prv := demote x]> |>).
    { simpl. f_equal. apply map_eq. intros j. destruct (decide (j = prv)) as [->|].
      - by rewrite lookup_alter_eq, lookup_insert_eq, Hx.
      - by rewrite lookup_alter_ne, lookup_insert_ne by done. }
    rewrite Ea. unfold demote. case_bool_decide as Es; mred.
    + assert (Hv : thread_state_transition_is_valid (state x) THREAD_READY = true) by by rewrite Es.
      by erewrite bind_run by exact (set_state_tick_run k prv x THREAD_READY 0 Hp0 Hx Hv).
    + by rewrite (insert_same k prv x).
Qed.

Lemma switch_tail_run live rq k nxt xn :
  sched_inv live rq k -> ctx_inv live rq k -> nxt ∈ rq -> nxt <> current_thread k ->
  threads k !! nxt = Some xn -> state xn = THREAD_READY ->
  exists k' c mem',
    switch_tail (current_thread k) nxt k = Ret (Some (current_thread k, nxt)) k' /\
    saved_context (stacks (mach k)) (stack_pointer xn) c /\ mach k' = Machine c mem' /\
    (let saved := rsp (regs (mach k)) - 56 in
     saved_context mem' saved (frame_of "sched_yield" (regs (mach k))) /\
     (forall a, ~ in_frame saved a -> mem' !! a = stacks (mach k) !! a) /\
     (forall t, threads k' !! t = after_switch (current_thread k) nxt saved t <$> threads k !! t)) /\
    current_thread k' = nxt /\ schedule_locked k' = false /\
    k' = k <| threads := threads k' |> <| mach := mach k' |> <| current_thread := current_thread k' |>
           <| boot_stack_pointer := boot_stack_pointer k' |> <| schedule_locked := schedule_locked k' |>.
Proof.
  intros I C Hin Hne Hxn Hst.
  assert (Hn0 : nxt <> 0) by (eapply run_queue_nonzero; [apply I|done]).
  assert (Hcur : current_thread k = 0 \/ is_Some (threads k !! current_thread k)).
  { destruct (si_current _ _ _ I) as [|Hc]; [by left|right].
    destruct (run_queue_thread _ _ _ (si_queue _ _ _ I) Hc) as [y Hy]. by exists y. }
  destruct (cx_parked _ _ _ C nxt xn Hin Hne Hxn) as (c & Hc & Hon).
  set (prv := current_thread k). unfold switch_tail. fold prv.
  rewrite !bool_decide_eq_false_2 by done. cbn [orb]. mred. rewrite demote_run; [|apply I|exact Hcur].
  set (k1 := _ <| threads ::= alter demote prv |>).
  assert (Hxn1 : threads k1 !! nxt = Some xn) by (unfold k1; simpl; by rewrite lookup_alter_ne).
  assert (Hv : thread_state_transition_is_valid (state xn) THREAD_RUNNING = true) by by rewrite Hst.
  erewrite bind_run by exact (set_state_run k1 nxt xn THREAD_RUNNING Hn0 Hxn1 Hv). mred.
  erewrite bind_run by (apply thread_at_run; simpl; apply lookup_insert_eq).
  destruct (call_context_switch_run "sched_yield" (stack_pointer xn) (mach k) c Hc) as (mem' & E & Hs & Hsame).
  { intros a Ha. eapply (save_area_apart live rq k nxt xn); try done. unfold in_frame, on_stack in *. lia. }
  erewrite bind_run by (apply on_machine_run; exact E). simpl.
  set (saved := rsp (regs (mach k)) - 56) in *.
  assert (Hthr : forall t, alter (fun y => y <| stack_pointer := saved |>) prv
      (<[nxt := xn <| state := THREAD_RUNNING |>]> (alter demote prv (threads k))) !! t =
    after_switch prv nxt saved t <$> threads k !! t).
  { intros t. unfold after_switch. destruct (decide (t = nxt)) as [->|Hn].
    - rewrite lookup_alter_ne, lookup_insert_eq, bool_decide_eq_true_2 by done. by rewrite Hxn.
    - rewrite (bool_decide_eq_false_2 (t = nxt)) by done. destruct (decide (t = prv)) as [->|Hp].
      + rewrite lookup_alter_eq, lookup_insert_ne, lookup_alter_eq, bool_decide_eq_true_2 by done.
        by destruct (threads k !! prv).
      + rewrite lookup_alter_ne, lookup_insert_ne, lookup_alter_ne by done.
        rewrite bool_decide_eq_false_2 by done. by destruct (threads k !! t). }
  case_bool_decide as Ep.
  - eexists _, c, mem'. split; [reflexivity|]. simpl. split_and!; try done.
    intros t. rewrite <- Hthr. simpl.
    destruct (decide (t = 0)) as [->|Ht]; [|by rewrite (lookup_alter_ne _ _ prv) by congruence].
    rewrite Ep, lookup_alter_eq, lookup_insert_ne by done.
    rewrite lookup_alter_eq, (si_null _ _ _ I). done.
  - destruct Hcur as [Hcur|[y Hy]]; [done|].
    erewrite bind_run.
    2:{ apply set_thread_run. simpl. rewrite lookup_insert_ne by done.
        rewrite lookup_alter_eq. fold prv in Hy. rewrite Hy. reflexivity. }
    eexists _, c, mem'. split; [reflexivity|]. simpl. split_and!; try done.
    intros t. rewrite <- Hthr. destruct (decide (t = prv)) as [->|Ht].
    + rewrite lookup_insert_eq, lookup_alter_eq, lookup_insert_ne, lookup_alter_eq by done.
      fold prv in Hy. by rewrite Hy.
    + by rewrite lookup_insert_ne, lookup_alter_ne by done.
Qed.

Lemma after_switch_next prv nxt saved t x : next (after_switch prv nxt saved t x) = next x.
Proof. unfold after_switch. repeat case_bool_decide; done. Qed.

Lemma after_switch_stack prv nxt saved t x :
  stack_base (after_switch prv nxt saved t x) = stack_base x /\
  stack_size (after_switch prv nxt saved t x) = stack_size x /\
  wait_queue (after_switch prv nxt saved t x) = wait_queue x /\
  wait_next (after_switch prv nxt saved t x) = wait_next x.
Proof. unfold after_switch. repeat case_bool_decide; done. Qed.

Lemma after_switch_state prv nxt saved t x :
  state (after_switch prv nxt saved t x) =
  if bool_decide (t = nxt) then THREAD_RUNNING
  else if bool_decide (t = prv) && bool_decide (state x = THREAD_RUNNING) then THREAD_READY else state x.
Proof. unfold after_switch. repeat case_bool_decide; done. Qed.

(** What [switch_tail_run] gives, as a relation between the states. *)
Record switched k (nxt : Z) k' : Prop := {
  sw_next : exists xn c, threads k !! nxt = Some xn /\ state xn = THREAD_READY /\
    saved_context (stacks (mach k)) (stack_pointer xn) c /\ regs (mach k') = c;
  sw_saved : saved_context (stacks (mach k')) (rsp (regs (mach k)) - 56) (frame_of "sched_yield" (regs (mach k)));
  sw_stacks : forall a, ~ in_frame (rsp (regs (mach k)) - 56) a -> stacks (mach k') !! a = stacks (mach k) !! a;
  sw_threads : forall t, threads k' !! t =
    after_switch (current_thread k) nxt (rsp (regs (mach k)) - 56) t <$> threads k !! t;
  sw_current : current_thread k' = nxt;
  sw_unlocked : schedule_locked k' = false;
  sw_frame : k' = k <| threads := threads k' |> <| mach := mach k' |> <| current_thread := current_thread k' |>
           <| boot_stack_pointer := boot_stack_pointer k' |> <| schedule_locked := schedule_locked k' |>
}.

Lemma switched_queue k nxt k' rq : switched k nxt k' -> run_queue k rq -> run_queue k' rq.
Proof.
  intros W [Hl Ht]. rewrite (sw_frame _ _ _ W). split; [|exact Ht]. eapply lseg_ext; [|exact Hl].
  intros t _. unfold tnext. simpl. rewrite (sw_threads _ _ _ W). destruct (threads k !! t); [|done].
  simpl. by rewrite after_switch_next.
Qed.

Lemma switched_addrs k nxt k' l : switched k nxt k' -> thread_addrs (threads k') l = thread_addrs (threads k) l.
Proof.
  intros W. apply thread_addrs_ext. intros t _. rewrite (sw_threads _ _ _ W).
  destruct (threads k !! t) as [x|]; [|done]. simpl. by rewrite (proj1 (after_switch_stack _ _ _ _ x)).
Qed.

Lemma switched_sched_inv live rq k nxt k' :
  sched_inv live rq k -> nxt ∈ rq -> nxt <> current_thread k -> switched k nxt k' -> sched_inv live rq k'.
Proof.
  intros I Hn Hne W. pose proof (sw_frame _ _ _ W) as Ef. split.
  - by eapply switched_queue; [|apply I].
  - by rewrite (sw_threads _ _ _ W), (si_null _ _ _ I).
  - right. by rewrite (sw_current _ _ _ W).
  - rewrite Ef. apply I.
  - rewrite Ef. apply I.
  - rewrite Ef. apply I.
  - rewrite Ef. apply I.
  - rewrite (switched_addrs _ _ _ _ W). apply I.
  - rewrite (switched_addrs _ _ _ _ W). apply I.
  - intros t y Ht. rewrite (sw_threads _ _ _ W). intros (x & Hx & ->)%fmap_Some.
    destruct (si_threads _ _ _ I t x Ht Hx) as [O1 O2 O3 O4].
    assert (Ei : idle_thread k' = idle_thread k) by by rewrite Ef.
    destruct (after_switch_stack (current_thread k) nxt (rsp (regs (mach k)) - 56) t x) as (S1 & S2 & S3 & S4).
    pose proof (after_switch_state (current_thread k) nxt (rsp (regs (mach k)) - 56) t x) as Es.
    destruct (sw_next _ _ _ W) as (xn & c & Hxn & Hr & _).
    split; rewrite ?S1, ?S2, ?S3, ?S4, ?Es, ?Ei, ?(sw_current _ _ _ W); try done.
    + case_bool_decide; [done|]. by destruct (_ && _).
    + case_bool_decide as E1; [done|]. destruct (_ && _) eqn:E2; [done|]. intros Hs.
      specialize (O2 Hs). subst t. rewrite !bool_decide_eq_true_2 in E2 by done. done.
    + case_bool_decide as E1; [done|]. by destruct (_ && _).
Qed.

Lemma switched_ctx_inv live rq k nxt k' :
  sched_inv live rq k -> ctx_inv live rq k -> nxt ∈ rq -> nxt <> current_thread k ->
  switched k nxt k' -> ctx_inv live rq k'.
Proof.
  intros I C Hn Hne W. set (saved := rsp (regs (mach k)) - 56).
  assert (Hback : forall t y, threads k' !! t = Some y -> exists x, threads k !! t = Some x /\
    y = after_switch (current_thread k) nxt saved t x).
  { intros t y. rewrite (sw_threads _ _ _ W). intros (x & Hx & ->)%fmap_Some. by exists x. }
  split.
  - intros t y Ht (x & Hx & ->)%Hback. destruct (cx_owned _ _ _ C t x Ht Hx) as (m & Hm & Hs).
    exists m. destruct (after_switch_stack (current_thread k) nxt saved t x) as (-> & -> & _). done.
  - intros t y Ht Hc (x & Hx & ->)%Hback. rewrite (sw_current _ _ _ W) in Hc.
    unfold parked, on_stack.
    destruct (after_switch_stack (current_thread k) nxt saved t x) as (-> & -> & _).
    unfold after_switch. rewrite bool_decide_eq_false_2 by done. case_bool_decide as Et.
    + subst t. simpl. eexists. split; [apply (sw_saved _ _ _ W)|].
      pose proof (cx_cpu _ _ _ C) as Hcpu. unfold cpu_stack_ok in Hcpu. rewrite Hx in Hcpu.
      unfold on_stack in Hcpu. unfold saved. lia.
    + destruct (cx_parked _ _ _ C t x Ht Et Hx) as (c & Hcx & Hon). exists c. split; [|exact Hon].
      eapply saved_context_frame; [exact Hcx|]. intros a Ha. apply (sw_stacks _ _ _ W).
      eapply (save_area_apart live rq k t x); try done. unfold in_frame, on_stack in *. lia.
  - destruct (sw_next _ _ _ W) as (xn & c & Hxn & _ & Hcx & Hregs).
    unfold cpu_stack_ok. rewrite (sw_current _ _ _ W), (sw_threads _ _ _ W), Hxn. simpl.
    unfold on_stack. fold saved. destruct (after_switch_stack (current_thread k) nxt saved nxt xn) as (-> & -> & _).
    destruct (cx_parked _ _ _ C nxt xn Hn Hne Hxn) as (c' & Hc' & Hon). rewrite Hregs.
    destruct Hcx as (_ & _ & _ & _ & _ & _ & _ & ->). unfold on_stack in Hon. lia.
Qed.

(** ** Reaping under the contexts *)

Lemma reaped_is_in k rq m' k1 s t :
  reaped k rq m' -> threads k1 = m' -> reapable k t = false -> is_in s k1 t = is_in s k t.
Proof.
  intros Hr <- Ht. specialize (Hr t). unfold is_in. destruct (threads k !! t) as [x|].
  - rewrite Ht, andb_false_r in Hr. destruct Hr as (y & -> & ->). done.
  - by rewrite Hr.
Qed.

Lemma reaped_thread k rq m' t y :
  reaped k rq m' -> m' !! t = Some y -> exists x, threads k !! t = Some x /\ same_but_next x y.
Proof.
  intros Hr Hy. specialize (Hr t). destruct (threads k !! t) as [x|]; [|congruence].
  exists x. split; [done|]. destruct (_ && _); [congruence|]. destruct Hr as (y' & Hy' & Hs). assert (y' = y) as -> by congruence. done.
Qed.

Lemma reap_ctx_inv live live' rq k k1 :
  sched_inv live rq k -> ctx_inv live rq k -> reaped k rq (threads k1) ->
  sched_inv live' (survivors k rq) k1 -> mach k1 = mach k -> current_thread k1 = current_thread k ->
  live' = deletes (thread_addrs (threads k) (reverse (List.filter (reapable k) rq))) live ->
  ctx_inv live' (survivors k rq) k1.
Proof.
  intros I C Hr I1 Hm Hc El. split.
  - intros t y Ht Hy. destruct (reaped_thread _ _ _ _ _ Hr Hy) as (x & Hx & Hs).
    apply elem_of_survivors in Ht as [Hnr Ht]. destruct (cx_owned _ _ _ C t x Ht Hx) as (m & Hl & Hsz).
    exists m. rewrite Hs. simpl. split; [|done]. rewrite El, deletes_lookup, bool_decide_eq_false_2; [done|].
    intros (t' & x' & Ht' & Hx' & Heq)%elem_of_thread_addrs.
    apply elem_of_reverse, elem_of_List_filter in Ht' as [Hr' Ht'].
    assert (t <> t') by congruence.
    pose proof (thread_addrs_filter (threads k) rq (reapable k)) as Hperm. fold (survivors k rq) in Hperm.
    pose proof (si_addrs _ _ _ I) as Hnd. rewrite Hperm in Hnd. apply NoDup_app in Hnd as (_ & Hdis & _).
    apply (Hdis (stack_base x)); apply elem_of_thread_addrs.
    + exists t, x. split_and!; [by apply elem_of_survivors|done|by left].
    + exists t', x'. split_and!; [by apply elem_of_reverse, elem_of_List_filter|done|done].
  - intros t y Ht Hct Hy. destruct (reaped_thread _ _ _ _ _ Hr Hy) as (x & Hx & Hs).
    apply elem_of_survivors in Ht as [Hnr Ht]. rewrite Hc in Hct.
    destruct (cx_parked _ _ _ C t x Ht Hct Hx) as (c & Hsc & Hon). exists c. rewrite Hm, Hs. done.
  - pose proof (cx_cpu _ _ _ C) as Hcpu. unfold cpu_stack_ok in *. rewrite Hc, Hm.
    specialize (Hr (current_thread k)). destruct (threads k !! current_thread k) as [x|].
    + rewrite reapable_current, andb_false_r in Hr. destruct Hr as (y & -> & ->). done.
    + by rewrite Hr.
Qed.

Lemma search_order_elem rq cur order t : search_order rq cur order -> (t ∈ order) <-> (t ∈ rq).
Proof. intros [|pre post -> _]; [done|]. set_solver. Qed.

Lemma pick_reaped live rq k k1 order :
  sched_inv live rq k -> reaped k rq (threads k1) -> idle_thread k1 = idle_thread k ->
  (forall t, t ∈ order -> reapable k t = false) -> pick k1 order = pick k order.
Proof.
  intros I Hr Hi Ho. unfold pick.
  rewrite Hi, (reaped_is_in k rq _ k1 THREAD_READY (idle_thread k) Hr eq_refl (reapable_idle _ _ _ I)).
  assert (Hf : List.find (eligible k1) order = List.find (eligible k) order).
  { induction order as [|t order IH]; [done|]. simpl. unfold eligible at 1 3. rewrite Hi.
    rewrite (reaped_is_in k rq _ k1 _ t Hr eq_refl) by (apply Ho; left).
    destruct (_ && _); [done|]. apply IH. intros y Hy. apply Ho. by right. }
  by rewrite Hf.
Qed.

Lemma pick_in k rq order :
  (idle_thread k = 0 \/ idle_thread k ∈ rq) -> (forall t, t ∈ order -> t ∈ rq) ->
  pick k order <> 0 -> pick k order ∈ rq /\ is_in THREAD_READY k (pick k order) = true.
Proof.
  intros Hi Ho. unfold pick. destruct (List.find (eligible k) order) as [t|] eqn:Ef.
  - intros _. apply List.find_some in Ef as [Hin He]. apply andb_true_iff in He as [He _].
    split; [|done]. apply Ho. by apply list_elem_of_In.
  - destruct (is_in _ _ _) eqn:Er; [|done]. intros Hnz. destruct Hi as [|Hi]; [done|]. done.
Qed.

(** ** [sched_yield] *)

Lemma can_switch_run k : can_switch k -> sched_assert_can_switch k = Ret tt k.
Proof.
  intros (Sl & Sd & Si). unfold sched_assert_can_switch, spinlock_held_count. mred. rewrite Sl. mred.
  rewrite Sd. cbn [negb bool_decide]. rewrite (bool_decide_eq_true_2 (0 = 0)) by done. cbn [negb]. mred.
  rewrite Si. done.
Qed.

Lemma schedule_unfold k :
  schedule k = (sched_assert_can_switch ;; sched_reap_dead_threads ;; prv ← gets current_thread;
                nxt ← next_runnable_thread; switch_tail prv nxt) k.
Proof. reflexivity. Qed.

(** The memory of the threads reaped is back with the allocator. *)
Definition reclaimed k rq (live' : gmap Z Z) : Prop :=
  forall t x, t ∈ rq -> reapable k t = true -> threads k !! t = Some x ->
    live' !! t = None /\ live' !! stack_base x = None.

Lemma deletes_reclaimed k rq live :
  reclaimed k rq (deletes (thread_addrs (threads k) (reverse (List.filter (reapable k) rq))) live).
Proof.
  intros t x Hin Hr Hx. rewrite !deletes_lookup, !bool_decide_eq_true_2; [done|..];
    apply elem_of_thread_addrs; exists t, x; rewrite elem_of_reverse, elem_of_List_filter; auto.
Qed.

(** The state between the reaping and the switch. *)
Lemma schedule_run live rq k order :
  sched_inv live rq k -> ctx_inv live rq k -> can_switch k ->
  search_order (survivors k rq) (current_thread k) order ->
  exists k1 live', reaped k rq (threads k1) /\ mach k1 = mach k /\ current_thread k1 = current_thread k /\
    sched_inv live' (survivors k rq) k1 /\ ctx_inv live' (survivors k rq) k1 /\ can_switch k1 /\
    schedule k = switch_tail (current_thread k) (pick k order) k1 /\
    idle_thread k1 = idle_thread k /\ need_resched k1 = need_resched k /\ reclaimed k rq live'.
Proof.
  intros I C S Ho. destruct (reap_inv live rq k I) as (k1 & live' & E & I1 & Hr & _ & El & Ek).
  assert (Hm : mach k1 = mach k) by by rewrite Ek.
  assert (Hc : current_thread k1 = current_thread k) by by rewrite Ek.
  assert (Hi : idle_thread k1 = idle_thread k) by by rewrite Ek.
  exists k1, live'. split_and!; try done.
  - by eapply reap_ctx_inv.
  - by rewrite Ek.
  - rewrite schedule_unfold. mrun (can_switch_run k S). mrun E. mred. rewrite Hc.
    erewrite bind_run by (apply (next_runnable_run k1 (survivors k rq) order);
      [apply I1|apply I1|by rewrite Hc]).
    rewrite (pick_reaped live rq k k1 order I Hr Hi); [done|].
    intros t Ht. apply (search_order_elem _ _ _ _ Ho), elem_of_survivors in Ht as [Ht _]. done.
  - by rewrite Ek.
  - rewrite El. apply deletes_reclaimed.
Qed.

Lemma is_in_lookup s k t : is_in s k t = true -> exists x, threads k !! t = Some x /\ state x = s.
Proof.
  unfold is_in. destruct (threads k !! t) as [x|]; [|done]. intros Hs%bool_decide_eq_true_1. by exists x.
Qed.

(** Either nothing to switch to, or the switch to the thread chosen. *)
Lemma schedule_cases live rq k order :
  sched_inv live rq k -> ctx_inv live rq k -> can_switch k ->
  search_order (survivors k rq) (current_thread k) order ->
  exists k1 k' live', reaped k rq (threads k1) /\ mach k1 = mach k /\
    current_thread k1 = current_thread k /\ idle_thread k' = idle_thread k /\
    need_resched k' = need_resched k /\ reclaimed k rq live' /\ sched_inv live' (survivors k rq) k' /\ ctx_inv live' (survivors k rq) k' /\ can_switch k' /\
    if bool_decide (pick k order = 0) || bool_decide (pick k order = current_thread k)
    then schedule k = Ret None k' /\ k' = k1
    else schedule k = Ret (Some (current_thread k, pick k order)) k' /\ switched k1 (pick k order) k'.
Proof.
  intros I C S Ho.
  destruct (schedule_run live rq k order I C S Ho) as (k1 & live' & Hr & Hm & Hc & I1 & C1 & S1 & E & Hi & Hnr & Hrc).
  rewrite E. unfold switch_tail. destruct (_ || _) eqn:Eb.
  { exists k1, k1, live'. split_and!; done. }
  apply orb_false_iff in Eb as [Hn0%bool_decide_eq_false_1 Hnc%bool_decide_eq_false_1].
  assert (Ho1 : forall t, t ∈ order -> reapable k t = false).
  { intros t Ht. apply (search_order_elem _ _ _ _ Ho), elem_of_survivors in Ht as [Ht _]. done. }
  pose proof (pick_reaped live rq k k1 order I Hr Hi Ho1) as Ep.
  destruct (pick_in k1 (survivors k rq) order) as [Hin Hrdy].
  { apply I1. }
  { intros t Ht. by apply (search_order_elem _ _ _ _ Ho). }
  { by rewrite Ep. }
  rewrite Ep in Hin, Hrdy. apply is_in_lookup in Hrdy as (xn & Hxn & Hst).
  rewrite <- Hc in Hnc.
  destruct (switch_tail_run live' (survivors k rq) k1 (pick k order) xn I1 C1 Hin Hnc Hxn Hst)
    as (k' & c & mem' & E' & Hsc & Hmach & (Hsv & Hst' & Hthr) & Hcur & Hlk & Hf).
  assert (W : switched k1 (pick k order) k').
  { split; try done; rewrite ?Hmach; try done. exists xn, c. done. }
  exists k1, k', live'. split_and!; try done.
  - by rewrite Hf.
  - by rewrite Hf.
  - by eapply switched_sched_inv.
  - by eapply switched_ctx_inv.
  - unfold can_switch. rewrite Hlk, Hf. split; [done|]. apply S1.
  - unfold switch_tail in E'. rewrite !bool_decide_eq_false_2 in E' by done. by rewrite <- Hc.
Qed.

(** C1.  [sched_yield] from a thread that may switch: exited threads are reaped, and
    the round-robin choice [pick] decides.  With nothing to switch to, the call
    returns where it is.  Otherwise the chosen thread is RUNNING and current, the
    CPU holds the context saved on its stack, a running predecessor is READY with its
    own context saved for its return, no other thread's state changes, and the
    scheduler's invariant holds again. *)
Theorem sched_yield_switches live rq k order :
  sched_inv live rq k -> ctx_inv live rq k -> can_switch k ->
  search_order (survivors k rq) (current_thread k) order ->
  let nxt := pick k order in
  exists r k' live', schedule k = Ret r k' /\
    sched_inv live' (survivors k rq) k' /\ ctx_inv live' (survivors k rq) k' /\ can_switch k' /\
    ((r = None /\ (nxt = 0 \/ nxt = current_thread k) /\ current_thread k' = current_thread k /\
      mach k' = mach k /\ forall s t, t ∈ survivors k rq -> is_in s k' t = is_in s k t) \/
     (r = Some (current_thread k, nxt) /\ nxt <> 0 /\ nxt <> current_thread k /\ current_thread k' = nxt /\
      is_in THREAD_RUNNING k' nxt = true /\
      (exists xn, threads k !! nxt = Some xn /\
         saved_context (stacks (mach k)) (stack_pointer xn) (regs (mach k'))) /\
      saved_context (stacks (mach k')) (rsp (regs (mach k)) - 56) (frame_of "sched_yield" (regs (mach k))) /\
      (forall x, threads k' !! current_thread k = Some x -> stack_pointer x = rsp (regs (mach k)) - 56) /\
      forall s t, t ∈ survivors k rq -> t <> nxt ->
        is_in s k' t = if bool_decide (t = current_thread k) && is_in THREAD_RUNNING k t
                       then bool_decide (THREAD_READY = s) else is_in s k t)).
Proof.
  intros I C S Ho nxt.
  destruct (schedule_cases live rq k order I C S Ho) as (k1 & k' & live' & Hr & Hm & Hc & _ & _ & _ & I' & C' & S' & Hk).
  fold nxt in Hk. destruct (_ || _) eqn:Eb.
  - destruct Hk as [E ->]. exists None, k1, live'. split_and!; try done. left. split_and!; try done.
    + apply orb_true_iff in Eb as [Eb|Eb]; apply bool_decide_eq_true_1 in Eb; auto.
    + intros s t [Ht _]%elem_of_survivors. by apply (reaped_is_in k rq (threads k1)).
  - destruct Hk as [E W]. apply orb_false_iff in Eb as [Hn0%bool_decide_eq_false_1 Hnc%bool_decide_eq_false_1].
    eexists _, k', live'. split; [exact E|]. split_and!; try done. right.
    pose proof (sw_threads _ _ _ W) as Hthr. rewrite Hc, Hm in Hthr.
    destruct (sw_next _ _ _ W) as (xn1 & c & Hxn1 & Hst & Hsc & Hrg).
    split_and!; try done.
    + apply W.
    + unfold is_in. rewrite Hthr, Hxn1. simpl. by rewrite after_switch_state, (bool_decide_eq_true_2 (nxt = nxt)) by done.
    + destruct (reaped_thread _ _ _ _ _ Hr Hxn1) as (x & Hx & Hs). exists x. split; [done|].
      rewrite Hrg. rewrite Hs, Hm in Hsc. exact Hsc.
    + rewrite <- Hm. apply W.
    + intros x. rewrite Hthr. intros (y & _ & ->)%fmap_Some. unfold after_switch.
      rewrite bool_decide_eq_false_2, bool_decide_eq_true_2 by congruence. done.
    + intros s t [Ht _]%elem_of_survivors Hne.
      rewrite <- !(reaped_is_in k rq (threads k1) k1 _ t Hr eq_refl Ht).
      unfold is_in. rewrite Hthr. destruct (threads k1 !! t) as [x|]; [|simpl; by rewrite andb_false_r].
      simpl. rewrite after_switch_state, (bool_decide_eq_false_2 (t = nxt)) by done. by destruct (_ && _).
Qed.

(** The guard of [sched_yield]: while a switch is in progress, a spinlock is held
    or an interrupt is being served, the call panics before it changes anything. *)
Theorem sched_yield_guard k :
  ~ can_switch k ->
  exists msg, schedule k = Panicked msg k /\
    (msg = "scheduler reentry while switch locked"%string \/
     msg = "scheduler called while spinlock held"%string \/
     msg = "scheduler called from irq context"%string).
Proof.
  intros S. rewrite schedule_unfold.
  assert (E : exists msg, sched_assert_can_switch k = Panicked msg k /\
    (msg = "scheduler reentry while switch locked"%string \/
     msg = "scheduler called while spinlock held"%string \/
     msg = "scheduler called from irq context"%string)).
  { unfold can_switch in S. unfold sched_assert_can_switch, spinlock_held_count. mred.
    destruct (schedule_locked k) eqn:El; [eexists; split; [reflexivity|auto]|]. mred.
    destruct (bool_decide (spinlock_depth k = 0)) eqn:Ed; cbn [negb]; [|eexists; split; [reflexivity|auto]].
    mred. destruct (bool_decide (irq_depth k = 0)) eqn:Ei; cbn [negb]; [|eexists; split; [reflexivity|auto]].
    apply bool_decide_eq_true_1 in Ed, Ei. by destruct S. }
  destruct E as (msg & E & Hmsg). exists msg. split; [|done].
  by rewrite (bind_panic sched_assert_can_switch _ k msg k E).
Qed.

(** ** Fairness *)

(** At most [n] threads come before [t] in the search from [cur]. *)
Definition ahead rq (cur t : Z) (n : nat) : Prop :=
  exists p1 p2, search_order rq cur (p1 ++ t :: p2) /\ (length p1 <= n)%nat.

Lemma search_order_filter (f : Z -> bool) rq cur order :
  (cur = 0 \/ f cur = true) -> search_order rq cur order ->
  search_order (List.filter f rq) cur (List.filter f order).
Proof.
  intros Hf [Hc|pre post -> Hc]; [by apply OrderBoot|]. destruct Hf as [|Hf]; [done|].
  rewrite !List.filter_app. simpl. rewrite Hf. by apply OrderFrom.
Qed.

Lemma ahead_filter (f : Z -> bool) rq cur t n :
  (cur = 0 \/ f cur = true) -> f t = true -> ahead rq cur t n -> ahead (List.filter f rq) cur t n.
Proof.
  intros Hc Ht (p1 & p2 & Ho & Hn). exists (List.filter f p1), (List.filter f p2). split.
  - apply (search_order_filter f) in Ho; [|done]. rewrite List.filter_app in Ho. simpl in Ho. by rewrite Ht in Ho.
  - etrans; [apply List.filter_length_le|done].
Qed.

(** Going on from a member of the search order rotates it. *)
Lemma search_order_rotate rq cur a y c :
  search_order rq cur (a ++ y :: c) -> y <> 0 -> search_order rq y (c ++ a ++ [y]).
Proof.
  intros Ho Hy.
  assert (Hrot : exists u v, rq = u ++ v /\ a ++ y :: c = v ++ u).
  { inversion Ho as [E|pre post E Hc Eo]; subst.
    - exists [], (a ++ y :: c). by rewrite app_nil_r.
    - exists (pre ++ [cur]), post. by rewrite <- app_assoc. }
  destruct Hrot as (u & v & -> & E). symmetry in E.
  apply app_eq_inv in E as [(k1 & -> & E)|(k1 & -> & E)].
  - destruct k1 as [|z k1].
    + simpl in E. subst u. rewrite app_nil_r.
      pose proof (OrderFrom (y :: c ++ a) y [] (c ++ a) eq_refl Hy) as Hord. by rewrite <- app_assoc in Hord.
    + simpl in E. injection E as -> ->. rewrite app_assoc. 
      pose proof (OrderFrom ((u ++ a) ++ z :: k1) z (u ++ a) k1 eq_refl Hy) as Hord.
      by rewrite <- !app_assoc in Hord |- *.
  - subst u. rewrite <- app_assoc. simpl.
    pose proof (OrderFrom (k1 ++ y :: c ++ v) y k1 (c ++ v) eq_refl Hy) as Hord.
    by rewrite <- !app_assoc in Hord |- *.
Qed.

Lemma find_before (f : Z -> bool) p1 t p2 :
  f t = true -> List.find f (p1 ++ t :: p2) = Some t \/
  exists a y b, p1 = a ++ y :: b /\ List.find f (p1 ++ t :: p2) = Some y /\ f y = true.
Proof.
  intros Ht. induction p1 as [|z p1 IH]; simpl; [left; by rewrite Ht|].
  destruct (f z) eqn:Ez.
  - right. exists [], z, p1. done.
  - destruct IH as [IH|(a & y & b & -> & IH & Hy)]; [by left|]. right. by exists (z :: a), y, b.
Qed.

Lemma search_order_cur_last rq cur p1 t p2 :
  NoDup rq -> search_order rq cur (p1 ++ t :: p2) -> t <> cur -> cur <> 0 -> cur ∉ p1.
Proof.
  intros Hnd Ho Ht Hc Hin. inversion Ho as [E|pre post E _ Eo]; [done|]. subst rq.
  assert (Hnd' : NoDup (p1 ++ t :: p2)).
  { rewrite <- Eo, app_assoc. apply NoDup_app in Hnd as (N1 & N2 & [N3 N4]%NoDup_cons).
    rewrite NoDup_app. split_and!; [|set_solver|apply NoDup_singleton].
    rewrite NoDup_app. split_and!; [done| |done]. set_solver. }
  destruct p2 as [|z p2 _] using rev_ind.
  - apply (f_equal last) in Eo. rewrite app_assoc, !last_snoc in Eo. congruence.
  - apply (f_equal last) in Eo. rewrite app_assoc, app_comm_cons, app_assoc, !last_snoc in Eo.
    injection Eo as <-. apply NoDup_app in Hnd' as (_ & Hd & _). apply (Hd cur Hin). set_solver.
Qed.

Lemma eligible_not_reapable k t : eligible k t = true -> reapable k t = false.
Proof.
  unfold eligible, reapable, is_in. destruct (threads k !! t) as [x|]; [|done].
  intros [Hs%bool_decide_eq_true_1 _]%andb_true_iff. by rewrite Hs.
Qed.

(** One yield brings a ready thread nearer, or runs it. *)
Lemma yield_brings_closer live rq k t n :
  sched_inv live rq k -> ctx_inv live rq k -> can_switch k ->
  eligible k t = true -> t <> current_thread k -> ahead rq (current_thread k) t n ->
  exists r k' live', schedule k = Ret r k' /\ sched_inv live' (survivors k rq) k' /\
    ctx_inv live' (survivors k rq) k' /\ can_switch k' /\
    ((current_thread k' = t /\ is_in THREAD_RUNNING k' t = true) \/
     (eligible k' t = true /\ t <> current_thread k' /\
      exists m, (m < n)%nat /\ ahead (survivors k rq) (current_thread k') t m)).
Proof.
  intros I C S He Hct Ha.
  assert (Hcur : current_thread k = 0 \/ negb (reapable k (current_thread k)) = true)
    by (right; by rewrite reapable_current).
  assert (Hrt := eligible_not_reapable k t He).
  apply (ahead_filter (fun t => negb (reapable k t))) in Ha as (p1 & p2 & Ho & Hn); [|done|by rewrite Hrt].
  fold (survivors k rq) in Ho.
  destruct (schedule_cases live rq k (p1 ++ t :: p2) I C S Ho)
    as (k1 & k' & live' & Hr & Hm & Hc & Hi & _ & _ & I' & C' & S' & Hk).
  pose proof (queue_rep_NoDup _ _ _ _ (si_queue _ _ _ I')) as Hnd.
  destruct (find_before (eligible k) p1 t p2 He) as [Hf|(a & y & b & -> & Hf & Hy)].
  - assert (Ep : pick k (p1 ++ t :: p2) = t) by (unfold pick; by rewrite Hf). rewrite Ep in Hk.
    assert (Ht : t ∈ survivors k rq) by (apply (search_order_elem _ _ _ _ Ho); set_solver).
    assert (t <> 0) by (eapply run_queue_nonzero; [apply I'|done]).
    rewrite !bool_decide_eq_false_2 in Hk by done. destruct Hk as [E W].
    eexists _, k', live'. split; [exact E|]. split_and!; try done. left. split; [apply W|].
    destruct (sw_next _ _ _ W) as (xn & c & Hxn & _). unfold is_in. rewrite (sw_threads _ _ _ W), Hxn. simpl.
    by rewrite after_switch_state, (bool_decide_eq_true_2 (t = t)) by done.
  - assert (Ep : pick k ((a ++ y :: b) ++ t :: p2) = y) by (unfold pick; by rewrite Hf). rewrite Ep in Hk.
    assert (Hyin : y ∈ survivors k rq) by (apply (search_order_elem _ _ _ _ Ho); set_solver).
    assert (Hy0 : y <> 0) by (eapply run_queue_nonzero; [apply I'|done]).
    assert (Hyc : y <> current_thread k).
    { intros ->. eapply (search_order_cur_last _ _ _ _ _ Hnd Ho Hct Hy0). set_solver. }
    rewrite !bool_decide_eq_false_2 in Hk by done. destruct Hk as [E W].
    rewrite <- app_assoc in Ho. simpl in Ho. pose proof (search_order_rotate _ _ _ _ _ Ho Hy0) as Ho'.
    assert (Hty : t <> y).
    { intros ->. inversion Ho' as [|pre post Eq _ Eo]; [done|]. rewrite Eq in Hnd.
      apply NoDup_app in Hnd as (N1 & N2 & [N3 N4]%NoDup_cons).
      apply (f_equal (fun l => y ∈ removelast l)) in Eo. rewrite !app_assoc, !removelast_last in Eo.
      assert (Hin : y ∈ (b ++ y :: p2) ++ a) by set_solver. rewrite <- app_assoc in Hin, Eo. rewrite <- Eo in Hin.
      apply elem_of_app in Hin as [Hin|Hin]; [done|]. apply (N2 y Hin). left. }
    eexists _, k', live'. split; [exact E|]. split_and!; try done. right. split_and!.
    + unfold eligible. rewrite Hi. apply andb_true_iff in He as [He1 He2]. rewrite He2, andb_true_r.
      rewrite <- (reaped_is_in k rq (threads k1) k1 _ t Hr eq_refl Hrt) in He1.
      unfold is_in in *. rewrite (sw_threads _ _ _ W). destruct (threads k1 !! t) as [x|]; [|done].
      simpl. rewrite after_switch_state, Hc, (bool_decide_eq_false_2 (t = y)) by done.
      by rewrite (bool_decide_eq_false_2 (t = current_thread k)).
    + by rewrite (sw_current _ _ _ W).
    + exists (length b). split; [rewrite length_app in Hn; simpl in Hn; lia|].
      rewrite (sw_current _ _ _ W). exists b, (p2 ++ a ++ [y]). split; [|done].
      rewrite <- app_assoc in Ho'. done.
Qed.

(** [n] rounds of a yield followed by what the thread then running does. *)
Fixpoint rounds (work : M (kernel H) unit) (n : nat) : M (kernel H) unit :=
  match n with
  | O => mret tt
  | S n => schedule ;; work ;; rounds work n
  end.

(** C15.  No starvation: a ready thread with [n] threads before it in the queue is
    running after at most [n + 1] yields, whatever the threads that run in between do,
    as long as they keep the scheduler's invariant and leave it ready. *)
Theorem ready_thread_runs work t : forall n live rq k,
  (forall live rq k, sched_inv live rq k -> ctx_inv live rq k -> can_switch k ->
     eligible k t = true -> t <> current_thread k ->
     exists k' live', work k = Ret tt k' /\ sched_inv live' rq k' /\ ctx_inv live' rq k' /\
       can_switch k' /\ eligible k' t = true /\ current_thread k' = current_thread k) ->
  sched_inv live rq k -> ctx_inv live rq k -> can_switch k ->
  eligible k t = true -> t <> current_thread k -> ahead rq (current_thread k) t n ->
  exists i r k', (i <= n)%nat /\ (rounds work i ;; schedule) k = Ret r k' /\
    current_thread k' = t /\ is_in THREAD_RUNNING k' t = true.
Proof.
  intros n. induction n as [n IH] using (well_founded_induction lt_wf).
  intros live rq k Hwork I C S He Hc Ha.
  destruct (yield_brings_closer live rq k t n I C S He Hc Ha)
    as (r & k1 & live1 & E1 & I1 & C1 & S1 & [[Hcur Hrun]|(He1 & Hc1 & m & Hm & Ha1)]).
  - exists 0%nat, r, k1. split_and!; [lia|exact E1|done|done].
  - destruct (Hwork live1 (survivors k rq) k1 I1 C1 S1 He1 Hc1)
      as (k2 & live2 & E2 & I2 & C2 & S2 & He2 & Hc2). rewrite <- Hc2 in Hc1, Ha1.
    destruct (IH m Hm live2 (survivors k rq) k2 Hwork I2 C2 S2 He2 Hc1 Ha1)
      as (i & r' & k' & Hi & E & Hcur & Hrun).
    exists (Datatypes.S i), r', k'. split_and!; [lia| |done|done]. simpl. mred. mrun E1. mred. by mrun E2.
Qed.
End yield.
