(* ===== verification/SchedThread.v ===== *)
(** * Thread lifecycle, ticks and preemption

    Creation and exit of threads (kernel/sched/thread.c), the timer tick and the
    way an interrupt ends (kernel/sched/core.c, kernel/time/timer.c), all against the
    scheduler's invariant. *)

From S2P Require Import Prelude LinkedList PhysMem Switch KState Sched SchedCore SchedReap SchedYield.

Section lifecycle.
Context {H : Type} `{KAllocSpec H}.
Implicit Types (k : kernel H) (rq order : list Z).

(** ** A change to the threads that keeps queue, stacks and current thread *)

Definition same_place (x y : thread) : Prop :=
  next y = next x /\ stack_base y = stack_base x /\ stack_size y = stack_size x /\
  stack_pointer y = stack_pointer x.

Lemma threads_inv live rq k k' :
  sched_inv live rq k -> ctx_inv live rq k ->
  (forall t, match threads k !! t, threads k' !! t with
             | None, None => True
             | Some x, Some y => same_place x y /\ (t ∈ rq -> thread_ok k' t y)
             | _, _ => False
             end) ->
  run_queue_head k' = run_queue_head k -> run_queue_tail k' = run_queue_tail k ->
  current_thread k' = current_thread k -> idle_thread k' = idle_thread k -> locks k' = locks k ->
  spinlock_depth k' = spinlock_depth k -> kheap k' = kheap k -> mach k' = mach k ->
  sched_inv live rq k' /\ ctx_inv live rq k'.
Proof.
  intros I C Ht Eh Et Ec Ei El Ed Ek Em.
  assert (Hf : forall t y, threads k' !! t = Some y -> exists x, threads k !! t = Some x /\ same_place x y).
  { intros t y Hy. specialize (Ht t). rewrite Hy in Ht. destruct (threads k !! t) as [x|]; [|done].
    exists x. split; [done|]. apply Ht. }
  assert (Hn : forall t, threads k !! t = None -> threads k' !! t = None).
  { intros t Hx. specialize (Ht t). rewrite Hx in Ht. by destruct (threads k' !! t). }
  assert (Ha : thread_addrs (threads k') rq = thread_addrs (threads k) rq).
  { apply thread_addrs_ext. intros t _. specialize (Ht t).
    destruct (threads k !! t), (threads k' !! t); try done. simpl. f_equal. apply Ht. }
  split; split.
  - destruct (si_queue _ _ _ I) as [Hl Htl]. unfold run_queue. rewrite Eh, Et. split; [|done].
    eapply lseg_ext; [|exact Hl]. intros t _. unfold tnext. specialize (Ht t).
    destruct (threads k !! t), (threads k' !! t); try done. simpl. f_equal. apply Ht.
  - apply Hn, I.
  - rewrite Ec. apply I.
  - rewrite Ei. apply I.
  - rewrite El. apply I.
  - rewrite Ed. apply I.
  - rewrite Ek. apply I.
  - rewrite Ha. apply I.
  - rewrite Ha. apply I.
  - intros t y Hin Hy. specialize (Ht t). rewrite Hy in Ht. destruct (threads k !! t); [|done]. by apply Ht.
  - intros t y Hin Hy. destruct (Hf t y Hy) as (x & Hx & S1 & S2 & S3 & S4).
    destruct (cx_owned _ _ _ C t x Hin Hx) as (m & Hm & Hs). exists m. by rewrite S2, S3.
  - intros t y Hin Hc Hy. rewrite Ec in Hc. destruct (Hf t y Hy) as (x & Hx & S1 & S2 & S3 & S4).
    unfold parked, on_stack. rewrite S2, S3, S4, Em. by apply (cx_parked _ _ _ C t x).
  - pose proof (cx_cpu _ _ _ C) as Hcpu. unfold cpu_stack_ok in *. rewrite Ec, Em.
    specialize (Ht (current_thread k)). destruct (threads k !! current_thread k) as [x|].
    + destruct (threads k' !! current_thread k) as [y|]; [|done]. destruct Ht as [(S1 & S2 & S3 & S4) _].
      unfold on_stack. by rewrite S2, S3.
    + by destruct (threads k' !! current_thread k).
Qed.

(** ** Ticks *)

Lemma wake_same_place tick x : same_place x (wake tick x).
Proof. unfold wake, same_place. by destruct (_ && _). Qed.

Lemma wake_ok k k' tick t x :
  thread_ok k t x -> current_thread k' = current_thread k -> idle_thread k' = idle_thread k ->
  thread_ok k' t (wake tick x).
Proof.
  intros [O1 O2 O3 O4] Hc Hi. unfold wake. destruct (_ && _) eqn:E; split; simpl; rewrite ?Hc, ?Hi; done.
Qed.

Lemma timer_tick_run live rq k :
  sched_inv live rq k -> ctx_inv live rq k ->
  exists k', timer_tick k = Ret tt k' /\ sched_inv live rq k' /\ ctx_inv live rq k' /\
    tick_count k' = wrap64 (tick_count k + 1) /\
    (forall t, threads k' !! t =
       (if bool_decide (t ∈ rq) then wake (tick_count k') <$> threads k !! t else threads k !! t)) /\
    need_resched k' = (need_resched k || is_in THREAD_RUNNING k (current_thread k)) /\
    k' = k <| threads := threads k' |> <| need_resched := need_resched k' |> <| tick_count := tick_count k' |>.
Proof.
  intros I C. unfold timer_tick. mred.
  set (k0 := k <| tick_count ::= _ |>).
  destruct (sched_tick_run k0 rq (tick_count k0)) as (k' & E & Hq & Ht & Hnr & Ek); [apply I..|].
  assert (Etick : tick_count k' = tick_count k0) by by rewrite Ek.
  exists k'. rewrite E. split; [done|]. change (threads k0) with (threads k) in Ht.
  assert (Einv : sched_inv live rq k' /\ ctx_inv live rq k').
  { apply (threads_inv live rq k); try done; try (rewrite Ek; done).
    intros t. rewrite Ht. destruct (threads k !! t) as [x|] eqn:Hx; [|by case_bool_decide].
    case_bool_decide as Hin; simpl.
    - split; [apply wake_same_place|]. intros _. apply (wake_ok k); [by apply I|by rewrite Ek..].
    - split; [done|]. done. }
  destruct Einv. split_and!; try done.
  - rewrite Etick. done.
  - rewrite Etick. exact Ek.
Qed.

(** C30.  A timer tick: the count goes up by one, every sleeper in the queue whose
    deadline is reached is READY with its deadline cleared, no other thread changes,
    a running current thread is marked for rescheduling, the invariant is kept. *)
Theorem timer_tick_wakes live rq k :
  sched_inv live rq k -> ctx_inv live rq k ->
  exists k', timer_tick k = Ret tt k' /\ sched_inv live rq k' /\ ctx_inv live rq k' /\
    tick_count k' = wrap64 (tick_count k + 1) /\
    (forall t x, t ∈ rq -> threads k !! t = Some x ->
       threads k' !! t =
       Some (if bool_decide (state x = THREAD_SLEEPING) && bool_decide (wake_tick x <= tick_count k')
             then x <| state := THREAD_READY |> <| wake_tick := 0 |> else x)) /\
    (is_in THREAD_RUNNING k (current_thread k) = true -> need_resched k' = true).
Proof.
  intros I C. destruct (timer_tick_run live rq k I C) as (k' & E & I' & C' & Etc & Ht & Hnr & Ek).
  exists k'. split_and!; try done.
  - intros t x Hin Hx. rewrite Ht, bool_decide_eq_true_2, Hx by done. done.
  - intros Hr. by rewrite Hnr, Hr, orb_true_r.
Qed.

(** ** Preemption *)

(** A timer interrupt, as [trap_dispatch] drives it for IRQ 0; [eoi] acknowledges it,
    [others] is what runs until the interrupted thread is switched to again. *)
Definition timer_interrupt (eoi others : M (kernel H) unit) : M (kernel H) unit :=
  sched_irq_enter ;; timer_tick ;; eoi ;; sched_irq_exit others.

(** An acknowledgement returns and touches no thread and no allocated memory. *)
Definition acknowledges (eoi : M (kernel H) unit) : Prop :=
  forall k live, mem_ok live (kheap k) -> exists h, eoi k = Ret tt (k <| kheap := h |>) /\ mem_ok live h.

Lemma irq_depth_inv live rq k d :
  sched_inv live rq k -> ctx_inv live rq k ->
  sched_inv live rq (k <| irq_depth := d |>) /\ ctx_inv live rq (k <| irq_depth := d |>).
Proof.
  intros I C. apply (threads_inv live rq k); try done. intros t. simpl.
  destruct (threads k !! t) as [x|] eqn:Hx; [|done]. split; [done|]. intros Hin.
  destruct (si_threads _ _ _ I t x Hin Hx). by split.
Qed.

Lemma resched_inv live rq k b :
  sched_inv live rq k -> ctx_inv live rq k ->
  sched_inv live rq (k <| need_resched := b |>) /\ ctx_inv live rq (k <| need_resched := b |>).
Proof.
  intros I C. apply (threads_inv live rq k); try done. intros t. simpl.
  destruct (threads k !! t) as [x|] eqn:Hx; [|done]. split; [done|]. intros Hin.
  destruct (si_threads _ _ _ I t x Hin Hx). by split.
Qed.

Lemma heap_inv live rq k h :
  sched_inv live rq k -> ctx_inv live rq k -> mem_ok live h ->
  sched_inv live rq (k <| kheap := h |>) /\ ctx_inv live rq (k <| kheap := h |>).
Proof.
  intros I C Hok. split; split; try apply I; try apply C; try done.
  intros t x Hin Hx. destruct (si_threads _ _ _ I t x Hin Hx). by split.
Qed.

(** The interrupt up to the yield at its end, if it makes one: it does when it hits a
    running thread. *)
Lemma timer_interrupt_cases live rq k eoi others :
  acknowledges eoi -> sched_inv live rq k -> ctx_inv live rq k -> can_switch k -> current_thread k <> 0 ->
  exists k1 (yields : bool), timer_interrupt eoi others k = (if yields then sched_yield others else mret tt) k1 /\
    (is_in THREAD_RUNNING k (current_thread k) = true -> yields = true) /\ need_resched k1 = false /\
    sched_inv live rq k1 /\ ctx_inv live rq k1 /\ can_switch k1 /\
    current_thread k1 = current_thread k /\ idle_thread k1 = idle_thread k /\
    (mach k1 = mach k /\ tick_count k1 = wrap64 (tick_count k + 1) /\
     exists kt, kheap kt = kheap k /\ eoi kt = Ret tt (kt <| kheap := kheap k1 |>)) /\
    (queues k1 = queues k /\ locks k1 = locks k) /\
    forall t, threads k1 !! t = (if bool_decide (t ∈ rq) then wake (wrap64 (tick_count k + 1)) <$> threads k !! t
                                 else threads k !! t).
Proof.
  intros Hack I C (Sl & Sd & Si) Hc. unfold timer_interrupt, sched_irq_enter. mred.
  destruct (irq_depth_inv live rq k (1 + irq_depth k) I C) as [I0 C0].
  set (k0 := k <| irq_depth := 1 + irq_depth k |>) in *. change (k <| irq_depth ::= Z.add 1 |>) with k0.
  destruct (timer_tick_run live rq k0 I0 C0) as (k2' & E2 & I2' & C2' & Et' & Hthr' & Hnr' & Ek').
  mrun E2. assert (Hh2 : kheap k2' = kheap k) by by rewrite Ek'.
  destruct (Hack k2' live (si_mem _ _ _ I2')) as (h & Eh & Hok). mrun Eh.
  destruct (heap_inv live rq k2' h I2' C2' Hok) as [I2 C2]. set (k2 := k2' <| kheap := h |>) in *.
  assert (Ek : k2 = k0 <| tick_count := tick_count k2 |> <| threads := threads k2 |> <| need_resched := need_resched k2 |> <| kheap := h |>)
    by (unfold k2; by rewrite Ek').
  assert (Hnr : need_resched k2 = (need_resched k || is_in THREAD_RUNNING k (current_thread k))) by exact Hnr'.
  assert (Hthr : forall t, threads k2 !! t = (if bool_decide (t ∈ rq)
    then wake (wrap64 (tick_count k + 1)) <$> threads k !! t else threads k !! t)).
  { intros t. etransitivity; [apply Hthr'|]. by rewrite Et'. }
  assert (Heoi : exists kt, kheap kt = kheap k /\ eoi kt = Ret tt (kt <| kheap := kheap k2 |>)) by (by exists k2').
  assert (Etc : tick_count k2 = wrap64 (tick_count k + 1)) by exact Et'.
  clearbody k2. clear Hthr' Et' Ek' Hnr' Eh E2 Hh2.
  assert (Ed : irq_depth k2 = 1) by (rewrite Ek; simpl; lia).
  assert (Ec : current_thread k2 = current_thread k) by by rewrite Ek.
  assert (Esl : schedule_locked k2 = false) by by rewrite Ek.
  unfold sched_irq_exit. mred. rewrite (bool_decide_eq_false_2 (irq_depth k2 <= 0)) by lia. mred.
  change (k2 <| irq_depth ::= (fun d => d - 1) |>) with (k2 <| irq_depth := irq_depth k2 - 1 |>).
  set (k3 := k2 <| irq_depth := irq_depth k2 - 1 |>).
  assert (Ed3 : irq_depth k3 = 0) by (unfold k3; simpl; lia).
  assert (Esw : schedule_locked k3 = false /\ current_thread k3 = current_thread k) by done. destruct Esw as (Es3 & Ec3).
  rewrite (bool_decide_eq_true_2 (irq_depth k3 = 0)) by done. cbn [negb]. mred.
  rewrite Es3, Ec3, (bool_decide_eq_false_2 (current_thread k = 0)), !orb_false_r by done.
  destruct (irq_depth_inv live rq k2 (irq_depth k2 - 1) I2 C2) as [I3 C3]. fold k3 in I3, C3.
  destruct (resched_inv live rq k3 false I3 C3) as [I4 C4].
  exists (k3 <| need_resched := false |>), (need_resched k3). split.
  { destruct (need_resched k3) eqn:En; cbn [negb]; mred; [done|].
    assert (Eid : forall x : kernel H, need_resched x = false -> x <| need_resched := false |> = x) by (intros [] Hx; simpl in Hx; by subst).
    by rewrite (Eid k3 En). }
  split_and!; try done.
  - intros Hr. change (need_resched k3) with (need_resched k2). by rewrite Hnr, Hr, orb_true_r.
  - unfold can_switch. split_and!; [done| |done]. change (spinlock_depth k2 = 0). by rewrite Ek.
  - change (idle_thread k2 = idle_thread k). by rewrite Ek.
  - change (mach k2 = mach k). by rewrite Ek.
  - change (queues k2 = queues k). by rewrite Ek.
  - change (locks k2 = locks k). by rewrite Ek.
Qed.

Lemma timer_interrupt_run live rq k eoi others :
  acknowledges eoi -> sched_inv live rq k -> ctx_inv live rq k -> can_switch k ->
  is_in THREAD_RUNNING k (current_thread k) = true ->
  exists k1, timer_interrupt eoi others k = sched_yield others k1 /\
    sched_inv live rq k1 /\ ctx_inv live rq k1 /\ can_switch k1 /\ need_resched k1 = false /\
    current_thread k1 = current_thread k /\ idle_thread k1 = idle_thread k /\
    (mach k1 = mach k /\ tick_count k1 = wrap64 (tick_count k + 1) /\
     exists kt, kheap kt = kheap k /\ eoi kt = Ret tt (kt <| kheap := kheap k1 |>)) /\
    (queues k1 = queues k /\ locks k1 = locks k) /\
    forall t, threads k1 !! t = (if bool_decide (t ∈ rq) then wake (wrap64 (tick_count k + 1)) <$> threads k !! t
                                 else threads k !! t).
Proof.
  intros Hack I C S Hr.
  assert (Hc : current_thread k <> 0).
  { intros E0. rewrite E0 in Hr. unfold is_in in Hr. by rewrite (si_null _ _ _ I) in Hr. }
  destruct (timer_interrupt_cases live rq k eoi others Hack I C S Hc) as (k1 & b & E & Hb & Hn & I1 & C1 & S1 & R).
  rewrite (Hb Hr) in E. exists k1. split; [exact E|]. do 4 (split; [done|]). exact R.
Qed.

Lemma order_exists live rq k :
  sched_inv live rq k -> exists order, search_order (survivors k rq) (current_thread k) order.
Proof.
  intros I. destruct (si_current _ _ _ I) as [Hc|Hc].
  - eexists. by apply OrderBoot.
  - assert (Hs : current_thread k ∈ survivors k rq) by (apply elem_of_survivors; split; [apply reapable_current|done]).
    apply list_elem_of_split in Hs as (pre & post & E). eexists. eapply OrderFrom; [exact E|].
    by eapply run_queue_nonzero; [apply I|].
Qed.

Lemma pick_eligible live rq k order t :
  sched_inv live rq k -> search_order (survivors k rq) (current_thread k) order ->
  t ∈ rq -> eligible k t = true -> pick k order <> 0 /\ eligible k (pick k order) = true.
Proof.
  intros I Ho Hin He. unfold pick. destruct (List.find (eligible k) order) as [y|] eqn:Ef.
  - apply List.find_some in Ef as [_ Hy]. split; [|done]. intros ->.
    unfold eligible, is_in in Hy. by rewrite (si_null _ _ _ I) in Hy.
  - assert (Hto : t ∈ order).
    { apply (search_order_elem _ _ _ _ Ho), elem_of_survivors. split; [|done]. by apply eligible_not_reapable. }
    apply list_elem_of_In in Hto. by rewrite (List.find_none _ _ Ef t Hto) in He.
Qed.

Lemma eligible_is k t s : eligible k t = true -> is_in s k t = true -> s = THREAD_READY.
Proof.
  unfold eligible, is_in. destruct (threads k !! t) as [x|]; [|done].
  intros [<-%bool_decide_eq_true_1 _]%andb_true_iff <-%bool_decide_eq_true_1. done.
Qed.

(** Preemption: a timer interrupt that hits a running thread while another one is
    ready, or becomes ready at this tick, switches away from it. *)
Lemma timer_interrupt_preempts live rq k eoi t x :
  acknowledges eoi -> sched_inv live rq k -> ctx_inv live rq k -> can_switch k ->
  is_in THREAD_RUNNING k (current_thread k) = true ->
  t ∈ rq -> t <> idle_thread k -> threads k !! t = Some x ->
  state x = THREAD_READY \/ (state x = THREAD_SLEEPING /\ wake_tick x <= wrap64 (tick_count k + 1)) ->
  exists k' live' rq', timer_interrupt eoi (mret tt) k = Ret tt k' /\
    sched_inv live' rq' k' /\ ctx_inv live' rq' k' /\ can_switch k' /\
    current_thread k' <> current_thread k /\ current_thread k' <> idle_thread k /\
    is_in THREAD_RUNNING k' (current_thread k') = true /\ is_in THREAD_READY k' (current_thread k) = true /\
    need_resched k' = false /\
    exists k1 kt, schedule k1 = Ret (Some (current_thread k, current_thread k')) k' /\ tick_count k1 = wrap64 (tick_count k + 1) /\
      kheap kt = kheap k /\ eoi kt = Ret tt (kt <| kheap := kheap k1 |>).
Proof.
  intros Hack I C S Hr Hin Hni Hx Hst.
  destruct (timer_interrupt_run live rq k eoi (mret tt) Hack I C S Hr)
    as (k1 & E & I1 & C1 & S1 & Hnr & Hc & Hi & (_ & Htc & kt & Hkt & Ekt) & _ & Hthr).
  rewrite E. clear E. destruct (order_exists live rq k1 I1) as [order Ho].
  assert (He : eligible k1 t = true).
  { unfold eligible, is_in. rewrite Hthr, bool_decide_eq_true_2, Hx, Hi by done. simpl.
    rewrite (bool_decide_eq_false_2 (t = _)), andb_true_r by done. apply bool_decide_eq_true_2.
    unfold wake. destruct Hst as [Hs|[Hs Hw]]; rewrite Hs; [exact Hs|]. by rewrite !bool_decide_eq_true_2. }
  assert (Hcin : current_thread k1 ∈ survivors k1 rq).
  { apply elem_of_survivors. split; [apply reapable_current|]. rewrite Hc.
    destruct (si_current _ _ _ I) as [E0|]; [|done]. rewrite E0 in Hr. unfold is_in in Hr.
    by rewrite (si_null _ _ _ I) in Hr. }
  assert (Hr1 : is_in THREAD_RUNNING k1 (current_thread k1) = true).
  { rewrite Hc. unfold is_in in *. rewrite Hthr. destruct (threads k !! current_thread k) as [y|]; [|done].
    destruct (bool_decide (current_thread k ∈ rq)); [|done]. simpl. by rewrite wake_is_running. }
  destruct (schedule_cases live rq k1 order I1 C1 S1 Ho)
    as (k2 & k' & live' & Hrp & Hm & Hc2 & Hi' & Hnr' & _ & I' & C' & S' & Hk).
  destruct (pick_eligible live rq k1 order t I1 Ho Hin He) as [Hy0 Hye].
  set (y := pick k1 order) in *.
  assert (Hyc : y <> current_thread k1).
  { intros E. rewrite E in Hye. by pose proof (eligible_is k1 _ THREAD_RUNNING Hye Hr1). }
  assert (Hyi : y <> idle_thread k1).
  { apply andb_true_iff in Hye as [_ Hyi]. by apply negb_true_iff, bool_decide_eq_false_1 in Hyi. }
  rewrite !bool_decide_eq_false_2 in Hk by done. destruct Hk as [Es W].
  exists k', live', (survivors k1 rq). unfold sched_yield. mrun Es.
  pose proof (sw_current _ _ _ W) as Ecur. pose proof (sw_threads _ _ _ W) as Hthr2.
  destruct (sw_next _ _ _ W) as (xn & c & Hxn & _).
  split_and!; try done.
  - by rewrite Ecur, <- Hc.
  - by rewrite Ecur, <- Hi.
  - rewrite Ecur. unfold is_in. rewrite Hthr2, Hxn. simpl.
    by rewrite after_switch_state, (bool_decide_eq_true_2 (y = y)) by done.
  - rewrite <- Hc. rewrite <- (reaped_is_in k1 rq (threads k2) k2 _ _ Hrp eq_refl (reapable_current k1)) in Hr1.
    unfold is_in in Hr1 |- *. rewrite Hthr2. destruct (threads k2 !! current_thread k1) as [z|]; [|done].
    simpl. rewrite after_switch_state, Hc2, Hr1, (bool_decide_eq_false_2 (current_thread k1 = y)) by done.
    by rewrite (bool_decide_eq_true_2 (current_thread k1 = current_thread k1)) by done.
  - by rewrite Hnr'.
  - exists k1, kt. by rewrite Es, Ecur, <- Hc.
Qed.

(** ** Creation *)

Lemma prepare_initial_stack_run top m :
  exists mem', prepare_initial_stack top m = Ret (top - 64) (m <| stacks := mem' |>) /\
    saved_context mem' (top - 64)
      (Cpu (top - 8) (Word 0) (Word 0) (Word 0) (Word 0) (Word 0) (Word 0) (Code "thread_trampoline")) /\
    (forall a, ~ (top - 64 <= a < top) -> mem' !! a = stacks m !! a).
Proof.
  unfold prepare_initial_stack. mred. simpl. eexists. split; [reflexivity|]. split.
  - unfold saved_context. simpl. split_and!; try lia;
      repeat first [rewrite lookup_insert_ne by lia | apply lookup_insert_eq
                   | (rewrite lookup_insert; rewrite decide_True by lia; reflexivity)].
  - intros a Ha. by rewrite !lookup_insert_ne by lia.
Qed.

Lemma set_fresh {B} k t x f (rest : M (kernel H) B) :
  (set_thread t f ;; rest) (k <| threads ::= <[t := x]> |>) = rest (k <| threads ::= <[t := f x]> |>).
Proof.
  erewrite bind_run by (apply set_thread_run; simpl; apply lookup_insert_eq). simpl. by rewrite insert_insert_eq.
Qed.

(** The thread object [kernel_thread_create] leaves. *)
Definition new_thread (tid base : Z) (nm : option string) (ent a : Z) : thread :=
  Thread tid THREAD_READY (base + KERNEL_STACK_SIZE - 64) ent a base (base + KERNEL_STACK_SIZE)
    KERNEL_STACK_SIZE 0 0 0 0 (copy_thread_name 32 nm).

Lemma enqueue_run k rq t x :
  run_queue k rq -> t <> 0 -> t ∉ rq -> threads k !! t = Some x ->
  exists k', enqueue_thread t k = Ret tt k' /\ run_queue k' (rq ++ [t]) /\
    threads k' !! t = Some (x <| next := 0 |>) /\
    (forall y z, y <> t -> threads k !! y = Some z ->
       exists z', threads k' !! y = Some z' /\ same_but_next z z') /\
    (forall y, y <> t -> threads k !! y = None -> threads k' !! y = None) /\
    k' = k <| threads := threads k' |> <| run_queue_head := run_queue_head k' |>
           <| run_queue_tail := run_queue_tail k' |>.
Proof.
  intros Hq Ht Hin Hx. unfold enqueue_thread.
  erewrite bind_run by (apply set_thread_run; exact Hx). mred.
  set (k1 := k <| threads ::= <[t := x <| next := 0 |>]> |>).
  assert (Hk1 : forall y, y <> t -> threads k1 !! y = threads k !! y)
    by (intros y Hy; unfold k1; simpl; by rewrite lookup_insert_ne).
  change (run_queue_tail k1) with (run_queue_tail k).
  destruct (decide (run_queue_tail k = 0)) as [Htl|Htl].
  - rewrite bool_decide_eq_true_2 by done. cbn [negb]. mred. eexists. split; [reflexivity|].
    assert (rq = []) as -> by by apply (queue_rep_tail_0 _ _ _ _ Hq).
    simpl. split_and!; try done.
    + unfold run_queue. simpl. split; [|done]. simpl. split_and!; try done. exists 0. split; [|done].
      unfold tnext. simpl. by rewrite lookup_insert_eq.
    + by rewrite lookup_insert_eq.
    + intros y z Hy Hz. exists z. rewrite lookup_insert_ne by done. split; [done|]. apply same_but_next_refl.
    + intros y Hy Hz. by rewrite lookup_insert_ne.
  - rewrite bool_decide_eq_false_2 by done. cbn [negb].
    assert (Htlin : run_queue_tail k ∈ rq).
    { destruct Hq as [_ Hq]. destruct (last rq) as [z|] eqn:El; simpl in Hq; [|done].
      rewrite Hq. by apply last_Some_elem_of in El. }
    assert (Hne : run_queue_tail k <> t) by by intros <-.
    destruct (run_queue_thread _ _ _ Hq Htlin) as [z Hz].
    erewrite bind_run by (apply set_thread_run; rewrite Hk1 by done; exact Hz). mred.
    eexists. split; [reflexivity|].
    match goal with |- run_queue ?q _ /\ _ => set (k' := q) end.
    assert (Hlook : forall y, threads k' !! y = if bool_decide (y = run_queue_tail k) then Some (z <| next := t |>)
      else if bool_decide (y = t) then Some (x <| next := 0 |>) else threads k !! y).
    { intros y. unfold k', k1. simpl. case_bool_decide as E1; [subst; by rewrite lookup_insert_eq|].
      rewrite lookup_insert_ne by done. case_bool_decide as E2; [subst; by rewrite lookup_insert_eq|].
      by rewrite lookup_insert_ne. }
    split_and!.
    + unfold run_queue. change (run_queue_head k') with (run_queue_head k). change (run_queue_tail k') with t.
      pose proof (queue_rep_enqueue (tnext k) (tnext k') _ _ rq t Hq Ht Hin) as He.
      rewrite decide_False in He by done. apply He.
      * unfold tnext. rewrite Hlook, bool_decide_eq_false_2, bool_decide_eq_true_2 by done. done.
      * intros y Hy Hyt. unfold tnext. rewrite Hlook, bool_decide_eq_false_2 by done.
        rewrite bool_decide_eq_false_2 by (by intros ->). done.
      * intros _. unfold tnext. by rewrite Hlook, bool_decide_eq_true_2.
    + by rewrite Hlook, bool_decide_eq_false_2, bool_decide_eq_true_2.
    + intros y w Hy Hw. rewrite Hlook. rewrite (bool_decide_eq_false_2 (y = t)) by done. case_bool_decide as E1.
      * subst y. eexists. split; [done|]. assert (w = z) as -> by congruence. done.
      * exists w. split; [done|]. apply same_but_next_refl.
    + intros y Hy Hn. rewrite Hlook. rewrite (bool_decide_eq_false_2 (y = t)) by done.
      case_bool_decide as E1; [|done]. subst y. congruence.
    + done.
Qed.

Lemma align_stack_top base :
  0 < base -> base mod 16 = 0 -> base + 16384 < 18446744073709551616 ->
  align_down_uintptr (wrap64 (base + KERNEL_STACK_SIZE)) STACK_ALIGNMENT = base + KERNEL_STACK_SIZE.
Proof.
  intros Hb Hm Ht. change KERNEL_STACK_SIZE with 16384. rewrite wrap64_id by (unfold in64; lia).
  unfold align_down_uintptr. change (wrap64 (STACK_ALIGNMENT - 1)) with (2 ^ 4 - 1).
  rewrite land_not_ones by (unfold in64; lia). change (2 ^ 4) with 16. div_lia.
Qed.

Lemma frame_addrs live rq k a : sched_inv live rq k -> live !! a = None -> a ∉ thread_addrs (threads k) rq.
Proof. intros I Ha Hin. destruct (si_live _ _ _ I a Hin). congruence. Qed.

Lemma frame_queue live rq k a : sched_inv live rq k -> live !! a = None -> a ∉ rq.
Proof.
  intros I Ha Hin. apply (frame_addrs live rq k a I Ha). apply elem_of_thread_addrs.
  destruct (run_queue_thread _ _ _ (si_queue _ _ _ I) Hin) as [x Hx]. exists a, x. auto.
Qed.

(** A thread added to the queue: its object and stack are fresh allocations, its
    context lies on the new stack. *)
Lemma add_thread_inv live live' rq k k' t x c :
  sched_inv live rq k -> ctx_inv live rq k ->
  live ⊆ live' -> live !! t = None -> live !! stack_base x = None -> t <> 0 -> stack_base x <> t ->
  is_Some (live' !! t) -> stack_owned live' x -> mem_ok live' (kheap k') ->
  run_queue k' (rq ++ [t]) -> threads k' !! t = Some x ->
  (forall y z, y <> t -> threads k !! y = Some z -> exists z', threads k' !! y = Some z' /\ same_but_next z z') ->
  (forall y, y <> t -> threads k !! y = None -> threads k' !! y = None) ->
  state x = THREAD_READY -> stack_base x <> 0 -> stack_size x <> 0 ->
  saved_context (stacks (mach k')) (stack_pointer x) c -> on_stack x (stack_pointer x) (stack_pointer x + 56) ->
  (forall b, ~ (stack_base x <= b < stack_base x + stack_size x) -> stacks (mach k') !! b = stacks (mach k) !! b) ->
  regs (mach k') = regs (mach k) -> current_thread k' = current_thread k -> idle_thread k' = idle_thread k ->
  locks k' = locks k -> spinlock_depth k' = spinlock_depth k ->
  sched_inv live' (rq ++ [t]) k' /\ ctx_inv live' (rq ++ [t]) k'.
Proof.
  intros I C Hsub Hft Hfb Ht0 Hbt Hlt Hown Hok Hq Hx Hz Hn Hst Hb0 Hsz Hsc Hon Hmem Hrg Ec Ei El Ed.
  pose proof (frame_queue live rq k t I Hft) as Htq.
  assert (Hc : current_thread k <> t) by (destruct (si_current _ _ _ I) as [E0|Hin]; [congruence|]; intros E0; by rewrite E0 in Hin).
  assert (Ha : thread_addrs (threads k') (rq ++ [t]) = thread_addrs (threads k) rq ++ [stack_base x; t]).
  { rewrite thread_addrs_app. simpl. rewrite Hx. f_equal. apply thread_addrs_ext. intros y Hy.
    assert (y <> t) by (by intros ->). destruct (threads k !! y) as [z|] eqn:Ez.
    - destruct (Hz y z) as (z' & -> & ->); done.
    - by rewrite Hn. }
  assert (Hback : forall y z', y ∈ rq -> threads k' !! y = Some z' ->
    y <> t /\ exists z, threads k !! y = Some z /\ same_but_next z z').
  { intros y z' Hy Hy'. assert (Hyt : y <> t) by (by intros ->). split; [done|].
    destruct (run_queue_thread _ _ _ (si_queue _ _ _ I) Hy) as [z Ez]. exists z. split; [done|].
    destruct (Hz y z Hyt Ez) as (z'' & E'' & Hs). assert (z'' = z') as -> by congruence. done. }
  destruct Hown as (m & Hm & Hsm). split; split.
  - done.
  - apply Hn; [done|apply I].
  - rewrite Ec. destruct (si_current _ _ _ I); [by left|right; set_solver].
  - rewrite Ei. destruct (si_idle _ _ _ I); [by left|right; set_solver].
  - rewrite El. apply I.
  - rewrite Ed. apply I.
  - done.
  - rewrite Ha, NoDup_app. split_and!; [apply I| |].
    + intros b Hb. assert (b <> stack_base x) by (intros ->; by apply (frame_addrs live rq k _ I Hfb)).
      assert (b <> t) by (intros ->; by apply (frame_addrs live rq k _ I Hft)). set_solver.
    + apply NoDup_cons. split; [set_solver|apply NoDup_singleton].
  - rewrite Ha. intros b [Hb|Hb]%elem_of_app.
    + destruct (si_live _ _ _ I b Hb) as [n Hbn]. exists n. by eapply lookup_weaken.
    + apply elem_of_cons in Hb as [->|[->|[]%not_elem_of_nil]%elem_of_cons]; [by exists m|done].
  - intros y z' [Hy|Hy]%elem_of_app Hy'.
    + destruct (Hback y z' Hy Hy') as (Hyt & z & Ez & Hs).
      eapply thread_ok_next; [by apply (si_threads _ _ _ I)|done|done|done].
    + apply list_elem_of_singleton in Hy as ->. assert (z' = x) as -> by congruence.
      split; rewrite ?Hst; done.
  - intros y z' [Hy|Hy]%elem_of_app Hy'.
    + destruct (Hback y z' Hy Hy') as (Hyt & z & Ez & Hs).
      destruct (cx_owned _ _ _ C y z Hy Ez) as (n & Hn' & Hs'). exists n. rewrite Hs. simpl.
      split; [by eapply lookup_weaken|done].
    + apply list_elem_of_singleton in Hy as ->. assert (z' = x) as -> by congruence. by exists m.
  - intros y z' Hy Hyc Hy'. rewrite Ec in Hyc. apply elem_of_app in Hy as [Hy|Hy].
    + destruct (Hback y z' Hy Hy') as (Hyt & z & Ez & Hs).
      destruct (cx_parked _ _ _ C y z Hy Hyc Ez) as (cy & Hcy & Hony). exists cy. rewrite Hs. simpl.
      split; [|exact Hony]. eapply saved_context_frame; [exact Hcy|]. intros b Hb. apply Hmem.
      destruct (cx_owned _ _ _ C y z Hy Ez) as (n & Hn' & Hs').
      assert (Hne : stack_base z <> stack_base x) by congruence.
      destruct (mem_disjoint_law live' (kheap k') (stack_base z) n (stack_base x) m Hok);
        try done; [by eapply lookup_weaken|..]; unfold in_frame, on_stack in *; lia.
    + apply list_elem_of_singleton in Hy as ->. assert (z' = x) as -> by congruence. by exists c.
  - pose proof (cx_cpu _ _ _ C) as Hcpu. unfold cpu_stack_ok in *. rewrite Ec, Hrg.
    destruct (threads k !! current_thread k) as [z|] eqn:Ez.
    + destruct (Hz _ z Hc Ez) as (z' & -> & ->). done.
    + by rewrite (Hn _ Hc Ez).
Qed.

(** The writes of [kernel_thread_create] to the fresh object and stack, up to the
    critical section. *)
Lemma create_fill {B} k t base nm ent a (rest : M (kernel H) B) :
  0 < base -> base mod 16 = 0 -> base + 16384 < 18446744073709551616 ->
  exists mem',
    (modify (fun k => k <| threads ::= <[t := raw_thread <| stack_base := base |>]> |>) ;;
     let top := wrap64 (base + KERNEL_STACK_SIZE) in
     thread_init_ready t ;;
     set_thread t (fun x => x <| entry := ent |>) ;;
     set_thread t (fun x => x <| arg := a |>) ;;
     set_thread t (fun x => x <| stack_top := align_down_uintptr top STACK_ALIGNMENT |>) ;;
     sp ← on_machine (prepare_initial_stack (align_down_uintptr top STACK_ALIGNMENT));
     set_thread t (fun x => x <| stack_pointer := sp |>) ;;
     set_thread t (fun x => x <| stack_size := KERNEL_STACK_SIZE |>) ;;
     set_thread t (fun x => x <| wake_tick := 0 |>) ;;
     set_thread t (fun x => x <| next := 0 |>) ;;
     set_thread t (fun x => x <| wait_next := 0 |>) ;;
     set_thread t (fun x => x <| wait_queue := 0 |>) ;;
     set_thread t (fun x => x <| name := copy_thread_name 32 nm |>) ;;
     rest) k =
    rest (k <| mach := (mach k) <| stacks := mem' |> |> <| threads ::= <[t := new_thread 0 base nm ent a]> |>) /\
    saved_context mem' (base + KERNEL_STACK_SIZE - 64)
      (Cpu (base + KERNEL_STACK_SIZE - 8) (Word 0) (Word 0) (Word 0) (Word 0) (Word 0) (Word 0)
         (Code "thread_trampoline")) /\
    (forall b, ~ (base + KERNEL_STACK_SIZE - 64 <= b < base + KERNEL_STACK_SIZE) -> mem' !! b = stacks (mach k) !! b).
Proof.
  intros Hb Hm Ht. destruct (prepare_initial_stack_run (base + KERNEL_STACK_SIZE) (mach k)) as (mem' & E & Hsc & Hsame).
  exists mem'. split; [|done]. mred. unfold thread_init_ready. cbv zeta. rewrite align_stack_top by done.
  mred. rewrite !set_fresh.
  erewrite bind_run by (apply on_machine_run; exact E).
  match goal with |- _ ?s = _ => change s with
    (k <| mach := (mach k) <| stacks := mem' |> |>
       <| threads ::= <[t := raw_thread <| stack_base := base |> <| wake_tick := 0 |> <| state := THREAD_READY |>
            <| entry := ent |> <| arg := a |> <| stack_top := base + KERNEL_STACK_SIZE |>]> |>) end.
  by rewrite !set_fresh.
Qed.

(** The allocator refuses a request it has address space for. *)
Definition alloc_fails : Prop :=
  exists live (h : H) n h', mem_ok live h /\ 0 < n /\ n + 4200 <= mem_room h /\ mem_alloc n h = Ret 0 h'.

(** The two allocations of [kernel_thread_create], and what is given back when the second
    fails. *)
Lemma create_memory live k (rest : Z -> Z -> M (kernel H) Z) :
  mem_ok live (kheap k) -> 25000 <= mem_room (kheap k) ->
  let run := t ← on_heap (mem_alloc sizeof_thread);
             if bool_decide (t = 0) then mret 0
             else base ← on_heap (mem_alloc KERNEL_STACK_SIZE);
                  if bool_decide (base = 0) then on_heap (mem_free t) ;; mret 0 else rest t base in
  exists h, mem_room (kheap k) - 25000 <= mem_room h /\
    ((run k = Ret 0 (k <| kheap := h |>) /\ mem_ok live h /\ alloc_fails) \/
     exists t base m mb, run k = rest t base (k <| kheap := h |>) /\ 0 < t /\ 0 < base /\ base mod 16 = 0 /\
       base + 16384 < 18446744073709551616 /\ live !! t = None /\ live !! base = None /\ t <> base /\ 16384 <= mb /\
       mem_ok (<[base := mb]> (<[t := m]> live)) h).
Proof.
  intros Hok Hroom run. unfold run. destruct (mem_alloc_law live (kheap k) sizeof_thread Hok) as (t & h1 & E1 & Hr1 & Ht);
    [done|unfold sizeof_thread; lia|].
  unfold sizeof_thread in Hr1. erewrite bind_run by (apply on_heap_run; exact E1). destruct Ht as [[-> Hok1]|(Ht0 & Hth & Htal & Hft & m & Hm & Hok1)].
  { exists h1. split; [lia|]. left. split_and!; [done|done|]. exists live, (kheap k), sizeof_thread, h1.
    split_and!; [done|done|unfold sizeof_thread; lia|done]. }
  rewrite (bool_decide_eq_false_2 (t = 0)) by lia.
  destruct (mem_alloc_law (<[t := m]> live) h1 KERNEL_STACK_SIZE Hok1) as (base & h2 & E2 & Hr2 & Hb);
    [done|change KERNEL_STACK_SIZE with 16384; lia|]. change KERNEL_STACK_SIZE with 16384 in Hr2.
  erewrite bind_run by (apply on_heap_run; exact E2). simpl kheap.
  destruct Hb as [[-> Hok2]|(Hb0 & Hbh & Hbal & Hfb & mb & Hmb & Hok2)].
  { destruct (mem_free_law live h2 t m Hok2 Hft) as (h3 & E3 & Hr3 & Hok3). exists h3. split; [lia|]. left.
    rewrite bool_decide_eq_true_2 by done. erewrite bind_run by (apply on_heap_run; exact E3). split_and!; [done|done|].
    exists (<[t := m]> live), h1, KERNEL_STACK_SIZE, h2. change KERNEL_STACK_SIZE with 16384. split_and!; [done|lia|lia|done]. }
  apply lookup_insert_None in Hfb as [Hfb Htb]. exists h2. split; [lia|]. right. exists t, base, m, mb.
  rewrite bool_decide_eq_false_2 by lia. split_and!; done.
Qed.

(** The critical section of [kernel_thread_create]: the number and the place in the queue. *)
Lemma create_publish rq k t x :
  locks k !! SchedulerLock = Some 0 -> 0 <= spinlock_depth k -> run_queue k rq -> t <> 0 -> t ∉ rq -> threads k !! t = Some x ->
  exists k', (flags ← spin_lock_irqsave (Some SchedulerLock) true; tid ← gets next_thread_id;
     modify (fun k => k <| next_thread_id := wrap64 (tid + 1) |>) ;; set_thread t (fun x => x <| id := tid |>) ;;
     enqueue_thread t ;; spin_unlock_irqrestore (Some SchedulerLock) flags ;; mret t) k = Ret t k' /\
    run_queue k' (rq ++ [t]) /\ threads k' !! t = Some (x <| id := next_thread_id k |> <| next := 0 |>) /\
    (forall y z, y <> t -> threads k !! y = Some z -> exists z', threads k' !! y = Some z' /\ same_but_next z z') /\
    (forall y, y <> t -> threads k !! y = None -> threads k' !! y = None) /\
    next_thread_id k' = wrap64 (next_thread_id k + 1) /\
    k' = k <| threads := threads k' |> <| run_queue_head := run_queue_head k' |> <| run_queue_tail := run_queue_tail k' |>
           <| next_thread_id := next_thread_id k' |>.
Proof.
  intros Hl Hd Hq Ht Hnin Hx. mrun (spin_lock_run k SchedulerLock Hl). mred.
  set (x1 := x <| id := next_thread_id k |>).
  set (k3 := (enter SchedulerLock k) <| next_thread_id := wrap64 (next_thread_id k + 1) |> <| threads := <[t := x1]> (threads k) |>).
  erewrite bind_run by (apply set_thread_run; exact Hx).
  match goal with |- context [(enqueue_thread t ;; _) ?s] => change s with k3 end.
  assert (Hq3 : run_queue k3 rq).
  { destruct Hq as [Hs Htl]. split; [|exact Htl]. eapply lseg_ext; [|exact Hs].
    intros y Hy. unfold tnext, k3. simpl. rewrite lookup_insert_ne; [done|]. by intros ->. }
  destruct (enqueue_run k3 rq t x1 Hq3) as (k4 & E5 & Hq4 & Hx4 & Hz4 & Hn4 & Ek4); [done|done|apply lookup_insert_eq|]. mrun E5.
  assert (Hl4 : locks k4 = <[SchedulerLock := 1]> (locks k)) by by rewrite Ek4.
  assert (Hd4 : spinlock_depth k4 = 1 + spinlock_depth k) by by rewrite Ek4.
  assert (Hf4 : rflags k4 = Z.ldiff (rflags k) RFLAGS_IF) by by rewrite Ek4.
  erewrite bind_run by (eapply (spin_unlock_run _ _ 1); [rewrite Hl4; apply lookup_insert_eq|done|lia]).
  rewrite (leave_enter SchedulerLock k k4 Hl Hl4 Hd4 Hf4). mred. eexists. split; [reflexivity|]. split_and!; try done.
  - intros y z Hy Hz. apply (Hz4 y z Hy). unfold k3. simpl. by rewrite lookup_insert_ne.
  - intros y Hy Hz. apply (Hn4 y Hy). unfold k3. simpl. by rewrite lookup_insert_ne.
  - simpl. by rewrite Ek4.
  - rewrite Ek4. by destruct k.
Qed.

Lemma kernel_thread_create_run live rq k nm ent a :
  sched_inv live rq k -> ctx_inv live rq k -> ent <> 0 -> 25000 <= mem_room (kheap k) ->
  exists t k', kernel_thread_create nm ent a k = Ret t k' /\
    current_thread k' = current_thread k /\ mem_room (kheap k) - 25000 <= mem_room (kheap k') /\
    k' = k <| kheap := kheap k' |> <| mach := mach k' |> <| threads := threads k' |> <| run_queue_head := run_queue_head k' |>
           <| run_queue_tail := run_queue_tail k' |> <| next_thread_id := next_thread_id k' |> /\
    ((t = 0 /\ sched_inv live rq k' /\ ctx_inv live rq k' /\ threads k' = threads k /\ alloc_fails) \/
     (exists live' base, t <> 0 /\ (t ∉ rq) /\ live ⊆ live' /\
        (forall y z, y <> t -> threads k !! y = Some z -> exists z', threads k' !! y = Some z' /\ same_but_next z z') /\
        sched_inv live' (rq ++ [t]) k' /\ ctx_inv live' (rq ++ [t]) k' /\
        threads k' !! t = Some (new_thread (next_thread_id k) base nm ent a) /\
        saved_context (stacks (mach k')) (base + KERNEL_STACK_SIZE - 64)
          (Cpu (base + KERNEL_STACK_SIZE - 8) (Word 0) (Word 0) (Word 0) (Word 0) (Word 0) (Word 0)
             (Code "thread_trampoline")) /\
        next_thread_id k' = wrap64 (next_thread_id k + 1) /\
        live !! t = None /\ live !! base = None /\ (base + KERNEL_STACK_SIZE) mod 16 = 0 /\
        forall y, y <> t -> threads k !! y = None -> threads k' !! y = None)).
Proof.
  intros I C He Hroom. unfold kernel_thread_create. rewrite (bool_decide_eq_false_2 (ent = 0)) by done.
  epose proof (create_memory live k _ (si_mem _ _ _ I) Hroom) as (h & Hr & [(E & Hok & Hf)|
    (t & base & m & mb & E & Ht0 & Hb0 & Hbal & Hbh & Hft & Hfb & Htb & Hmb & Hok)]).
  { destruct (heap_inv live rq k h I C Hok). exists 0, (k <| kheap := h |>). split; [exact E|]. split_and!; try done. by left. }
  rewrite E. clear E. cbv beta.
  epose proof (create_fill (B := Z) (k <| kheap := h |>) t base nm ent a _ Hb0 Hbal Hbh) as (mem' & E3 & Hsc & Hsame).
  cbv zeta in E3. rewrite E3. clear E3. set (k2 := (k <| kheap := h |>) <| mach := _ |> <| threads ::= _ |>).
  assert (Htq : t ∉ rq) by by eapply frame_queue.
  assert (Hq2 : run_queue k2 rq).
  { destruct (si_queue _ _ _ I) as [Hl Htl]. split; [|exact Htl]. eapply lseg_ext; [|exact Hl].
    intros y Hy. unfold tnext, k2. simpl. rewrite lookup_insert_ne; [done|]. by intros ->. }
  destruct (create_publish rq k2 t (new_thread 0 base nm ent a)) as (k5 & E5 & Hq5 & Hx5 & Hz5 & Hn5 & Hid5 & Ek5);
    [apply I|apply I|done|lia|done|apply lookup_insert_eq|].
  exists t, k5. split; [exact E5|]. set (x := new_thread (next_thread_id k) base nm ent a).
  assert (Hz : forall y z, y <> t -> threads k !! y = Some z -> exists z', threads k5 !! y = Some z' /\ same_but_next z z').
  { intros y z Hy Hz. apply (Hz5 y z Hy). simpl. by rewrite lookup_insert_ne. }
  assert (Hn : forall y, y <> t -> threads k !! y = None -> threads k5 !! y = None).
  { intros y Hy Hnone. apply (Hn5 y Hy). simpl. by rewrite lookup_insert_ne. }
  assert (Hsub : live ⊆ <[base := mb]> (<[t := m]> live)).
  { transitivity (<[t := m]> live); [by apply insert_subseteq|]. apply insert_subseteq. by apply lookup_insert_None. }
  assert (Em5 : mach k5 = (mach k) <| stacks := mem' |>) by by rewrite Ek5.
  assert (Eh : kheap k5 = h) by by rewrite Ek5.
  assert (Hinv : sched_inv (<[base := mb]> (<[t := m]> live)) (rq ++ [t]) k5 /\ ctx_inv (<[base := mb]> (<[t := m]> live)) (rq ++ [t]) k5).
  { eapply (add_thread_inv live _ rq k k5 t x); try done; try (rewrite Ek5; done).
    - lia.
    - rewrite lookup_insert_ne by done. rewrite lookup_insert_eq. by eexists.
    - exists mb. split; [apply lookup_insert_eq|exact Hmb].
    - change (base <> 0). lia.
    - unfold on_stack, x. simpl. change KERNEL_STACK_SIZE with 16384. lia.
    - intros b Hnb. rewrite Em5. apply Hsame. intros Hin. apply Hnb. unfold x. simpl. change KERNEL_STACK_SIZE with 16384 in *. lia. }
  destruct Hinv as [I5 C5]. split; [by rewrite Ek5|]. split; [by rewrite Eh|]. split; [rewrite Ek5; by destruct k|].
  right. exists (<[base := mb]> (<[t := m]> live)), base. split_and!; try done; [lia| |].
  - by rewrite Em5.
  - change KERNEL_STACK_SIZE with 16384. div_lia.
Qed.

(** [kernel_thread_create]: without an entry it returns NULL and does nothing;
    otherwise, out of memory, it returns NULL and gives back what it took; otherwise
    the new thread is the last of the run queue, READY, with its own id, an aligned
    stack of its own and a saved context that enters [thread_trampoline]. *)
Theorem kernel_thread_create_queues live rq k nm ent a :
  sched_inv live rq k -> ctx_inv live rq k -> 25000 <= mem_room (kheap k) ->
  exists t k', kernel_thread_create nm ent a k = Ret t k' /\
    (ent = 0 -> t = 0 /\ k' = k) /\
    (t = 0 -> sched_inv live rq k' /\ ctx_inv live rq k' /\ threads k' = threads k) /\
    (t <> 0 -> (t ∉ rq) /\ exists live' base c, live ⊆ live' /\
       sched_inv live' (rq ++ [t]) k' /\ ctx_inv live' (rq ++ [t]) k' /\
       threads k' !! t = Some (new_thread (next_thread_id k) base nm ent a) /\
       live !! t = None /\ live !! base = None /\ (base + KERNEL_STACK_SIZE) mod 16 = 0 /\
       saved_context (stacks (mach k')) (base + KERNEL_STACK_SIZE - 64) c /\
       rip c = Code "thread_trampoline" /\ next_thread_id k' = wrap64 (next_thread_id k + 1)).
Proof.
  intros I C Hroom. destruct (decide (ent = 0)) as [->|He].
  { exists 0, k. split; [done|]. split; [done|]. split; [done|]. done. }
  destruct (kernel_thread_create_run live rq k nm ent a I C He Hroom)
    as (t & k' & E & _ & _ & _ & [(-> & I' & C' & Ht & _)|(live' & base & Ht0 & Hin & Hsub & _ & I' & C' & Hx & Hsc & Hid & Hft & Hfb & Hal & _)]);
    eexists _, k'; (split; [exact E|]); (split; [done|]); split; try done.
  intros _. split; [done|]. exists live', base. eexists. split_and!; done.
Qed.

(** ** Exit *)

Lemma exit_mark_run live rq k x :
  sched_inv live rq k -> ctx_inv live rq k -> threads k !! current_thread k = Some x ->
  state x = THREAD_RUNNING -> wait_queue x = 0 -> wait_next x = 0 -> current_thread k <> idle_thread k ->
  exists k', sched_thread_exit_mark k = Ret tt k' /\ sched_inv live rq k' /\ ctx_inv live rq k' /\
    k' = k <| threads ::= <[current_thread k := x <| state := THREAD_ZOMBIE |> <| wake_tick := 0 |>]> |>.
Proof.
  intros I C Hx Hs Hwq Hwn Hi. set (t := current_thread k) in *.
  assert (Ht : t <> 0) by (intros E0; rewrite E0, (si_null _ _ _ I) in Hx; done).
  unfold sched_thread_exit_mark. mred. fold t. rewrite bool_decide_eq_false_2 by done.
  erewrite bind_run by by apply (thread_is_run THREAD_ZOMBIE k t x).
  erewrite bind_run by by apply (thread_is_run THREAD_DEAD k t x).
  unfold is_in. rewrite Hx, Hs, !bool_decide_eq_false_2 by done. cbn [orb].
  assert (Hv : thread_state_transition_is_valid (state x) THREAD_ZOMBIE = true) by by rewrite Hs.
  eexists. split; [exact (set_state_tick_run k t x THREAD_ZOMBIE 0 Ht Hx Hv)|].
  match goal with |- _ /\ _ /\ ?a = _ => set (k' := a) end.
  assert (Hinv : sched_inv live rq k' /\ ctx_inv live rq k').
  { apply (threads_inv live rq k); try done. intros y. unfold k'. simpl.
    destruct (decide (y = t)) as [->|Hne].
    - rewrite lookup_insert_eq, Hx. split; [done|]. intros _. split; simpl; try done.
      apply (ok_stack k t x). apply (si_threads _ _ _ I); [|done].
      by destruct (si_current _ _ _ I).
    - rewrite lookup_insert_ne by done. destruct (threads k !! y) as [z|] eqn:Hz; [|done].
      split; [done|]. intros Hin. destruct (si_threads _ _ _ I y z Hin Hz). by split. }
  destruct Hinv. done.
Qed.

(** The thread that leaves, after the switch: as it was but for its links. *)
Lemma exit_switched k k1 k' rq nxt x :
  threads k !! current_thread k = Some x -> state x <> THREAD_RUNNING -> reaped k rq (threads k1) ->
  current_thread k1 = current_thread k -> nxt <> current_thread k -> switched k1 nxt k' ->
  exists y, threads k' !! current_thread k = Some y /\ state y = state x /\ stack_base y = stack_base x.
Proof.
  intros Hx Hs Hr Hc Hn W. specialize (Hr (current_thread k)).
  rewrite Hx, reapable_current, andb_false_r in Hr. destruct Hr as (y & Hy & Hsame).
  eexists. rewrite (sw_threads _ _ _ W), Hy. split; [reflexivity|].
  rewrite after_switch_state, (proj1 (after_switch_stack _ _ _ _ y)).
  rewrite (bool_decide_eq_false_2 (current_thread k = nxt)) by done. rewrite Hsame. simpl.
  rewrite (bool_decide_eq_false_2 (state x = _)), andb_false_r by done. done.
Qed.

(** C31.  The end of a thread: it marks itself ZOMBIE and switches away; the next yield,
    by whichever thread runs then, takes it off the run queue and gives both its stack
    and its object back to the allocator. *)
Theorem exited_thread_is_reclaimed live rq k x t :
  sched_inv live rq k -> ctx_inv live rq k -> can_switch k ->
  threads k !! current_thread k = Some x -> state x = THREAD_RUNNING ->
  wait_queue x = 0 -> wait_next x = 0 -> current_thread k <> idle_thread k ->
  t ∈ rq -> eligible k t = true ->
  exists r1 k1 r2 k2 live2 rq2,
    (sched_thread_exit_mark ;; schedule) k = Ret r1 k1 /\
    is_in THREAD_ZOMBIE k1 (current_thread k) = true /\ current_thread k1 <> current_thread k /\
    schedule k1 = Ret r2 k2 /\ sched_inv live2 rq2 k2 /\ ctx_inv live2 rq2 k2 /\
    threads k2 !! current_thread k = None /\ (current_thread k ∉ rq2) /\
    live2 !! current_thread k = None /\ live2 !! stack_base x = None.
Proof.
  intros I C S Hx Hs Hwq Hwn Hi Hin He.
  destruct (exit_mark_run live rq k x I C Hx Hs Hwq Hwn Hi) as (k0 & E0 & I0 & C0 & Ek0).
  set (me := current_thread k) in *. set (z := x <| state := THREAD_ZOMBIE |> <| wake_tick := 0 |>) in *.
  assert (Hc0 : current_thread k0 = me) by by rewrite Ek0.
  assert (Hz0 : threads k0 !! me = Some z) by (rewrite Ek0; apply lookup_insert_eq).
  assert (Hme : me ∈ rq).
  { destruct (si_current _ _ _ I) as [E|]; [|done]. fold me in E. rewrite E, (si_null _ _ _ I) in Hx. done. }
  assert (Htme : t <> me). { intros ->. unfold eligible, is_in in He. by rewrite Hx, Hs in He. }
  assert (He0 : eligible k0 t = true).
  { unfold eligible, is_in in *. rewrite Ek0. simpl. by rewrite lookup_insert_ne. }
  assert (S0 : can_switch k0) by by rewrite Ek0.
  destruct (order_exists live rq k0 I0) as [order Ho]. rewrite Hc0 in Ho.
  destruct (schedule_cases live rq k0 order I0 C0 S0) as (k0' & k1 & live1 & Hrp & _ & Hcc & _ & _ & _ & I1 & C1 & S1 & Hk).
  { by rewrite Hc0. }
  rewrite <- Hc0 in Ho. destruct (pick_eligible live rq k0 order t I0 Ho Hin He0) as [Hp0 Hpe].
  assert (Hpc : pick k0 order <> current_thread k0).
  { rewrite Hc0. intros E. rewrite E in Hpe.
    assert (Hzz : is_in THREAD_ZOMBIE k0 me = true) by (unfold is_in; by rewrite Hz0).
    by pose proof (eligible_is k0 _ _ Hpe Hzz). }
  rewrite !bool_decide_eq_false_2 in Hk by done. destruct Hk as [E1 W]. rewrite Hc0 in Hpc.
  destruct (exit_switched k0 k0' k1 rq (pick k0 order) z) as (y & Hy & Hys & Hyb); try done.
  { by rewrite Hc0. }
  { by rewrite Hc0. }
  rewrite Hc0 in Hy.
  assert (Hz1 : is_in THREAD_ZOMBIE k1 me = true) by (unfold is_in; rewrite Hy, Hys; done).
  assert (Hc1 : current_thread k1 <> me) by by rewrite (sw_current _ _ _ W).
  assert (Hr1 : reapable k1 me = true) by (unfold reapable; rewrite Hz1, bool_decide_eq_false_2 by done; done).
  destruct (order_exists live1 _ k1 I1) as [order2 Ho2].
  destruct (schedule_cases live1 _ k1 order2 I1 C1 S1 Ho2)
    as (k1' & k2 & live2 & Hrp2 & _ & _ & _ & _ & Hrc & I2 & C2 & _ & Hk2).
  assert (Hme1 : me ∈ survivors k0 rq).
  { apply elem_of_survivors. split; [rewrite <- Hc0; apply reapable_current|done]. }
  destruct (Hrc me y Hme1 Hr1 Hy) as [Hl1 Hl2]. rewrite Hyb in Hl2.
  assert (Hgone : threads k1' !! me = None).
  { specialize (Hrp2 me). rewrite Hy, Hr1, bool_decide_eq_true_2 in Hrp2; done. }
  assert (Hnot : me ∉ survivors k1 (survivors k0 rq)) by (rewrite elem_of_survivors; intros [? _]; congruence).
  destruct (_ || _); destruct Hk2 as [E2 W2]; eexists _, k1, _, k2, live2, (survivors k1 (survivors k0 rq));
    (split; [mrun E0; exact E1|]); (split; [done|]); (split; [done|]); (split; [exact E2|]); split_and!; try done.
  - by rewrite W2.
  - by rewrite (sw_threads _ _ _ W2), Hgone.
Qed.
End lifecycle.
