(* ===== verification/KHeap.v ===== *)
(** * The kernel heap as the scheduler's allocator

    mm/heap.c provides what the scheduler relies on: the instance of [KAllocSpec]
    for the heap, over any page allocator and page tables that meet [PageApiSpec]. *)

From S2P Require Import Prelude PhysMem Heap KState.

Section kheap.
Context {S : Type} `{PageApiSpec S}.

#[export] Instance heap_kalloc : KAlloc (heap_state S) := {|
  mem_alloc := kmalloc;
  mem_free := kfree
|}.

(** [live] is the table of the allocated payloads. *)
Definition heap_ok (live : gmap Z Z) (h : heap_state S) : Prop :=
  exists bl, heap_inv h bl /\ forall p m, live !! p = Some m <-> (p, m) ∈ used HEAP_BASE bl.

Definition heap_room (h : heap_state S) : Z := 18446744073709547520 - heap_end h.

Lemma take_fit_span sz bl : forall a p bl', take_fit sz a bl = Some (p, bl') -> span bl' = span bl.
Proof.
  induction bl as [|[bs fr] bl IH]; intros a p bl'; simpl; [done|]. destruct (fr && _).
  - intros [= <- <-]. rewrite span_app, span_cut. done.
  - destruct (take_fit sz (a + 32 + bs) bl) as [[q r]|] eqn:E; [|done]. intros [= <- <-]. simpl.
    by rewrite (IH _ _ _ E).
Qed.

Lemma heap_disjoint h bl p m q n :
  heap_inv h bl -> (p, m) ∈ used HEAP_BASE bl -> (q, n) ∈ used HEAP_BASE bl -> p <> q ->
  p + m <= q \/ q + n <= p.
Proof.
  intros I Hp Hq Hne. apply list_elem_of_lookup_1 in Hp as [i Hi], Hq as [j Hj].
  eapply (used_disjoint HEAP_BASE bl); [apply I|apply heap_base_16|exact Hi|exact Hj|].
  intros ->. congruence.
Qed.

Lemma heap_range h bl p m :
  heap_inv h bl -> (p, m) ∈ used HEAP_BASE bl ->
  HEAP_BASE + 32 <= p /\ p + m <= heap_end h /\ 0 < m /\ p mod 16 = 0.
Proof.
  intros I Hp. rewrite (rep_end _ _ (inv_rep _ _ I)). apply used_bounds; [apply I|apply heap_base_16|done].
Qed.

Lemma used_fresh h bl p m l :
  heap_inv h bl -> used HEAP_BASE bl ≡ₚ (p, m) :: l -> forall n, (p, n) ∉ l.
Proof.
  intros I Hp n Hin. pose proof (rep_sizes _ _ (inv_rep _ _ I)) as Hok.
  assert (Hm : (p, m) ∈ used HEAP_BASE bl) by (rewrite Hp; left).
  assert (Hn : (p, n) ∈ used HEAP_BASE bl) by (rewrite Hp; by right).
  pose proof (heap_range _ _ _ _ I Hm). pose proof (heap_range _ _ _ _ I Hn).
  destruct (fresh_disjoint HEAP_BASE bl p m l Hok heap_base_16 Hp p n Hin); lia.
Qed.

(** The table after a payload [(p, m)] was added. *)
Lemma live_add h (live : gmap Z Z) l p m bl' :
  heap_inv h bl' -> (forall q n, live !! q = Some n <-> (q, n) ∈ l) ->
  used HEAP_BASE bl' ≡ₚ (p, m) :: l ->
  live !! p = None /\ forall q n, <[p := m]> live !! q = Some n <-> (q, n) ∈ used HEAP_BASE bl'.
Proof.
  intros I Hl Hp.
  pose proof (used_fresh h bl' p m l I Hp) as Hfresh.
  split.
  - destruct (live !! p) as [n|] eqn:E; [|done]. by apply Hl, Hfresh in E.
  - intros q n. rewrite Hp, elem_of_cons. destruct (decide (q = p)) as [->|Hne].
    + rewrite lookup_insert_eq. split; [intros [= <-]; by left|].
      intros [[= ->]|Hin]; [done|]. by apply Hfresh in Hin.
    + rewrite lookup_insert_ne by done. rewrite Hl. split; [by right|]. intros [[= ??]|]; [done|done].
Qed.

Lemma heap_alloc_law live h n :
  heap_ok live h -> 0 < n -> n + 4200 <= heap_room h ->
  exists p h', kmalloc n h = Ret p h' /\ heap_room h - (n + 4200) <= heap_room h' /\
    ((p = 0 /\ heap_ok live h') \/
     (0 < p /\ p + n < 18446744073709551616 /\ p mod 16 = 0 /\ live !! p = None /\
      exists m, n <= m /\ heap_ok (<[p := m]> live) h')).
Proof.
  intros (bl & I & Hl) Hn Hr. unfold heap_room in *. destruct (round16_spec n Hn) as (R1 & R2 & R3 & R4).
  destruct (kmalloc_run h bl n I Hn) as (p & h' & bl' & E & I' & _ & _ & _ & Hres); [lia|].
  pose proof (rep_end _ _ (inv_rep _ _ I)) as Ee. pose proof (rep_end _ _ (inv_rep _ _ I')) as Ee'.
  destruct (extent_spec (round16 n)) as (_ & _ & X3); [lia|].
  exists p, h'. split; [done|].
  assert (Hgot : forall bl0, take_fit (round16 n) HEAP_BASE bl0 = Some (p, bl') ->
    used HEAP_BASE bl0 = used HEAP_BASE bl ->
    0 < p /\ p + n < 18446744073709551616 /\ p mod 16 = 0 /\ live !! p = None /\
    exists m, n <= m /\ heap_ok (<[p := m]> live) h').
  { intros bl0 Ht Hu. destruct (take_fit_used _ _ _ _ _ Ht) as (m & Hm & Hp). rewrite Hu in Hp.
    destruct (live_add h' live _ p m bl' I' Hl Hp) as [Hf Hl'].
    destruct (heap_range h' bl' p m I') as (B1 & B2 & B3 & B4); [rewrite Hp; left|].
    pose proof (rep_bound _ _ (inv_rep _ _ I')). unfold HEAP_BASE in B1.
    split_and!; [lia|lia|done|done|]. exists m. split; [lia|]. by exists bl'. }
  destruct (take_fit (round16 n) HEAP_BASE bl) as [[q bl1]|] eqn:Ht.
  - destruct Hres as (-> & -> & _). apply take_fit_span in Ht as Es. split; [lia|]. right. by apply (Hgot bl).
  - destruct Hres as [[Hg _]|(-> & -> & _)].
    + apply take_fit_span in Hg as Es. rewrite span_grow in Es. split; [lia|]. right.
      apply (Hgot (grow bl (extent (round16 n)))); [done|by rewrite used_grow].
    + split; [lia|]. left. split; [done|]. by exists bl.
Qed.

Lemma heap_free_law live h p m :
  heap_ok (<[p := m]> live) h -> live !! p = None ->
  exists h', kfree p h = Ret tt h' /\ heap_room h' = heap_room h /\ heap_ok live h'.
Proof.
  intros (bl & I & Hl) Hf. assert (Hin : (p, m) ∈ used HEAP_BASE bl) by (apply Hl, lookup_insert_eq).
  destruct (used_split _ _ _ _ Hin) as (pre & post & -> & ->).
  destruct (kfree_run h pre m post I) as (h' & E & (_ & _ & _ & Ee) & I').
  exists h'. split; [exact E|]. split; [unfold heap_room; lia|]. eexists. split; [exact I'|].
  destruct (heap_rep_sizes _ _ _ _ _ (inv_rep _ _ I)) as (Hpre & _ & _).
  pose proof (release_used pre m post Hpre) as Hp. unfold addr_after in *.
  pose proof (used_fresh _ _ _ _ _ I Hp) as Hfresh. intros q n.
  destruct (decide (q = HEAP_BASE + span pre + 32)) as [->|Hne].
  - rewrite Hf. split; [done|]. intros Hq. by apply Hfresh in Hq.
  - specialize (Hl q n). rewrite lookup_insert_ne, Hp, elem_of_cons in Hl by done. rewrite Hl.
    split; [intros [[= ??]|]; done|by right].
Qed.

Lemma heap_disjoint_law live h p m q n :
  heap_ok live h -> live !! p = Some m -> live !! q = Some n -> p <> q -> p + m <= q \/ q + n <= p.
Proof. intros (bl & I & Hl) Hp%Hl Hq%Hl Hne. by eapply heap_disjoint. Qed.

Lemma heap_range_law live h p m :
  heap_ok live h -> live !! p = Some m -> HEAP_BASE <= p /\ p + m <= 18446744073709547520.
Proof.
  intros (bl & I & Hl) Hp%Hl. destruct (heap_range _ _ _ _ I Hp) as (B1 & B2 & _).
  pose proof (rep_bound _ _ (inv_rep _ _ I)). lia.
Qed.

#[export] Instance heap_kalloc_spec : KAllocSpec (heap_state S) := {|
  mem_ok := heap_ok;
  mem_room := heap_room;
  mem_alloc_law := heap_alloc_law;
  mem_free_law := heap_free_law;
  mem_disjoint_law := heap_disjoint_law;
  mem_lo := HEAP_BASE;
  mem_hi := 18446744073709547520;
  mem_range_law := heap_range_law
|}.
(** ** An allocator that does not fail

    The same heap, counting page frames as well: as long as they last and nothing else
    is mapped beyond the heap's end, [kmalloc] succeeds.  A page of heap costs at most
    four frames, itself and three tables. *)

Definition paged_ok (live : gmap Z Z) (h : heap_state S) : Prop := heap_ok live h /\ unclaimed h.
Definition paged_room (h : heap_state S) : Z := Z.min (heap_room h) (1024 * Z.of_nat (avail (pages h))).

Lemma kmalloc_paged live h n :
  paged_ok live h -> 0 < n -> n + 4200 <= paged_room h ->
  exists p h', kmalloc n h = Ret p h' /\ p <> 0 /\ unclaimed h' /\
    1024 * Z.of_nat (avail (pages h)) - (n + 4200) <= 1024 * Z.of_nat (avail (pages h')).
Proof.
  intros [(bl & I & _) U] Hn Hr. unfold paged_room, heap_room in Hr. destruct (round16_spec n Hn) as (R1 & R2 & R3 & R4).
  destruct (kmalloc_run h bl n I Hn) as (p & h' & bl' & E & I' & _ & _ & _ & Hres); [lia|].
  pose proof (rep_end _ _ (inv_rep _ _ I)) as Ee. pose proof (rep_end _ _ (inv_rep _ _ I')) as Ee'.
  destruct (extent_spec (round16 n)) as (X1 & X2 & X3); [lia|].
  assert (Hp : forall bl0, take_fit (round16 n) HEAP_BASE bl0 = Some (p, bl') -> p <> 0).
  { intros bl0 (m & Hm & Hp)%take_fit_used. assert (Hin : (p, m) ∈ used HEAP_BASE bl') by (rewrite Hp; left).
    destruct (heap_range h' bl' p m I' Hin) as (B & _). unfold HEAP_BASE in B. lia. }
  exists p, h'. split; [done|]. destruct (take_fit (round16 n) HEAP_BASE bl) as [[q bl1]|] eqn:Ht.
  - destruct Hres as (-> & -> & Ep). split_and!; [by apply (Hp bl)| |rewrite Ep; lia].
    apply take_fit_span in Ht. intros va Hva. rewrite Ep. apply U. lia.
  - destruct Hres as [(Hg & _ & Hav & Hm)|(-> & -> & [(va & Hva & Hal & Hm)|Hlt])].
    + split_and!; [by apply (Hp _ Hg)| |div_lia]. apply take_fit_span in Hg. rewrite span_grow in Hg.
      intros va Hva Hal Hmv. apply (U va); [lia|done|]. by apply Hm.
    + exfalso. apply (U va); [|done|done]. lia.
    + exfalso. div_lia.
Qed.

Lemma paged_alloc_law live h n :
  paged_ok live h -> 0 < n -> n + 4200 <= paged_room h ->
  exists p h', kmalloc n h = Ret p h' /\ paged_room h - (n + 4200) <= paged_room h' /\
    ((p = 0 /\ paged_ok live h') \/
     (0 < p /\ p + n < 18446744073709551616 /\ p mod 16 = 0 /\ live !! p = None /\
      exists m, n <= m /\ paged_ok (<[p := m]> live) h')).
Proof.
  intros Hok Hn Hr. destruct (kmalloc_paged live h n Hok Hn Hr) as (p & h' & E & Hp & U & Hav). unfold paged_room in *.
  destruct (heap_alloc_law live h n (proj1 Hok) Hn) as (p' & h'' & E' & Hr' & Hc); [lia|].
  rewrite E in E'. injection E' as <- <-. exists p, h'. split_and!; [done|lia|]. right.
  destruct Hc as [[? _]|(C1 & C2 & C3 & C4 & m & Hm & Hok')]; [done|]. split_and!; try done. by exists m.
Qed.

Lemma paged_free_law live h p m :
  paged_ok (<[p := m]> live) h -> live !! p = None ->
  exists h', kfree p h = Ret tt h' /\ paged_room h' = paged_room h /\ paged_ok live h'.
Proof.
  intros [Hok U] Hf. destruct (heap_free_law live h p m Hok Hf) as (h' & E & Hr & Hok'). exists h'. split; [done|].
  destruct Hok as (bl & I & Hl). assert (Hin : (p, m) ∈ used HEAP_BASE bl) by (apply Hl, lookup_insert_eq).
  destruct (used_split _ _ _ _ Hin) as (pre & post & -> & ->).
  destruct (kfree_run h pre m post I) as (h'' & E' & Henv & _). unfold addr_after in E'. rewrite E in E'. injection E' as <-.
  destruct Henv as (Ep & _ & _ & Ee). unfold paged_room. split; [by rewrite Hr, Ep|]. split; [done|].
  intros va Hva. rewrite Ep. apply U. lia.
Qed.

Definition paged_kalloc_spec : KAllocSpec (heap_state S) := {|
  mem_ok := paged_ok;
  mem_room := paged_room;
  mem_alloc_law := paged_alloc_law;
  mem_free_law := paged_free_law;
  mem_disjoint_law := fun live h p m q n Hok => heap_disjoint_law live h p m q n (proj1 Hok);
  mem_lo := HEAP_BASE;
  mem_hi := 18446744073709547520;
  mem_range_law := fun live h p m Hok => heap_range_law live h p m (proj1 Hok)
|}.
End kheap.
