(* ===== verification/SchedWitness.v ===== *)
(** * The scheduler at work on concrete kernels

    A small bump allocator, a second instance of the allocator's interface, makes the
    kernel's state small enough to write down: the theorems on the scheduler are
    applied to kernels of two and three threads. *)

From S2P Require Import Prelude LinkedList PhysMem Switch KState Sched SchedCore SchedReap SchedYield SchedThread.

(** ** An arena *)

Record arena := Arena { a_live : gmap Z Z; brk : Z }.

Definition arena_alloc (n : Z) : M arena Z := fun h =>
  Ret (brk h) (Arena (<[brk h := n]> (a_live h)) (brk h + n + 15 - (brk h + n + 15) mod 16)).

Definition arena_free (p : Z) : M arena unit := fun h => Ret tt (Arena (delete p (a_live h)) (brk h)).

#[export] Instance arena_kalloc : KAlloc arena := {| mem_alloc := arena_alloc; mem_free := arena_free |}.

Definition apart (p m q n : Z) : Prop := p = q \/ p + m <= q \/ q + n <= p.

#[export] Instance apart_dec p m q n : Decision (apart p m q n).
Proof. unfold apart. apply _. Defined.

Definition arena_ok (live : gmap Z Z) (h : arena) : Prop :=
  live = a_live h /\ 0 < brk h /\ brk h mod 16 = 0 /\ brk h <= 140737488355328 /\
  map_Forall (fun p m => 0 < p /\ 0 < m /\ p + m <= brk h) live /\
  map_Forall (fun p m => map_Forall (fun q n => apart p m q n) live) live.

Definition arena_room (h : arena) : Z := 140737488355328 - brk h.

Lemma arena_alloc_law live h n :
  arena_ok live h -> 0 < n -> n + 4200 <= arena_room h ->
  exists p h', arena_alloc n h = Ret p h' /\ arena_room h - (n + 4200) <= arena_room h' /\
    ((p = 0 /\ arena_ok live h') \/
     (0 < p /\ p + n < 18446744073709551616 /\ p mod 16 = 0 /\ live !! p = None /\
      exists m, n <= m /\ arena_ok (<[p := m]> live) h')).
Proof.
  intros (-> & Hb & Hal & Hmax & Hin & Hap) Hn Hr. unfold arena_room in *.
  eexists _, _. split; [reflexivity|]. simpl. split; [div_lia|]. right.
  assert (Hf : a_live h !! brk h = None).
  { destruct (a_live h !! brk h) as [m|] eqn:E; [|done]. apply Hin in E. lia. }
  split_and!; [done|lia|done|done|]. exists n. split; [done|]. unfold arena_ok. simpl.
  split_and!; [done|div_lia|div_lia|div_lia| |].
  - apply map_Forall_insert_2; [split_and!; [lia|lia|div_lia]|].
    intros p m Hp. apply Hin in Hp. split_and!; [lia|lia|div_lia].
  - apply map_Forall_insert_2.
    + apply map_Forall_insert_2; [by left|]. intros p m Hp. apply Hin in Hp. right. right. lia.
    + intros p m Hp. apply map_Forall_insert_2; [apply Hin in Hp; right; left; lia|]. by apply (Hap p m).
Qed.

Lemma arena_free_law live h p m :
  arena_ok (<[p := m]> live) h -> live !! p = None ->
  exists h', arena_free p h = Ret tt h' /\ arena_room h' = arena_room h /\ arena_ok live h'.
Proof.
  intros (El & Hb & Hal & Hmax & Hin & Hap) Hf. eexists. split; [reflexivity|]. split; [done|].
  assert (Hsub : live ⊆ <[p := m]> live) by by apply insert_subseteq.
  unfold arena_ok. simpl. split_and!; try done.
  - rewrite <- El. by rewrite delete_insert_id.
  - intros q n Hq. apply (Hin q n). by eapply lookup_weaken.
  - intros q n Hq r l Hr. eapply (Hap q n); by eapply lookup_weaken.
Qed.

Lemma arena_disjoint_law live h p m q n :
  arena_ok live h -> live !! p = Some m -> live !! q = Some n -> p <> q -> p + m <= q \/ q + n <= p.
Proof. intros (_ & _ & _ & _ & _ & Hap) Hp Hq Hne. by destruct (Hap p m Hp q n Hq). Qed.

Lemma arena_range_law live h p m :
  arena_ok live h -> live !! p = Some m -> 0 <= p /\ p + m <= 140737488355328.
Proof. intros (_ & _ & _ & Hmax & Hin & _) Hp. apply Hin in Hp. lia. Qed.

#[export] Instance arena_kalloc_spec : KAllocSpec arena := {|
  mem_ok := arena_ok;
  mem_room := arena_room;
  mem_alloc_law := arena_alloc_law;
  mem_free_law := arena_free_law;
  mem_disjoint_law := arena_disjoint_law;
  mem_lo := 0;
  mem_hi := 140737488355328;
  mem_range_law := arena_range_law
|}.

(** ** Two workers

    [worker_a] runs, [worker_b] is ready behind it. *)

Definition worker_a : Z := 4096.
Definition worker_b : Z := 8192.

Definition demo_thread (i : Z) (st : thread_state) (sp base nxt : Z) (nm : string) : thread :=
  Thread i st sp 4660 0 base (base + 16384) 16384 0 nxt 0 0 nm.

Definition thread_a : thread := demo_thread 1 THREAD_RUNNING 0 65536 worker_b "worker-a".
Definition thread_b : thread := demo_thread 2 THREAD_READY 147392 131072 0 "worker-b".

Definition two_live : gmap Z Z := {[ 4096 := 128; 8192 := 128; 65536 := 16384; 131072 := 16384 ]}.

Definition two_stacks : gmap Z stack_word :=
  match prepare_initial_stack 147456 demo_machine with Ret _ m => stacks m | _ => ∅ end.

Definition two_cpu : cpu := Cpu 81000 (Word 1) (Word 2) (Word 3) (Word 4) (Word 5) (Word 6) (Code "worker").

Definition two : kernel arena :=
  Kernel (Arena two_live 1048576) (Machine two_cpu two_stacks)
    {[ worker_a := thread_a; worker_b := thread_b ]} ∅ {[ SchedulerLock := 0 ]} 514 0
    worker_a worker_b worker_a 0 3 true false false 0 0 41.

Abbreviation two_queue := [worker_a; worker_b].

Lemma two_arena : arena_ok two_live (Arena two_live 1048576).
Proof.
  unfold arena_ok. split_and!; [done|done|done|done|..];
    apply (bool_decide_unpack _); vm_compute; exact Logic.I.
Qed.

Lemma two_sched_inv : sched_inv two_live two_queue two.
Proof.
  split.
  - repeat (split; try done). exists worker_b. split; [done|]. repeat (split; try done). by exists 0.
  - done.
  - right. by left.
  - by left.
  - done.
  - done.
  - apply two_arena.
  - apply (bool_decide_unpack _). vm_compute. exact Logic.I.
  - intros a Ha. assert (Hin : a ∈ [65536; 4096; 131072; 8192]) by exact Ha.
    repeat (apply elem_of_cons in Hin as [->|Hin]; [vm_compute; by eexists|]). by apply not_elem_of_nil in Hin.
  - intros t x Hin. repeat (apply elem_of_cons in Hin as [->|Hin]; [intros [= <-]; by split|]).
    by apply not_elem_of_nil in Hin.
Qed.

Lemma two_ctx_inv : ctx_inv two_live two_queue two.
Proof.
  split.
  - intros t x Hin. repeat (apply elem_of_cons in Hin as [->|Hin]; [intros [= <-]; by exists 16384|]).
    by apply not_elem_of_nil in Hin.
  - intros t x Hin Hne. apply elem_of_cons in Hin as [->|Hin]; [done|].
    apply elem_of_cons in Hin as [->|Hin]; [|by apply not_elem_of_nil in Hin].
    intros [= <-]. exists (Cpu 147448 (Word 0) (Word 0) (Word 0) (Word 0) (Word 0) (Word 0) (Code "thread_trampoline")).
    split; [vm_compute; repeat split|vm_compute; done].
  - vm_compute. done.
Qed.

Lemma two_can_switch : can_switch two.
Proof. repeat split. Qed.

Lemma two_order : search_order (survivors two two_queue) (current_thread two) [worker_b; worker_a].
Proof. apply (OrderFrom _ _ [] [worker_b]); done. Qed.

(** ** Witnesses *)

Lemma sched_yield_switches_witness :
  exists k', schedule two = Ret (Some (worker_a, worker_b)) k' /\ current_thread k' = worker_b.
Proof.
  destruct (sched_yield_switches two_live two_queue two [worker_b; worker_a])
    as (r & k' & live' & E & _ & _ & _ & [(_ & [Hp|Hp] & _)|(-> & _ & _ & Hc & _)]).
  - exact two_sched_inv.
  - exact two_ctx_inv.
  - exact two_can_switch.
  - exact two_order.
  - vm_compute in Hp. discriminate Hp.
  - vm_compute in Hp. discriminate Hp.
  - exists k'. exact (conj E Hc).
Defined.

Lemma sched_yield_guard_witness :
  exists msg, schedule (two <| irq_depth := 1 |>) = Panicked msg (two <| irq_depth := 1 |>).
Proof.
  destruct (sched_yield_guard (two <| irq_depth := 1 |>)) as (msg & E & _).
  - intros (_ & _ & Hd). vm_compute in Hd. discriminate Hd.
  - exists msg. exact E.
Defined.

Lemma ready_thread_runs_witness :
  exists i r k', (i <= 0)%nat /\ (rounds (H := arena) (mret tt) i ;; schedule) two = Ret r k' /\ current_thread k' = worker_b.
Proof.
  destruct (ready_thread_runs (mret (M := M (kernel arena)) tt) worker_b 0 two_live two_queue two) as (i & r & k' & Hi & E & Hc & _).
  - intros live rq k I C S He Hc. exists k, live. exact (conj eq_refl (conj I (conj C (conj S (conj He eq_refl))))).
  - exact two_sched_inv.
  - exact two_ctx_inv.
  - exact two_can_switch.
  - reflexivity.
  - vm_compute. discriminate.
  - exists [], [worker_a]. split; [|reflexivity]. apply (OrderFrom _ _ [] [worker_b]); done.
  - exists i, r, k'. exact (conj Hi (conj E Hc)).
Defined.

Lemma timer_tick_wakes_witness :
  exists k', timer_tick two = Ret tt k' /\ tick_count k' = 42 /\ need_resched k' = true.
Proof.
  destruct (timer_tick_wakes two_live two_queue two) as (k' & E & _ & _ & Ht & _ & Hn).
  - exact two_sched_inv.
  - exact two_ctx_inv.
  - exists k'. split; [exact E|]. split; [exact Ht|]. apply Hn. reflexivity.
Defined.

Lemma kernel_thread_create_queues_witness :
  exists t k', kernel_thread_create (Some "worker-c"%string) 4660 7 two = Ret t k' /\ t <> 0.
Proof.
  destruct (kernel_thread_create_queues two_live two_queue two (Some "worker-c"%string) 4660 7)
    as (t & k' & E & _).
  - exact two_sched_inv.
  - exact two_ctx_inv.
  - vm_compute. discriminate.
  - exists t, k'. split; [exact E|]. vm_compute in E. injection E as <- _. discriminate.
Defined.

Lemma exited_thread_is_reclaimed_witness :
  exists r1 k1 r2 k2, (sched_thread_exit_mark ;; schedule) two = Ret r1 k1 /\
    schedule k1 = Ret r2 k2 /\ threads k2 !! worker_a = None.
Proof.
  destruct (exited_thread_is_reclaimed two_live two_queue two thread_a worker_b)
    as (r1 & k1 & r2 & k2 & live2 & rq2 & E1 & _ & _ & E2 & _ & _ & Hg & _).
  - exact two_sched_inv.
  - exact two_ctx_inv.
  - exact two_can_switch.
  - reflexivity.
  - reflexivity.
  - reflexivity.
  - reflexivity.
  - vm_compute. discriminate.
  - right. left.
  - reflexivity.
  - exists r1, k1, r2, k2. exact (conj E1 (conj E2 Hg)).
Defined.

Lemma spinlock_section_witness :
  exists flags k1, spin_lock_irqsave (Some SchedulerLock) true two = Ret flags k1 /\ spinlock_depth k1 = 1.
Proof.
  destruct (spinlock_section two SchedulerLock) as (flags & k1 & E & _ & Hd & _).
  - reflexivity.
  - vm_compute. discriminate.
  - exists flags, k1. exact (conj E Hd).
Defined.

(** ** The first run of a thread from an interrupt

    The interrupt has cleared the interrupt flag; the switch at its end enters [worker_b] at
    the trampoline, which does not set it. *)
Lemma first_run_with_interrupts_off :
  exists k', timer_interrupt (mret tt) (mret tt) (two <| rflags := 2 |>) = Ret tt k' /\ current_thread k' = worker_b /\
    rip (regs (mach k')) = Code "thread_trampoline" /\ irqs_on k' = false.
Proof. eexists. split; [vm_compute; reflexivity|]. by vm_compute. Qed.
