(* ===== verification/Vfs.v ===== *)
(** * fs/vfs.c: the virtual file system

    Inodes and open files are objects at addresses.  An operation table is a pointer
    too: what its methods are is the business of the filesystems ([FsMethods]), and
    what the path walker may rely on is [FsSpec], a tree of directories and files.
    The theorems on [vfs_open] are proved against that interface. *)

From Stdlib Require Import Ascii.
From S2P Require Import Prelude PhysMem.

Definition VFS_NAME_MAX : nat := 64.
Definition VFS_PATH_MAX : nat := 256.

Definition VFS_NODE_REGULAR : Z := 1.
Definition VFS_NODE_DIRECTORY : Z := 2.

Record vfs_dirent := VfsDirent {
  d_name : string;
  d_type : Z;
  d_size : Z
}.

Record vfs_inode := VfsInode {
  i_name : string;
  i_type : Z;
  i_size : Z;
  i_ops : Z;
  i_f_ops : Z;
  i_private : Z
}.

#[export] Instance eta_vfs_inode : Eta vfs_inode := fun i =>
  VfsInode (i_name i) (i_type i) (i_size i) (i_ops i) (i_f_ops i) (i_private i).

Record vfs_file := VfsFile {
  f_inode : Z;
  f_offset : Z;
  f_ops : Z;
  f_private : Z
}.

#[export] Instance eta_vfs_file : Eta vfs_file := fun f =>
  VfsFile (f_inode f) (f_offset f) (f_ops f) (f_private f).

Section vfs.
Context {P : Type}.

Record vfs := Vfs {
  inodes : gmap Z vfs_inode;
  files : gmap Z vfs_file;
  vfs_root : Z;
  vfs_ready : bool;
  fs_data : P
}.

#[export] Instance eta_vfs : Eta vfs := fun s =>
  Vfs (inodes s) (files s) (vfs_root s) (vfs_ready s) (fs_data s).

Definition inode_at (i : Z) : M vfs vfs_inode := deref (fun s => inodes s !! i).
Definition file_at (f : Z) : M vfs vfs_file := deref (fun s => files s !! f).
Definition set_file (f : Z) (g : vfs_file -> vfs_file) : M vfs unit :=
  x ← file_at f; modify (fun s => s <| files ::= <[f := g x]> |>).

(** The methods behind a table pointer; [None] is a NULL method.  An out parameter
    [*inode] is the second component of the result, [None] when it is not written;
    [read] gives the status, the bytes stored to the buffer and [*read_size]. *)
Class FsMethods := {
  m_lookup : Z -> option (Z -> string -> M vfs (Z * option Z));
  m_parent : Z -> option (Z -> M vfs (Z * option Z));
  m_read : Z -> option (Z -> Z -> M vfs (Z * list Z * Z));
  m_readdir : Z -> option (Z -> M vfs (Z * option vfs_dirent));
  m_close : Z -> option (Z -> M vfs unit)
}.
End vfs.
Arguments vfs P : clear implicits.
Arguments FsMethods P : clear implicits.

Section operations.
Context {P : Type} `{FsMethods P}.
Abbreviation V := (M (vfs P)).

Definition vfs_clear_file (file : Z) : V unit :=
  set_file file (fun f => f <| f_inode := 0 |>) ;;
  set_file file (fun f => f <| f_offset := 0 |>) ;;
  set_file file (fun f => f <| f_ops := 0 |>) ;;
  set_file file (fun f => f <| f_private := 0 |>).

(** A C string is the characters up to its NUL; reading at its length gives the NUL. *)
Definition NUL : ascii := "000"%char.
Definition char_at (text : string) (index : nat) : ascii := default NUL (String.get index text).

Definition vfs_strlen (text : string) : nat := String.length text.

(** A component is passed as its first character and its length: [name] is that
    part of the path. *)
Definition vfs_segment_is_dot (name : string) : bool :=
  bool_decide (String.length name = 1)%nat && bool_decide (char_at name 0 = "."%char).

Definition vfs_segment_is_dotdot (name : string) : bool :=
  bool_decide (String.length name = 2)%nat && bool_decide (char_at name 0 = "."%char)
  && bool_decide (char_at name 1 = "."%char).

Definition vfs_lookup_child (dir : Z) (name : string) : V (Z * option Z) :=
  d ← inode_at dir;
  if negb (bool_decide (i_type d = VFS_NODE_DIRECTORY)) then mret (- ENOTDIR, None)
  else if bool_decide (i_ops d = 0) then mret (- ENOTDIR, None)
  else match m_lookup (i_ops d) with
       | None => mret (- ENOTDIR, None)
       | Some lookup => lookup dir name
       end.

Definition vfs_lookup_parent (inode : Z) : V (Z * option Z) :=
  i ← inode_at inode;
  if negb (bool_decide (i_type i = VFS_NODE_DIRECTORY)) then mret (- ENOTDIR, None)
  else
    root ← gets vfs_root;
    if bool_decide (inode = root) then mret (0, Some root)
    else if bool_decide (i_ops i = 0) then mret (- EINVAL, None)
    else match m_parent (i_ops i) with
         | None => mret (- EINVAL, None)
         | Some parent => parent inode
         end.

Definition vfs_init : V unit :=
  modify (fun s => s <| vfs_root := 0 |>) ;; modify (fun s => s <| vfs_ready := true |>).

Definition vfs_mount_root (root : Z) : V Z :=
  ready ← gets vfs_ready;
  if negb ready || bool_decide (root = 0) then mret (- EINVAL)
  else
    r ← inode_at root;
    if negb (bool_decide (i_type r = VFS_NODE_DIRECTORY)) then mret (- EINVAL)
    else modify (fun s => s <| vfs_root := root |>) ;; mret 0.

(** [while (path[index] == '/') index++;] *)
Fixpoint skip_slashes (fuel : nat) (path : string) (index : nat) : nat :=
  match fuel with
  | O => index
  | S fuel => if bool_decide (char_at path index = "/"%char) then skip_slashes fuel path (S index) else index
  end.

(** [while (index < length && path[index] != '/') { index++; name_len++; }] *)
Fixpoint scan_name (fuel : nat) (path : string) (length index name_len : nat) : nat * nat :=
  match fuel with
  | O => (index, name_len)
  | S fuel =>
      if bool_decide (index < length)%nat && negb (bool_decide (char_at path index = "/"%char))
      then scan_name fuel path length (S index) (S name_len) else (index, name_len)
  end.

(** One round of the walk over the path: the loop variables are [current] and
    [index]; it ends with an error or with the inode reached. *)
Definition walk_step (path : string) (length : nat) (v : Z * nat) : V ((Z * nat) + (Z + Z)) :=
  let '(current, index) := v in
  if negb (bool_decide (index < length)%nat) then mret (inr (inr current))
  else
    let index := skip_slashes (S length) path index in
    if bool_decide (length <= index)%nat then mret (inr (inr current))
    else
      let start := index in
      let '(index, name_len) := scan_name (S length) path length index 0 in
      if bool_decide (name_len = 0)%nat || bool_decide (VFS_NAME_MAX <= name_len)%nat
      then mret (inr (inl (- ENAMETOOLONG)))
      else
        let name := String.substring start name_len path in
        if vfs_segment_is_dot name then
          c ← inode_at current;
          if negb (bool_decide (i_type c = VFS_NODE_DIRECTORY)) then mret (inr (inl (- ENOTDIR)))
          else mret (inl (current, index))
        else if vfs_segment_is_dotdot name then
          r ← vfs_lookup_parent current;
          match r with
          | (ret, next) =>
              if negb (bool_decide (ret = 0)) then mret (inr (inl ret))
              else match next with Some n => mret (inl (n, index)) | None => fault end
          end
        else
          r ← vfs_lookup_child current name;
          let '(ret, next) := r in
          if negb (bool_decide (ret = 0)) then mret (inr (inl ret))
          else if bool_decide (default 0 next = 0) then mret (inr (inl (- ENOENT)))
          else mret (inl (default 0 next, index)).

(** [path = None] and [file = 0] stand for NULL.  Every round passes at least one
    character. *)
Definition vfs_open (path : option string) (file : Z) : V Z :=
  ready ← gets vfs_ready;
  root ← gets vfs_root;
  match path with
  | None => mret (- EINVAL)
  | Some path =>
      if bool_decide (file = 0) || negb ready || bool_decide (root = 0) then mret (- EINVAL)
      else
        vfs_clear_file file ;;
        let length := vfs_strlen path in
        if bool_decide (length = 0)%nat || bool_decide (VFS_PATH_MAX <= length)%nat
           || negb (bool_decide (char_at path 0 = "/"%char))
        then mret (- EINVAL)
        else
          r ← loop (S length) (walk_step path length) (root, 1%nat);
          match r with
          | inl err => mret err
          | inr current =>
              set_file file (fun f => f <| f_inode := current |>) ;;
              set_file file (fun f => f <| f_offset := 0 |>) ;;
              c ← inode_at current;
              set_file file (fun f => f <| f_ops := i_f_ops c |>) ;;
              set_file file (fun f => f <| f_private := 0 |>) ;;
              mret 0
          end
  end.

(** [buffer] and [read_size] say whether the pointer is not NULL; the result is the
    status, the bytes stored to [buffer] and what is stored to [*read_size]. *)
Definition vfs_read (file : Z) (buffer : bool) (size : Z) (read_size : bool) : V (Z * list Z * Z) :=
  if bool_decide (file = 0) || negb buffer || negb read_size then mret (- EINVAL, [], 0)
  else
    f ← file_at file;
    if bool_decide (f_inode f = 0) then mret (- EINVAL, [], 0)
    else
      i ← inode_at (f_inode f);
      if negb (bool_decide (i_type i = VFS_NODE_REGULAR)) then mret (- EISDIR, [], 0)
      else if bool_decide (f_ops f = 0) then mret (- EINVAL, [], 0)
      else match m_read (f_ops f) with
           | None => mret (- EINVAL, [], 0)
           | Some read => read file size
           end.

Definition vfs_readdir (file : Z) (dirent : bool) : V (Z * option vfs_dirent) :=
  if bool_decide (file = 0) || negb dirent then mret (- EINVAL, None)
  else
    f ← file_at file;
    if bool_decide (f_inode f = 0) then mret (- EINVAL, None)
    else
      i ← inode_at (f_inode f);
      if negb (bool_decide (i_type i = VFS_NODE_DIRECTORY)) then mret (- ENOTDIR, None)
      else if bool_decide (f_ops f = 0) then mret (- ENOTDIR, None)
      else match m_readdir (f_ops f) with
           | None => mret (- ENOTDIR, None)
           | Some readdir => readdir file
           end.

Definition vfs_close (file : Z) : V unit :=
  if bool_decide (file = 0) then mret tt
  else
    f ← file_at file;
    if bool_decide (f_inode f = 0) then mret tt
    else
      (if bool_decide (f_ops f = 0) then mret tt
       else match m_close (f_ops f) with None => mret tt | Some close => close file end) ;;
      vfs_clear_file file.
End operations.

(** ** The interface to a filesystem *)

Inductive fsnode :=
| DirNode (children : list (string * Z)) (parent : Z)
| FileNode (content : list Z).

Definition kind (n : fsnode) : Z :=
  match n with DirNode _ _ => VFS_NODE_DIRECTORY | FileNode _ => VFS_NODE_REGULAR end.

Fixpoint assoc (name : string) (l : list (string * Z)) : option Z :=
  match l with
  | [] => None
  | (k, v) :: l => if bool_decide (k = name) then Some v else assoc name l
  end.

(** What a read of at most [size] bytes at [offset] stores. *)
Definition slice (content : list Z) (offset size : Z) : list Z :=
  take (Z.to_nat size) (drop (Z.to_nat offset) content).

(** The tree [t] a filesystem shows through its methods. *)
Class FsSpec (P : Type) `{FsMethods P} := {
  fs_ok : vfs P -> gmap Z fsnode -> Prop;
  fs_files : forall s t m, fs_ok s t -> fs_ok (s <| files := m |>) t;
  fs_inode : forall s t n nd, fs_ok s t -> t !! n = Some nd ->
    n <> 0 /\ exists i, inodes s !! n = Some i /\ i_type i = kind nd;
  fs_lookup : forall s t n ch par i, fs_ok s t -> t !! n = Some (DirNode ch par) -> inodes s !! n = Some i ->
    i_ops i <> 0 /\ exists f, m_lookup (i_ops i) = Some f /\
    forall name, f n name s = Ret (match assoc name ch with Some c => (0, Some c) | None => (- ENOENT, None) end) s;
  fs_children : forall s t n ch par name c, fs_ok s t -> t !! n = Some (DirNode ch par) ->
    assoc name ch = Some c -> is_Some (t !! c);
  fs_parent : forall s t n ch par i, fs_ok s t -> t !! n = Some (DirNode ch par) -> inodes s !! n = Some i ->
    i_ops i <> 0 /\ is_Some (t !! par) /\ exists f, m_parent (i_ops i) = Some f /\ f n s = Ret (0, Some par) s;
  fs_read : forall s t n content i, fs_ok s t -> t !! n = Some (FileNode content) -> inodes s !! n = Some i ->
    i_f_ops i <> 0 /\ Z.of_nat (length content) < 18446744073709551616 /\
    exists f, m_read (i_f_ops i) = Some f /\
    forall fd x size, files s !! fd = Some x -> f_inode x = n -> in64 (f_offset x) -> in64 size ->
      let got := slice content (f_offset x) size in
      f fd size s = Ret (0, got, Z.of_nat (length got))
                        (s <| files ::= <[fd := x <| f_offset := f_offset x + Z.of_nat (length got) |>]> |>);
  fs_readdir : forall s t n ch par i, fs_ok s t -> t !! n = Some (DirNode ch par) -> inodes s !! n = Some i ->
    i_f_ops i <> 0 /\ exists f, m_readdir (i_f_ops i) = Some f /\
    forall fd x, files s !! fd = Some x -> f_inode x = n -> in64 (f_offset x) ->
      match ch !! Z.to_nat (f_offset x) with
      | None => f fd s = Ret (- ENOENT, None) s
      | Some (name, c) => exists d, f fd s =
          Ret (0, Some d) (s <| files ::= <[fd := x <| f_offset := f_offset x + 1 |>]> |>) /\
          (String.length name < VFS_NAME_MAX -> d_name d = name)%nat /\
          forall nd, t !! c = Some nd -> d_type d = kind nd
      end
}.

(** ** Paths *)

(** The path between its slashes, and the components it names. *)
Fixpoint segments (path : string) : list string :=
  match path with
  | EmptyString => [EmptyString]
  | String c path =>
      if bool_decide (c = "/"%char) then EmptyString :: segments path
      else match segments path with
           | seg :: l => String c seg :: l
           | [] => [String c EmptyString]
           end
  end.

Definition components (path : string) : list string :=
  List.filter (fun seg => negb (bool_decide (seg = EmptyString))) (segments path).

(** Where a list of components leads from [cur]: an inode or an error. *)
Fixpoint resolve (t : gmap Z fsnode) (root cur : Z) (path : list string) : Z + Z :=
  match path with
  | [] => inr cur
  | name :: path =>
      if bool_decide (VFS_NAME_MAX <= String.length name)%nat then inl (- ENAMETOOLONG)
      else
        match t !! cur with
        | Some (DirNode ch par) =>
            if bool_decide (name = "."%string) then resolve t root cur path
            else if bool_decide (name = ".."%string)
            then resolve t root (if bool_decide (cur = root) then root else par) path
            else match assoc name ch with
                 | Some n => resolve t root n path
                 | None => inl (- ENOENT)
                 end
        | _ => inl (- ENOTDIR)
        end
  end.

Fixpoint sdrop (n : nat) (s : string) : string :=
  match n, s with
  | O, _ => s
  | S n, String _ s => sdrop n s
  | S _, EmptyString => EmptyString
  end.

Fixpoint lstrip (s : string) : string :=
  match s with
  | String c s' => if bool_decide (c = "/"%char) then lstrip s' else s
  | EmptyString => EmptyString
  end.

Fixpoint word (s : string) : string :=
  match s with
  | String c s' => if bool_decide (c = "/"%char) then EmptyString else String c (word s')
  | EmptyString => EmptyString
  end.

Definition after_word (s : string) : string := sdrop (String.length (word s)) s.

Lemma char_at_sdrop i p : char_at p i = char_at (sdrop i p) 0.
Proof. revert p. induction i as [|i IH]; intros [|c p]; try done. apply (IH p). Qed.

Lemma sdrop_S i p : sdrop (S i) p = sdrop 1 (sdrop i p).
Proof. revert p. induction i as [|i IH]; intros [|c p]; try done. apply (IH p). Qed.

Lemma sdrop_add i j p : sdrop (i + j) p = sdrop j (sdrop i p).
Proof. revert p. induction i as [|i IH]; intros [|c p]; try done; [by destruct j|]. apply (IH p). Qed.

Lemma length_sdrop i p : String.length (sdrop i p) = (String.length p - i)%nat.
Proof. revert p. induction i as [|i IH]; intros [|c p]; simpl; auto. Qed.

Lemma skip_slashes_spec p fuel : forall i, (String.length p - i < fuel)%nat ->
  sdrop (skip_slashes fuel p i) p = lstrip (sdrop i p) /\ (i <= skip_slashes fuel p i)%nat.
Proof.
  induction fuel as [|fuel IH]; intros i Hf; [lia|]. simpl. rewrite char_at_sdrop.
  pose proof (length_sdrop i p) as Hl. destruct (sdrop i p) as [|c q] eqn:E; simpl in *.
  - by rewrite E.
  - change (char_at (String c q) 0) with c. case_bool_decide as Ec; [|by rewrite E].
    destruct (IH (S i)) as [IH1 IH2]; [lia|]. rewrite IH1, sdrop_S, E. simpl. split; [done|lia].
Qed.

Lemma scan_name_spec p fuel : forall i k, (String.length p - i < fuel)%nat ->
  scan_name fuel p (String.length p) i k =
  (i + String.length (word (sdrop i p)), k + String.length (word (sdrop i p)))%nat.
Proof.
  induction fuel as [|fuel IH]; intros i k Hf; [lia|]. simpl. rewrite char_at_sdrop.
  pose proof (length_sdrop i p) as Hl. destruct (sdrop i p) as [|c q] eqn:E; simpl in *.
  - rewrite bool_decide_eq_false_2 by lia. simpl. f_equal; lia.
  - rewrite bool_decide_eq_true_2 by lia. change (char_at (String c q) 0) with c.
    case_bool_decide as Ec; simpl; [f_equal; lia|]. rewrite IH by lia. rewrite sdrop_S, E. simpl. f_equal; lia.
Qed.

Lemma segments_word p :
  segments p = word p :: match after_word p with EmptyString => [] | String _ r => segments r end.
Proof.
  induction p as [|c p IH]; [done|]. unfold after_word in *. simpl. case_bool_decide; [done|].
  rewrite IH. done.
Qed.

Lemma components_lstrip p : components (lstrip p) = components p.
Proof.
  induction p as [|c p IH]; [done|]. simpl. case_bool_decide as Ec; [|done]. rewrite IH. subst c. done.
Qed.

Lemma lstrip_word p : lstrip p = EmptyString \/ word (lstrip p) <> EmptyString.
Proof.
  induction p as [|c p IH]; [by left|]. simpl. case_bool_decide as Ec; [done|]. right. simpl.
  by rewrite bool_decide_eq_false_2.
Qed.

Lemma after_word_slash p : after_word p = EmptyString \/ exists r, after_word p = String "/"%char r.
Proof.
  unfold after_word. induction p as [|c p IH]; [by left|]. simpl. case_bool_decide as Ec; [|done].
  right. exists p. by subst.
Qed.

Lemma components_word p : word p <> EmptyString -> components p = word p :: components (after_word p).
Proof.
  intros Hw. unfold components at 1. rewrite segments_word. simpl.
  rewrite bool_decide_eq_false_2 by done. simpl. f_equal.
  destruct (after_word_slash p) as [->|[r ->]]; done.
Qed.

Lemma substring_word i p : String.substring i (String.length (word (sdrop i p))) p = word (sdrop i p).
Proof.
  revert p. induction i as [|i IH]; intros [|c p]; simpl; try done.
  - case_bool_decide; [done|]. simpl. f_equal. clear. induction p as [|c p IH]; [done|]. simpl.
    case_bool_decide; [done|]. simpl. by f_equal.
Qed.

Lemma segment_is_dot name : vfs_segment_is_dot name = bool_decide (name = "."%string).
Proof.
  unfold vfs_segment_is_dot. rewrite <- bool_decide_and. apply bool_decide_ext. split; [|by intros ->].
  destruct name as [|c [|d name]]; intros [Hl Hc]; try done. change (c = "."%char) in Hc. by subst.
Qed.

Lemma segment_is_dotdot name : vfs_segment_is_dotdot name = bool_decide (name = ".."%string).
Proof.
  unfold vfs_segment_is_dotdot. rewrite <- !bool_decide_and. apply bool_decide_ext. split; [|by intros ->].
  destruct name as [|c [|d [|e name]]]; intros [[Hl Hc] Hd]; try done.
  change (c = "."%char) in Hc. change (d = "."%char) in Hd. by subst.
Qed.

Section walk.
Context {P : Type} `{FsSpec P}.
Implicit Types (s : vfs P) (t : gmap Z fsnode).

Lemma inode_at_run s n i : inodes s !! n = Some i -> inode_at n s = Ret i s.
Proof. intros E. unfold inode_at, deref. by rewrite E. Qed.

Lemma lookup_child_run s t n nd name :
  fs_ok s t -> t !! n = Some nd ->
  vfs_lookup_child n name s =
  Ret (match nd with
       | DirNode ch _ => match assoc name ch with Some c => (0, Some c) | None => (- ENOENT, None) end
       | FileNode _ => (- ENOTDIR, None)
       end) s.
Proof.
  intros Hok Hn. destruct (fs_inode s t n nd Hok Hn) as (_ & i & Hi & Hk). unfold vfs_lookup_child.
  mrun (inode_at_run _ _ _ Hi). rewrite Hk. destruct nd as [ch par|c]; [|done]. simpl.
  destruct (fs_lookup s t n ch par i Hok Hn Hi) as (Hz & f & Hf & Hrun).
  rewrite bool_decide_eq_false_2, Hf by done. apply Hrun.
Qed.

Lemma lookup_parent_run s t n nd :
  fs_ok s t -> t !! n = Some nd ->
  vfs_lookup_parent n s =
  Ret (match nd with
       | DirNode _ par => (0, Some (if bool_decide (n = vfs_root s) then vfs_root s else par))
       | FileNode _ => (- ENOTDIR, None)
       end) s.
Proof.
  intros Hok Hn. destruct (fs_inode s t n nd Hok Hn) as (_ & i & Hi & Hk). unfold vfs_lookup_parent.
  mrun (inode_at_run _ _ _ Hi). rewrite Hk. destruct nd as [ch par|c]; [|done]. simpl. mred. case_bool_decide; [done|].
  destruct (fs_parent s t n ch par i Hok Hn Hi) as (Hz & _ & f & Hf & Hrun).
  rewrite bool_decide_eq_false_2, Hf by done. apply Hrun.
Qed.

(** The walk from [index] is the resolution of the components that are left. *)
Lemma walk_run s t path : forall fuel cur index,
  fs_ok s t -> is_Some (t !! vfs_root s) -> is_Some (t !! cur) ->
  (String.length path - index < fuel)%nat ->
  loop fuel (walk_step path (String.length path)) (cur, index) s =
  Ret (resolve t (vfs_root s) cur (components (sdrop index path))) s /\
  (forall n, resolve t (vfs_root s) cur (components (sdrop index path)) = inr n -> is_Some (t !! n)).
Proof.
  induction fuel as [|fuel IH]; intros cur index Hok Hroot [nd Hcur] Hf; [lia|]. rewrite loop_S.
  unfold walk_step. set (len := String.length path) in *.
  destruct (skip_slashes_spec path (S len) index) as [Hsk Hge]; [fold len; lia|].
  set (j := skip_slashes (S len) path index) in *. rewrite <- components_lstrip. rewrite <- Hsk.
  assert (Hlen := length_sdrop j path). fold len in Hlen.
  case_bool_decide as Hi; cbn [negb].
  2:{ assert (E : sdrop j path = EmptyString) by (destruct (sdrop j path); [done|]; simpl in Hlen; lia).
      rewrite E. mred. split; [done|]. intros n [= <-]. by eexists. }
  case_bool_decide as Hj.
  { assert (E : sdrop j path = EmptyString) by (destruct (sdrop j path); [done|]; simpl in Hlen; lia).
    rewrite E. mred. split; [done|]. intros n [= <-]. by eexists. }
  pose proof (scan_name_spec path (S len) j 0) as Hscan. fold len in Hscan. rewrite Hscan by lia. simpl.
  assert (Hw : word (sdrop j path) <> EmptyString).
  { destruct (lstrip_word (sdrop index path)) as [E|E]; rewrite Hsk in *; [|done]. rewrite E in Hlen. simpl in Hlen. lia. }
  rewrite (components_word _ Hw). simpl. set (name := word (sdrop j path)) in *.
  assert (Hn0 : String.length name <> 0%nat) by (by destruct name).
  rewrite (bool_decide_eq_false_2 (String.length name = 0%nat)) by done. simpl.
  destruct (decide (VFS_NAME_MAX <= String.length name)%nat) as [Hlong|Hlong].
  { rewrite bool_decide_eq_true_2 by done. done. }
  rewrite bool_decide_eq_false_2 by done.
  pose proof (substring_word j path) as Hsub. fold name in Hsub. rewrite Hsub.
  assert (Hnext : after_word (sdrop j path) = sdrop (j + String.length name) path).
  { unfold after_word. fold name. by rewrite sdrop_add. }
  rewrite Hnext, Hcur, segment_is_dot, segment_is_dotdot.
  assert (Hfuel : (len - (j + String.length name) < fuel)%nat) by lia.
  destruct (fs_inode s t cur nd Hok Hcur) as (_ & i & Hino & Hk).
  case_bool_decide as Ed.
  { mred. mrun (inode_at_run _ _ _ Hino). rewrite Hk. destruct nd as [ch par|c]; simpl; [|done].
    apply IH; eauto. }
  case_bool_decide as Edd.
  { mred. mrun (lookup_parent_run s t cur nd Hok Hcur). destruct nd as [ch par|c]; simpl; [|done].
    apply IH; [done|done| |done]. case_bool_decide; [done|].
    by destruct (fs_parent s t cur ch par i Hok Hcur Hino) as (_ & ? & _). }
  mred. mrun (lookup_child_run s t cur nd name Hok Hcur). destruct nd as [ch par|c]; simpl; [|done].
  destruct (assoc name ch) as [c|] eqn:Ec; simpl; [|done].
  destruct (fs_children s t cur ch par name c Hok Hcur Ec) as [cn Hcn].
  destruct (fs_inode s t c cn Hok Hcn) as (Hc0 & _). rewrite bool_decide_eq_false_2 by done.
  apply IH; eauto.
Qed.

Definition closed_file : vfs_file := VfsFile 0 0 0 0.

(** Where an absolute path leads. *)
Definition lookup_path t (root : Z) (path : string) : Z + Z :=
  if bool_decide (String.length path = 0)%nat || bool_decide (VFS_PATH_MAX <= String.length path)%nat
     || negb (bool_decide (char_at path 0 = "/"%char))
  then inl (- EINVAL) else resolve t root root (components path).

Lemma set_file_run s f g x :
  files s !! f = Some x -> set_file f g s = Ret tt (s <| files ::= <[f := g x]> |>).
Proof. intros E. unfold set_file, file_at. by erewrite bind_deref by exact E. Qed.

Lemma set_file_again {B} s f g x (rest : M (vfs P) B) :
  (set_file f g ;; rest) (s <| files ::= <[f := x]> |>) = rest (s <| files ::= <[f := g x]> |>).
Proof.
  erewrite bind_run by (apply set_file_run; simpl; apply lookup_insert_eq). simpl. by rewrite insert_insert_eq.
Qed.

Lemma clear_file_run s f x :
  files s !! f = Some x -> vfs_clear_file f s = Ret tt (s <| files ::= <[f := closed_file]> |>).
Proof.
  intros E. unfold vfs_clear_file. erewrite bind_run by (apply set_file_run; exact E).
  rewrite !set_file_again. erewrite set_file_run by (simpl; apply lookup_insert_eq).
  simpl. by rewrite insert_insert_eq.
Qed.

Lemma components_root path : char_at path 0 = "/"%char -> components (sdrop 1 path) = components path.
Proof. destruct path as [|c path]; [done|]. intros Hc. change (c = "/"%char) in Hc. by subst. Qed.

(** The open file object a path gives. *)
Definition opened s t (path : string) : vfs_file :=
  match lookup_path t (vfs_root s) path with
  | inl _ => closed_file
  | inr n => VfsFile n 0 (match inodes s !! n with Some i => i_f_ops i | None => 0 end) 0
  end.

Lemma vfs_open_run s t file x path :
  fs_ok s t -> vfs_ready s = true -> is_Some (t !! vfs_root s) -> file <> 0 -> files s !! file = Some x ->
  vfs_open (Some path) file s =
  Ret (match lookup_path t (vfs_root s) path with inl e => e | inr _ => 0 end)
      (s <| files ::= <[file := opened s t path]> |>).
Proof.
  intros Hok Hrd Hroot Hf Hx. destruct Hroot as [rn Hrn].
  destruct (fs_inode s t _ rn Hok Hrn) as (Hr0 & _).
  unfold vfs_open, opened, lookup_path. mred. rewrite Hrd, !bool_decide_eq_false_2 by done. simpl.
  mrun (clear_file_run s file x Hx). set (s1 := s <| files ::= <[file := closed_file]> |>).
  change vfs_strlen with String.length. destruct (_ || _ || _) eqn:Eb; [done|].
  apply orb_false_iff in Eb as [_ Hc%negb_false_iff%bool_decide_eq_true_1].
  assert (Hok1 : fs_ok s1 t) by by apply fs_files.
  destruct (walk_run s1 t path (S (String.length path)) (vfs_root s1) 1 Hok1) as [E Hres];
    [by eexists|by eexists|lia|].
  rewrite (components_root path Hc) in E, Hres. rewrite (bind_run _ _ _ _ _ E).
  change (vfs_root s1) with (vfs_root s) in *.
  destruct (resolve t (vfs_root s) (vfs_root s) (components path)) as [e|n] eqn:Er; [done|].
  destruct (Hres n eq_refl) as [nd Hnd]. destruct (fs_inode s t n nd Hok Hnd) as (_ & i & Hi & _).
  unfold s1. rewrite !set_file_again. erewrite bind_run by (apply inode_at_run; exact Hi).
  rewrite !set_file_again, Hi. done.
Qed.

(** A path over the limit is refused as invalid, not as too long. *)
Lemma long_path_is_invalid s t file x path :
  fs_ok s t -> vfs_ready s = true -> is_Some (t !! vfs_root s) -> file <> 0 -> files s !! file = Some x ->
  (VFS_PATH_MAX <= String.length path)%nat ->
  exists s', vfs_open (Some path) file s = Ret (- EINVAL) s'.
Proof.
  intros Hok Hrd Hroot Hf Hx Hl. rewrite (vfs_open_run s t file x path) by done. eexists. f_equal.
  unfold lookup_path. rewrite (bool_decide_eq_true_2 (VFS_PATH_MAX <= _)%nat) by done. by rewrite orb_true_r.
Qed.

Lemma resolve_error t root cur path e : resolve t root cur path = inl e -> e < 0.
Proof.
  revert cur. induction path as [|name path IH]; intros cur; simpl; [done|].
  case_bool_decide; [by intros [= <-]|]. destruct (t !! cur) as [[ch par|c]|]; [|by intros [= <-]..].
  case_bool_decide; [apply IH|]. case_bool_decide; [apply IH|].
  destruct (assoc name ch); [apply IH|by intros [= <-]].
Qed.

Lemma lookup_path_error t root path e : lookup_path t root path = inl e -> e < 0.
Proof. unfold lookup_path. destruct (_ || _); [by intros [= <-]|]. apply resolve_error. Qed.

Lemma lookup_path_node s t path n :
  fs_ok s t -> is_Some (t !! vfs_root s) -> lookup_path t (vfs_root s) path = inr n ->
  exists nd i, t !! n = Some nd /\ inodes s !! n = Some i /\ i_type i = kind nd.
Proof.
  intros Hok Hroot. unfold lookup_path. destruct (_ || _) eqn:Eb; [done|].
  apply orb_false_iff in Eb as [_ Hc%negb_false_iff%bool_decide_eq_true_1]. rewrite <- (components_root _ Hc).
  intros Hr. destruct (walk_run s t path (S (String.length path)) (vfs_root s) 1 Hok Hroot Hroot) as [_ Hres]; [lia|].
  destruct (Hres n Hr) as [nd Hnd]. destruct (fs_inode s t n nd Hok Hnd) as (_ & i & Hi & Hk). eauto.
Qed.

Definition is_absolute (path : string) : bool :=
  match path with String c _ => bool_decide (c = "/"%char) | EmptyString => false end.

Lemma lookup_path_short t root path :
  (String.length path < VFS_PATH_MAX)%nat ->
  lookup_path t root path = if is_absolute path then resolve t root root (components path) else inl (- EINVAL).
Proof.
  intros Hl. unfold lookup_path. rewrite (bool_decide_eq_false_2 (VFS_PATH_MAX <= _)%nat) by lia.
  destruct path as [|c rest]; [done|]. unfold char_at. simpl. by destruct (bool_decide (c = "/"%char)).
Qed.

(** C17.  [vfs_open] on a path of fewer than [VFS_PATH_MAX] characters.  An absolute
    path is resolved: the character-level walk, which skips repeated slashes and cuts
    out one component at a time, ends exactly where the list of the path's components
    leads in the mounted tree, [.] and [..] included, and the file object is open on
    that inode at offset 0; when a component fails, the status is the error of the
    first one that does and the file object is closed.  A path that is empty or
    relative gives -EINVAL and a closed file object.  Nothing else changes.

    Longer paths are left out: for them the code returns -EINVAL where errno.h has
    another status ([long_path_is_invalid]). *)
Theorem vfs_open_resolves s t file x path :
  fs_ok s t -> vfs_ready s = true -> is_Some (t !! vfs_root s) -> file <> 0 -> files s !! file = Some x ->
  (String.length path < VFS_PATH_MAX)%nat ->
  exists ret s', vfs_open (Some path) file s = Ret ret s' /\
    (forall f, f <> file -> files s' !! f = files s !! f) /\ inodes s' = inodes s /\
    (is_absolute path = false -> ret = - EINVAL /\ files s' !! file = Some closed_file) /\
    (is_absolute path = true ->
     match resolve t (vfs_root s) (vfs_root s) (components path) with
     | inl e => ret = e /\ ret < 0 /\ files s' !! file = Some closed_file
     | inr n => ret = 0 /\ exists i, inodes s !! n = Some i /\ files s' !! file = Some (VfsFile n 0 (i_f_ops i) 0)
     end).
Proof.
  intros Hok Hrd Hroot Hf Hx Hl. eexists _, _. split; [by eapply vfs_open_run|].
  pose proof (lookup_path_short t (vfs_root s) path Hl) as El. unfold opened.
  split; [|split; [|split; intros Ha; rewrite Ha in El; rewrite El]].
  - intros f Hne. simpl. by rewrite lookup_insert_ne.
  - done.
  - simpl. by rewrite lookup_insert_eq.
  - destruct (resolve t _ _ _) as [e|n] eqn:Er; simpl; rewrite lookup_insert_eq.
    + split_and!; [done| |done]. by eapply resolve_error.
    + split; [done|]. destruct (lookup_path_node s t path n Hok Hroot) as (nd & i & _ & Hi & _); [congruence|].
      exists i. by rewrite Hi.
Qed.

(** ** Reading *)

(** An open file object on the inode [n]. *)
Definition open_on s (f : Z) (n offset : Z) : Prop :=
  f <> 0 /\ exists i x, inodes s !! n = Some i /\ files s !! f = Some x /\ f_inode x = n /\
    f_offset x = offset /\ f_ops x = i_f_ops i /\ in64 offset.

Lemma vfs_read_run s t f n offset content size :
  fs_ok s t -> t !! n = Some (FileNode content) -> open_on s f n offset -> in64 size ->
  let got := slice content offset size in
  exists s', vfs_read f true size true s = Ret (0, got, Z.of_nat (length got)) s' /\
    fs_ok s' t /\ open_on s' f n (offset + Z.of_nat (length got)) /\
    s' = s <| files := files s' |> /\ (forall g, g <> f -> files s' !! g = files s !! g).
Proof.
  intros Hok Hn (Hf & i & x & Hi & Hx & Hino & Hoff & Hops & Hin) Hsz got.
  destruct (fs_inode s t n _ Hok Hn) as (Hn0 & i' & Hi' & Hk). assert (i' = i) as -> by congruence.
  destruct (fs_read s t n content i Hok Hn Hi) as (Hz & Hlen & m & Hm & Hrun).
  specialize (Hrun f x size Hx Hino). rewrite Hoff in Hrun. specialize (Hrun Hin Hsz). fold got in Hrun.
  eexists. split.
  { unfold vfs_read. rewrite bool_decide_eq_false_2 by done. simpl. unfold file_at.
    erewrite bind_deref by exact Hx. rewrite Hino, bool_decide_eq_false_2 by done.
    mrun (inode_at_run _ _ _ Hi). rewrite Hk. simpl. rewrite Hops, bool_decide_eq_false_2, Hm by done.
    exact Hrun. }
  split; [by apply fs_files|]. split; [split; [done|]|split; [done|]].
  - exists i. eexists. split; [exact Hi|]. split; [simpl; apply lookup_insert_eq|]. simpl. split_and!; try done.
    assert (length got <= length content - Z.to_nat offset)%nat.
    { unfold got, slice. rewrite length_take, length_drop. lia. }
    unfold in64 in *. destruct (decide (Z.to_nat offset <= length content)%nat); lia.
  - intros g Hg. simpl. by rewrite lookup_insert_ne.
Qed.

(** Successive reads of the given sizes. *)
Fixpoint read_seq (f : Z) (sizes : list Z) : M (vfs P) (list (Z * list Z * Z)) :=
  match sizes with
  | [] => mret []
  | n :: sizes => r ← vfs_read f true n true; rs ← read_seq f sizes; mret (r :: rs)
  end.

Definition read_bytes (rs : list (Z * list Z * Z)) : list Z := List.concat (List.map (fun r => r.1.2) rs).

Definition sum (l : list Z) : Z := foldr Z.add 0 l.

Lemma slice_chunks content offset n m :
  0 <= offset -> 0 <= n -> 0 <= m ->
  slice content offset n ++ slice content (offset + Z.of_nat (length (slice content offset n))) m =
  slice content offset (n + m).
Proof.
  intros Ho Hn Hm. unfold slice.
  set (rest := drop (Z.to_nat offset) content).
  replace (drop (Z.to_nat (offset + Z.of_nat (length (take (Z.to_nat n) rest)))) content)
    with (drop (length (take (Z.to_nat n) rest)) rest).
  2:{ unfold rest. rewrite drop_drop. f_equal. lia. }
  rewrite length_take. rewrite Z2Nat.inj_add by lia.
  destruct (Nat.le_ge_cases (Z.to_nat n) (length rest)) as [Hle|Hge].
  - rewrite Nat.min_l by done. rewrite <- take_take_drop. done.
  - rewrite Nat.min_r by done. rewrite drop_all. rewrite (take_ge rest) by lia.
    rewrite take_nil, app_nil_r. rewrite take_ge by lia. done.
Qed.

(** Reading a file piece by piece: whatever the sizes of the reads, each succeeds
    and stores as many bytes as it reports, the pieces together are the file's bytes
    from the offset on, as many as were asked for or are left, and no other open
    file's offset moves. *)
Theorem reads_concatenate t f n content sizes : forall s offset,
  fs_ok s t -> t !! n = Some (FileNode content) -> open_on s f n offset -> Forall in64 sizes ->
  exists rs s', read_seq f sizes s = Ret rs s' /\
    read_bytes rs = slice content offset (sum sizes) /\
    Forall (fun r => r.1.1 = 0 /\ r.2 = Z.of_nat (length r.1.2)) rs /\
    open_on s' f n (offset + Z.of_nat (length (read_bytes rs))) /\
    (forall g, g <> f -> files s' !! g = files s !! g).
Proof.
  induction sizes as [|m sizes IH]; intros s offset Hok Hn Ho Hs; simpl.
  { exists [], s. split; [done|]. unfold slice. simpl. split_and!; [done|by constructor| |done].
    by rewrite Z.add_0_r. }
  apply Forall_cons in Hs as [Hm Hs].
  destruct (vfs_read_run s t f n offset content m Hok Hn Ho Hm) as (s1 & E1 & Hok1 & Ho1 & _ & Hfr1).
  destruct (IH s1 _ Hok1 Hn Ho1 Hs) as (rs & s2 & E2 & Hb & Hall & Ho2 & Hfr2).
  eexists (_ :: rs), s2. split; [mrun E1; by mrun E2|].
  assert (Hoff : 0 <= offset) by (destruct Ho as (_ & ? & ? & _ & _ & _ & _ & _ & [? _]); lia).
  assert (Hsum : 0 <= sum sizes) by (clear -Hs; induction Hs as [|z l [? _] _ IHl]; simpl; lia).
  unfold read_bytes in *. simpl. rewrite Hb. rewrite slice_chunks by (unfold in64 in *; lia).
  split_and!; [done|by constructor| |].
  - rewrite Hb in Ho2. rewrite <- Z.add_assoc, <- Nat2Z.inj_add, <- length_app in Ho2.
    rewrite slice_chunks in Ho2 by (unfold in64 in *; lia). done.
  - intros g Hg. by rewrite Hfr2, Hfr1.
Qed.

(** ** Directories *)

Lemma vfs_readdir_run s t f n offset ch par :
  fs_ok s t -> t !! n = Some (DirNode ch par) -> open_on s f n offset -> offset + 1 < 18446744073709551616 ->
  match ch !! Z.to_nat offset with
  | None => vfs_readdir f true s = Ret (- ENOENT, None) s
  | Some (name, c) => exists d s', vfs_readdir f true s = Ret (0, Some d) s' /\
      fs_ok s' t /\ open_on s' f n (offset + 1) /\
      (String.length name < VFS_NAME_MAX -> d_name d = name)%nat /\ (forall nd, t !! c = Some nd -> d_type d = kind nd)
  end.
Proof.
  intros Hok Hn (Hf & i & x & Hi & Hx & Hino & Hoff & Hops & Hin) Hlt.
  destruct (fs_inode s t n _ Hok Hn) as (Hn0 & i' & Hi' & Hk). assert (i' = i) as -> by congruence.
  destruct (fs_readdir s t n ch par i Hok Hn Hi) as (Hz & m & Hm & Hrun).
  specialize (Hrun f x Hx Hino). rewrite Hoff in Hrun. specialize (Hrun Hin).
  assert (E : vfs_readdir f true s = m f s).
  { unfold vfs_readdir. rewrite bool_decide_eq_false_2 by done. simpl. unfold file_at.
    erewrite bind_deref by exact Hx. rewrite Hino, bool_decide_eq_false_2 by done.
    mrun (inode_at_run _ _ _ Hi). rewrite Hk. simpl. by rewrite Hops, bool_decide_eq_false_2, Hm. }
  rewrite E. destruct (ch !! Z.to_nat offset) as [[name c]|]; [|done].
  destruct Hrun as (d & Hd & Hname & Htype). eexists d, _. split; [exact Hd|].
  split; [by apply fs_files|]. split; [split; [done|]|done]. exists i. eexists.
  split; [exact Hi|]. split; [simpl; apply lookup_insert_eq|]. simpl. unfold in64 in *. split_and!; try done; lia.
Qed.

(** [count] calls of [vfs_readdir]: the names they give. *)
Fixpoint readdir_seq (f : Z) (count : nat) : M (vfs P) (list string) :=
  match count with
  | O => mret []
  | S count =>
      r ← vfs_readdir f true;
      match r with
      | (ret, Some d) => ns ← readdir_seq f count; mret (d_name d :: ns)
      | (_, None) => mret []
      end
  end.

(** Directory iteration: as many calls as the directory has entries give all the
    entries in order, and the call after them gives -ENOENT and nothing else, again
    and again. *)
Theorem readdir_enumerates t f n ch par : forall rest done s,
  fs_ok s t -> t !! n = Some (DirNode ch par) -> ch = done ++ rest ->
  Z.of_nat (length ch) + 1 < 18446744073709551616 ->
  Forall (fun e => String.length e.1 < VFS_NAME_MAX)%nat ch ->
  open_on s f n (Z.of_nat (length done)) ->
  exists s', readdir_seq f (length rest) s = Ret (List.map fst rest) s' /\
    vfs_readdir f true s' = Ret (- ENOENT, None) s'.
Proof.
  induction rest as [|[name c] rest IH]; intros don s Hok Hn Hch Hlen Hshort Ho; simpl.
  - exists s. split; [done|].
    pose proof (vfs_readdir_run s t f n _ ch par Hok Hn Ho) as Hrun. rewrite app_nil_r in Hch. subst don.
    rewrite Nat2Z.id, lookup_ge_None_2 in Hrun by lia. apply Hrun. lia.
  - pose proof (vfs_readdir_run s t f n _ ch par Hok Hn Ho) as Hrun.
    rewrite Nat2Z.id, Hch, list_lookup_middle in Hrun by done.
    destruct Hrun as (d & s1 & E & Hok1 & Ho1 & Hname & _).
    { rewrite Hch in Hlen. rewrite length_app in Hlen. simpl in Hlen. lia. }
    assert (Hd : d_name d = name).
    { apply Hname. rewrite Hch in Hshort. apply Forall_app in Hshort as [_ Hshort].
      by apply Forall_cons in Hshort as [? _]. }
    destruct (IH (don ++ [(name, c)]) s1 Hok1 Hn) as (s' & E' & Hend); try done.
    { by rewrite <- app_assoc. }
    { rewrite length_app. simpl. by replace (Z.of_nat (length don + 1)) with (Z.of_nat (length don) + 1) by lia. }
    exists s'. split; [|done]. mrun E. mrun E'. by rewrite Hd.
Qed.
End walk.
