(* ===== verification/Ramfs.v ===== *)
(** * fs/ramfs/ramfs.c: the built-in read-only filesystem, and the VFS selftest

    The inode is the first member of a ramfs node: both have the same address.  The
    nodes' own fields are the filesystem's private data; the tables of methods are
    four constants. *)

From Stdlib Require Import Ascii.
From S2P Require Import Prelude PhysMem Vfs.

Record ramfs_dir_entry := RamfsDirEntry {
  e_name : string;
  e_node : Z
}.

(** [data] and [children] are NULL when [None]. *)
Record ramfs_node := RamfsNode {
  data : option (list Z);
  children : option (list ramfs_dir_entry);
  child_count : Z;
  r_parent : Z
}.

#[export] Instance eta_ramfs_node : Eta ramfs_node := fun n =>
  RamfsNode (data n) (children n) (child_count n) (r_parent n).

Abbreviation ramfs := (gmap Z ramfs_node).
Abbreviation R := (M (vfs ramfs)).

Definition ramfs_dir_iops : Z := 4096.
Definition ramfs_file_fops : Z := 4112.
Definition ramfs_dir_fops : Z := 4136.

Definition ramfs_hello : Z := 8192.
Definition ramfs_config : Z := 8256.
Definition ramfs_etc : Z := 8320.
Definition ramfs_root : Z := 8384.

Definition bytes_of (s : string) : list Z :=
  List.map (fun c => Z.of_N (N_of_ascii c)) (String.list_ascii_of_string s).

Definition newline : string := String "010"%char EmptyString.

Definition ramfs_hello_data : list Z := bytes_of ("hello from ramfs" +:+ newline).
Definition ramfs_config_data : list Z :=
  bytes_of ("rootfs=ramfs" +:+ newline +:+ "stage=06-storage-vfs" +:+ newline).

(** The static initialisers. *)
Definition ramfs_etc_entries : list ramfs_dir_entry := [RamfsDirEntry "config.txt" ramfs_config].
Definition ramfs_root_entries : list ramfs_dir_entry :=
  [RamfsDirEntry "hello.txt" ramfs_hello; RamfsDirEntry "etc" ramfs_etc].

Definition static_nodes : ramfs :=
  {[ ramfs_hello := RamfsNode (Some ramfs_hello_data) None 0 0;
     ramfs_config := RamfsNode (Some ramfs_config_data) None 0 0;
     ramfs_etc := RamfsNode None (Some ramfs_etc_entries) 1 0;
     ramfs_root := RamfsNode None (Some ramfs_root_entries) 2 0 ]}.

Definition static_inodes : gmap Z vfs_inode :=
  {[ ramfs_hello := VfsInode "hello.txt" VFS_NODE_REGULAR (Z.of_nat (length ramfs_hello_data)) 0 ramfs_file_fops 0;
     ramfs_config := VfsInode "config.txt" VFS_NODE_REGULAR (Z.of_nat (length ramfs_config_data)) 0 ramfs_file_fops 0;
     ramfs_etc := VfsInode "etc" VFS_NODE_DIRECTORY 1 ramfs_dir_iops ramfs_dir_fops 0;
     ramfs_root := VfsInode "/" VFS_NODE_DIRECTORY 2 ramfs_dir_iops ramfs_dir_fops 0 ]}.

(** The node behind an inode: NULL when [private_data] is. *)
Definition ramfs_node_from_inode (inode : Z) : R Z := i ← inode_at inode; mret (i_private i).

Definition node_at (n : Z) : R ramfs_node := deref (fun s => fs_data s !! n).

Definition ramfs_parent (inode : Z) : R (Z * option Z) :=
  n ← ramfs_node_from_inode inode;
  if bool_decide (n = 0) then mret (- EINVAL, None)
  else
    node ← node_at n;
    if bool_decide (r_parent node = 0) then mret (- EINVAL, None) else mret (0, Some (r_parent node)).

Definition ramfs_strlen (text : string) : nat := String.length text.

(** [for (index = 0; index < right_len; index++) if (left[index] != right[index]) return 0;] *)
Fixpoint chars_equal (count : nat) (lhs rhs : string) : bool :=
  match count, lhs, rhs with
  | S count, String a lhs, String b rhs =>
      if bool_decide (a = b) then chars_equal count lhs rhs else false
  | _, _, _ => true
  end.

Definition ramfs_name_equal (lhs rhs : string) : bool :=
  let rhs_len := String.length rhs in
  if negb (bool_decide (ramfs_strlen lhs = rhs_len)) then false else chars_equal rhs_len lhs rhs.

(** The string in [dest] afterwards: at most [VFS_NAME_MAX - 1] characters of [src]. *)
Definition ramfs_copy_name (src : string) : string := String.substring 0 (VFS_NAME_MAX - 1) src.

Fixpoint lookup_entries (entries : list ramfs_dir_entry) (name : string) : option Z :=
  match entries with
  | [] => None
  | e :: entries => if ramfs_name_equal (e_name e) name then Some (e_node e) else lookup_entries entries name
  end.

(** The loop reads the first [child_count] elements of the table. *)
Definition ramfs_lookup (dir : Z) (name : string) : R (Z * option Z) :=
  n ← ramfs_node_from_inode dir;
  if bool_decide (n = 0) then mret (- EINVAL, None)
  else
    node ← node_at n;
    let entries := take (Z.to_nat (child_count node)) (default [] (children node)) in
    if bool_decide (Z.of_nat (length entries) < child_count node) then fault
    else match lookup_entries entries name with
         | Some c => mret (0, Some c)
         | None => mret (- ENOENT, None)
         end.

(** The copied bytes [data[offset .. offset + count)], which must exist. *)
Definition ramfs_read (file : Z) (size : Z) : R (Z * list Z * Z) :=
  f ← file_at file;
  n ← ramfs_node_from_inode (f_inode f);
  if bool_decide (n = 0) then mret (- EINVAL, [], 0)
  else
    node ← node_at n;
    match data node with
    | None => mret (- EINVAL, [], 0)
    | Some bytes =>
        i ← inode_at n;
        if bool_decide (i_size i <= f_offset f) then mret (0, [], 0)
        else
          let available := i_size i - f_offset f in
          let count := if bool_decide (size < available) then size else available in
          let got := take (Z.to_nat count) (drop (Z.to_nat (f_offset f)) bytes) in
          if bool_decide (Z.of_nat (length got) < count) then fault
          else
            set_file file (fun f => f <| f_offset := wrap64 (f_offset f + count) |>) ;;
            mret (0, got, count)
    end.

Definition ramfs_readdir (file : Z) : R (Z * option vfs_dirent) :=
  f ← file_at file;
  n ← ramfs_node_from_inode (f_inode f);
  if bool_decide (n = 0) then mret (- EINVAL, None)
  else
    node ← node_at n;
    if bool_decide (child_count node <= f_offset f) then mret (- ENOENT, None)
    else
      entry ← deref (fun _ => default [] (children node) !! Z.to_nat (f_offset f));
      i ← inode_at (e_node entry);
      set_file file (fun f => f <| f_offset := wrap64 (f_offset f + 1) |>) ;;
      mret (0, Some (VfsDirent (ramfs_copy_name (e_name entry)) (i_type i) (i_size i))).

#[export] Instance ramfs_methods : FsMethods ramfs := {|
  m_lookup t := if bool_decide (t = ramfs_dir_iops) then Some ramfs_lookup else None;
  m_parent t := if bool_decide (t = ramfs_dir_iops) then Some ramfs_parent else None;
  m_read t := if bool_decide (t = ramfs_file_fops) then Some ramfs_read else None;
  m_readdir t := if bool_decide (t = ramfs_dir_fops) then Some ramfs_readdir else None;
  m_close _ := None
|}.

Definition set_inode (n : Z) (f : vfs_inode -> vfs_inode) : R unit :=
  x ← inode_at n; modify (fun s => s <| inodes ::= <[n := f x]> |>).
Definition set_node (n : Z) (f : ramfs_node -> ramfs_node) : R unit :=
  x ← node_at n; modify (fun s => s <| fs_data ::= <[n := f x]> |>).

Definition ramfs_init : R unit :=
  set_inode ramfs_root (fun i => i <| i_private := ramfs_root |>) ;;
  set_inode ramfs_hello (fun i => i <| i_private := ramfs_hello |>) ;;
  set_inode ramfs_etc (fun i => i <| i_private := ramfs_etc |>) ;;
  set_inode ramfs_config (fun i => i <| i_private := ramfs_config |>) ;;
  set_node ramfs_root (fun n => n <| r_parent := ramfs_root |>) ;;
  set_node ramfs_hello (fun n => n <| r_parent := ramfs_root |>) ;;
  set_node ramfs_etc (fun n => n <| r_parent := ramfs_root |>) ;;
  set_node ramfs_config (fun n => n <| r_parent := ramfs_etc |>) ;;
  r ← vfs_mount_root ramfs_root;
  if negb (bool_decide (r = 0)) then panic "ramfs mount root failed" else mret tt.

(** ** ramfs shows a tree *)

Definition dir_ok (t : gmap Z fsnode) (i : vfs_inode) (node : ramfs_node) (ch : list (string * Z)) (par : Z) : Prop :=
  i_ops i = ramfs_dir_iops /\ i_f_ops i = ramfs_dir_fops /\ r_parent node = par /\ par <> 0 /\ is_Some (t !! par) /\
  exists es, children node = Some es /\ child_count node = Z.of_nat (length es) /\
    child_count node < 18446744073709551615 /\
    ch = List.map (fun e => (e_name e, e_node e)) es /\ Forall (fun e => is_Some (t !! e_node e)) es.

Definition reg_ok (i : vfs_inode) (node : ramfs_node) (content : list Z) : Prop :=
  i_f_ops i = ramfs_file_fops /\ data node = Some content /\ i_size i = Z.of_nat (length content) /\
  i_size i < 18446744073709551616.

Definition ramfs_ok (s : vfs ramfs) (t : gmap Z fsnode) : Prop :=
  forall n nd, t !! n = Some nd ->
    n <> 0 /\ exists i node, inodes s !! n = Some i /\ fs_data s !! n = Some node /\ i_private i = n /\
    i_type i = kind nd /\
    match nd with DirNode ch par => dir_ok t i node ch par | FileNode content => reg_ok i node content end.

Lemma chars_equal_spec lhs : forall rhs,
  String.length lhs = String.length rhs -> chars_equal (String.length rhs) lhs rhs = bool_decide (lhs = rhs).
Proof.
  induction lhs as [|a lhs IH]; intros [|b rhs] Hl; try done. simpl in *. injection Hl as Hl.
  case_bool_decide as E.
  - subst b. rewrite IH by done. apply bool_decide_ext. split; [by intros ->|by intros [= ->]].
  - symmetry. apply bool_decide_eq_false_2. by intros [= ??].
Qed.

Lemma name_equal lhs rhs : ramfs_name_equal lhs rhs = bool_decide (lhs = rhs).
Proof.
  unfold ramfs_name_equal, ramfs_strlen. case_bool_decide as Hl; simpl.
  - by apply chars_equal_spec.
  - symmetry. apply bool_decide_eq_false_2. by intros ->.
Qed.

Lemma lookup_entries_assoc es name :
  lookup_entries es name = assoc name (List.map (fun e => (e_name e, e_node e)) es).
Proof. induction es as [|e es IH]; [done|]. simpl. rewrite name_equal. by case_bool_decide. Qed.

Lemma assoc_entry es name c : assoc name (List.map (fun e => (e_name e, e_node e)) es) = Some c ->
  exists e, e ∈ es /\ e_node e = c.
Proof.
  induction es as [|e es IH]; [done|]. simpl. case_bool_decide.
  - intros [= <-]. exists e. split; [left|done].
  - intros (e' & Hin & <-)%IH. exists e'. split; [by right|done].
Qed.

Lemma node_run s t n nd :
  ramfs_ok s t -> t !! n = Some nd -> ramfs_node_from_inode n s = Ret n s.
Proof.
  intros Hok Hn. destruct (Hok n nd Hn) as (_ & i & node & Hi & _ & Hp & _). unfold ramfs_node_from_inode.
  mrun (inode_at_run _ _ _ Hi). by rewrite Hp.
Qed.

Lemma node_at_run (s : vfs ramfs) n node : fs_data s !! n = Some node -> node_at n s = Ret node s.
Proof. intros E. unfold node_at, deref. by rewrite E. Qed.

Lemma copy_name_short name : (String.length name < VFS_NAME_MAX)%nat -> ramfs_copy_name name = name.
Proof.
  unfold ramfs_copy_name. change VFS_NAME_MAX with (S 63). generalize 63%nat. simpl. intros m. rewrite Nat.sub_0_r.
  revert m. induction name as [|c name IH]; intros m Hl; [by destruct m|]. simpl in Hl.
  destruct m as [|m]; [lia|]. simpl. f_equal. apply IH. lia.
Qed.

Lemma ramfs_lookup_law s t n ch par i :
  ramfs_ok s t -> t !! n = Some (DirNode ch par) -> inodes s !! n = Some i ->
  i_ops i <> 0 /\ exists f, m_lookup (i_ops i) = Some f /\
  forall name, f n name s = Ret (match assoc name ch with Some c => (0, Some c) | None => (- ENOENT, None) end) s.
Proof.
  intros Hok Hn Hi. destruct (Hok n _ Hn) as (Hn0 & i' & node & Hi' & Hnd & Hp & _ & Hd).
  assert (i' = i) as -> by congruence. destruct Hd as (-> & _ & _ & _ & _ & es & Hes & Hcnt & _ & -> & _).
  split; [done|]. eexists. split; [reflexivity|]. intros name. unfold ramfs_lookup.
  mrun (node_run s t n _ Hok Hn). rewrite bool_decide_eq_false_2 by done. mrun (node_at_run _ _ _ Hnd).
  rewrite Hcnt, Hes, Nat2Z.id. change (default [] (Some es)) with es. rewrite take_ge by lia.
  rewrite bool_decide_eq_false_2 by lia. rewrite lookup_entries_assoc. by destruct (assoc _ _).
Qed.

Lemma ramfs_parent_law s t n ch par i :
  ramfs_ok s t -> t !! n = Some (DirNode ch par) -> inodes s !! n = Some i ->
  i_ops i <> 0 /\ is_Some (t !! par) /\ exists f, m_parent (i_ops i) = Some f /\ f n s = Ret (0, Some par) s.
Proof.
  intros Hok Hn Hi. destruct (Hok n _ Hn) as (Hn0 & i' & node & Hi' & Hnd & Hp & _ & Hd).
  assert (i' = i) as -> by congruence. destruct Hd as (-> & _ & Hpar & Hp0 & Hps & _).
  split; [done|]. split; [done|]. eexists. split; [reflexivity|]. unfold ramfs_parent.
  mrun (node_run s t n _ Hok Hn). rewrite bool_decide_eq_false_2 by done. mrun (node_at_run _ _ _ Hnd).
  by rewrite Hpar, bool_decide_eq_false_2.
Qed.

Lemma ramfs_read_law s t n content i :
  ramfs_ok s t -> t !! n = Some (FileNode content) -> inodes s !! n = Some i ->
  i_f_ops i <> 0 /\ Z.of_nat (length content) < 18446744073709551616 /\
  exists f, m_read (i_f_ops i) = Some f /\
  forall fd x size, files s !! fd = Some x -> f_inode x = n -> in64 (f_offset x) -> in64 size ->
    let got := slice content (f_offset x) size in
    f fd size s = Ret (0, got, Z.of_nat (length got))
                      (s <| files ::= <[fd := x <| f_offset := f_offset x + Z.of_nat (length got) |>]> |>).
Proof.
  intros Hok Hn Hi. destruct (Hok n _ Hn) as (Hn0 & i' & node & Hi' & Hnd & Hp & _ & Hd).
  assert (i' = i) as -> by congruence. destruct Hd as (-> & Hdata & Hsz & Hmax).
  split; [done|]. split; [lia|]. eexists. split; [reflexivity|]. intros fd x size Hx Hino Hoff Hsize.
  unfold ramfs_read, file_at. erewrite bind_deref by exact Hx. rewrite Hino.
  mrun (node_run s t n _ Hok Hn). rewrite bool_decide_eq_false_2 by done. mrun (node_at_run _ _ _ Hnd).
  rewrite Hdata. mrun (inode_at_run _ _ _ Hi). rewrite Hsz. unfold slice, in64 in *. simpl.
  case_bool_decide as He.
  - rewrite drop_ge, take_nil by lia. simpl. rewrite Z.add_0_r. mred. f_equal.
    destruct x; simpl in *. rewrite insert_id by done. by destruct s.
  - set (avail := Z.of_nat (length content) - f_offset x).
    set (count := if bool_decide (size < avail) then size else avail).
    assert (Hg : take (Z.to_nat count) (drop (Z.to_nat (f_offset x)) content) =
                 take (Z.to_nat size) (drop (Z.to_nat (f_offset x)) content)).
    { unfold count. case_bool_decide; [done|]. rewrite !take_ge; [done|..]; rewrite length_drop; lia. }
    assert (Hc : Z.of_nat (length (take (Z.to_nat size) (drop (Z.to_nat (f_offset x)) content))) = count).
    { rewrite length_take, length_drop. unfold count. case_bool_decide; lia. }
    rewrite Hg, Hc. rewrite bool_decide_eq_false_2 by lia.
    erewrite bind_run by (apply set_file_run; exact Hx). mred. rewrite wrap64_id; [done|].
    unfold in64, count. case_bool_decide; lia.
Qed.

Lemma ramfs_readdir_law s t n ch par i :
  ramfs_ok s t -> t !! n = Some (DirNode ch par) -> inodes s !! n = Some i ->
  i_f_ops i <> 0 /\ exists f, m_readdir (i_f_ops i) = Some f /\
  forall fd x, files s !! fd = Some x -> f_inode x = n -> in64 (f_offset x) ->
    match ch !! Z.to_nat (f_offset x) with
    | None => f fd s = Ret (- ENOENT, None) s
    | Some (name, c) => exists d, f fd s =
        Ret (0, Some d) (s <| files ::= <[fd := x <| f_offset := f_offset x + 1 |>]> |>) /\
        (String.length name < VFS_NAME_MAX -> d_name d = name)%nat /\
        forall nd, t !! c = Some nd -> d_type d = kind nd
    end.
Proof.
  intros Hok Hn Hi. destruct (Hok n _ Hn) as (Hn0 & i' & node & Hi' & Hnd & Hp & _ & Hd).
  assert (i' = i) as -> by congruence. destruct Hd as (_ & -> & _ & _ & _ & es & Hes & Hcnt & Hmax & -> & Hall).
  split; [done|]. eexists. split; [reflexivity|]. intros fd x Hx Hino Hoff.
  assert (Erun : ramfs_readdir fd s = (if bool_decide (child_count node <= f_offset x) then mret (- ENOENT, None)
    else entry ← deref (fun _ => es !! Z.to_nat (f_offset x)); i ← inode_at (e_node entry);
      set_file fd (fun f => f <| f_offset := wrap64 (f_offset f + 1) |>) ;;
      mret (0, Some (VfsDirent (ramfs_copy_name (e_name entry)) (i_type i) (i_size i)))) s).
  { unfold ramfs_readdir, file_at. erewrite bind_deref by exact Hx. rewrite Hino.
    mrun (node_run s t n _ Hok Hn). rewrite bool_decide_eq_false_2 by done. mrun (node_at_run _ _ _ Hnd).
    by rewrite Hes. }
  unfold in64 in Hoff. rewrite Erun, Hcnt, list_lookup_fmap.
  destruct (es !! Z.to_nat (f_offset x)) as [e|] eqn:He; simpl.
  - pose proof (lookup_lt_Some _ _ _ He). rewrite bool_decide_eq_false_2 by lia.
    assert (Hin : is_Some (t !! e_node e)).
    { rewrite Forall_forall in Hall. apply Hall. by eapply list_elem_of_lookup_2. }
    destruct Hin as [cn Hcn]. destruct (Hok _ _ Hcn) as (_ & ci & _ & Hci & _ & _ & Hck & _).
    eexists. split.
    { erewrite bind_deref by reflexivity. mrun (inode_at_run _ _ _ Hci).
      erewrite bind_run by (apply set_file_run; exact Hx). mred. rewrite wrap64_id by (unfold in64; lia). done. }
    simpl. split; [apply copy_name_short|]. intros nd' Hnd'. congruence.
  - apply lookup_ge_None_1 in He. by rewrite bool_decide_eq_true_2 by lia.
Qed.

#[export] Instance ramfs_spec : FsSpec ramfs := {|
  fs_ok := ramfs_ok;
  fs_lookup := ramfs_lookup_law;
  fs_parent := ramfs_parent_law;
  fs_read := ramfs_read_law;
  fs_readdir := ramfs_readdir_law;
  fs_files := fun s t m Hok => Hok;
  fs_inode := ltac:(intros s t n nd Hok Hn; destruct (Hok n nd Hn) as (H0 & i & _ & Hi & _ & _ & Hk & _); eauto);
  fs_children := ltac:(intros s t n ch par name c Hok Hn Hc; destruct (Hok n _ Hn) as
    (_ & i & node & _ & _ & _ & _ & (_ & _ & _ & _ & _ & es & _ & _ & _ & -> & Hall));
    apply assoc_entry in Hc as (e & Hin & <-); rewrite Forall_forall in Hall; by apply Hall)
|}.

(** ** kernel/selftest/fs.c *)

Definition fs_selftest_expect (condition : bool) (message : string) : R unit :=
  if negb condition then panic message else mret tt.

Fixpoint fs_selftest_mem_equal (lhs rhs : list Z) (length : nat) : bool :=
  match length, lhs, rhs with
  | O, _, _ => true
  | S n, a :: lhs, b :: rhs => if negb (bool_decide (a = b)) then false else fs_selftest_mem_equal lhs rhs n
  | S _, _, _ => false
  end.

(** Both strings end in a NUL: at the end of one the characters compared are its NUL
    and the other's next one. *)
Fixpoint fs_selftest_name_equal (lhs rhs : string) : bool :=
  match lhs, rhs with
  | String a lhs, String b rhs => if negb (bool_decide (a = b)) then false else fs_selftest_name_equal lhs rhs
  | EmptyString, EmptyString => true
  | _, _ => false
  end.

(** A local [struct vfs_file], not initialised. *)
Definition local_file (addr : Z) : R unit :=
  modify (fun s => s <| files ::= <[addr := VfsFile 3735928559 77 3735928559 3735928559]> |>).

(** What a buffer holds after a read stored [got] to its start. *)
Definition stored (buffer got : list Z) : list Z := got ++ drop (length got) buffer.

Definition is_ret (r code : Z) : bool := bool_decide (r = code).

Definition fs_selftest_read_file (first second : Z) (buffer : list Z) : R unit :=
  local_file first ;; local_file second ;;
  r ← vfs_open (Some "/hello.txt"%string) first;
  fs_selftest_expect (is_ret r 0) "vfs selftest open hello failed" ;;
  r ← vfs_open (Some "/hello.txt"%string) second;
  fs_selftest_expect (is_ret r 0) "vfs selftest second open hello failed" ;;
  '(r, got, read_size) ← vfs_read first true 5 true;
  fs_selftest_expect (is_ret r 0) "vfs selftest first read failed" ;;
  fs_selftest_expect (is_ret read_size 5) "vfs selftest first short count failed" ;;
  let buffer := stored buffer got in
  fs_selftest_expect (fs_selftest_mem_equal buffer (bytes_of "hello") 5) "vfs selftest first data failed" ;;
  '(r, got, read_size) ← vfs_read second true 5 true;
  fs_selftest_expect (is_ret r 0) "vfs selftest second read failed" ;;
  fs_selftest_expect (is_ret read_size 5) "vfs selftest second count failed" ;;
  let buffer := stored buffer got in
  fs_selftest_expect (fs_selftest_mem_equal buffer (bytes_of "hello") 5)
    "vfs selftest second independent offset failed" ;;
  '(r, got, read_size) ← vfs_read first true 32 true;
  fs_selftest_expect (is_ret r 0) "vfs selftest tail read failed" ;;
  fs_selftest_expect (is_ret read_size 12) "vfs selftest tail count failed" ;;
  '(r, got, read_size) ← vfs_read first true 32 true;
  fs_selftest_expect (is_ret r 0) "vfs selftest eof read failed" ;;
  fs_selftest_expect (is_ret read_size 0) "vfs selftest eof count failed" ;;
  vfs_close first ;; vfs_close second.

Definition fs_selftest_read_nested_file (file : Z) (buffer : list Z) : R unit :=
  local_file file ;;
  r ← vfs_open (Some "/etc/../etc/config.txt"%string) file;
  fs_selftest_expect (is_ret r 0) "vfs selftest open nested file failed" ;;
  '(r, got, read_size) ← vfs_read file true 7 true;
  fs_selftest_expect (is_ret r 0) "vfs selftest nested read failed" ;;
  fs_selftest_expect (is_ret read_size 7) "vfs selftest nested count failed" ;;
  fs_selftest_expect (fs_selftest_mem_equal (stored buffer got) (bytes_of "rootfs=") 7)
    "vfs selftest nested data failed" ;;
  vfs_close file.

(** [while ((ret = vfs_readdir(&root, &dirent)) == 0) ...]: the loop variables are
    [saw_hello] and [saw_etc]. *)
Definition readdir_round (root : Z) (v : bool * bool) : R ((bool * bool) + (Z * bool * bool)) :=
  let '(saw_hello, saw_etc) := v in
  r ← vfs_readdir root true;
  match r with
  | (ret, d) =>
      if negb (bool_decide (ret = 0)) then mret (inr (ret, saw_hello, saw_etc))
      else match d with
           | None => fault
           | Some d =>
               let saw_hello := if fs_selftest_name_equal (d_name d) "hello.txt"
                                then bool_decide (d_type d = VFS_NODE_REGULAR) else saw_hello in
               let saw_etc := if fs_selftest_name_equal (d_name d) "etc"
                              then bool_decide (d_type d = VFS_NODE_DIRECTORY) else saw_etc in
               mret (inl (saw_hello, saw_etc))
           end
  end.

Definition sizeof_vfs_dirent : Z := 80.

(** Three rounds are enough for the two entries of the root directory. *)
Definition fs_selftest_readdir_root (root : Z) : R unit :=
  local_file root ;;
  r ← vfs_open (Some "/"%string) root;
  fs_selftest_expect (is_ret r 0) "vfs selftest open root failed" ;;
  '(r, _, _) ← vfs_read root true sizeof_vfs_dirent true;
  fs_selftest_expect (is_ret r (- EISDIR)) "vfs selftest read directory policy failed" ;;
  '(ret, saw_hello, saw_etc) ← loop 3 (readdir_round root) (false, false);
  fs_selftest_expect (is_ret ret (- ENOENT)) "vfs selftest readdir eof failed" ;;
  fs_selftest_expect saw_hello "vfs selftest missing hello dirent" ;;
  fs_selftest_expect saw_etc "vfs selftest missing etc dirent" ;;
  vfs_close root.

Definition fs_selftest_errors (file : Z) : R unit :=
  local_file file ;;
  r ← vfs_open (Some "/missing.txt"%string) file;
  fs_selftest_expect (is_ret r (- ENOENT)) "vfs selftest missing file policy failed" ;;
  r ← vfs_open (Some "/hello.txt"%string) file;
  fs_selftest_expect (is_ret r 0) "vfs selftest open file for readdir failed" ;;
  '(r, _) ← vfs_readdir file true;
  fs_selftest_expect (is_ret r (- ENOTDIR)) "vfs selftest readdir file policy failed" ;;
  vfs_close file.

(** Every local file object has an address of its own in its call's frame; the calls
    use the same frame one after another. *)
Definition vfs_selftest : R unit :=
  fs_selftest_read_file 65536 65568 (replicate 32 170) ;;
  fs_selftest_read_nested_file 65536 (replicate 16 170) ;;
  fs_selftest_readdir_root 65536 ;;
  fs_selftest_errors 65536.

(** ** The tree that is mounted *)

Definition ramfs_tree : gmap Z fsnode :=
  {[ ramfs_hello := FileNode ramfs_hello_data;
     ramfs_config := FileNode ramfs_config_data;
     ramfs_etc := DirNode [("config.txt"%string, ramfs_config)] ramfs_root;
     ramfs_root := DirNode [("hello.txt"%string, ramfs_hello); ("etc"%string, ramfs_etc)] ramfs_root ]}.

Definition unmounted : vfs ramfs := Vfs static_inodes ∅ 0 false static_nodes.

Definition mounted : vfs ramfs :=
  match (vfs_init ;; ramfs_init) unmounted with Ret _ s => s | _ => unmounted end.

Lemma tree_cases n nd : ramfs_tree !! n = Some nd ->
  (n, nd) ∈ [(ramfs_hello, FileNode ramfs_hello_data); (ramfs_config, FileNode ramfs_config_data);
             (ramfs_etc, DirNode [("config.txt"%string, ramfs_config)] ramfs_root);
             (ramfs_root, DirNode [("hello.txt"%string, ramfs_hello); ("etc"%string, ramfs_etc)] ramfs_root)].
Proof.
  unfold ramfs_tree. rewrite !lookup_insert_Some, lookup_singleton_Some. set_solver.
Qed.

Lemma mounted_ok : ramfs_ok mounted ramfs_tree.
Proof.
  intros n nd Hn%tree_cases.
  repeat (apply elem_of_cons in Hn as [[= -> ->]|Hn];
    [split; [done|]; eexists _, _; split; [vm_compute; reflexivity|]; split; [vm_compute; reflexivity|];
     split; [done|]; split; [done|] |]); [..|by apply not_elem_of_nil in Hn].
  - vm_compute. done.
  - vm_compute. done.
  - split_and!; try done. eexists. split; [reflexivity|]. split_and!; try done.
    repeat constructor; vm_compute; by eexists.
  - split_and!; try done. eexists. split; [reflexivity|]. split_and!; try done.
    repeat constructor; vm_compute; by eexists.
Qed.

(** The files the selftest used are closed and gone; the tree is what it was. *)
Definition tested : vfs ramfs := match vfs_selftest mounted with Ret _ s => s | _ => mounted end.

Lemma ramfs_ok_same s s' t : inodes s' = inodes s -> fs_data s' = fs_data s -> ramfs_ok s t -> ramfs_ok s' t.
Proof. intros Ei En Hok n nd Hn. rewrite Ei, En. exact (Hok n nd Hn). Qed.

Lemma ramfs_boot_run :
  exists s1, vfs_init unmounted = Ret tt s1 /\ ramfs_init s1 = Ret tt mounted /\ vfs_selftest mounted = Ret tt tested /\
    fs_ok mounted ramfs_tree /\ fs_ok tested ramfs_tree /\ vfs_ready tested = true /\ vfs_root tested = ramfs_root.
Proof.
  eexists. split; [vm_compute; reflexivity|]. split; [vm_compute; reflexivity|]. split; [vm_compute; reflexivity|].
  split; [exact mounted_ok|]. split; [apply (ramfs_ok_same mounted); [vm_compute; reflexivity..|exact mounted_ok]|].
  split; vm_compute; reflexivity.
Qed.

(** Booting the file system: from the static tables, [vfs_init] and [ramfs_init]
    mount the tree of [/hello.txt] and [/etc/config.txt], and the selftest of boot,
    from opening a file twice to the errors for missing names, passes. *)
Theorem ramfs_boots :
  exists s s', (vfs_init ;; ramfs_init) unmounted = Ret tt s /\ fs_ok s ramfs_tree /\
    vfs_ready s = true /\ vfs_root s = ramfs_root /\ vfs_selftest s = Ret tt s'.
Proof.
  destruct ramfs_boot_run as (s1 & E1 & E2 & E3 & Hm & _ & _ & _). exists mounted, tested. mrun E1. split; [exact E2|].
  split; [exact Hm|]. split; [vm_compute; reflexivity|]. split; [vm_compute; reflexivity|exact E3].
Qed.

(** ** Witnesses on the mounted tree *)

Definition with_file : vfs ramfs := mounted <| files := {[ 100 := closed_file ]} |>.

Lemma vfs_open_resolves_witness :
  exists s', vfs_open (Some "//etc/./../hello.txt"%string) 100 with_file = Ret 0 s' /\
    files s' !! 100 = Some (VfsFile ramfs_hello 0 ramfs_file_fops 0).
Proof.
  destruct (vfs_open_resolves with_file ramfs_tree 100 closed_file "//etc/./../hello.txt")
    as (ret & s' & E & _ & _ & _ & Hres).
  - exact mounted_ok.
  - vm_compute. reflexivity.
  - vm_compute. eexists. reflexivity.
  - discriminate.
  - reflexivity.
  - cbv. lia.
  - specialize (Hres eq_refl). vm_compute in Hres. destruct Hres as (-> & i & Hi & Hf). injection Hi as <-.
    exists s'. split; [exact E|exact Hf].
Defined.

Definition reading (n fops : Z) : vfs ramfs := mounted <| files := {[ 100 := VfsFile n 0 fops 0 ]} |>.

Lemma reads_concatenate_witness :
  exists rs s', read_seq 100 [5; 7; 100; 3] (reading ramfs_hello ramfs_file_fops) = Ret rs s' /\
    read_bytes rs = ramfs_hello_data.
Proof.
  destruct (reads_concatenate ramfs_tree 100 ramfs_hello ramfs_hello_data [5; 7; 100; 3]
    (reading ramfs_hello ramfs_file_fops) 0) as (rs & s' & E & Hb & _).
  - exact mounted_ok.
  - reflexivity.
  - split; [discriminate|]. eexists _, _. repeat split; done.
  - repeat constructor; done.
  - exists rs, s'. split; [exact E|exact Hb].
Defined.

Lemma readdir_enumerates_witness :
  exists s', readdir_seq 100 2 (reading ramfs_root ramfs_dir_fops) = Ret ["hello.txt"; "etc"]%string s' /\
    vfs_readdir 100 true s' = Ret (- ENOENT, None) s'.
Proof.
  destruct (readdir_enumerates ramfs_tree 100 ramfs_root
    [("hello.txt"%string, ramfs_hello); ("etc"%string, ramfs_etc)] ramfs_root
    [("hello.txt"%string, ramfs_hello); ("etc"%string, ramfs_etc)] [] (reading ramfs_root ramfs_dir_fops))
    as (s' & E & Hend).
  - exact mounted_ok.
  - reflexivity.
  - reflexivity.
  - reflexivity.
  - repeat constructor; vm_compute; lia.
  - split; [discriminate|]. eexists _, _. repeat split; done.
  - exists s'. split; [exact E|exact Hend].
Defined.
