(* ===== verification/WaitQueue.v ===== *)
(** * kernel/sched/wait.c: wait queues

    A wait queue is a FIFO list of threads, linked through [wait_next] and guarded by
    the lock in the queue object.  The calls that block take [others], what the rest of
    the system does until this thread is switched to again; [wait_queue_wait_irq] takes also
    what the interrupts do that come in when the lock is released. *)

From S2P Require Import Prelude LinkedList PhysMem Switch KState Sched SchedCore.

Section wait.
Context {H : Type} `{KAlloc H}.
Abbreviation K := (M (kernel H)).

(** [queue = 0] stands for NULL throughout. *)
Definition wait_queue_init (queue : Z) : K unit :=
  if bool_decide (queue = 0) then mret tt
  else
    modify (fun k => k <| locks ::= <[QueueLock queue := 0]> |>) ;;
    modify (fun k => k <| queues ::= <[queue := WaitQueue 0 0]> |>).

Definition wait_queue_enqueue_locked (queue t : Z) : K unit :=
  x ← thread_at t;
  if negb (bool_decide (wait_queue x = 0)) then panic "thread already queued on wait queue"
  else
    set_thread t (fun x => x <| wait_next := 0 |>) ;;
    set_thread t (fun x => x <| wait_queue := queue |>) ;;
    q ← queue_at queue;
    (if negb (bool_decide (tail q = 0)) then set_thread (tail q) (fun x => x <| wait_next := t |>)
     else set_queue queue (fun q => q <| head := t |>)) ;;
    set_queue queue (fun q => q <| tail := t |>).

Definition wait_queue_remove_head_locked (queue : Z) : K Z :=
  q ← queue_at queue;
  let t := head q in
  if bool_decide (t = 0) then mret 0
  else
    x ← thread_at t;
    set_queue queue (fun q => q <| head := wait_next x |>) ;;
    q ← queue_at queue;
    when (bool_decide (head q = 0)) (set_queue queue (fun q => q <| tail := 0 |>)) ;;
    set_thread t (fun x => x <| wait_next := 0 |>) ;;
    set_thread t (fun x => x <| wait_queue := 0 |>) ;;
    mret t.

(** The search: the loop variables are [prev] and [thread]. *)
Definition remove_loop (queue target : Z) (v : Z * Z) : K (Z * Z + Z) :=
  let '(prv, t) := v in
  if bool_decide (t = 0) then panic "wait queue membership is inconsistent"
  else if bool_decide (t = target) then
    x ← thread_at t;
    (if negb (bool_decide (prv = 0)) then set_thread prv (fun p => p <| wait_next := wait_next x |>)
     else set_queue queue (fun q => q <| head := wait_next x |>)) ;;
    q ← queue_at queue;
    when (bool_decide (tail q = t)) (set_queue queue (fun q => q <| tail := prv |>)) ;;
    set_thread t (fun x => x <| wait_next := 0 |>) ;;
    set_thread t (fun x => x <| wait_queue := 0 |>) ;;
    mret (inr 1)
  else x ← thread_at t; mret (inl (t, wait_next x)).

Definition wait_queue_remove_locked (queue target : Z) : K Z :=
  if bool_decide (queue = 0) || bool_decide (target = 0) then mret 0
  else
    x ← thread_at target;
    if negb (bool_decide (wait_queue x = queue)) then mret 0
    else
      q ← queue_at queue;
      fuel ← thread_fuel;
      loop fuel (remove_loop queue target) (0, head q).

Definition wait_queue_mark_ready_locked (t : Z) : K unit :=
  if bool_decide (t = 0) then mret tt
  else
    waiting ← thread_is_waiting t;
    sleeping ← thread_is_sleeping t;
    if negb waiting && negb sleeping then panic "wait queue wakeup found non-waiting thread"
    else thread_set_ready t.

(** [flags = false] is a NULL flags pointer; the result is what is stored there, if
    anything. *)
Definition wait_queue_lock_irqsave (queue : Z) (flags : bool) : K (option Z) :=
  if bool_decide (queue = 0) || negb flags then mret None
  else f ← spin_lock_irqsave (Some (QueueLock queue)) true; mret (Some f).

Definition wait_queue_unlock_irqrestore (queue flags : Z) : K unit :=
  if bool_decide (queue = 0) then mret tt else spin_unlock_irqrestore (Some (QueueLock queue)) flags.

Definition wait_queue_wake_one_locked (queue : Z) : K unit :=
  if bool_decide (queue = 0) then mret tt
  else t ← wait_queue_remove_head_locked queue; wait_queue_mark_ready_locked t.

Definition wake_all_loop (queue : Z) (_ : unit) : K (unit + unit) :=
  q ← queue_at queue;
  if bool_decide (head q = 0) then mret (inr tt)
  else
    t ← wait_queue_remove_head_locked queue;
    wait_queue_mark_ready_locked t ;;
    mret (inl tt).

Definition wait_queue_wake_all_locked (queue : Z) : K unit :=
  if bool_decide (queue = 0) then mret tt
  else fuel ← thread_fuel; loop fuel (wake_all_loop queue) tt.

Definition lock (queue : Z) : K Z := spin_lock_irqsave (Some (QueueLock queue)) true.
Definition unlock (queue flags : Z) : K unit := spin_unlock_irqrestore (Some (QueueLock queue)) flags.

(** One round of the loop at the end of [wait_queue_sleep]. *)
Definition sleep_round (others : K unit) (queue : Z) (_ : unit) : K (unit + unit) :=
  sched_yield others ;;
  flags ← lock queue;
  cur ← gets current_thread;
  waiting ← thread_is_waiting cur;
  if negb waiting then unlock queue flags ;; mret (inr tt)
  else unlock queue flags ;; mret (inl tt).

(** The loops below go round until a wakeup: [rounds] bounds how often. *)
Definition wait_queue_sleep (rounds : nat) (others : K unit) (queue : Z) : K unit :=
  cur ← gets current_thread;
  if bool_decide (queue = 0) || bool_decide (cur = 0) then mret tt
  else
    sched_assert_can_switch ;;
    flags ← lock queue;
    wait_queue_enqueue_locked queue cur ;;
    thread_set_waiting cur ;;
    unlock queue flags ;;
    loop rounds (sleep_round others queue) tt.

(** The interrupts that come in when [spin_unlock_irqrestore] gives the interrupt flag
    back: [irq] is what their handlers do, and with the flag still clear none comes. *)
Definition irq_window (irq : K unit) : K unit :=
  f ← gets rflags; when (negb (bool_decide (Z.land f RFLAGS_IF = 0))) irq.

Definition unlock_irq (irq : K unit) (queue flags : Z) : K unit := unlock queue flags ;; irq_window irq.

(** The body of the loop of [wait_queue_wait] up to [sched_yield]: the call's result, or
    [inl] when it goes on to yield.  [condition = None] is a NULL function pointer; a
    condition is a call that may read the state and returns an [int]. *)
Definition wait_prepare (irq : K unit) (queue : Z) (condition : K Z) : K (unit + Z) :=
  flags ← lock queue;
  c ← condition;
  if negb (bool_decide (c = 0)) then unlock_irq irq queue flags ;; mret (inr 0)
  else
    cur ← gets current_thread;
    wait_queue_enqueue_locked queue cur ;;
    thread_set_waiting cur ;;
    unlock_irq irq queue flags ;;
    mret (inl tt).

Definition wait_round_irq (irq others : K unit) (queue : Z) (condition : K Z) (_ : unit) : K (unit + Z) :=
  r ← wait_prepare irq queue condition;
  match r with
  | inr ret => mret (inr ret)
  | inl _ =>
      sched_yield others ;;
      flags ← lock queue;
      cur ← gets current_thread;
      wait_queue_remove_locked queue cur ;;
      unlock_irq irq queue flags ;;
      mret (inl tt)
  end.

Definition wait_queue_wait_irq (rounds : nat) (irq others : K unit) (queue : Z) (condition : option (K Z)) : K Z :=
  cur ← gets current_thread;
  match condition with
  | None => mret (- EINVAL)
  | Some condition =>
      if bool_decide (queue = 0) || bool_decide (cur = 0) then mret (- EINVAL)
      else sched_assert_can_switch ;; loop rounds (wait_round_irq irq others queue condition) tt
  end.

(** The call with no interrupt while it has the processor. *)
Definition wait_queue_wait (rounds : nat) (others : K unit) (queue : Z) (condition : option (K Z)) : K Z :=
  wait_queue_wait_irq rounds (mret tt) others queue condition.

Definition timeout_round (others : K unit) (queue : Z) (condition : K Z) (deadline : Z) (_ : unit) : K (unit + Z) :=
  now ← timer_ticks;
  flags ← lock queue;
  c ← condition;
  cur ← gets current_thread;
  if negb (bool_decide (c = 0)) then
    set_thread cur (fun x => x <| wake_tick := 0 |>) ;; unlock queue flags ;; mret (inr 0)
  else if bool_decide (deadline <= now) then
    set_thread cur (fun x => x <| wake_tick := 0 |>) ;; unlock queue flags ;; mret (inr (- ETIMEDOUT))
  else
    thread_set_sleeping cur deadline ;;
    wait_queue_enqueue_locked queue cur ;;
    unlock queue flags ;;
    sched_yield others ;;
    flags ← lock queue;
    cur ← gets current_thread;
    wait_queue_remove_locked queue cur ;;
    unlock queue flags ;;
    mret (inl tt).

Definition wait_queue_wait_timeout (rounds : nat) (others : K unit) (queue : Z) (condition : option (K Z))
    (ticks : Z) : K Z :=
  cur ← gets current_thread;
  match condition with
  | None => mret (- EINVAL)
  | Some condition =>
      if bool_decide (queue = 0) || bool_decide (cur = 0) then mret (- EINVAL)
      else
        sched_assert_can_switch ;;
        c ← condition;
        if negb (bool_decide (c = 0)) then mret 0
        else if bool_decide (ticks = 0) then mret (- ETIMEDOUT)
        else
          t ← timer_ticks;
          loop rounds (timeout_round others queue condition (wrap64 (t + ticks))) tt
  end.

Definition wait_queue_wake_one (queue : Z) : K unit :=
  if bool_decide (queue = 0) then mret tt
  else flags ← lock queue; wait_queue_wake_one_locked queue ;; unlock queue flags.

Definition wait_queue_wake_all (queue : Z) : K unit :=
  if bool_decide (queue = 0) then mret tt
  else flags ← lock queue; wait_queue_wake_all_locked queue ;; unlock queue flags.
End wait.

Section theory.
Context {H : Type} `{KAlloc H}.
Implicit Types (k : kernel H) (Q : gmap Z (list Z)) (l : list Z).

Definition wnext k (t : Z) : option Z := wait_next <$> threads k !! t.

(** All the wait queues at once: [Q] maps each queue to the threads on it, oldest
    first.  A thread is on the queue its [wait_queue] names, or on none. *)
Record waits k Q : Prop := {
  wt_queue : forall q l, Q !! q = Some l -> q <> 0 /\
    exists w, queues k !! q = Some w /\ queue_rep (wnext k) (head w) (tail w) l;
  wt_member : forall q l t, Q !! q = Some l ->
    (t ∈ l <-> exists x, threads k !! t = Some x /\ wait_queue x = q);
  wt_thread : forall t x, threads k !! t = Some x ->
    (wait_queue x = 0 /\ wait_next x = 0) \/ is_Some (Q !! wait_queue x);
  wt_null : threads k !! 0 = None
}.

Definition same_but_wait (x y : thread) : Prop := y = x <| wait_next := wait_next y |> <| wait_queue := wait_queue y |>.

Lemma same_but_wait_refl x : same_but_wait x x.
Proof. unfold same_but_wait. by destruct x. Qed.

(** How the wait fields may change when the queue [q] goes from [l] to [l']. *)
Definition requeued (q : Z) (l' : list Z) (t : Z) (x y : thread) : Prop :=
  if bool_decide (t ∈ l') then wait_queue y = q /\ (wait_queue x = q \/ wait_queue x = 0)
  else if bool_decide (wait_queue x = q) then wait_queue y = 0 /\ wait_next y = 0
  else wait_queue y = wait_queue x /\ wait_next y = wait_next x.

Lemma waits_update k k' Q q l l' w' :
  waits k Q -> Q !! q = Some l ->
  queues k' !! q = Some w' -> queue_rep (wnext k') (head w') (tail w') l' ->
  (forall q', q' <> q -> queues k' !! q' = queues k !! q') ->
  (forall t, match threads k !! t with
             | Some x => exists y, threads k' !! t = Some y /\ requeued q l' t x y
             | None => threads k' !! t = None
             end) ->
  waits k' (<[q := l']> Q).
Proof.
  intros W Hq Hw Hrep Hqs Ht. destruct (wt_queue _ _ W q l Hq) as (Hq0 & _).
  assert (Hback : forall t y, threads k' !! t = Some y -> exists x, threads k !! t = Some x /\ requeued q l' t x y).
  { intros t y Hy. specialize (Ht t). destruct (threads k !! t) as [x|]; [|congruence].
    exists x. split; [done|]. destruct Ht as (y' & Hy' & Hr). assert (y' = y) as -> by congruence. done. }
  assert (Hin' : forall t, t ∈ l' -> is_Some (threads k' !! t)).
  { intros t Hin. destruct Hrep as [Hl _]. destruct (lseg_next_is_Some _ _ _ _ _ Hl Hin) as [n Hn].
    unfold wnext in Hn. apply fmap_Some in Hn as (y & Hy & _). by exists y. }
  split.
  - intros q2 l2. destruct (decide (q2 = q)) as [->|Hne].
    + rewrite lookup_insert_eq. intros [= <-]. eauto.
    + rewrite lookup_insert_ne by done. intros H2. destruct (wt_queue _ _ W q2 l2 H2) as (Hn0 & w & Hw2 & Hr2).
      split; [done|]. exists w. rewrite Hqs by done. split; [done|].
      destruct Hr2 as [Hl2 Htl2]. split; [|done]. eapply lseg_ext; [|exact Hl2].
      intros t Hin. unfold wnext. apply (wt_member _ _ W q2 l2 t H2) in Hin as (x & Hx & Hxq).
      specialize (Ht t). rewrite Hx in Ht. destruct Ht as (y & Hy & Hr). rewrite Hx, Hy. simpl. f_equal.
      unfold requeued in Hr. case_bool_decide; [destruct Hr as [_ [?|?]]; congruence|].
      rewrite bool_decide_eq_false_2 in Hr by congruence. apply Hr.
  - intros q2 l2 t. destruct (decide (q2 = q)) as [->|Hne].
    + rewrite lookup_insert_eq. intros [= <-]. split.
      * intros Hin. destruct (Hin' t Hin) as [y Hy]. exists y. split; [done|].
        destruct (Hback t y Hy) as (x & _ & Hr). unfold requeued in Hr. rewrite bool_decide_eq_true_2 in Hr by done.
        apply Hr.
      * intros (y & Hy & Hyq). destruct (Hback t y Hy) as (x & _ & Hr). unfold requeued in Hr.
        case_bool_decide; [done|]. case_bool_decide; destruct Hr; congruence.
    + rewrite lookup_insert_ne by done. intros H2. rewrite (wt_member _ _ W q2 l2 t H2).
      destruct (wt_queue _ _ W q2 l2 H2) as (Hn0 & _). split.
      * intros (x & Hx & Hxq). specialize (Ht t). rewrite Hx in Ht. destruct Ht as (y & Hy & Hr).
        exists y. split; [done|]. unfold requeued in Hr.
        case_bool_decide; [destruct Hr as [_ [?|?]]; congruence|].
        rewrite bool_decide_eq_false_2 in Hr by congruence. destruct Hr; congruence.
      * intros (y & Hy & Hyq). destruct (Hback t y Hy) as (x & Hx & Hr). exists x. split; [done|].
        unfold requeued in Hr. case_bool_decide; [destruct Hr; congruence|].
        case_bool_decide; destruct Hr; congruence.
  - intros t y Hy. destruct (Hback t y Hy) as (x & Hx & Hr). unfold requeued in Hr. case_bool_decide.
    + right. destruct Hr as [-> _]. rewrite lookup_insert_eq. by eexists.
    + case_bool_decide as Exq; [by left|]. destruct Hr as [-> ->].
      destruct (wt_thread _ _ W t x Hx) as [|Hs]; [by left|right]. by rewrite lookup_insert_ne.
  - specialize (Ht 0). by rewrite (wt_null _ _ W) in Ht.
Qed.

Lemma set_queue_run k q f w :
  queues k !! q = Some w -> set_queue q f k = Ret tt (k <| queues ::= <[q := f w]> |>).
Proof. intros E. unfold set_queue, queue_at. by erewrite bind_deref by exact E. Qed.

Lemma queue_at_run k q w : queues k !! q = Some w -> queue_at q k = Ret w k.
Proof. intros E. unfold queue_at, deref. by rewrite E. Qed.

Lemma waits_nonzero k Q q l t : waits k Q -> Q !! q = Some l -> t ∈ l -> t <> 0.
Proof.
  intros W Hq Hin ->. apply (wt_member _ _ W q l 0 Hq) in Hin as (x & Hx & _). by rewrite (wt_null _ _ W) in Hx.
Qed.

(** What the operations on a queue change at most. *)
Record queue_step k (q : Z) k' : Prop := {
  qs_threads : forall t, match threads k !! t with
    | Some x => exists y, threads k' !! t = Some y /\ same_but_wait x y
    | None => threads k' !! t = None
    end;
  qs_queues : forall q', q' <> q -> queues k' !! q' = queues k !! q';
  qs_frame : k' = k <| threads := threads k' |> <| queues := queues k' |>
}.

Lemma queue_step_lookup k q k' t x : queue_step k q k' -> threads k !! t = Some x ->
  exists y, threads k' !! t = Some y /\ same_but_wait x y.
Proof. intros S Hx. pose proof (qs_threads _ _ _ S t) as Ht. by rewrite Hx in Ht. Qed.

(** ** Enqueue *)

Lemma wait_tail k Q q l w :
  waits k Q -> Q !! q = Some l -> queue_rep (wnext k) (head w) (tail w) l -> tail w <> 0 ->
  tail w ∈ l /\ exists z, threads k !! tail w = Some z /\ wait_queue z = q.
Proof.
  intros W Hq [_ Hlast] Htl. destruct (last l) as [z|] eqn:El; simpl in Hlast; [|done].
  apply last_Some_elem_of in El. rewrite <- Hlast in El. split; [done|]. by apply (wt_member _ _ W q l).
Qed.

(** The threads and the state after [t], which becomes [x], was linked behind the tail. *)
Definition linked (m : gmap Z thread) (w : wait_queue_t) (t : Z) (x : thread) : gmap Z thread :=
  match m !! tail w with
  | Some z => if bool_decide (tail w = 0) then <[t := x]> m else <[tail w := z <| wait_next := t |>]> (<[t := x]> m)
  | None => <[t := x]> m
  end.

Definition enqueued_at k (q : Z) (w : wait_queue_t) (t : Z) (x : thread) : kernel H :=
  k <| threads := linked (threads k) w t (x <| wait_next := 0 |> <| wait_queue := q |>) |>
    <| queues ::= <[q := WaitQueue (if decide (tail w = 0) then t else head w) t]> |>.

Lemma linked_lookup k Q q l w t x y :
  waits k Q -> Q !! q = Some l -> queue_rep (wnext k) (head w) (tail w) l -> t ∉ l ->
  linked (threads k) w t x !! y =
  if bool_decide (y = t) then Some x
  else if bool_decide (y = tail w) then (fun z => z <| wait_next := t |>) <$> threads k !! y
  else threads k !! y.
Proof.
  intros W Hq Hrep Hnin. unfold linked. destruct (decide (tail w = 0)) as [E0|E0].
  - rewrite E0, (wt_null _ _ W). case_bool_decide as Ey; [subst; by rewrite lookup_insert_eq|].
    rewrite lookup_insert_ne by done. case_bool_decide as E1; [|done]. subst y. by rewrite (wt_null _ _ W).
  - rewrite (bool_decide_eq_false_2 (tail w = 0)) by done.
    destruct (wait_tail k Q q l w W Hq Hrep E0) as (Htl & z & Hz & _). rewrite Hz.
    assert (tail w <> t) by (intros E; by rewrite E in Htl).
    case_bool_decide as Ey; [subst y; rewrite lookup_insert_ne by done; by rewrite lookup_insert_eq|].
    case_bool_decide as E1; [subst y; by rewrite lookup_insert_eq, Hz|]. by rewrite !lookup_insert_ne.
Qed.

Lemma enqueue_steps k Q q l t x w :
  waits k Q -> Q !! q = Some l -> queues k !! q = Some w -> queue_rep (wnext k) (head w) (tail w) l -> t ∉ l ->
  threads k !! t = Some x -> wait_queue x = 0 -> wait_queue_enqueue_locked q t k = Ret tt (enqueued_at k q w t x).
Proof.
  intros W Hq Hw Hrep Hnin Hx Hwq.
  unfold wait_queue_enqueue_locked. mrun (thread_at_run _ _ _ Hx). rewrite Hwq, bool_decide_eq_true_2 by done. cbn [negb].
  erewrite bind_run by (apply set_thread_run; exact Hx).
  erewrite bind_run by (apply set_thread_run; simpl; apply lookup_insert_eq). simpl. rewrite insert_insert_eq.
  set (k1 := Kernel _ _ _ _ _ _ _ _ _ _ _ _ _ _ _ _ _ _).
  mrun (queue_at_run k1 q w Hw). unfold enqueued_at, linked. destruct (decide (tail w = 0)) as [E0|E0].
  - rewrite bool_decide_eq_true_2 by done. cbn [negb]. erewrite bind_run by (apply set_queue_run; exact Hw).
    erewrite set_queue_run by (simpl; apply lookup_insert_eq). simpl. rewrite insert_insert_eq, E0, (wt_null _ _ W). done.
  - destruct (wait_tail k Q q l w W Hq Hrep E0) as (Htl & z & Hz & _).
    assert (Hne : tail w <> t) by (intros E; by rewrite E in Htl).
    rewrite bool_decide_eq_false_2 by done. cbn [negb].
    erewrite bind_run by (apply set_thread_run; unfold k1; simpl; rewrite lookup_insert_ne by done; exact Hz).
    erewrite set_queue_run by exact Hw. unfold k1. rewrite Hz. by destruct w.
Qed.

Lemma enqueued_requeued k Q q l t x w y :
  waits k Q -> Q !! q = Some l -> queue_rep (wnext k) (head w) (tail w) l -> t ∉ l ->
  threads k !! t = Some x -> wait_queue x = 0 ->
  match threads k !! y with
  | Some z => exists z', threads (enqueued_at k q w t x) !! y = Some z' /\ requeued q (l ++ [t]) y z z'
  | None => threads (enqueued_at k q w t x) !! y = None
  end.
Proof.
  intros W Hq Hrep Hnin Hx Hwq. simpl. rewrite (linked_lookup k Q q l w t _ y) by done.
  destruct (threads k !! y) as [z|] eqn:Hz. 2:{ case_bool_decide; [congruence|]. by case_bool_decide. }
  unfold requeued. case_bool_decide as Ey.
  - subst y. eexists. split; [done|]. rewrite bool_decide_eq_true_2 by set_solver.
    assert (z = x) as -> by congruence. split; [done|by right].
  - assert (Hmem : bool_decide (y ∈ l ++ [t]) = bool_decide (wait_queue z = q)).
    { apply bool_decide_ext. rewrite elem_of_app, list_elem_of_singleton, (wt_member _ _ W q l y Hq).
      split; [intros [(x0 & ? & ?)|?]; congruence|]. left. eauto. }
    rewrite Hmem. destruct (decide (y = tail w)) as [E1|E1];
      [rewrite (bool_decide_eq_true_2 (y = tail w)) by done|rewrite (bool_decide_eq_false_2 (y = tail w)) by done];
      (eexists; split; [done|]).
    + assert (Htl0 : tail w <> 0) by (intros E0; subst y; by rewrite E0, (wt_null _ _ W) in Hz).
      destruct (wait_tail k Q q l w W Hq Hrep Htl0) as (_ & u & Hu & Huq). assert (u = z) as -> by congruence.
      rewrite (bool_decide_eq_true_2 (wait_queue z = q)) by done. split; [done|by left].
    + destruct (bool_decide (wait_queue z = q)) eqn:E2; [|done]. apply bool_decide_eq_true_1 in E2. split; [done|by left].
Qed.

Lemma wait_enqueue_run k Q q l t x :
  waits k Q -> Q !! q = Some l -> threads k !! t = Some x -> wait_queue x = 0 ->
  exists k', wait_queue_enqueue_locked q t k = Ret tt k' /\ waits k' (<[q := l ++ [t]]> Q) /\ queue_step k q k' /\
    threads k' !! t = Some (x <| wait_next := 0 |> <| wait_queue := q |>).
Proof.
  intros W Hq Hx Hwq. destruct (wt_queue _ _ W q l Hq) as (Hq0 & w & Hw & Hrep).
  assert (Ht : t <> 0) by (intros ->; by rewrite (wt_null _ _ W) in Hx).
  assert (Hnin : t ∉ l) by (intros Hin; apply (wt_member _ _ W q l t Hq) in Hin as (x' & Hx' & Hxq); congruence).
  pose proof (fun y => linked_lookup k Q q l w t (x <| wait_next := 0 |> <| wait_queue := q |>) y W Hq Hrep Hnin) as Hlook.
  exists (enqueued_at k q w t x). split; [by apply (enqueue_steps k Q q l)|]. split_and!.
  - eapply (waits_update k _ Q q l (l ++ [t])); [done|done|simpl; apply lookup_insert_eq| | |].
    + apply (queue_rep_enqueue (wnext k)); try done.
      * unfold wnext. simpl. by rewrite Hlook, bool_decide_eq_true_2.
      * intros y Hy Hyt. unfold wnext. simpl. rewrite Hlook, !bool_decide_eq_false_2; [done|done|by intros ->].
      * intros Htl0. unfold wnext. simpl. rewrite Hlook. destruct (wait_tail k Q q l w W Hq Hrep Htl0) as (Htl & z & Hz & _).
        rewrite bool_decide_eq_false_2 by (intros E; by rewrite E in Htl). rewrite bool_decide_eq_true_2, Hz by done. done.
    + intros q' Hne. simpl. by rewrite lookup_insert_ne.
    + intros y. by apply (enqueued_requeued k Q q l).
  - split; [|by intros q' Hne; simpl; rewrite lookup_insert_ne|done].
    intros y. simpl. rewrite Hlook. destruct (threads k !! y) as [z|] eqn:Hz.
    2:{ case_bool_decide; [congruence|]. by case_bool_decide. }
    case_bool_decide as Ey; [subst y; assert (z = x) as -> by congruence; by eexists|].
    case_bool_decide; eexists; (split; [done|]); [by destruct z|apply same_but_wait_refl].
  - simpl. by rewrite Hlook, bool_decide_eq_true_2.
Qed.

(** ** Removal *)

Definition off_queue (x : thread) : thread := x <| wait_next := 0 |> <| wait_queue := 0 |>.

(** The threads and the queue object after [t] was unlinked from behind [keep]. *)
Definition unlinked (m : gmap Z thread) (keep : list Z) (t : Z) (x : thread) : gmap Z thread :=
  <[t := off_queue x]>
    (match last keep with
     | Some p => match m !! p with Some z => <[p := z <| wait_next := wait_next x |>]> m | None => m end
     | None => m
     end).

Definition unlinked_queue (w : wait_queue_t) (keep : list Z) (t : Z) (x : thread) : wait_queue_t :=
  WaitQueue (if bool_decide (default 0 (last keep) = 0) then wait_next x else head w)
            (if bool_decide (tail w = t) then default 0 (last keep) else tail w).

Definition dequeued k (q : Z) (w : wait_queue_t) (keep : list Z) (t : Z) (x : thread) : kernel H :=
  k <| threads := unlinked (threads k) keep t x |> <| queues ::= <[q := unlinked_queue w keep t x]> |>.

Lemma unlinked_lookup m keep t x y :
  (forall p, last keep = Some p -> p <> t) ->
  unlinked m keep t x !! y =
  if bool_decide (y = t) then Some (off_queue x)
  else if bool_decide (Some y = last keep) then (fun z => z <| wait_next := wait_next x |>) <$> m !! y
  else m !! y.
Proof.
  intros Hp. unfold unlinked. destruct (decide (y = t)) as [->|Hy].
  { by rewrite lookup_insert_eq, bool_decide_eq_true_2. }
  rewrite lookup_insert_ne, (bool_decide_eq_false_2 (y = t)) by done.
  destruct (last keep) as [p|] eqn:El; [|by rewrite bool_decide_eq_false_2].
  destruct (decide (y = p)) as [->|Hne].
  - rewrite bool_decide_eq_true_2 by done. destruct (m !! p) as [z|] eqn:Hz; [|by rewrite Hz].
    by rewrite lookup_insert_eq.
  - rewrite bool_decide_eq_false_2 by congruence. destruct (m !! p); [|done]. by rewrite lookup_insert_ne.
Qed.

Lemma waits_remove k Q q keep t rest x w :
  waits k Q -> Q !! q = Some (keep ++ t :: rest) -> queues k !! q = Some w -> threads k !! t = Some x ->
  let k' := dequeued k q w keep t x in
  waits k' (<[q := keep ++ rest]> Q) /\ queue_step k q k' /\ threads k' !! t = Some (off_queue x).
Proof.
  intros W Hq Hw Hx k'. destruct (wt_queue _ _ W q _ Hq) as (Hq0 & w' & Hw' & Hrep).
  assert (w' = w) as -> by congruence. pose proof (queue_rep_NoDup _ _ _ _ Hrep) as Hnd.
  assert (Hmem : forall y, y ∈ keep ++ t :: rest -> exists z, threads k !! y = Some z /\ wait_queue z = q)
    by (intros y; by apply (wt_member _ _ W q _ y Hq)).
  assert (Hxq : wait_queue x = q) by (destruct (Hmem t) as (z & Hz & ?); [set_solver|congruence]).
  assert (Hlast : forall p, last keep = Some p -> p <> t).
  { intros p Hp%last_Some_elem_of ->. apply NoDup_app in Hnd as (_ & Hd & _). apply (Hd t Hp). left. }
  assert (Hnot : t ∉ keep ++ rest).
  { apply NoDup_app in Hnd as (_ & Hd & [Hn _]%NoDup_cons). intros [Hin|Hin]%elem_of_app; [|done].
    apply (Hd t Hin). left. }
  assert (Hlook := unlinked_lookup (threads k) keep t x). change (unlinked (threads k) keep t x) with (threads k') in Hlook.
  split_and!.
  - eapply (waits_update k k' Q q _ (keep ++ rest)); try done.
    + simpl. apply lookup_insert_eq.
    + apply (queue_rep_remove (wnext k) (wnext k') (head w) (tail w) keep t rest (wait_next x) Hrep).
      * unfold wnext. by rewrite Hx.
      * intros y Hy Hyl. unfold wnext. rewrite Hlook, !bool_decide_eq_false_2; [done|done|by intros ->|done].
      * intros p Hp. unfold wnext. rewrite Hlook, bool_decide_eq_false_2, bool_decide_eq_true_2 by auto.
        destruct (Hmem p) as (z & -> & _); [|done]. apply last_Some_elem_of in Hp. set_solver.
    + intros q' Hne. simpl. by rewrite lookup_insert_ne.
    + intros y. rewrite Hlook by done. destruct (threads k !! y) as [z|] eqn:Hz.
      2:{ rewrite (bool_decide_eq_false_2 (y = t)) by congruence. by destruct (bool_decide (Some y = last keep)). }
      unfold requeued. destruct (decide (y = t)) as [->|Hy].
      * rewrite (bool_decide_eq_true_2 (t = t)) by done. eexists. split; [done|].
        rewrite (bool_decide_eq_false_2 (t ∈ _)) by done. assert (z = x) as -> by congruence.
        rewrite bool_decide_eq_true_2 by done. done.
      * rewrite (bool_decide_eq_false_2 (y = t)) by done.
        assert (Heq : bool_decide (y ∈ keep ++ rest) = bool_decide (wait_queue z = q)).
        { apply bool_decide_ext. split.
          - intros Hin. destruct (Hmem y) as (z' & ? & ?); [set_solver|congruence].
          - intros Hzq. assert (Hin : y ∈ keep ++ t :: rest) by (apply (wt_member _ _ W q _ y Hq); eauto). set_solver. }
        rewrite Heq. destruct (decide (Some y = last keep)) as [El|El].
        -- rewrite (bool_decide_eq_true_2 (Some y = last keep)) by done. eexists. split; [done|].
           destruct (Hmem y) as (z' & ? & ?); [symmetry in El; apply last_Some_elem_of in El; set_solver|].
           assert (z' = z) as -> by congruence.
           rewrite bool_decide_eq_true_2 by done. split; [done|by left].
        -- rewrite (bool_decide_eq_false_2 (Some y = last keep)) by done. eexists. split; [done|].
           destruct (bool_decide (wait_queue z = q)) eqn:E2; [|done].
           apply bool_decide_eq_true_1 in E2. split; [done|by left].
  - split; [|by intros q' Hne; simpl; rewrite lookup_insert_ne|done].
    intros y. rewrite Hlook by done. destruct (threads k !! y) as [z|] eqn:Hz.
    2:{ rewrite (bool_decide_eq_false_2 (y = t)) by congruence. by destruct (bool_decide (Some y = last keep)). }
    destruct (decide (y = t)) as [->|Hy].
    + rewrite bool_decide_eq_true_2 by done. assert (z = x) as -> by congruence. by eexists.
    + rewrite bool_decide_eq_false_2 by done.
      destruct (bool_decide (Some y = last keep)); eexists; (split; [done|]); [by destruct z|apply same_but_wait_refl].
  - by rewrite Hlook, bool_decide_eq_true_2.
Qed.

Lemma remove_head_run k Q q t rest :
  waits k Q -> Q !! q = Some (t :: rest) ->
  exists x w, threads k !! t = Some x /\ queues k !! q = Some w /\ wait_queue x = q /\
    wait_queue_remove_head_locked q k = Ret t (dequeued k q w [] t x).
Proof.
  intros W Hq. destruct (wt_queue _ _ W q _ Hq) as (Hq0 & w & Hw & Hrep).
  assert (Hin : t ∈ t :: rest) by left. apply (wt_member _ _ W q _ t Hq) in Hin as (x & Hx & Hxq).
  pose proof (queue_rep_NoDup _ _ _ _ Hrep) as Hnd. apply NoDup_cons in Hnd as [Hnin _].
  exists x, w. split_and!; try done. destruct Hrep as [(Eh & Ht & n & Hn & Hl) Htl].
  unfold wnext in Hn. rewrite Hx in Hn. injection Hn as <-.
  unfold wait_queue_remove_head_locked. mrun (queue_at_run _ _ _ Hw). rewrite Eh, bool_decide_eq_false_2 by done.
  mrun (thread_at_run _ _ _ Hx). erewrite bind_run by (apply set_queue_run; exact Hw).
  erewrite bind_run by (apply queue_at_run; simpl; apply lookup_insert_eq).
  change (head (WaitQueue (wait_next x) (tail w))) with (wait_next x).
  assert (Etl : (if bool_decide (wait_next x = 0) then 0 else tail w) = (if bool_decide (tail w = t) then 0 else tail w)).
  { destruct rest as [|y rest].
    - simpl in Hl, Htl. rewrite Hl, Htl, !bool_decide_eq_true_2 by done. done.
    - destruct Hl as (-> & Hy & _). rewrite !bool_decide_eq_false_2; [done| |done].
      intros E. apply Hnin. rewrite last_cons_cons in Htl. destruct (last (y :: rest)) as [z|] eqn:El.
      + simpl in Htl. apply last_Some_elem_of in El. congruence.
      + by apply last_None in El. }
  unfold dequeued, unlinked, unlinked_queue. simpl last. cbn [default].
  rewrite (bool_decide_eq_true_2 (0 = 0)), <- Etl by done.
  destruct (bool_decide (wait_next x = 0)) eqn:En.
  - mred. erewrite bind_run by (apply set_queue_run; simpl; apply lookup_insert_eq).
    erewrite bind_run by (apply set_thread_run; exact Hx).
    erewrite bind_run by (apply set_thread_run; simpl; apply lookup_insert_eq).
    mred. simpl. by rewrite !insert_insert_eq.
  - mred. erewrite bind_run by (apply set_thread_run; exact Hx).
    erewrite bind_run by (apply set_thread_run; simpl; apply lookup_insert_eq).
    mred. simpl. rewrite insert_insert_eq. by destruct w.
Qed.

Lemma remove_step k Q q keep t rest x w :
  waits k Q -> Q !! q = Some (keep ++ t :: rest) -> queues k !! q = Some w -> threads k !! t = Some x ->
  remove_loop q t (default 0 (last keep), t) k = Ret (inr 1) (dequeued k q w keep t x).
Proof.
  intros W Hq Hw Hx. destruct (wt_queue _ _ W q _ Hq) as (Hq0 & w' & Hw' & Hrep).
  pose proof (queue_rep_NoDup _ _ _ _ Hrep) as Hnd.
  assert (Ht : t <> 0) by (intros ->; by rewrite (wt_null _ _ W) in Hx).
  unfold remove_loop. rewrite bool_decide_eq_false_2, bool_decide_eq_true_2 by done.
  mrun (thread_at_run _ _ _ Hx). unfold dequeued, unlinked, unlinked_queue.
  destruct (last keep) as [p|] eqn:El; cbn [default].
  - assert (Hin : p ∈ keep) by by apply last_Some_elem_of in El.
    assert (Hpt : p <> t).
    { intros ->. apply NoDup_app in Hnd as (_ & Hd & _). apply (Hd t Hin). left. }
    assert (Hp0 : p <> 0) by (eapply waits_nonzero; [exact W|exact Hq|set_solver]).
    assert (Hz : exists z, threads k !! p = Some z /\ wait_queue z = q)
      by (apply (wt_member _ _ W q _ p Hq); set_solver).
    destruct Hz as (z & Hz & _). rewrite Hz, bool_decide_eq_false_2 by done. cbn [negb].
    erewrite bind_run by (apply set_thread_run; exact Hz).
    erewrite bind_run by (apply queue_at_run; exact Hw).
    destruct (bool_decide (tail w = t)); mred.
    + erewrite bind_run by (apply set_queue_run; exact Hw).
      erewrite bind_run by (apply set_thread_run; simpl; rewrite lookup_insert_ne by done; exact Hx).
      erewrite bind_run by (apply set_thread_run; simpl; apply lookup_insert_eq).
      mred. simpl. by rewrite insert_insert_eq.
    + erewrite bind_run by (apply set_thread_run; simpl; rewrite lookup_insert_ne by done; exact Hx).
      erewrite bind_run by (apply set_thread_run; simpl; apply lookup_insert_eq).
      mred. simpl. rewrite insert_insert_eq. destruct w as [h tl]. f_equal. f_equal. symmetry. by apply insert_id.
  - rewrite (bool_decide_eq_true_2 (0 = 0)) by done. cbn [negb].
    erewrite bind_run by (apply set_queue_run; exact Hw).
    erewrite bind_run by (apply queue_at_run; simpl; apply lookup_insert_eq).
    change (tail (WaitQueue (wait_next x) (tail w))) with (tail w).
    destruct (bool_decide (tail w = t)); mred.
    + erewrite bind_run by (apply set_queue_run; simpl; apply lookup_insert_eq).
      erewrite bind_run by (apply set_thread_run; exact Hx).
      erewrite bind_run by (apply set_thread_run; simpl; apply lookup_insert_eq).
      mred. simpl. by rewrite !insert_insert_eq.
    + erewrite bind_run by (apply set_thread_run; exact Hx).
      erewrite bind_run by (apply set_thread_run; simpl; apply lookup_insert_eq).
      mred. simpl. by rewrite insert_insert_eq.
Qed.

Lemma remove_search k Q q t rest x w : forall mid keep fuel n,
  waits k Q -> Q !! q = Some (keep ++ mid ++ t :: rest) -> queues k !! q = Some w -> threads k !! t = Some x ->
  lseg (wnext k) n (mid ++ t :: rest) 0 -> (length mid < fuel)%nat ->
  loop fuel (remove_loop q t) (default 0 (last keep), n) k = Ret 1 (dequeued k q w (keep ++ mid) t x).
Proof.
  induction mid as [|y mid IH]; intros keep fuel n W Hq Hw Hx Hl Hf; (destruct fuel as [|fuel]; [simpl in Hf; lia|]).
  - destruct Hl as (-> & _). rewrite loop_S, app_nil_r. by mrun (remove_step k Q q keep t rest x w W Hq Hw Hx).
  - destruct Hl as (-> & Hy0 & m & Hm & Hl). rewrite loop_S.
    assert (Hyt : y <> t).
    { intros ->. destruct (wt_queue _ _ W q _ Hq) as (_ & w' & _ & Hrep).
      apply queue_rep_NoDup in Hrep. apply NoDup_app in Hrep as (_ & _ & Hnd). simpl in Hnd.
      apply NoDup_cons in Hnd as [Hn _]. set_solver. }
    unfold wnext in Hm. apply fmap_Some in Hm as (z & Hz & ->).
    assert (E : remove_loop q t (default 0 (last keep), y) k = Ret (inl (y, wait_next z)) k).
    { unfold remove_loop. rewrite !bool_decide_eq_false_2 by done. by mrun (thread_at_run _ _ _ Hz). }
    mrun E. rewrite cons_middle, app_assoc.
    pose proof (IH (keep ++ [y]) fuel (wait_next z)) as IH'. rewrite last_snoc in IH'. apply IH'; try done.
    + by rewrite <- app_assoc.
    + simpl in Hf. lia.
Qed.

Lemma remove_locked_run k Q q keep t rest :
  waits k Q -> Q !! q = Some (keep ++ t :: rest) ->
  exists x w, threads k !! t = Some x /\ queues k !! q = Some w /\
    wait_queue_remove_locked q t k = Ret 1 (dequeued k q w keep t x).
Proof.
  intros W Hq. destruct (wt_queue _ _ W q _ Hq) as (Hq0 & w & Hw & Hrep).
  assert (Hmem : forall y, y ∈ keep ++ t :: rest -> exists z, threads k !! y = Some z /\ wait_queue z = q)
    by (intros y; by apply (wt_member _ _ W q _ y Hq)).
  destruct (Hmem t) as (x & Hx & Hxq); [set_solver|]. exists x, w. split_and!; try done.
  assert (Ht : t <> 0) by (intros ->; by rewrite (wt_null _ _ W) in Hx).
  unfold wait_queue_remove_locked. rewrite !bool_decide_eq_false_2 by done. cbn [orb].
  mrun (thread_at_run _ _ _ Hx). rewrite Hxq, bool_decide_eq_true_2 by done. cbn [negb].
  mrun (queue_at_run _ _ _ Hw). unfold thread_fuel. mred.
  apply (remove_search k Q q t rest x w keep []); try done; [by apply Hrep|].
  assert (Hlen : (length (keep ++ t :: rest) <= size (threads k))%nat).
  { apply NoDup_size; [by eapply queue_rep_NoDup|]. intros y Hy. destruct (Hmem y Hy) as (z & Hz & _). by exists z. }
  rewrite length_app in Hlen. simpl in Hlen. lia.
Qed.

Lemma remove_absent_run k q t x :
  threads k !! t = Some x -> wait_queue x <> q -> wait_queue_remove_locked q t k = Ret 0 k.
Proof.
  intros Hx Hne. unfold wait_queue_remove_locked. destruct (_ || _) eqn:E; [done|].
  mrun (thread_at_run _ _ _ Hx). by rewrite bool_decide_eq_false_2.
Qed.

(** ** Waking *)

Definition blocked (x : thread) : Prop := state x = THREAD_WAITING \/ state x = THREAD_SLEEPING.

Definition woken (x : thread) : thread := x <| state := THREAD_READY |> <| wake_tick := 0 |>.

Lemma mark_ready_run k t x :
  t <> 0 -> threads k !! t = Some x -> blocked x ->
  wait_queue_mark_ready_locked t k = Ret tt (k <| threads ::= <[t := woken x]> |>).
Proof.
  intros Ht Hx Hb. unfold wait_queue_mark_ready_locked. rewrite bool_decide_eq_false_2 by done.
  erewrite bind_run by by apply (thread_is_run THREAD_WAITING k t x).
  erewrite bind_run by by apply (thread_is_run THREAD_SLEEPING k t x).
  assert (Hc : negb (is_in THREAD_WAITING k t) && negb (is_in THREAD_SLEEPING k t) = false).
  { unfold is_in. rewrite Hx. by destruct Hb as [-> | ->]. }
  rewrite Hc. apply (set_state_tick_run k t x THREAD_READY 0); [done|done|]. by destruct Hb as [-> | ->].
Qed.

(** Anything that leaves the wait fields alone keeps the queues. *)
Lemma waits_frame k k' Q :
  waits k Q -> queues k' = queues k ->
  (forall t, match threads k !! t with
             | Some x => exists y, threads k' !! t = Some y /\ wait_queue y = wait_queue x /\ wait_next y = wait_next x
             | None => threads k' !! t = None
             end) -> waits k' Q.
Proof.
  intros W Eq Ht.
  assert (Hback : forall t y, threads k' !! t = Some y -> exists x, threads k !! t = Some x /\
    wait_queue y = wait_queue x /\ wait_next y = wait_next x).
  { intros t y Hy. specialize (Ht t). destruct (threads k !! t) as [x|]; [|congruence].
    exists x. split; [done|]. destruct Ht as (y' & Hy' & Hr). assert (y' = y) as -> by congruence. done. }
  assert (Hn : forall t, wnext k' t = wnext k t).
  { intros t. unfold wnext. specialize (Ht t). destruct (threads k !! t) as [x|].
    - destruct Ht as (y & -> & _ & E). simpl. by rewrite E.
    - by rewrite Ht. }
  split.
  - intros q l Hq. destruct (wt_queue _ _ W q l Hq) as (Hq0 & w & Hw & Hr). split; [done|].
    exists w. rewrite Eq. split; [done|]. destruct Hr as [Hl Hlast].
    split; [|done]. eapply lseg_ext; [|exact Hl]. intros t _. apply Hn.
  - intros q l t Hq. rewrite (wt_member _ _ W q l t Hq). split.
    + intros (x & Hx & Hxq). specialize (Ht t). rewrite Hx in Ht. destruct Ht as (y & Hy & E & _). exists y. by rewrite E.
    + intros (y & Hy & Hyq). destruct (Hback t y Hy) as (x & Hx & E & _). exists x. by rewrite <- E.
  - intros t y Hy. destruct (Hback t y Hy) as (x & Hx & -> & ->). by apply (wt_thread _ _ W t).
  - specialize (Ht 0). by rewrite (wt_null _ _ W) in Ht.
Qed.

(** The state after the oldest waiter [t] was taken off and made ready. *)
Lemma wake_head_run k Q q t rest x :
  waits k Q -> Q !! q = Some (t :: rest) -> threads k !! t = Some x -> blocked x ->
  exists k', (y ← wait_queue_remove_head_locked q; wait_queue_mark_ready_locked y) k = Ret tt k' /\
    waits k' (<[q := rest]> Q) /\ threads k' !! t = Some (woken (off_queue x)) /\
    (forall y, y <> t -> threads k' !! y = threads k !! y) /\
    k' = k <| threads := threads k' |> <| queues := queues k' |>.
Proof.
  intros W Hq Hx Hb. destruct (remove_head_run k Q q t rest W Hq) as (x' & w & Hx' & Hw & _ & E).
  assert (x' = x) as -> by congruence.
  destruct (waits_remove k Q q [] t rest x w W Hq Hw Hx) as (W1 & S1 & Hx1). simpl app in W1.
  set (k1 := dequeued k q w [] t x) in *.
  assert (Ht : t <> 0) by (intros ->; by rewrite (wt_null _ _ W) in Hx).
  eexists. split; [mrun E; apply (mark_ready_run k1 t (off_queue x)); [done|done|exact Hb]|].
  assert (W2 : waits (k1 <| threads ::= <[t := woken (off_queue x)]> |>) (<[q := rest]> Q)).
  { apply (waits_frame k1); try done. intros y. destruct (decide (y = t)) as [->|Hy].
    - rewrite Hx1. eexists. split; [simpl; apply lookup_insert_eq|done].
    - destruct (threads k1 !! y) as [z|] eqn:Hz.
      + exists z. split; [simpl; rewrite lookup_insert_ne by done; exact Hz|done].
      + simpl. rewrite lookup_insert_ne by done. exact Hz. }
  split_and!; [exact W2|simpl; apply lookup_insert_eq| |].
  - intros y Hy. simpl. unfold unlinked. simpl. by rewrite !lookup_insert_ne by done.
  - unfold k1, dequeued. done.
Qed.

Lemma wake_one_locked_run k Q q l :
  waits k Q -> Q !! q = Some l ->
  match l with
  | [] => wait_queue_wake_one_locked q k = Ret tt k
  | t :: rest => forall x, threads k !! t = Some x -> blocked x ->
      exists k', wait_queue_wake_one_locked q k = Ret tt k' /\ waits k' (<[q := rest]> Q) /\
        threads k' !! t = Some (woken (off_queue x)) /\
        (forall y, y <> t -> threads k' !! y = threads k !! y) /\
        k' = k <| threads := threads k' |> <| queues := queues k' |>
  end.
Proof.
  intros W Hq. destruct (wt_queue _ _ W q l Hq) as (Hq0 & w & Hw & Hrep).
  destruct l as [|t rest].
  - unfold wait_queue_wake_one_locked. rewrite bool_decide_eq_false_2 by done.
    unfold wait_queue_remove_head_locked. mred. mrun (queue_at_run _ _ _ Hw).
    destruct Hrep as [-> _]. done.
  - intros x Hx Hb. unfold wait_queue_wake_one_locked. rewrite bool_decide_eq_false_2 by done.
    by apply wake_head_run.
Qed.

Definition unlocked k Q : Prop :=
  0 <= spinlock_depth k /\ forall q, is_Some (Q !! q) -> locks k !! QueueLock q = Some 0.

Lemma waits_same k k' Q : waits k Q -> queues k' = queues k -> threads k' = threads k -> waits k' Q.
Proof.
  intros W Eq Et. apply (waits_frame k); [done|done|]. intros t. rewrite Et. destruct (threads k !! t); eauto.
Qed.

(** A critical section of a queue: its body runs with the lock held, and afterwards
    locks, depth and flags are as before. *)
Lemma section_run {A} (body : M (kernel H) A) k q a k2 :
  locks k !! QueueLock q = Some 0 -> 0 <= spinlock_depth k ->
  body (enter (QueueLock q) k) = Ret a k2 ->
  k2 = (enter (QueueLock q) k) <| threads := threads k2 |> <| queues := queues k2 |> ->
  (flags ← lock q; x ← body; unlock q flags ;; mret x) k =
  Ret a (k <| threads := threads k2 |> <| queues := queues k2 |>).
Proof.
  intros Hl Hd Hb Ek. unfold lock, unlock. mrun (spin_lock_run k (QueueLock q) Hl). mrun Hb.
  assert (E1 : locks k2 = <[QueueLock q := 1]> (locks k)) by by rewrite Ek.
  assert (E2 : spinlock_depth k2 = 1 + spinlock_depth k) by by rewrite Ek.
  assert (E3 : rflags k2 = Z.ldiff (rflags k) RFLAGS_IF) by by rewrite Ek.
  erewrite bind_run by (apply (spin_unlock_run k2 _ 1); [rewrite E1; apply lookup_insert_eq|done|lia]).
  rewrite (leave_enter (QueueLock q) k k2 Hl E1 E2 E3). mred. rewrite Ek. by destruct k.
Qed.

(** Two computations that agree stay so when more follows. *)
Lemma bind_eq {A B} (m m' : M (kernel H) A) (r : A -> M (kernel H) B) k k' :
  m k = m' k' -> (x ← m; r x) k = (x ← m'; r x) k'.
Proof. unfold mbind, M_bind. by intros ->. Qed.

Lemma bind_mret_r {A} (m : M (kernel H) A) k : (x ← m; mret x) k = m k.
Proof. unfold mbind, M_bind. by destruct (m k). Qed.

(** ** Waking everybody *)

Lemma wake_all_run q rest : forall fuel k Q,
  waits k Q -> Q !! q = Some rest -> (length rest < fuel)%nat ->
  (forall t x, t ∈ rest -> threads k !! t = Some x -> blocked x) ->
  exists k', loop fuel (wake_all_loop q) tt k = Ret tt k' /\ waits k' (<[q := []]> Q) /\
    (forall t, threads k' !! t = if bool_decide (t ∈ rest) then (fun x => woken (off_queue x)) <$> threads k !! t
                                 else threads k !! t) /\
    k' = k <| threads := threads k' |> <| queues := queues k' |>.
Proof.
  induction rest as [|t rest IH]; intros fuel k Q W Hq Hf Hb; (destruct fuel as [|fuel]; [simpl in Hf; lia|]);
    rewrite loop_S; destruct (wt_queue _ _ W q _ Hq) as (Hq0 & w & Hw & Hrep).
  - exists k. split.
    { unfold wake_all_loop. mred. mrun (queue_at_run _ _ _ Hw). destruct Hrep as [-> _]. done. }
    split_and!; [by rewrite insert_id| |by destruct k].
    intros t. by rewrite bool_decide_eq_false_2 by apply not_elem_of_nil.
  - pose proof (queue_rep_NoDup _ _ _ _ Hrep) as Hnd. apply NoDup_cons in Hnd as [Hnin _].
    assert (Hx : exists x, threads k !! t = Some x /\ wait_queue x = q) by (apply (wt_member _ _ W q _ t Hq); left).
    destruct Hx as (x & Hx & _). pose proof (Hb t x ltac:(left) Hx) as Hbx.
    destruct (wake_head_run k Q q t rest x W Hq Hx Hbx) as (k1 & E1 & W1 & Hx1 & Hoth & Ek1).
    assert (Estep : wake_all_loop q tt k = Ret (inl tt) k1).
    { unfold wake_all_loop. mrun (queue_at_run _ _ _ Hw). destruct Hrep as [(-> & Ht0 & _) _].
      rewrite bool_decide_eq_false_2 by done. rewrite <- bind_assoc. by mrun E1. }
    mrun Estep.
    destruct (IH fuel k1 (<[q := rest]> Q)) as (k2 & E2 & W2 & Hm2 & Ek2).
    + done.
    + apply lookup_insert_eq.
    + simpl in Hf. lia.
    + intros y z Hy. rewrite Hoth by (by intros ->). intros Hz. apply (Hb y z); [by right|done].
    + rewrite insert_insert_eq in W2. exists k2. split_and!; [done|done| |by rewrite Ek2, Ek1].
      intros y. rewrite Hm2. destruct (decide (y = t)) as [->|Hyt].
      * rewrite bool_decide_eq_false_2, bool_decide_eq_true_2 by (done || left). by rewrite Hx1, Hx.
      * rewrite Hoth by done. by rewrite (bool_decide_ext (y ∈ t :: rest) (y ∈ rest)) by set_solver.
Qed.

Lemma waits_length k Q q l : waits k Q -> Q !! q = Some l -> (length l < S (size (threads k)))%nat.
Proof.
  intros W Hq. destruct (wt_queue _ _ W q l Hq) as (_ & w & _ & Hrep). apply Nat.lt_succ_r, NoDup_size.
  - by eapply queue_rep_NoDup.
  - intros t Ht. apply (wt_member _ _ W q l t Hq) in Ht as (x & Hx & _). by exists x.
Qed.

(** [wait_queue_wake_one]: on an empty queue nothing happens; otherwise exactly the
    oldest waiter is taken off the queue and becomes READY with its deadline cleared;
    every other thread, queue and lock, and the interrupt flag, are as before. *)
Theorem wake_one_wakes_oldest k Q q l :
  waits k Q -> unlocked k Q -> Q !! q = Some l ->
  (forall t x, hd_error l = Some t -> threads k !! t = Some x -> blocked x) ->
  exists k', wait_queue_wake_one q k = Ret tt k' /\ waits k' (<[q := List.tl l]> Q) /\ unlocked k' Q /\
    (forall t, threads k' !! t = if bool_decide (hd_error l = Some t)
       then (fun x => x <| wait_next := 0 |> <| wait_queue := 0 |> <| state := THREAD_READY |> <| wake_tick := 0 |>)
              <$> threads k !! t
       else threads k !! t) /\
    k' = k <| threads := threads k' |> <| queues := queues k' |>.
Proof.
  intros W [Ud Ul] Hq Hb. destruct (wt_queue _ _ W q l Hq) as (Hq0 & _).
  assert (We : waits (enter (QueueLock q) k) Q) by by apply (waits_same k).
  pose proof (wake_one_locked_run (enter (QueueLock q) k) Q q l We Hq) as Hrun.
  unfold wait_queue_wake_one. rewrite bool_decide_eq_false_2 by done.
  assert (Hsec : forall k2, wait_queue_wake_one_locked q (enter (QueueLock q) k) = Ret tt k2 ->
    k2 = (enter (QueueLock q) k) <| threads := threads k2 |> <| queues := queues k2 |> ->
    (flags ← lock q; wait_queue_wake_one_locked q ;; unlock q flags) k =
    Ret tt (k <| threads := threads k2 |> <| queues := queues k2 |>)).
  { intros k2 E Ek. rewrite <- (section_run _ k q tt k2 (Ul q ltac:(by eexists)) Ud E Ek).
    apply bind_ext. intros f k3 _. apply bind_ext. intros [] k4 _.
    by rewrite <- (bind_mret_r (unlock q f)) at 1; apply bind_ext; intros []. }
  destruct l as [|t rest].
  - rewrite (Hsec _ Hrun ltac:(done)). eexists. split; [reflexivity|]. simpl.
    split_and!; [apply (waits_same k); [by rewrite insert_id|done|done]|by split| |done].
    by intros t.
  - assert (Hx : exists x, threads k !! t = Some x /\ wait_queue x = q) by (apply (wt_member _ _ W q _ t Hq); left).
    destruct Hx as (x & Hx & _). destruct (Hrun x Hx (Hb t x eq_refl Hx)) as (k2 & E & W2 & Hx2 & Ho & Ek).
    rewrite (Hsec _ E Ek). eexists. split; [reflexivity|].
    split_and!; [by apply (waits_same k2)|by split| |done].
    intros y. simpl. destruct (decide (y = t)) as [->|Hy].
    + rewrite bool_decide_eq_true_2 by done. by rewrite Hx2, Hx.
    + rewrite bool_decide_eq_false_2 by congruence. by rewrite Ho.
Qed.

(** [wait_queue_wake_all] empties the queue: every thread that was on it is READY
    and on no queue, every other thread is as before. *)
Theorem wake_all_wakes_everyone k Q q l :
  waits k Q -> unlocked k Q -> Q !! q = Some l ->
  (forall t x, t ∈ l -> threads k !! t = Some x -> blocked x) ->
  exists k', wait_queue_wake_all q k = Ret tt k' /\ waits k' (<[q := []]> Q) /\ unlocked k' Q /\
    (forall t, threads k' !! t = if bool_decide (t ∈ l)
       then (fun x => x <| wait_next := 0 |> <| wait_queue := 0 |> <| state := THREAD_READY |> <| wake_tick := 0 |>)
              <$> threads k !! t
       else threads k !! t) /\
    k' = k <| threads := threads k' |> <| queues := queues k' |>.
Proof.
  intros W [Ud Ul] Hq Hb. destruct (wt_queue _ _ W q l Hq) as (Hq0 & _).
  assert (We : waits (enter (QueueLock q) k) Q) by by apply (waits_same k).
  destruct (wake_all_run q l (S (size (threads k))) (enter (QueueLock q) k) Q We Hq) as (k2 & E & W2 & Ht & Ek).
  { by eapply waits_length. }
  { done. }
  assert (Eb : wait_queue_wake_all_locked q (enter (QueueLock q) k) = Ret tt k2).
  { unfold wait_queue_wake_all_locked, thread_fuel. rewrite bool_decide_eq_false_2 by done. by mred. }
  exists (k <| threads := threads k2 |> <| queues := queues k2 |>). split.
  { unfold wait_queue_wake_all. rewrite bool_decide_eq_false_2 by done.
    rewrite <- (section_run _ k q tt k2 (Ul q ltac:(by eexists)) Ud Eb Ek).
    apply bind_ext. intros f k3 _. apply bind_ext. intros [] k4 _.
    by rewrite <- (bind_mret_r (unlock q f)) at 1; apply bind_ext; intros []. }
  split_and!; [by apply (waits_same k2)|by split|exact Ht|done].
Qed.

(** ** Blocking *)

Lemma assert_run k : schedule_locked k = false -> spinlock_depth k = 0 -> irq_depth k = 0 ->
  sched_assert_can_switch k = Ret tt k.
Proof.
  intros Sl Sd Si. unfold sched_assert_can_switch, spinlock_held_count. mred. rewrite Sl. mred.
  rewrite Sd, (bool_decide_eq_true_2 (0 = 0)) by done. cbn [negb]. mred. by rewrite Si.
Qed.

(** The state after a thread put itself on the queue and changed its own state, both
    under the queue's lock: there is no state in between that others can see. *)
Record registered k Q (q : Z) (l : list Z) (t : Z) (s : thread_state) (deadline : Z) k1 : Prop := {
  rg_waits : waits k1 (<[q := l ++ [t]]> Q);
  rg_unlocked : unlocked k1 Q;
  rg_thread : exists y, threads k1 !! t = Some y /\ state y = s /\ wake_tick y = deadline /\ wait_queue y = q;
  rg_others : forall u, u <> t -> match threads k !! u with
    | Some z => exists z', threads k1 !! u = Some z' /\ same_but_wait z z'
    | None => threads k1 !! u = None end;
  rg_frame : k1 = k <| threads := threads k1 |> <| queues := queues k1 |>
}.

(** Changing the state of a thread keeps the queues. *)
Lemma waits_set_thread k Q t x y :
  waits k Q -> threads k !! t = Some x -> wait_queue y = wait_queue x -> wait_next y = wait_next x ->
  waits (k <| threads ::= <[t := y]> |>) Q.
Proof.
  intros W Hx Hq Hn. apply (waits_frame k); [done|done|]. intros u. simpl. destruct (decide (u = t)) as [->|Hu].
  - rewrite Hx, lookup_insert_eq. eauto.
  - rewrite lookup_insert_ne by done. destruct (threads k !! u); eauto.
Qed.

Lemma enqueue_waiting_run k Q q l t x :
  waits k Q -> Q !! q = Some l -> threads k !! t = Some x -> wait_queue x = 0 -> state x = THREAD_RUNNING ->
  exists k', (wait_queue_enqueue_locked q t ;; thread_set_waiting t) k = Ret tt k' /\
    waits k' (<[q := l ++ [t]]> Q) /\
    threads k' !! t = Some (x <| wait_next := 0 |> <| wait_queue := q |> <| state := THREAD_WAITING |> <| wake_tick := 0 |>) /\
    (forall u, u <> t -> match threads k !! u with
      | Some z => exists z', threads k' !! u = Some z' /\ same_but_wait z z'
      | None => threads k' !! u = None end) /\
    k' = k <| threads := threads k' |> <| queues := queues k' |>.
Proof.
  intros W Hq Hx Hwq Hs. destruct (wait_enqueue_run k Q q l t x W Hq Hx Hwq) as (k1 & E1 & W1 & S1 & Hx1).
  assert (Ht : t <> 0) by (intros ->; by rewrite (wt_null _ _ W) in Hx).
  set (x1 := x <| wait_next := 0 |> <| wait_queue := q |>) in *.
  assert (Hv : thread_state_transition_is_valid (state x1) THREAD_WAITING = true) by (unfold x1; simpl; by rewrite Hs).
  eexists. split; [mrun E1; exact (set_state_tick_run k1 t x1 THREAD_WAITING 0 Ht Hx1 Hv)|].
  split_and!.
  - by apply (waits_set_thread k1 _ t x1).
  - simpl. apply lookup_insert_eq.
  - intros u Hu. simpl. rewrite lookup_insert_ne by done. apply (qs_threads _ _ _ S1).
  - rewrite (qs_frame _ _ _ S1). done.
Qed.

Lemma sleeping_enqueue_run k Q q l t x deadline :
  waits k Q -> Q !! q = Some l -> threads k !! t = Some x -> wait_queue x = 0 -> state x = THREAD_RUNNING ->
  exists k', (thread_set_sleeping t deadline ;; wait_queue_enqueue_locked q t) k = Ret tt k' /\
    waits k' (<[q := l ++ [t]]> Q) /\
    threads k' !! t = Some (x <| wake_tick := deadline |> <| state := THREAD_SLEEPING |> <| wait_next := 0 |> <| wait_queue := q |>) /\
    (forall u, u <> t -> match threads k !! u with
      | Some z => exists z', threads k' !! u = Some z' /\ same_but_wait z z'
      | None => threads k' !! u = None end) /\
    k' = k <| threads := threads k' |> <| queues := queues k' |>.
Proof.
  intros W Hq Hx Hwq Hs. assert (Ht : t <> 0) by (intros ->; by rewrite (wt_null _ _ W) in Hx).
  set (x1 := x <| wake_tick := deadline |> <| state := THREAD_SLEEPING |>).
  set (k1 := k <| threads ::= <[t := x1]> |>).
  assert (E1 : thread_set_sleeping t deadline k = Ret tt k1).
  { unfold thread_set_sleeping, thread_validate_state_transition. rewrite bool_decide_eq_false_2 by done. mred.
    mrun (thread_at_run _ _ _ Hx). rewrite Hs.
    change (thread_state_transition_is_valid THREAD_RUNNING THREAD_SLEEPING) with true. cbn [negb]. mred. erewrite bind_run by (apply set_thread_run; exact Hx).
    erewrite set_thread_run by (simpl; apply lookup_insert_eq). simpl. by rewrite insert_insert_eq. }
  assert (W1 : waits k1 Q) by by apply (waits_set_thread k Q t x).
  assert (Hx1 : threads k1 !! t = Some x1) by (unfold k1; simpl; apply lookup_insert_eq).
  destruct (wait_enqueue_run k1 Q q l t x1 W1 Hq Hx1 Hwq) as (k2 & E2 & W2 & S2 & Hx2).
  exists k2. split; [mrun E1; exact E2|]. split_and!; [done|exact Hx2| |].
  - intros u Hu. pose proof (qs_threads _ _ _ S2 u) as Hz. unfold k1 in Hz. simpl in Hz.
    by rewrite lookup_insert_ne in Hz.
  - rewrite (qs_frame _ _ _ S2). done.
Qed.

(** Coming back: the thread takes itself off the queue if it is still there. *)
Lemma resume_run k Q q l t :
  waits k Q -> unlocked k Q -> Q !! q = Some l -> t = current_thread k -> is_Some (threads k !! t) ->
  exists k' l', (flags ← lock q; cur ← gets current_thread; wait_queue_remove_locked q cur ;; unlock q flags) k = Ret tt k' /\
    waits k' (<[q := l']> Q) /\ unlocked k' Q /\ (t ∉ l') /\ l' ⊆ l /\ l ⊆ t :: l' /\
    (forall u, match threads k !! u with
      | Some z => exists z', threads k' !! u = Some z' /\ same_but_wait z z'
      | None => threads k' !! u = None end) /\
    k' = k <| threads := threads k' |> <| queues := queues k' |>.
Proof.
  intros W [Ud Ul] Hq -> [x Hx]. destruct (wt_queue _ _ W q l Hq) as (Hq0 & _).
  set (t := current_thread k) in *. set (ke := enter (QueueLock q) k).
  assert (We : waits ke Q) by by apply (waits_same k).
  assert (Hsec : forall r k2, wait_queue_remove_locked q t ke = Ret r k2 ->
    k2 = ke <| threads := threads k2 |> <| queues := queues k2 |> ->
    (flags ← lock q; cur ← gets current_thread; wait_queue_remove_locked q cur ;; unlock q flags) k =
    Ret tt (k <| threads := threads k2 |> <| queues := queues k2 |>)).
  { intros r k2 E Ek. assert (Eb : (wait_queue_remove_locked q t ;; mret tt) ke = Ret tt k2) by by mrun E.
    rewrite <- (section_run _ k q tt k2 (Ul q ltac:(by eexists)) Ud Eb Ek).
    apply bind_ext. intros f k3 E3. unfold lock in E3.
    rewrite (spin_lock_run k (QueueLock q) (Ul q ltac:(by eexists))) in E3. injection E3 as <- <-.
    mred. change (current_thread (enter (QueueLock q) k)) with t.
    apply bind_ext. intros r' k4 _. mred.
    by rewrite <- (bind_mret_r (unlock q (rflags k))) at 1; apply bind_ext; intros []. }
  destruct (decide (wait_queue x = q)) as [Hxq|Hxq].
  - assert (Hin : t ∈ l) by (apply (wt_member _ _ W q l t Hq); eauto).
    apply list_elem_of_split in Hin as (keep & rest & ->).
    destruct (remove_locked_run ke Q q keep t rest We Hq) as (x' & w & Hx' & Hw & E).
    destruct (waits_remove ke Q q keep t rest x' w We Hq Hw Hx') as (W2 & S2 & _).
    eexists _, (keep ++ rest). split; [apply (Hsec 1 _ E); apply S2|].
    split_and!; [by eapply waits_same|by split| |set_solver|set_solver|apply S2|done].
    destruct (wt_queue _ _ W q _ Hq) as (_ & w' & _ & Hrep). apply queue_rep_NoDup in Hrep.
    apply NoDup_app in Hrep as (_ & Hd & [Hn _]%NoDup_cons). intros [Hi|Hi]%elem_of_app; [|done]. apply (Hd t Hi). left.
  - eexists _, l. split; [apply (Hsec 0 ke); [by apply (remove_absent_run ke q t x)|done]|].
    split_and!; [rewrite insert_id by done; by apply (waits_same k)|by split| |done|set_solver| |done].
    + intros Hin. apply (wt_member _ _ W q l t Hq) in Hin as (x' & Hx' & ?). congruence.
    + intros u. simpl. destruct (threads k !! u) as [z|]; [|done]. exists z. split; [done|apply same_but_wait_refl].
Qed.

(** Leaving a critical section whose body changed threads and queues only. *)
Lemma unlock_run k q k2 :
  locks k !! QueueLock q = Some 0 -> 0 <= spinlock_depth k ->
  k2 = (enter (QueueLock q) k) <| threads := threads k2 |> <| queues := queues k2 |> ->
  unlock q (rflags k) k2 = Ret tt (k <| threads := threads k2 |> <| queues := queues k2 |>).
Proof.
  intros Hl Hd Ek. unfold unlock.
  assert (E1 : locks k2 = <[QueueLock q := 1]> (locks k)) by by rewrite Ek.
  assert (E2 : spinlock_depth k2 = 1 + spinlock_depth k) by by rewrite Ek.
  assert (E3 : rflags k2 = Z.ldiff (rflags k) RFLAGS_IF) by by rewrite Ek.
  erewrite (spin_unlock_run k2 _ 1); [|rewrite E1; apply lookup_insert_eq|done|lia].
  rewrite (leave_enter (QueueLock q) k k2 Hl E1 E2 E3). rewrite Ek. by destruct k.
Qed.

Lemma same_state k : k <| threads := threads k |> <| queues := queues k |> = k.
Proof. by destruct k. Qed.

Section blocking.
Variables (c : kernel H -> Z) (q : Z).

(** The condition as seen under the lock. *)
Definition holds k : Prop := c (enter (QueueLock q) k) <> 0.

Definition come_back : M (kernel H) unit :=
  flags ← lock q; cur ← gets current_thread; wait_queue_remove_locked q cur ;; unlock q flags.

Lemma irq_window_none k : irq_window (mret tt) k = Ret tt k.
Proof. unfold irq_window. mred. by destruct (negb _). Qed.

Lemma irq_window_ret {A} (a : A) k : (irq_window (mret tt) ;; mret a) k = Ret a k.
Proof. by mrun (irq_window_none k). Qed.

Lemma wait_prepare_true k irq :
  locks k !! QueueLock q = Some 0 -> 0 <= spinlock_depth k -> holds k ->
  wait_prepare irq q (gets c) k = (irq_window irq ;; mret (inr 0)) k.
Proof.
  intros Hl Hd Hc. unfold wait_prepare, unlock_irq, lock. mrun (spin_lock_run k (QueueLock q) Hl). mred.
  rewrite bool_decide_eq_false_2 by done. cbn [negb]. rewrite bind_assoc.
  mrun (unlock_run k q (enter (QueueLock q) k) Hl Hd ltac:(by destruct k)).
  change (threads (enter (QueueLock q) k)) with (threads k). change (queues (enter (QueueLock q) k)) with (queues k).
  by rewrite same_state.
Qed.

(** The lock is released, and with it the interrupts, in a state that has the caller
    on the queue already. *)
Lemma wait_prepare_block k Q l t x :
  waits k Q -> unlocked k Q -> Q !! q = Some l -> current_thread k = t -> threads k !! t = Some x ->
  wait_queue x = 0 -> state x = THREAD_RUNNING -> ~ holds k ->
  exists k1, registered k Q q l t THREAD_WAITING 0 k1 /\
    forall irq, wait_prepare irq q (gets c) k = (irq_window irq ;; mret (inl tt)) k1.
Proof.
  intros W [Ud Ul] Hq Hcur Hx Hwq Hs Hc. assert (Hl := Ul q ltac:(by eexists)).
  assert (We : waits (enter (QueueLock q) k) Q) by by apply (waits_same k).
  destruct (enqueue_waiting_run (enter (QueueLock q) k) Q q l t x We Hq Hx Hwq Hs) as (k2 & E & W2 & Hx2 & Ho & Ek).
  exists (k <| threads := threads k2 |> <| queues := queues k2 |>). split.
  { split; [by apply (waits_same k2)|by split| |exact Ho|done]. simpl. eauto 10. }
  intros irq. unfold wait_prepare, unlock_irq, lock. mrun (spin_lock_run k (QueueLock q) Hl). mred.
  assert (Hc0 : c (enter (QueueLock q) k) = 0) by (unfold holds in Hc; lia).
  rewrite Hc0, (bool_decide_eq_true_2 (0 = 0)) by done. cbn [negb]. mred.
  change (current_thread (enter (QueueLock q) k)) with (current_thread k). rewrite Hcur.
  rewrite <- bind_assoc. mrun E. mred. by mrun (unlock_run k q k2 Hl Ud Ek).
Qed.

(** What a thread finds after it was switched to again and took itself off the queue. *)
Lemma come_back_run k Q l t :
  waits k Q -> unlocked k Q -> Q !! q = Some l -> current_thread k = t -> is_Some (threads k !! t) ->
  exists k' l', come_back k = Ret tt k' /\ waits k' (<[q := l']> Q) /\ unlocked k' Q /\ (t ∉ l') /\ l' ⊆ l /\ l ⊆ t :: l' /\
    (forall u, match threads k !! u with
      | Some z => exists z', threads k' !! u = Some z' /\ same_but_wait z z'
      | None => threads k' !! u = None end) /\
    k' = k <| threads := threads k' |> <| queues := queues k' |>.
Proof. intros W U Hq <- Hx. by apply (resume_run k Q q l). Qed.

(** The running thread may block. *)
Record may_block k t x : Prop := {
  mb_current : current_thread k = t;
  mb_thread : threads k !! t = Some x;
  mb_running : state x = THREAD_RUNNING;
  mb_off : wait_queue x = 0;
  mb_unlocked : schedule_locked k = false;
  mb_depth : spinlock_depth k = 0;
  mb_irq : irq_depth k = 0
}.

Lemma wait_start k Q l t x n irq others :
  waits k Q -> Q !! q = Some l -> may_block k t x ->
  wait_queue_wait_irq n irq others q (Some (gets c)) k = loop n (wait_round_irq irq others q (gets c)) tt k.
Proof.
  intros W Hq [Hcur Hx Hs Hwq Sl Sd Si]. destruct (wt_queue _ _ W q l Hq) as (Hq0 & _).
  assert (Ht : t <> 0) by (intros ->; by rewrite (wt_null _ _ W) in Hx).
  unfold wait_queue_wait_irq. mred. rewrite Hcur, !bool_decide_eq_false_2 by done. cbn [orb].
  by mrun (assert_run k Sl Sd Si).
Qed.

(** The round that returns. *)
Lemma wait_round_ends k k' n irq others :
  locks k !! QueueLock q = Some 0 -> 0 <= spinlock_depth k -> holds k -> irq_window irq k = Ret tt k' ->
  loop (S n) (wait_round_irq irq others q (gets c)) tt k = Ret 0 k'.
Proof.
  intros Hl Hd Hc Ei. rewrite loop_S.
  assert (E : wait_round_irq irq others q (gets c) tt k = Ret (inr 0) k').
  { unfold wait_round_irq. rewrite (bind_eq _ _ _ _ _ (wait_prepare_true k irq Hl Hd Hc)), bind_assoc. by mrun Ei. }
  by mrun E.
Qed.

Lemma wait_now_run k Q l t x n others :
  waits k Q -> unlocked k Q -> Q !! q = Some l -> may_block k t x -> holds k ->
  wait_queue_wait (S n) others q (Some (gets c)) k = Ret 0 k.
Proof.
  intros W U Hq Hb Hc. unfold wait_queue_wait. rewrite (wait_start k Q l t x) by done.
  apply wait_round_ends; [by apply (proj2 U q); eexists|apply U|done|apply irq_window_none].
Qed.

(** The call that blocks, with the interrupts it meets. *)
Lemma wait_blocks_run k Q l t x :
  waits k Q -> unlocked k Q -> Q !! q = Some l -> may_block k t x -> ~ holds k ->
  exists k1, registered k Q q l t THREAD_WAITING 0 k1 /\
    (forall irq, wait_prepare irq q (gets c) k = (irq_window irq ;; mret (inl tt)) k1) /\
    forall irq others ki k2 Q2 l2, irq_window irq k1 = Ret tt ki -> sched_yield others ki = Ret tt k2 ->
      waits k2 Q2 -> unlocked k2 Q2 -> Q2 !! q = Some l2 -> current_thread k2 = t -> is_Some (threads k2 !! t) ->
      exists k3 l3, waits k3 (<[q := l3]> Q2) /\ unlocked k3 Q2 /\ (t ∉ l3) /\ l3 ⊆ l2 /\
        (forall u, match threads k2 !! u with
          | Some z => exists z', threads k3 !! u = Some z' /\ same_but_wait z z'
          | None => threads k3 !! u = None end) /\
        k3 = k2 <| threads := threads k3 |> <| queues := queues k3 |> /\
        forall kj k4, irq_window irq k3 = Ret tt kj -> locks kj !! QueueLock q = Some 0 -> 0 <= spinlock_depth kj ->
          holds kj -> irq_window irq kj = Ret tt k4 ->
          forall n, wait_queue_wait_irq (S (S n)) irq others q (Some (gets c)) k = Ret 0 k4.
Proof.
  intros W U Hq Hb Hc. pose proof Hb as [Hcur Hx Hs Hwq Sl Sd Si].
  destruct (wait_prepare_block k Q l t x W U Hq Hcur Hx Hwq Hs Hc) as (k1 & R1 & E1).
  exists k1. split; [done|]. split; [done|]. intros irq others ki k2 Q2 l2 Ei Ey W2 U2 Hq2 Hcur2 Hx2.
  destruct (come_back_run k2 Q2 l2 t W2 U2 Hq2 Hcur2 Hx2) as (k3 & l3 & E3 & W3 & U3 & Hn & Hsub & _ & Ho3 & Ek3).
  exists k3, l3. split_and!; try done. intros kj k4 Ej Hlj Hdj Hcj E4 n. rewrite (wait_start k Q l t x) by done.
  assert (Er : wait_round_irq irq others q (gets c) tt k = Ret (inl tt) kj).
  { unfold wait_round_irq, unlock_irq. rewrite (bind_eq _ _ _ _ _ (E1 irq)), bind_assoc. mrun Ei. mred. mrun Ey.
    trans ((come_back ;; irq_window irq ;; mret (inl tt : unit + Z)) k2); [|by mrun E3; mrun Ej].
    unfold come_back, lock. rewrite bind_assoc. apply bind_ext. intros f k5 _. mred.
    apply bind_ext. intros r k6 _. by mred. }
  rewrite loop_S. mrun Er. by apply wait_round_ends.
Qed.

Lemma wait_later_run k Q l t x :
  waits k Q -> unlocked k Q -> Q !! q = Some l -> may_block k t x -> ~ holds k ->
  exists k1, registered k Q q l t THREAD_WAITING 0 k1 /\
    forall others k2 Q2 l2, sched_yield others k1 = Ret tt k2 -> waits k2 Q2 -> unlocked k2 Q2 ->
      Q2 !! q = Some l2 -> current_thread k2 = t -> is_Some (threads k2 !! t) ->
      exists k3 l3, waits k3 (<[q := l3]> Q2) /\ unlocked k3 Q2 /\ (t ∉ l3) /\ l3 ⊆ l2 /\
        (forall u, match threads k2 !! u with
          | Some z => exists z', threads k3 !! u = Some z' /\ same_but_wait z z'
          | None => threads k3 !! u = None end) /\
        k3 = k2 <| threads := threads k3 |> <| queues := queues k3 |> /\
        (holds k3 -> forall n, wait_queue_wait (S (S n)) others q (Some (gets c)) k = Ret 0 k3).
Proof.
  intros W U Hq Hb Hc. destruct (wait_blocks_run k Q l t x W U Hq Hb Hc) as (k1 & R1 & _ & Hrun).
  exists k1. split; [done|]. intros others k2 Q2 l2 Ey W2 U2 Hq2 Hcur2 Hx2.
  destruct (Hrun (mret tt) others k1 k2 Q2 l2 (irq_window_none k1) Ey W2 U2 Hq2 Hcur2 Hx2)
    as (k3 & l3 & W3 & U3 & Hn & Hsub & Ho3 & Ek3 & Hret).
  exists k3, l3. split_and!; try done. intros Hc3.
  apply (Hret k3 k3); [apply irq_window_none|by apply (proj2 U3 q); eexists|apply U3|done|apply irq_window_none].
Qed.

(** An interrupt that produces: it changes the data and wakes the queue. *)
Definition producer (f : H -> H) : M (kernel H) unit :=
  modify (fun k => k <| kheap ::= f |>) ;; wait_queue_wake_all q.

Lemma producer_wakes f k Q l t x :
  waits k Q -> unlocked k Q -> Q !! q = Some l ->
  (forall u y, u ∈ l -> threads k !! u = Some y -> blocked y) -> t ∈ l -> threads k !! t = Some x ->
  exists k', producer f k = Ret tt k' /\ waits k' (<[q := []]> Q) /\ is_in THREAD_READY k' t = true /\ (kheap k' = f (kheap k)).
Proof.
  intros W U Hq Hb Hin Hx. unfold producer. rewrite bind_modify.
  set (k0 := k <| kheap ::= f |>). assert (W0 : waits k0 Q) by by apply (waits_same k).
  destruct (wake_all_wakes_everyone k0 Q q l W0 U Hq Hb) as (k' & E & W' & _ & Ht & Ek).
  exists k'. split_and!; [done|done| |by rewrite Ek].
  unfold is_in. rewrite Ht, bool_decide_eq_true_2 by done. change (threads k0) with (threads k). rewrite Hx. done.
Qed.

(** C7.  [wait_queue_wait], no wakeup is lost.  When the condition holds at the start the
    call returns 0 at once.  Otherwise the release of the queue's lock, which lets the
    interrupts in again, finds the caller WAITING and the last on the queue: whatever the
    handlers of the interrupts that come in then do, they do it in that state, before the
    caller yields.  In particular a handler that changes the data and wakes the queue
    there, between the test of the condition and the yield, makes the caller READY, so it
    is not left asleep.  Once switched to again the caller is off the queue; when the
    condition holds by then, the call returns 0. *)
Theorem wait_queue_wait_no_lost_wakeup k Q l t x :
  waits k Q -> unlocked k Q -> Q !! q = Some l -> may_block k t x ->
  (holds k -> forall n irq others, wait_queue_wait_irq (S n) irq others q (Some (gets c)) k = (irq_window irq ;; mret 0) k) /\
  (~ holds k -> exists k1, registered k Q q l t THREAD_WAITING 0 k1 /\
     (forall irq, wait_prepare irq q (gets c) k = (irq_window irq ;; mret (inl tt)) k1) /\
     (irqs_on k = true -> (forall u y, u ∈ l -> threads k !! u = Some y -> blocked y) ->
      forall f, exists k2, wait_prepare (producer f) q (gets c) k = Ret (inl tt) k2 /\
        is_in THREAD_READY k2 t = true /\ waits k2 (<[q := []]> Q) /\ kheap k2 = f (kheap k)) /\
     forall irq others ki k2 Q2 l2, irq_window irq k1 = Ret tt ki -> sched_yield others ki = Ret tt k2 ->
       waits k2 Q2 -> unlocked k2 Q2 -> Q2 !! q = Some l2 -> current_thread k2 = t -> is_Some (threads k2 !! t) ->
       exists k3 l3, waits k3 (<[q := l3]> Q2) /\ unlocked k3 Q2 /\ (t ∉ l3) /\
         forall kj k4, irq_window irq k3 = Ret tt kj -> locks kj !! QueueLock q = Some 0 -> 0 <= spinlock_depth kj ->
           holds kj -> irq_window irq kj = Ret tt k4 ->
           forall n, wait_queue_wait_irq (S (S n)) irq others q (Some (gets c)) k = Ret 0 k4).
Proof.
  intros W U Hq Hb. split.
  - intros Hc n irq others. rewrite (wait_start k Q l t x), loop_S by done. unfold wait_round_irq.
    rewrite bind_assoc, (bind_eq _ _ _ _ _ (wait_prepare_true k irq (proj2 U q ltac:(by eexists)) (proj1 U) Hc)), bind_assoc.
    apply bind_ext. intros [] k' _. by mred.
  - intros Hc. destruct (wait_blocks_run k Q l t x W U Hq Hb Hc) as (k1 & R1 & E1 & Hrun).
    exists k1. split; [done|]. split; [done|]. split.
    + intros Hi Hbl f. destruct R1 as [W1 U1 (y & Hy & Hys & _) Ho Ek].
      destruct (producer_wakes f k1 (<[q := l ++ [t]]> Q) (l ++ [t]) t y) as (k2 & E2 & W2 & Hr & Hh).
      * done.
      * split; [apply U1|]. intros q' Hq'. apply U1. destruct (decide (q' = q)) as [->|]; [by eexists|].
        by rewrite lookup_insert_ne in Hq'.
      * apply lookup_insert_eq.
      * intros u z [Hu|Hu%list_elem_of_singleton]%elem_of_app Hz.
        -- destruct (decide (u = t)) as [->|Hut]; [assert (z = y) as -> by congruence; by left|].
           specialize (Ho u Hut). pose proof (proj1 (wt_member _ _ W q l u Hq) Hu) as (z0 & Hz0 & _). rewrite Hz0 in Ho.
           destruct Ho as (z' & Hz' & Es). assert (z' = z) as -> by congruence. unfold blocked. rewrite Es. exact (Hbl u z0 Hu Hz0).
        -- subst u. assert (z = y) as -> by congruence. by left.
      * set_solver.
      * done.
      * exists k2. rewrite insert_insert_eq in W2. split_and!; [|done|done|by rewrite Hh, Ek].
        rewrite E1. unfold irq_window. mred. assert (Hi1 : irqs_on k1 = true) by by rewrite Ek.
        unfold irqs_on in Hi1. rewrite Hi1. cbn [when]. by mrun E2.
    + intros irq others ki k2 Q2 l2 Ei Ey W2 U2 Hq2 Hcur2 Hx2.
      destruct (Hrun irq others ki k2 Q2 l2 Ei Ey W2 U2 Hq2 Hcur2 Hx2) as (k3 & l3 & W3 & U3 & Hn & _ & _ & _ & Hret).
      exists k3, l3. by split_and!.
Qed.
End blocking.
End theory.
