(* ===== verification/WaitTimeout.v ===== *)
(** * kernel/sched/wait.c: waiting with a deadline

    [wait_queue_wait_timeout] sleeps on the queue and on the timer at once; what the
    call returns, and what the timer's wakeup does to the queue. *)

From S2P Require Import Prelude LinkedList PhysMem Switch KState Sched SchedCore WaitQueue.

Section timeout.
Context {H : Type} `{KAlloc H}.
Implicit Types (k : kernel H) (Q : gmap Z (list Z)) (l : list Z).

Section rounds.
Variables (c : kernel H -> Z) (q deadline : Z).

(** The running thread with its deadline cleared, as every return leaves it. *)
Definition cleared k : kernel H := k <| threads ::= alter (fun x => x <| wake_tick := 0 |>) (current_thread k) |>.

Lemma clear_run k x : threads k !! current_thread k = Some x ->
  set_thread (current_thread k) (fun y => y <| wake_tick := 0 |>) k = Ret tt (cleared k).
Proof.
  intros Hx. rewrite (set_thread_run _ _ _ _ Hx). unfold cleared. f_equal. destruct k. simpl in *. f_equal.
  apply map_eq. intros t. destruct (decide (t = current_thread)) as [->|Ht].
  - by rewrite lookup_insert_eq, lookup_alter_eq, Hx.
  - by rewrite lookup_insert_ne, lookup_alter_ne by done.
Qed.

(** A round that returns: the condition holds, or it does not and time is up. *)
Lemma timeout_round_ends k x others :
  locks k !! QueueLock q = Some 0 -> 0 <= spinlock_depth k -> threads k !! current_thread k = Some x ->
  (holds c q k -> timeout_round others q (gets c) deadline tt k = Ret (inr 0) (cleared k)) /\
  (~ holds c q k -> deadline <= tick_count k ->
   timeout_round others q (gets c) deadline tt k = Ret (inr (- ETIMEDOUT)) (cleared k)).
Proof.
  intros Hl Hd Hx. unfold timeout_round, timer_ticks, lock.
  assert (Eu : unlock q (rflags k) (cleared (enter (QueueLock q) k)) = Ret tt (cleared k)).
  { rewrite (unlock_run k q _ Hl Hd) by done. by destruct k. }
  pose proof (clear_run (enter (QueueLock q) k) x Hx) as Ec.
  split.
  - intros Hc. mred. mrun (spin_lock_run k (QueueLock q) Hl). mred.
    rewrite (bool_decide_eq_false_2 _ Hc). cbn [negb]. mrun Ec. by mrun Eu.
  - intros Hc Ht. mred. mrun (spin_lock_run k (QueueLock q) Hl). mred.
    assert (Hc0 : c (enter (QueueLock q) k) = 0) by (unfold holds in Hc; lia).
    rewrite Hc0, (bool_decide_eq_true_2 (0 = 0)), (bool_decide_eq_true_2 (deadline <= tick_count k)) by done.
    cbn [negb]. mrun Ec. by mrun Eu.
Qed.

(** A round that blocks. *)
Lemma timeout_round_block k Q l t x :
  waits k Q -> unlocked k Q -> Q !! q = Some l -> current_thread k = t -> threads k !! t = Some x ->
  wait_queue x = 0 -> state x = THREAD_RUNNING -> ~ holds c q k -> tick_count k < deadline ->
  exists k1, registered k Q q l t THREAD_SLEEPING deadline k1 /\
    forall others, timeout_round others q (gets c) deadline tt k =
      (sched_yield others ;; come_back q ;; mret (inl tt)) k1.
Proof.
  intros W [Ud Ul] Hq Hcur Hx Hwq Hs Hc Hd. assert (Hl := Ul q ltac:(by eexists)).
  assert (We : waits (enter (QueueLock q) k) Q) by by apply (waits_same k).
  destruct (sleeping_enqueue_run (enter (QueueLock q) k) Q q l t x deadline We Hq Hx Hwq Hs)
    as (k2 & E & W2 & Hx2 & Ho & Ek).
  exists (k <| threads := threads k2 |> <| queues := queues k2 |>). split.
  { split; [by apply (waits_same k2)|by split| |exact Ho|done]. simpl. eauto 10. }
  intros others. unfold timeout_round, timer_ticks, lock. mred. mrun (spin_lock_run k (QueueLock q) Hl). mred.
  assert (Hc0 : c (enter (QueueLock q) k) = 0) by (unfold holds in Hc; lia).
  rewrite Hc0, (bool_decide_eq_true_2 (0 = 0)), (bool_decide_eq_false_2 (deadline <= tick_count k)) by (done || lia).
  cbn [negb]. change (current_thread (enter (QueueLock q) k)) with (current_thread k). rewrite Hcur.
  rewrite <- bind_assoc. mrun E. mrun (unlock_run k q k2 Hl Ud Ek).
  apply bind_ext. intros [] k3 _. unfold come_back, lock. rewrite bind_assoc.
  apply bind_ext. intros f k4 _. by mred.
Qed.
End rounds.

(** The call up to its loop.  The first look at the condition is made before the queue's
    lock is taken. *)
Lemma timeout_start (c : kernel H -> Z) (q : Z) k t x ticks n others :
  q <> 0 -> t <> 0 -> may_block k t x ->
  wait_queue_wait_timeout n others q (Some (gets c)) ticks k =
    (if negb (bool_decide (c k = 0)) then Ret 0 k
     else if bool_decide (ticks = 0) then Ret (- ETIMEDOUT) k
     else loop n (timeout_round others q (gets c) (wrap64 (tick_count k + ticks))) tt k).
Proof.
  intros Hq Ht [Hcur Hx Hs Hwq Sl Sd Si].
  unfold wait_queue_wait_timeout, timer_ticks. mred.
  rewrite Hcur, !(bool_decide_eq_false_2 (_ = 0 :> Z)) by done. cbn [orb]. mrun (assert_run k Sl Sd Si). mred.
  destruct (bool_decide (c k = 0)); [|done]. cbn [negb]. by destruct (bool_decide (ticks = 0)); mred.
Qed.

(** sched.h: "The predicate is evaluated while the queue lock is held."  A predicate that
    is true only while the lock is free is never true under the lock, and yet the call
    returns 0 for it: the first evaluation is made without the lock. *)
Definition lock_free (q : Z) k : Z := if bool_decide (locks k !! QueueLock q = Some 0) then 1 else 0.

Lemma first_check_without_lock q k t x ticks n others :
  q <> 0 -> t <> 0 -> may_block k t x -> locks k !! QueueLock q = Some 0 ->
  wait_queue_wait_timeout n others q (Some (gets (lock_free q))) ticks k = Ret 0 k /\
  forall k', ~ holds (lock_free q) q k'.
Proof.
  intros Hq Ht Hb Hl. split.
  - rewrite (timeout_start _ _ _ t x) by auto. unfold lock_free. by rewrite (bool_decide_eq_true_2 (locks k !! _ = _)).
  - intros k' Hh. unfold holds, lock_free in Hh. simpl in Hh. by rewrite lookup_insert_eq in Hh.
Qed.

(** C32.  [wait_queue_wait_timeout]: with the condition true at the start, where it is
    looked at before the queue's lock is taken, it returns 0, and with no ticks to wait
    -ETIMEDOUT, nothing changed.  Otherwise, when the condition does not hold under the
    lock either, the caller goes to sleep until now plus [ticks] and is the last on the
    queue when the lock is released.  Once switched to again it is off the queue, and
    returns 0 when the condition holds under the lock, -ETIMEDOUT when it does not and
    the deadline has come; the deadline is cleared. *)
Theorem wait_timeout_outcomes (c : kernel H -> Z) (q : Z) k Q l t x ticks :
  waits k Q -> unlocked k Q -> Q !! q = Some l -> may_block k t x ->
  let call n others := wait_queue_wait_timeout n others q (Some (gets c)) ticks k in
  (c k <> 0 -> forall n others, call n others = Ret 0 k) /\
  (c k = 0 -> ticks = 0 -> forall n others, call n others = Ret (- ETIMEDOUT) k) /\
  (c k = 0 -> ~ holds c q k -> 0 < ticks -> tick_count k + ticks < 18446744073709551616 -> 0 <= tick_count k ->
   exists k1, registered k Q q l t THREAD_SLEEPING (tick_count k + ticks) k1 /\
     forall others k2 Q2 l2, sched_yield others k1 = Ret tt k2 -> waits k2 Q2 -> unlocked k2 Q2 ->
       Q2 !! q = Some l2 -> current_thread k2 = t -> is_Some (threads k2 !! t) ->
       exists k3 l3, waits k3 (<[q := l3]> Q2) /\ unlocked k3 Q2 /\ (t ∉ l3) /\
         (holds c q k3 -> forall n, call (S (S n)) others = Ret 0 (cleared k3)) /\
         (~ holds c q k3 -> tick_count k + ticks <= tick_count k2 ->
          forall n, call (S (S n)) others = Ret (- ETIMEDOUT) (cleared k3))).
Proof.
  intros W U Hq Hmay call. pose proof Hmay as [Hcur Hx Hs Hwq Sl Sd Si]. destruct (wt_queue _ _ W q l Hq) as (Hq0 & _).
  assert (Ht : t <> 0) by (intros ->; by rewrite (wt_null _ _ W) in Hx).
  assert (Hstart : forall n others, call n others =
    (if negb (bool_decide (c k = 0)) then Ret 0 k
     else if bool_decide (ticks = 0) then Ret (- ETIMEDOUT) k
     else loop n (timeout_round others q (gets c) (wrap64 (tick_count k + ticks))) tt k)).
  { intros n others. by apply (timeout_start c q k t x). }
  split_and!.
  - intros Hc n others. by rewrite Hstart, bool_decide_eq_false_2.
  - intros Hc Hz n others. by rewrite Hstart, Hc, Hz.
  - intros Hc Hh Hpos Hmax Htc. assert (Ed : wrap64 (tick_count k + ticks) = tick_count k + ticks).
    { unfold wrap64. apply Z.mod_small. lia. }
    rewrite Ed in Hstart.
    destruct (timeout_round_block c q (tick_count k + ticks) k Q l t x W U Hq Hcur Hx Hwq Hs Hh ltac:(lia))
      as (k1 & R1 & E1).
    exists k1. split; [done|]. intros others k2 Q2 l2 Ey W2 U2 Hq2 Hcur2 Hx2.
    destruct (come_back_run q k2 Q2 l2 t W2 U2 Hq2 Hcur2 Hx2) as (k3 & l3 & E3 & W3 & U3 & Hn & _ & _ & Hk3 & Ek3).
    exists k3, l3. assert (Er : timeout_round others q (gets c) (tick_count k + ticks) tt k = Ret (inl tt) k3)
      by (rewrite E1; mrun Ey; by mrun E3).
    assert (Hgo : forall n, call (S (S n)) others =
      loop (S n) (timeout_round others q (gets c) (tick_count k + ticks)) tt k3).
    { intros n. rewrite Hstart, Hc, (bool_decide_eq_false_2 (ticks = 0)) by lia.
      rewrite bool_decide_eq_true_2 by done. cbn [negb]. rewrite loop_S. by mrun Er. }
    assert (Hx3 : exists y, threads k3 !! current_thread k3 = Some y).
    { rewrite Ek3. simpl. rewrite Hcur2. destruct Hx2 as [z Hz]. specialize (Hk3 t). rewrite Hz in Hk3.
      destruct Hk3 as (z' & Hz' & _). eauto. }
    destruct Hx3 as [y Hy].
    destruct (timeout_round_ends c q (tick_count k + ticks) k3 y others
      (proj2 U3 q ltac:(by eexists)) (proj1 U3) Hy) as [Hyes Hno].
    split_and!; [done|done|done| |].
    + intros Hc3 n. rewrite Hgo, loop_S. by mrun (Hyes Hc3).
    + intros Hc3 Hlate n. rewrite Hgo, loop_S.
      assert (Hl3 : tick_count k + ticks <= tick_count k3) by by rewrite Ek3.
      by mrun (Hno Hc3 Hl3).
Qed.

(** ** A deadline that passes while the thread is still queued *)

Lemma wake_wait_fields tick y : wait_queue (wake tick y) = wait_queue y /\ wait_next (wake tick y) = wait_next y.
Proof. unfold wake. by destruct (_ && _). Qed.

(** The oldest waiter is neither WAITING nor SLEEPING: [wake_one] panics. *)
Lemma wake_one_panics k Q q t rest x :
  waits k Q -> unlocked k Q -> Q !! q = Some (t :: rest) -> threads k !! t = Some x -> ~ blocked x ->
  exists k', wait_queue_wake_one q k = Panicked "wait queue wakeup found non-waiting thread" k'.
Proof.
  intros W [Ud Ul] Hq Hx Hb. destruct (wt_queue _ _ W q _ Hq) as (Hq0 & _).
  assert (Ht : t <> 0) by (intros ->; by rewrite (wt_null _ _ W) in Hx).
  set (ke := enter (QueueLock q) k). assert (We : waits ke Q) by by apply (waits_same k).
  destruct (remove_head_run ke Q q t rest We Hq) as (x' & w & Hx' & Hw & _ & E).
  assert (x' = x) as -> by (unfold ke in Hx'; simpl in Hx'; congruence).
  destruct (waits_remove ke Q q [] t rest x w We Hq Hw Hx) as (_ & _ & Hx1).
  set (k1 := dequeued ke q w [] t x) in *. exists k1.
  unfold wait_queue_wake_one, lock. rewrite bool_decide_eq_false_2 by done.
  mrun (spin_lock_run k (QueueLock q) (Ul q ltac:(by eexists))). fold ke.
  apply bind_panic. unfold wait_queue_wake_one_locked. rewrite bool_decide_eq_false_2 by done. mrun E.
  unfold wait_queue_mark_ready_locked. rewrite bool_decide_eq_false_2 by done.
  erewrite bind_run by by apply (thread_is_run THREAD_WAITING k1 t (off_queue x)).
  erewrite bind_run by by apply (thread_is_run THREAD_SLEEPING k1 t (off_queue x)).
  assert (Hc : negb (is_in THREAD_WAITING k1 t) && negb (is_in THREAD_SLEEPING k1 t) = true).
  { unfold is_in. rewrite Hx1. unfold off_queue. simpl. unfold blocked in Hb.
    rewrite !bool_decide_eq_false_2 by tauto. done. }
  by rewrite Hc.
Qed.

(** A deadline that passes while the thread is still the oldest on its queue: the
    tick makes it READY and leaves it queued, and the next [wait_queue_wake_one] of
    that queue stops the kernel, unless the thread was switched to in between. *)
Theorem timed_out_waiter_panics_wakeup k rq Q q t rest x tick :
  run_queue k rq -> (current_thread k = 0 \/ current_thread k ∈ rq) ->
  waits k Q -> unlocked k Q -> Q !! q = Some (t :: rest) ->
  t ∈ rq -> threads k !! t = Some x -> state x = THREAD_SLEEPING -> wake_tick x <= tick ->
  exists k1 k2, sched_tick tick k = Ret tt k1 /\ waits k1 Q /\ is_in THREAD_READY k1 t = true /\
    wait_queue_wake_one q k1 = Panicked "wait queue wakeup found non-waiting thread" k2.
Proof.
  intros Hrq Hcur W [Ud Ul] Hq Hin Hx Hs Hw.
  destruct (sched_tick_run k rq tick Hrq Hcur (wt_null _ _ W)) as (k1 & E & _ & Ht & _ & Ek).
  assert (W1 : waits k1 Q).
  { apply (waits_frame k); [done|by rewrite Ek|]. intros y. rewrite Ht.
    destruct (threads k !! y) as [z|]; [|by case_bool_decide]. case_bool_decide; [|eauto].
    destruct (wake_wait_fields tick z). simpl. eauto. }
  assert (U1 : unlocked k1 Q) by by rewrite Ek; split.
  assert (Hx1 : threads k1 !! t = Some (x <| state := THREAD_READY |> <| wake_tick := 0 |>)).
  { rewrite Ht, bool_decide_eq_true_2, Hx by done. unfold wake. simpl. by rewrite !bool_decide_eq_true_2 by done. }
  destruct (wake_one_panics k1 Q q t rest _ W1 U1 Hq Hx1) as (k2 & E2).
  { by intros [|]. }
  exists k1, k2. split_and!; [done|done| |done]. unfold is_in. by rewrite Hx1.
Qed.
End timeout.
