(* ===== verification/WaitWitness.v ===== *)
(** * Wait queues on concrete kernels

    The kernel of two workers with one wait queue; [worker_b] is parked on it. *)

From S2P Require Import Prelude LinkedList PhysMem Switch KState Sched SchedCore SchedWitness WaitQueue WaitTimeout.

Definition event_queue : Z := 256.

(** [worker_a] runs and the queue is empty. *)
Definition calm : kernel arena :=
  two <| queues := {[ event_queue := WaitQueue 0 0 ]} |> <| locks ::= <[QueueLock event_queue := 0]> |>.

(** [worker_b] is on the queue in state [s] with deadline [w]. *)
Definition parked (s : thread_state) (w : Z) : kernel arena :=
  calm <| queues := {[ event_queue := WaitQueue worker_b worker_b ]} |>
    <| threads ::= <[worker_b := thread_b <| state := s |> <| wake_tick := w |> <| wait_queue := event_queue |>]> |>.

Definition none_waiting : gmap Z (list Z) := {[ event_queue := [] ]}.
Definition one_waiting : gmap Z (list Z) := {[ event_queue := [worker_b] ]}.

Lemma singleton_queue l0 q l : ({[ event_queue := l0 ]} : gmap Z (list Z)) !! q = Some l -> event_queue = q /\ l0 = l.
Proof. apply lookup_singleton_Some. Qed.

Lemma calm_lookup t x : threads calm !! t = Some x -> (t = worker_a /\ x = thread_a) \/ (t = worker_b /\ x = thread_b).
Proof.
  unfold calm. simpl. intros Hx. apply lookup_insert_Some in Hx as [[<- <-]|[_ Hx]]; [by left|].
  apply lookup_singleton_Some in Hx as [<- <-]. by right.
Qed.

Lemma parked_lookup s w t x : threads (parked s w) !! t = Some x ->
  (t = worker_b /\ wait_queue x = event_queue) \/ (t = worker_a /\ x = thread_a).
Proof.
  unfold parked. simpl. intros Hx. apply lookup_insert_Some in Hx as [[<- <-]|[Hn Hx]]; [by left|].
  apply (calm_lookup t x) in Hx as [[-> ->]|[-> _]]; [by right|done].
Qed.

Lemma calm_waits : waits calm none_waiting.
Proof.
  split.
  - intros q l [<- <-]%singleton_queue. split; [done|]. exists (WaitQueue 0 0). by split.
  - intros q l t [<- <-]%singleton_queue. split; [by intros ?%elem_of_nil|].
    intros (x & Hx & Hq). by apply calm_lookup in Hx as [[_ ->]|[_ ->]].
  - intros t x Hx. left. by apply calm_lookup in Hx as [[_ ->]|[_ ->]].
  - done.
Qed.

Lemma parked_waits s w : waits (parked s w) one_waiting.
Proof.
  split.
  - intros q l [<- <-]%singleton_queue. split; [done|]. exists (WaitQueue worker_b worker_b). split; [done|].
    repeat (split; try done). by exists 0.
  - intros q l t [<- <-]%singleton_queue. split.
    + intros ->%list_elem_of_singleton. by eexists.
    + intros (x & Hx & Hq). apply parked_lookup in Hx as [[-> _]|[_ ->]]; [by left|done].
  - intros t x Hx. apply parked_lookup in Hx as [[_ ->]|[_ ->]]; [right; by eexists|by left].
  - done.
Qed.

Lemma calm_unlocked : unlocked calm none_waiting.
Proof. split; [done|]. intros q [l [<- _]%singleton_queue]. done. Qed.

Lemma calm_may_block : may_block calm worker_a thread_a.
Proof. by split. Qed.

Lemma parked_unlocked s w : unlocked (parked s w) one_waiting.
Proof. split; [done|]. intros q [l [<- _]%singleton_queue]. done. Qed.

Lemma wake_one_wakes_oldest_witness :
  exists k', wait_queue_wake_one event_queue (parked THREAD_WAITING 0) = Ret tt k' /\
    is_in THREAD_READY k' worker_b = true.
Proof.
  destruct (wake_one_wakes_oldest (parked THREAD_WAITING 0) one_waiting event_queue [worker_b])
    as (k' & E & _ & _ & Ht & _).
  - exact (parked_waits THREAD_WAITING 0).
  - exact (parked_unlocked THREAD_WAITING 0).
  - reflexivity.
  - intros t x [= <-] [= <-]. left. reflexivity.
  - exists k'. split; [exact E|]. unfold is_in. rewrite (Ht worker_b). reflexivity.
Defined.

Lemma wake_all_wakes_everyone_witness :
  exists k', wait_queue_wake_all event_queue (parked THREAD_SLEEPING 99) = Ret tt k' /\
    is_in THREAD_READY k' worker_b = true.
Proof.
  destruct (wake_all_wakes_everyone (parked THREAD_SLEEPING 99) one_waiting event_queue [worker_b])
    as (k' & E & _ & _ & Ht & _).
  - exact (parked_waits THREAD_SLEEPING 99).
  - exact (parked_unlocked THREAD_SLEEPING 99).
  - reflexivity.
  - intros t x ->%list_elem_of_singleton [= <-]. right. reflexivity.
  - exists k'. split; [exact E|]. unfold is_in. rewrite (Ht worker_b). reflexivity.
Defined.

(** The condition: a tick has come since [calm]. *)
Definition later (k : kernel arena) : Z := if bool_decide (tick_count k <= 41) then 0 else 1.

Lemma wait_queue_wait_no_lost_wakeup_witness :
  (exists k1, registered calm none_waiting event_queue [] worker_a THREAD_WAITING 0 k1) /\
  exists k2, wait_prepare (producer event_queue (fun h => h)) event_queue (gets later) calm = Ret (inl tt) k2 /\
    is_in THREAD_READY k2 worker_a = true.
Proof.
  destruct (wait_queue_wait_no_lost_wakeup later event_queue calm none_waiting [] worker_a thread_a) as [_ Hw].
  - exact calm_waits.
  - exact calm_unlocked.
  - reflexivity.
  - exact calm_may_block.
  - destruct Hw as (k1 & R & _ & Hp & _); [intros Hh; apply Hh; reflexivity|]. split; [exists k1; exact R|].
    destruct (Hp ltac:(reflexivity) ltac:(by intros u y Hu%not_elem_of_nil) (fun h => h)) as (k2 & E & Hr & _).
    exists k2. exact (conj E Hr).
Defined.

Lemma wait_timeout_outcomes_witness :
  wait_queue_wait_timeout 5 (mret tt) event_queue (Some (gets later)) 0 calm = Ret (- ETIMEDOUT) calm /\
  exists k1, registered calm none_waiting event_queue [] worker_a THREAD_SLEEPING 51 k1.
Proof.
  split.
  - destruct (wait_timeout_outcomes later event_queue calm none_waiting [] worker_a thread_a 0) as (_ & Hz & _);
      [exact calm_waits|exact calm_unlocked|reflexivity|exact calm_may_block|].
    apply Hz; reflexivity.
  - destruct (wait_timeout_outcomes later event_queue calm none_waiting [] worker_a thread_a 10) as (_ & _ & Hb);
      [exact calm_waits|exact calm_unlocked|reflexivity|exact calm_may_block|].
    destruct Hb as (k1 & R & _); [reflexivity|intros Hh; apply Hh; reflexivity|reflexivity|reflexivity|discriminate|].
    exists k1. exact R.
Defined.

Lemma parked_run_queue s w : run_queue (parked s w) two_queue.
Proof. repeat (split; try done). exists worker_b. split; [done|]. repeat (split; try done). by exists 0. Qed.

Lemma timed_out_waiter_panics_wakeup_witness :
  exists k1 k2, sched_tick 42 (parked THREAD_SLEEPING 42) = Ret tt k1 /\
    wait_queue_wake_one event_queue k1 = Panicked "wait queue wakeup found non-waiting thread" k2.
Proof.
  destruct (timed_out_waiter_panics_wakeup (parked THREAD_SLEEPING 42) two_queue one_waiting event_queue worker_b []
    (thread_b <| state := THREAD_SLEEPING |> <| wake_tick := 42 |> <| wait_queue := event_queue |>) 42)
    as (k1 & k2 & E1 & _ & _ & E2).
  - exact (parked_run_queue THREAD_SLEEPING 42).
  - right. left.
  - exact (parked_waits THREAD_SLEEPING 42).
  - exact (parked_unlocked THREAD_SLEEPING 42).
  - reflexivity.
  - right. left.
  - reflexivity.
  - reflexivity.
  - discriminate.
  - exists k1, k2. exact (conj E1 E2).
Defined.
