(* ===== verification/SchedSystem.v ===== *)
(** * The scheduler as a system

    What threads and interrupts can ask of kernel/sched/, as the actions of a transition
    system.  A blocking call is not one action: a thread marks itself (asleep, waiting on a
    queue, exited) in one and yields in another, and interrupts come in between.  So the
    current thread need not be RUNNING: it may have marked itself, and a wakeup or the timer
    may have made it READY again before it yields.

    [sched_yield] and [kernel_thread_create] are one action each.  The code runs them with
    interrupts on; an interrupt inside [sched_yield] can panic the kernel
    ([stale_choice_panics] below). *)

From S2P Require Import Prelude LinkedList PhysMem Switch KState Sched SchedCore SchedReap SchedYield SchedThread SchedWitness WaitQueue WaitTimeout WaitWitness.

Section system.
Context {H : Type} `{KAllocSpec H}.
Implicit Types (k : kernel H) (Q : gmap Z (list Z)) (qs : gset Z) (rq : list Z) (live : gmap Z Z).

Inductive action :=
| Yield
| MarkSleep (ticks : Z)
| GoToSleep (queue : Z)
| GoToSleepUntil (queue deadline : Z)
| Resume (queue : Z)
| WakeOne (queue : Z)
| WakeAll (queue : Z)
| MarkExit
| Create (nm : option string) (ent a : Z)
| TimerInterrupt.

(** [sched_sleep] up to its yield. *)
Definition mark_sleep (ticks : Z) : M (kernel H) unit :=
  cur ← gets current_thread;
  sched_assert_can_switch ;;
  now ← timer_ticks;
  thread_set_sleeping cur (wrap64 (now + ticks)).

(** How a thread goes to sleep on a queue, in [wait_queue_wait] and [wait_queue_sleep],
    and with a deadline, in [wait_queue_wait_timeout]. *)
Definition go_to_sleep (queue : Z) : M (kernel H) unit :=
  flags ← lock queue;
  cur ← gets current_thread;
  wait_queue_enqueue_locked queue cur ;;
  thread_set_waiting cur ;;
  unlock queue flags.

Definition go_to_sleep_until (queue deadline : Z) : M (kernel H) unit :=
  flags ← lock queue;
  cur ← gets current_thread;
  thread_set_sleeping cur deadline ;;
  wait_queue_enqueue_locked queue cur ;;
  unlock queue flags.

Section actions.
Context (eoi : M (kernel H) unit).

Definition perform (a : action) : M (kernel H) unit :=
  match a with
  | Yield => sched_yield (mret tt)
  | MarkSleep ticks => mark_sleep ticks
  | GoToSleep queue => go_to_sleep queue
  | GoToSleepUntil queue deadline => go_to_sleep_until queue deadline
  | Resume queue => come_back queue
  | WakeOne queue => wait_queue_wake_one queue
  | WakeAll queue => wait_queue_wake_all queue
  | MarkExit => sched_thread_exit_mark
  | Create nm ent a => kernel_thread_create nm ent a ;; mret tt
  | TimerInterrupt => timer_interrupt eoi (mret tt)
  end.

(** A thread may stop running when it is RUNNING, on no queue and not the idle thread. *)
Definition may_leave k : Prop :=
  exists x, threads k !! current_thread k = Some x /\ state x = THREAD_RUNNING /\ wait_queue x = 0 /\
    current_thread k <> idle_thread k.

(** Every thread on the queue still waits: no deadline has woken it meanwhile. *)
Definition no_late k (queue : Z) : Prop :=
  forall t x, threads k !! t = Some x -> wait_queue x = queue -> blocked x.

(** Who may do what: queues are those set up ([qs]); only a thread that [may_leave] marks
    itself; nobody is woken from a queue with a thread on it whose deadline has passed
    ([WaitTimeout.timed_out_waiter_panics_wakeup]); and there is address space for a
    thread that is created. *)
Definition enabled qs k (a : action) : Prop :=
  match a with
  | Yield | TimerInterrupt => True
  | MarkSleep _ | MarkExit => may_leave k
  | GoToSleep queue | GoToSleepUntil queue _ => queue ∈ qs /\ may_leave k
  | Resume queue => queue ∈ qs /\ (is_in THREAD_RUNNING k (current_thread k) = true \/ is_in THREAD_READY k (current_thread k) = true)
  | WakeOne queue | WakeAll queue => queue ∈ qs /\ no_late k queue
  | Create _ _ _ => 25000 <= mem_room (kheap k)
  end.

Inductive step qs k : kernel H -> Prop :=
| step_action a k' : enabled qs k a -> perform a k = Ret tt k' -> step qs k k'.
End actions.

(** ** The invariant *)

Record consistent qs live rq Q k : Prop := {
  cs_sched : sched_inv live rq k;
  cs_ctx : ctx_inv live rq k;
  cs_switch : can_switch k;
  cs_waits : waits k Q;
  cs_unlocked : unlocked k Q;
  cs_queues : dom Q = qs;
  cs_all : forall t x, threads k !! t = Some x -> t ∈ rq;
  cs_idle : idle_thread k <> 0 /\
    is_in (if decide (current_thread k = idle_thread k) then THREAD_RUNNING else THREAD_READY) k (idle_thread k) = true;
  cs_waiting : forall t x, threads k !! t = Some x -> state x = THREAD_WAITING -> wait_queue x <> 0
}.

(** The state between actions. *)
Definition system_ok qs k : Prop :=
  exists live rq Q, consistent qs live rq Q k /\ is_Some (threads k !! current_thread k).

(** ** What a yield leaves alone *)

Definition wait_side (q : Z) k : gmap Z wait_queue_t * option Z := (queues k, locks k !! QueueLock q).

Lemma scheduler_lock_keeps q : keeps (wait_side q) (spin_lock_irqsave (H := H) (Some SchedulerLock) true).
Proof.
  unfold spin_lock_irqsave, arch_irq_save. keep_state. apply keeps_modify. intros k. unfold wait_side. simpl.
  by rewrite lookup_insert_ne.
Qed.

Lemma scheduler_unlock_keeps q f : keeps (wait_side q) (spin_unlock_irqrestore (H := H) (Some SchedulerLock) f).
Proof.
  unfold spin_unlock_irqrestore, arch_irq_restore. keep_state. apply keeps_modify. intros k. unfold wait_side. simpl.
  by rewrite lookup_insert_ne.
Qed.

Lemma schedule_keeps q : keeps (wait_side q) (schedule (H := H)).
Proof.
  unfold schedule, sched_assert_can_switch, spinlock_held_count, sched_reap_dead_threads, thread_fuel, reap_loop, release_loop, release_thread,
    next_runnable_thread, find_ready_loop, thread_is_zombie, thread_is_dead, thread_is_ready, thread_is_running, thread_set_dead, thread_set_ready, thread_set_running,
    thread_set_state, thread_validate_state_transition, thread_is, set_thread, thread_at, on_heap, on_machine.
  repeat first [ apply scheduler_lock_keeps | apply scheduler_unlock_keeps | keep_step ].
Qed.

(** ** Threads come and go, the wait queues stay *)

Lemma waits_threads k k' Q :
  waits k Q -> queues k' = queues k -> threads k' !! 0 = None ->
  (forall t y, threads k' !! t = Some y ->
     (exists x, threads k !! t = Some x /\ wait_queue y = wait_queue x /\ wait_next y = wait_next x) \/
     (threads k !! t = None /\ wait_queue y = 0 /\ wait_next y = 0)) ->
  (forall t x, threads k !! t = Some x -> is_Some (threads k' !! t) \/ wait_queue x = 0) ->
  waits k' Q.
Proof.
  intros W Eq Hz Hto Hfrom. assert (Hsame : forall t x, threads k !! t = Some x -> wait_queue x <> 0 ->
    exists y, threads k' !! t = Some y /\ wait_queue y = wait_queue x /\ wait_next y = wait_next x).
  { intros t x Hx Hn. destruct (Hfrom t x Hx) as [[y Hy]|]; [|done]. exists y. split; [done|].
    destruct (Hto t y Hy) as [(x' & Hx' & Hw)|(Hx' & _)]; congruence. }
  split.
  - intros q l Hl. destruct (wt_queue _ _ W q l Hl) as (Hq & w & Hw & [Hs Ht]). split; [done|]. exists w.
    split; [by rewrite Eq|]. split; [|done]. eapply lseg_ext; [|exact Hs]. intros t Hin.
    apply (wt_member _ _ W q l t Hl) in Hin as (x & Hx & Hwq). destruct (Hsame t x Hx) as (y & Hy & _ & Hn); [by rewrite Hwq|].
    unfold wnext. by rewrite Hx, Hy; simpl; rewrite Hn.
  - intros q l t Hl. rewrite (wt_member _ _ W q l t Hl). pose proof (proj1 (wt_queue _ _ W q l Hl)) as Hq. split.
    + intros (x & Hx & <-). destruct (Hsame t x Hx Hq) as (y & Hy & Hw & _). by exists y.
    + intros (y & Hy & <-). destruct (Hto t y Hy) as [(x & Hx & Hw & _)|(_ & Hw & _)]; [by exists x|done].
  - intros t y Hy. destruct (Hto t y Hy) as [(x & Hx & -> & ->)|(_ & Hw)]; [by apply (wt_thread _ _ W t)|by left].
  - done.
Qed.

(** ** A yield *)

Lemma idle_picked live rq k order :
  sched_inv live rq k -> search_order (survivors k rq) (current_thread k) order -> idle_thread k <> 0 ->
  is_in THREAD_READY k (idle_thread k) = true -> pick k order <> 0.
Proof.
  intros I Ho Hi Hr. unfold pick. rewrite Hr. destruct (List.find (eligible k) order) as [t|] eqn:Ef; [|done].
  apply List.find_some in Ef as [_ Ht]. intros ->. unfold eligible, is_in in Ht. by rewrite (si_null _ _ _ I) in Ht.
Qed.

(** The state of a thread after a yield that went on to [nxt]. *)
Definition yield_state k (nxt t : Z) (s : thread_state) : thread_state :=
  if decide (nxt = current_thread k) then s
  else if decide (t = nxt) then THREAD_RUNNING
  else if decide (t = current_thread k /\ s = THREAD_RUNNING) then THREAD_READY else s.

(** The threads after a yield, in the same terms whether there was a switch or not. *)
Record yielded rq k (nxt : Z) k' : Prop := {
  yd_current : current_thread k' = nxt;
  yd_idle : idle_thread k' = idle_thread k;
  yd_switch : can_switch k';
  yd_next : is_in THREAD_READY k nxt = true \/ (nxt = current_thread k /\ is_in THREAD_RUNNING k nxt = true);
  yd_from : forall t y, threads k' !! t = Some y -> exists x, threads k !! t = Some x /\
    wait_queue y = wait_queue x /\ wait_next y = wait_next x /\ state y = yield_state k nxt t (state x);
  yd_gone : forall t, t ∈ rq -> reapable k t = true -> threads k' !! t = None;
  yd_to : forall t x, threads k !! t = Some x -> reapable k t = false -> is_Some (threads k' !! t);
  yd_waits : queues k' = queues k /\ forall q, locks k' !! QueueLock q = locks k !! QueueLock q
}.

Lemma schedule_wait_side k r k' :
  schedule k = Ret r k' -> queues k' = queues k /\ forall q, locks k' !! QueueLock q = locks k !! QueueLock q.
Proof.
  intros E. split; [|intros q]; pose proof (schedule_keeps 0 k r k' E) as Ek; [by injection Ek|].
  pose proof (schedule_keeps q k r k' E) as Eq. by injection Eq.
Qed.

Lemma reaped_gone k rq m' t : reaped k rq m' -> t ∈ rq -> reapable k t = true -> m' !! t = None.
Proof.
  intros R Ht Hr. specialize (R t). rewrite Hr, andb_true_r, (bool_decide_eq_true_2 (t ∈ rq)) in R by done. by destruct (threads k !! t).
Qed.

Lemma stay_yielded k rq k1 :
  reaped k rq (threads k1) -> current_thread k1 = current_thread k -> idle_thread k1 = idle_thread k -> can_switch k1 ->
  is_in THREAD_READY k (current_thread k) = true \/ is_in THREAD_RUNNING k (current_thread k) = true ->
  (queues k1 = queues k /\ forall q, locks k1 !! QueueLock q = locks k !! QueueLock q) -> yielded rq k (current_thread k) k1.
Proof.
  intros R Hc Hi S Hr Hw. split; try done; [tauto|..].
  - intros t y Hy. destruct (reaped_thread _ _ _ _ _ R Hy) as (x & Hx & Hs). exists x. rewrite Hs. simpl.
    do 3 (split; [done|]). unfold yield_state. by rewrite decide_True.
  - intros t Ht Hn. by apply (reaped_gone k rq).
  - intros t x Hx Hn. specialize (R t). rewrite Hx, Hn, andb_false_r in R. destruct R as (y & Hy & _). by exists y.
Qed.

Lemma switch_yielded k rq k1 nxt k' :
  reaped k rq (threads k1) -> current_thread k1 = current_thread k -> idle_thread k' = idle_thread k -> can_switch k' ->
  switched k1 nxt k' -> is_in THREAD_READY k nxt = true -> nxt <> current_thread k ->
  (queues k' = queues k /\ forall q, locks k' !! QueueLock q = locks k !! QueueLock q) -> yielded rq k nxt k'.
Proof.
  intros R Hc Hi S W Hn Hne Hw. pose proof (sw_threads _ _ _ W) as Ht. rewrite Hc in Ht. split; try done; [apply W|by left|..].
  - intros t y Hy. rewrite Ht in Hy. apply fmap_Some in Hy as (x1 & Hx1 & ->).
    destruct (reaped_thread _ _ _ _ _ R Hx1) as (x & Hx & Hs). exists x.
    destruct (after_switch_stack (current_thread k) nxt (rsp (regs (mach k1)) - 56) t x1) as (_ & _ & -> & ->).
    rewrite after_switch_state, Hs. simpl. do 3 (split; [done|]). unfold yield_state. rewrite (decide_False (P := nxt = _)) by done.
    case_bool_decide; [by rewrite decide_True|].
    rewrite decide_False by done. rewrite <- bool_decide_and. by case_bool_decide; [rewrite decide_True|rewrite decide_False].
  - intros t Hin Hr. by rewrite Ht, (reaped_gone k rq).
  - intros t x Hx Hr. specialize (R t). rewrite Hx, Hr, andb_false_r in R. destruct R as (y & Hy & _).
    rewrite Ht, Hy. by eexists.
Qed.

Lemma yield_runs qs live rq Q k :
  consistent qs live rq Q k ->
  exists nxt k' live', sched_yield (mret tt) k = Ret tt k' /\ yielded rq k nxt k' /\
    sched_inv live' (survivors k rq) k' /\ ctx_inv live' (survivors k rq) k'.
Proof.
  intros [I C S W U Hd Ha [Hi Hir] Hwt]. destruct (order_exists live rq k I) as [order Ho].
  destruct (schedule_cases live rq k order I C S Ho) as (k1 & k' & live' & R & _ & Hc1 & Hi' & _ & _ & I' & C' & S' & Hk).
  assert (Hp : pick k order <> 0 -> is_in THREAD_READY k (pick k order) = true).
  { intros Hn. apply (pick_in k rq order); [apply I| |done]. intros t Ht.
    apply (search_order_elem _ _ _ _ Ho), elem_of_survivors in Ht. apply Ht. }
  destruct (_ || _) eqn:Eb.
  - destruct Hk as [E ->]. exists (current_thread k), k1, live'. split; [unfold sched_yield; by mrun E|]. split; [|done].
    apply (stay_yielded k rq); try done; [|by apply (schedule_wait_side _ _ _ E)].
    destruct (decide (current_thread k = idle_thread k)) as [Ei|Ei]; [right; by rewrite Ei|left].
    pose proof (idle_picked live rq k order I Ho Hi Hir) as Hn.
    apply orb_true_iff in Eb as [Eb|Eb]; apply bool_decide_eq_true_1 in Eb; [done|]. rewrite <- Eb. by apply Hp.
  - destruct Hk as [E Sw]. apply orb_false_iff in Eb as [Hn0%bool_decide_eq_false_1 Hnc%bool_decide_eq_false_1].
    exists (pick k order), k', live'. split; [unfold sched_yield; by mrun E|]. split; [|done].
    apply (switch_yielded k rq k1); try done; [by apply Hp|by apply (schedule_wait_side _ _ _ E)].
Qed.

Lemma is_in_state s s' k t : is_in s k t = true -> is_in s' k t = true -> s = s'.
Proof. unfold is_in. destruct (threads k !! t); [|done]. intros <-%bool_decide_eq_true_1 <-%bool_decide_eq_true_1. done. Qed.

Lemma is_in_found s k t x : threads k !! t = Some x -> is_in s k t = true -> state x = s.
Proof. unfold is_in. intros ->. apply bool_decide_eq_true_1. Qed.

Lemma is_in_intro s k t x : threads k !! t = Some x -> state x = s -> is_in s k t = true.
Proof. unfold is_in. intros -> ->. by apply bool_decide_eq_true_2. Qed.

Lemma thread_fine qs live rq Q k t x : consistent qs live rq Q k -> threads k !! t = Some x -> thread_ok k t x.
Proof. intros Cs Hx. apply (si_threads _ _ _ (cs_sched _ _ _ _ _ Cs)); [by apply (cs_all _ _ _ _ _ Cs t x)|done]. Qed.

(** A thread that is reaped was on no queue. *)
Lemma reapable_off qs live rq Q k t x :
  consistent qs live rq Q k -> threads k !! t = Some x -> reapable k t = true -> wait_queue x = 0.
Proof.
  intros Cs Hx Hr. apply andb_true_iff in Hr as [Hz _]. apply (is_in_found _ _ _ _ Hx) in Hz.
  by destruct (ok_zombie _ _ _ (thread_fine _ _ _ _ _ _ _ Cs Hx) Hz).
Qed.

Lemma yielded_waits qs live rq Q k nxt k' :
  consistent qs live rq Q k -> yielded rq k nxt k' -> threads k' !! 0 = None -> waits k' Q /\ unlocked k' Q.
Proof.
  intros Cs Y Hz. split.
  - apply (waits_threads k); [apply Cs|apply Y|done|..].
    + intros t y Hy. destruct (yd_from _ _ _ _ Y t y Hy) as (x & Hx & Hq & Hn & _). left. by exists x.
    + intros t x Hx. destruct (reapable k t) eqn:Er; [right; by eapply reapable_off|left; by apply (yd_to _ _ _ _ Y t x)].
  - destruct (cs_unlocked _ _ _ _ _ Cs) as [_ Hu]. destruct (yd_switch _ _ _ _ Y) as (_ & Hd & _). split; [lia|].
    intros q Hq. rewrite (proj2 (yd_waits _ _ _ _ Y)). by apply Hu.
Qed.

(** After a yield: the current thread runs, or it is the caller, who was woken before it
    yielded and whom nobody replaced. *)
Definition yield_result k k' : Prop :=
  is_in THREAD_RUNNING k' (current_thread k') = true \/
  (current_thread k' = current_thread k /\ is_in THREAD_READY k (current_thread k) = true /\
   is_in THREAD_READY k' (current_thread k') = true).

Lemma yield_ok qs live rq Q k :
  consistent qs live rq Q k -> exists k', sched_yield (mret tt) k = Ret tt k' /\ system_ok qs k' /\ yield_result k k'.
Proof.
  intros Cs. destruct (yield_runs qs live rq Q k Cs) as (nxt & k' & live' & E & Y & I' & C'). exists k'. split; [done|].
  assert (Hx : exists x, threads k !! nxt = Some x /\ (state x = THREAD_READY \/ (nxt = current_thread k /\ state x = THREAD_RUNNING))).
  { destruct (yd_next _ _ _ _ Y) as [Hs|[? Hs]]; apply is_in_lookup in Hs as (x & Hx & Hs); exists x; tauto. }
  destruct Hx as (x & Hx & Hsx).
  assert (Hy : exists y, threads k' !! nxt = Some y /\ state y = yield_state k nxt nxt (state x)).
  { destruct (yd_to _ _ _ _ Y nxt x Hx) as [y Hy].
    - unfold reapable. apply andb_false_iff. left. unfold is_in. rewrite Hx. apply bool_decide_eq_false_2. destruct Hsx as [->|[_ ->]]; done.
    - exists y. split; [done|]. destruct (yd_from _ _ _ _ Y nxt y Hy) as (x' & Hx' & _ & _ & Hs). congruence. }
  destruct Hy as (y & Hy & Hsy).
  destruct (yielded_waits qs live rq Q k nxt k' Cs Y (si_null _ _ _ I')) as [W' U'].
  pose proof (yd_current _ _ _ _ Y) as Ec. split.
  - exists live', (survivors k rq), Q. split; [|rewrite Ec; by exists y]. split; try done.
    + apply Y.
    + apply Cs.
    + intros t z Hz. destruct (yd_from _ _ _ _ Y t z Hz) as (z0 & Hz0 & _).
      pose proof (cs_all _ _ _ _ _ Cs t z0 Hz0) as Hin. apply elem_of_survivors. split; [|done].
      destruct (reapable k t) eqn:Er; [|done]. by rewrite (yd_gone _ _ _ _ Y t Hin Er) in Hz.
    + rewrite (yd_idle _ _ _ _ Y), Ec. destruct (cs_idle _ _ _ _ _ Cs) as [Hi Hir]. split; [done|].
      destruct (is_in_lookup _ _ _ Hir) as (z & Hz & Hs).
      destruct (yd_to _ _ _ _ Y _ z Hz (reapable_idle _ _ _ (cs_sched _ _ _ _ _ Cs))) as [z' Hz']. apply (is_in_intro _ _ _ z' Hz').
      destruct (yd_from _ _ _ _ Y _ z' Hz') as (z0 & Hz0 & _ & _ & ->). assert (z0 = z) as -> by congruence.
      unfold yield_state. rewrite Hs. destruct (decide (nxt = current_thread k)) as [->|Hn]; [done|].
      destruct (decide (nxt = idle_thread k)) as [<-|Hni]; [by rewrite decide_True|].
      rewrite decide_False by done. destruct (decide (current_thread k = idle_thread k)) as [Hc|Hc].
      * by rewrite decide_True.
      * by rewrite decide_False by (intros [? _]; congruence).
    + intros t z Hz Hs. destruct (yd_from _ _ _ _ Y t z Hz) as (z0 & Hz0 & -> & _ & Hs0). rewrite Hs in Hs0.
      apply (cs_waiting _ _ _ _ _ Cs t z0 Hz0). unfold yield_state in Hs0. repeat case_decide; congruence.
  - unfold yield_result. rewrite Ec. unfold yield_state in Hsy. destruct (decide (nxt = current_thread k)) as [En|En].
    + destruct Hsx as [Hsx|[_ Hsx]]; [|left; apply (is_in_intro _ _ _ y Hy); congruence]. right. split; [done|].
      rewrite <- En. split; [by apply (is_in_intro _ _ _ x)|apply (is_in_intro _ _ _ y Hy); congruence].
    + rewrite decide_True in Hsy by done. left. by apply (is_in_intro _ _ _ y Hy).
Qed.

(** ** Changes to the threads between switches *)

(** How a thread may change: it stays where it is, and its state fits its queue. *)
Record fits k (t : Z) (x y : thread) : Prop := {
  ft_place : same_place x y;
  ft_state : state y = state x \/ (state y = THREAD_READY /\ blocked x) \/
    (t = current_thread k /\ t <> idle_thread k /\ (state y = THREAD_SLEEPING \/ state y = THREAD_WAITING \/ state y = THREAD_ZOMBIE));
  ft_waiting : state y = THREAD_WAITING -> wait_queue y <> 0;
  ft_zombie : state y = THREAD_ZOMBIE -> wait_queue y = 0
}.

Lemma fits_ok k k' t x y :
  thread_ok k t x -> fits k t x y -> (wait_queue y = 0 -> wait_next y = 0) ->
  current_thread k' = current_thread k -> idle_thread k' = idle_thread k -> thread_ok k' t y.
Proof.
  intros [Oa Or Oz Os] [(_ & Hb & Hz & _) Fs Fw Fz] Hn Hc Hi. split.
  - destruct Fs as [->|[[-> _]|(_ & _ & [->|[->| ->]])]]; done.
  - intros Hs. rewrite Hs in Fs. rewrite Hc. destruct Fs as [?|[[? _]|(_ & _ & [?|[?|?]])]]; [by apply Or|done..].
  - intros Hs. rewrite Hs in Fs. pose proof (Fz Hs) as Hq.
    split; [done|]. split; [by apply Hn|]. rewrite Hi. destruct Fs as [E|[[? _]|(_ & ? & _)]]; [by apply Oz|done|done].
  - by rewrite Hb, Hz.
Qed.

Lemma consistent_update qs live rq Q Q' k k' :
  consistent qs live rq Q k -> k' = k <| threads := threads k' |> <| queues := queues k' |> ->
  (forall t, match threads k !! t with
             | Some x => exists y, threads k' !! t = Some y /\ fits k t x y
             | None => threads k' !! t = None end) ->
  waits k' Q' -> dom Q' = dom Q ->
  consistent qs live rq Q' k'.
Proof.
  intros Cs Ek Ht W' Hd. pose proof Cs as [I C S W U Hq Ha [Hi Hir] Hw].
  assert (Hn : forall t y, threads k' !! t = Some y -> wait_queue y = 0 -> wait_next y = 0).
  { intros t y Hy Hz. destruct (wt_thread _ _ W' t y Hy) as [[_ ?]|[l Hl]]; [done|]. rewrite Hz in Hl. by destruct (wt_queue _ _ W' 0 l Hl). }
  assert (Hfrom : forall t y, threads k' !! t = Some y -> exists x, threads k !! t = Some x /\ fits k t x y).
  { intros t y Hy. specialize (Ht t). destruct (threads k !! t) as [x|]; [|congruence]. destruct Ht as (y' & Hy' & F).
    rewrite Hy in Hy'. injection Hy' as <-. by exists x. }
  destruct (threads_inv live rq k k' I C) as [I' C'].
  { intros t. specialize (Ht t). destruct (threads k !! t) as [x|] eqn:Ex; [|by rewrite Ht]. destruct Ht as (y & Hy & F). rewrite Hy.
    split; [apply F|]. intros Hin. apply (fits_ok k k' t x); [by apply (si_threads _ _ _ I)|done|by apply (Hn t)|by rewrite Ek|by rewrite Ek]. }
  all: try (rewrite Ek; done).
  split; try done.
  - by rewrite Ek.
  - rewrite Ek. split; [apply U|]. intros q Hs. apply U. apply elem_of_dom. rewrite <- Hd. by apply elem_of_dom.
  - by rewrite Hd.
  - intros t y Hy. destruct (Hfrom t y Hy) as (x & Hx & _). by apply (Ha t x).
  - assert (Ei : idle_thread k' = idle_thread k) by by rewrite Ek. assert (Ec : current_thread k' = current_thread k) by by rewrite Ek.
    rewrite Ei, Ec. split; [done|]. destruct (is_in_lookup _ _ _ Hir) as (x & Hx & Hs). specialize (Ht (idle_thread k)).
    rewrite Hx in Ht. destruct Ht as (y & Hy & F). apply (is_in_intro _ _ _ y Hy). rewrite <- Hs.
    destruct (ft_state _ _ _ _ F) as [?|[[_ Hb]|(_ & ? & _)]]; [done| |done].
    destruct Hb as [Hb|Hb]; rewrite Hb in Hs; by destruct (decide (current_thread k = idle_thread k)).
  - intros t y Hy. destruct (Hfrom t y Hy) as (x & _ & F). apply F.
Qed.

Lemma fits_refl qs live rq Q k t x : consistent qs live rq Q k -> threads k !! t = Some x -> fits k t x x.
Proof.
  intros Cs Hx. split; [done|by left|by apply (cs_waiting _ _ _ _ _ Cs t)|].
  intros Hz. by destruct (ok_zombie _ _ _ (thread_fine _ _ _ _ _ _ _ Cs Hx) Hz).
Qed.

Lemma off_all qs live rq Q k t x :
  consistent qs live rq Q k -> threads k !! t = Some x -> wait_queue x = 0 -> wait_next x = 0.
Proof.
  intros Cs Hx Hq. destruct (wt_thread _ _ (cs_waits _ _ _ _ _ Cs) _ x Hx) as [[_ ?]|[l Hl]]; [done|].
  rewrite Hq in Hl. by destruct (wt_queue _ _ (cs_waits _ _ _ _ _ Cs) 0 l Hl).
Qed.

Lemma thread_nonzero qs live rq Q k t x : consistent qs live rq Q k -> threads k !! t = Some x -> t <> 0.
Proof. intros Cs Hx ->. by rewrite (si_null _ _ _ (cs_sched _ _ _ _ _ Cs)) in Hx. Qed.

(** The current thread marks itself, and is on no queue. *)
Lemma retire_ok qs live rq Q k x y :
  consistent qs live rq Q k -> threads k !! current_thread k = Some x -> current_thread k <> idle_thread k ->
  same_place x y -> wait_queue x = 0 -> wait_queue y = 0 -> wait_next y = wait_next x ->
  state y = THREAD_SLEEPING \/ state y = THREAD_ZOMBIE ->
  system_ok qs (k <| threads ::= <[current_thread k := y]> |>).
Proof.
  intros Cs Hx Hi Hp Hq Hq' Hn Hs. exists live, rq, Q. split; [|simpl; rewrite lookup_insert_eq; by eexists].
  apply (consistent_update qs live rq Q Q k); [done|done| |by apply (waits_set_thread k Q _ x); [apply Cs|..]; congruence|done].
  intros t. simpl. destruct (decide (t = current_thread k)) as [->|Hne].
  - rewrite Hx. exists y. split; [apply lookup_insert_eq|]. split; [done|tauto| |done]. destruct Hs as [-> | ->]; done.
  - rewrite lookup_insert_ne by done. destruct (threads k !! t) as [z|] eqn:Ez; [|done]. exists z. split; [done|by eapply fits_refl].
Qed.

(** ** Each action *)

Lemma set_sleeping_run k t x w :
  t <> 0 -> threads k !! t = Some x -> state x = THREAD_RUNNING ->
  thread_set_sleeping t w k = Ret tt (k <| threads ::= <[t := x <| wake_tick := w |> <| state := THREAD_SLEEPING |>]> |>).
Proof.
  intros Ht Hx Hs. unfold thread_set_sleeping, thread_validate_state_transition. rewrite (bool_decide_eq_false_2 (t = 0)) by done.
  rewrite bind_assoc. mrun (thread_at_run _ _ _ Hx). rewrite Hs.
  change (negb (thread_state_transition_is_valid THREAD_RUNNING THREAD_SLEEPING)) with false. cbv iota. mred.
  erewrite bind_run by exact (set_thread_run _ _ _ _ Hx). erewrite set_thread_run by (simpl; apply lookup_insert_eq). simpl. by rewrite insert_insert_eq.
Qed.

Lemma mark_sleep_ok qs k n :
  system_ok qs k -> may_leave k -> exists k', mark_sleep n k = Ret tt k' /\ system_ok qs k'.
Proof.
  intros (live & rq & Q & Cs & _) (x & Hx & Hs & Hq & Hi). unfold mark_sleep, timer_ticks. mred.
  mrun (can_switch_run k (cs_switch _ _ _ _ _ Cs)). mred.
  rewrite (set_sleeping_run k _ x) by (done || by eapply thread_nonzero). eexists. split; [reflexivity|].
  eapply retire_ok; try done. by left.
Qed.

Lemma exit_ok qs k :
  system_ok qs k -> may_leave k -> exists k', sched_thread_exit_mark k = Ret tt k' /\ system_ok qs k'.
Proof.
  intros (live & rq & Q & Cs & _) (x & Hx & Hs & Hq & Hi). pose proof (off_all _ _ _ _ _ _ _ Cs Hx Hq) as Hn.
  destruct (exit_mark_run live rq k x) as (k1 & E & _ & _ & Ek); try done; [apply Cs|apply Cs|]. exists k1. split; [done|]. rewrite Ek.
  eapply retire_ok; try done. by right.
Qed.

Lemma queue_found qs live rq Q k q : consistent qs live rq Q k -> q ∈ qs -> exists l, Q !! q = Some l.
Proof. intros Cs Hq. rewrite <- (cs_queues _ _ _ _ _ Cs) in Hq. by apply elem_of_dom in Hq as [l Hl]; exists l. Qed.

Lemma dom_insert_same Q q l l' : Q !! q = Some l -> dom (<[q := l']> Q) = dom Q.
Proof. intros Hl. rewrite dom_insert_L. assert (q ∈ dom Q) by (apply elem_of_dom; by eexists). set_solver. Qed.

(** The current thread is on the queue now, in state [s]. *)
Definition queued_as k Q (q : Z) (l : list Z) (s : thread_state) k1 : Prop :=
  waits k1 (<[q := l ++ [current_thread k]]> Q) /\
  (exists x y, threads k !! current_thread k = Some x /\ threads k1 !! current_thread k = Some y /\
    state y = s /\ wait_queue y = q /\ same_place x y) /\
  (forall u, u <> current_thread k -> match threads k !! u with
    | Some z => exists z', threads k1 !! u = Some z' /\ same_but_wait z z'
    | None => threads k1 !! u = None end) /\
  k1 = k <| threads := threads k1 |> <| queues := queues k1 |>.

Lemma go_to_sleep_run k Q q l x :
  waits k Q -> unlocked k Q -> Q !! q = Some l -> threads k !! current_thread k = Some x ->
  wait_queue x = 0 -> state x = THREAD_RUNNING ->
  exists k1, go_to_sleep q k = Ret tt k1 /\ queued_as k Q q l THREAD_WAITING k1.
Proof.
  intros W [Ud Ul] Hq Hx Hwq Hs. assert (Hl := Ul q ltac:(by eexists)).
  assert (We : waits (enter (QueueLock q) k) Q) by by apply (waits_same k).
  destruct (enqueue_waiting_run (enter (QueueLock q) k) Q q l _ x We Hq Hx Hwq Hs) as (k2 & E & W2 & Hx2 & Ho & Ek).
  exists (k <| threads := threads k2 |> <| queues := queues k2 |>). split.
  - unfold go_to_sleep, lock. mrun (spin_lock_run k (QueueLock q) Hl). mred. rewrite <- bind_assoc. mrun E. apply (unlock_run k q k2 Hl Ud Ek).
  - split; [by apply (waits_same k2)|]. split; [|by split]. eexists x, _. split; [exact Hx|]. split; [exact Hx2|]. by split_and!.
Qed.

Lemma go_to_sleep_until_run k Q q l x d :
  waits k Q -> unlocked k Q -> Q !! q = Some l -> threads k !! current_thread k = Some x ->
  wait_queue x = 0 -> state x = THREAD_RUNNING ->
  exists k1, go_to_sleep_until q d k = Ret tt k1 /\ queued_as k Q q l THREAD_SLEEPING k1.
Proof.
  intros W [Ud Ul] Hq Hx Hwq Hs. assert (Hl := Ul q ltac:(by eexists)).
  assert (We : waits (enter (QueueLock q) k) Q) by by apply (waits_same k).
  destruct (sleeping_enqueue_run (enter (QueueLock q) k) Q q l _ x d We Hq Hx Hwq Hs) as (k2 & E & W2 & Hx2 & Ho & Ek).
  exists (k <| threads := threads k2 |> <| queues := queues k2 |>). split.
  - unfold go_to_sleep_until, lock. mrun (spin_lock_run k (QueueLock q) Hl). mred. rewrite <- bind_assoc. mrun E. apply (unlock_run k q k2 Hl Ud Ek).
  - split; [by apply (waits_same k2)|]. split; [|by split]. eexists x, _. split; [exact Hx|]. split; [exact Hx2|]. by split_and!.
Qed.

(** A thread that is on the same queues in both states has the same [wait_queue]. *)
Lemma same_queue k k' Q q l l' t x y :
  waits k Q -> Q !! q = Some l -> waits k' (<[q := l']> Q) -> threads k !! t = Some x -> threads k' !! t = Some y ->
  (t ∈ l <-> t ∈ l') -> wait_queue y = wait_queue x.
Proof.
  intros W Hl W' Hx Hy Ht.
  assert (Hmem : forall p, is_Some (Q !! p) -> wait_queue x = p <-> wait_queue y = p).
  { intros p [m Hm]. transitivity (t ∈ m); [rewrite (wt_member _ _ W p m t Hm), Hx; naive_solver|].
    destruct (decide (p = q)) as [->|Hne].
    - rewrite Hl in Hm. injection Hm as ->. rewrite Ht, (wt_member _ _ W' q l' t), Hy by apply lookup_insert_eq. naive_solver.
    - rewrite (wt_member _ _ W' p m t), Hy by (by rewrite lookup_insert_ne). naive_solver. }
  destruct (wt_thread _ _ W t x Hx) as [[E _]|Hs]; [|by apply (Hmem _ Hs)].
  destruct (wt_thread _ _ W' t y Hy) as [[E' _]|Hs]; [congruence|]. symmetry. apply Hmem; [|done].
  destruct (decide (wait_queue y = q)) as [->|Hne]; [by eexists|]. by rewrite lookup_insert_ne in Hs.
Qed.

Lemma queued_ok qs live rq Q k q l s k1 :
  consistent qs live rq Q k -> Q !! q = Some l -> current_thread k <> idle_thread k ->
  (exists x, threads k !! current_thread k = Some x /\ wait_queue x = 0) ->
  s = THREAD_WAITING \/ s = THREAD_SLEEPING -> queued_as k Q q l s k1 -> system_ok qs k1.
Proof.
  intros Cs Hl Hi (x0 & Hx0 & Hq0) Hs (W1 & (x & y & Hx & Hy & Hys & Hyq & Hp) & Ho & Ek).
  exists live, rq, (<[q := l ++ [current_thread k]]> Q).
  assert (Ec : current_thread k1 = current_thread k) by by rewrite Ek. split; [|rewrite Ec, Hy; by eexists].
  apply (consistent_update qs live rq Q _ k); [done|done| |done|by apply (dom_insert_same Q q l)].
  intros t. destruct (decide (t = current_thread k)) as [->|Hne].
  - rewrite Hx. exists y. split; [exact Hy|]. split; [done|rewrite Hys; naive_solver| |].
    + intros _. rewrite Hyq. by destruct (wt_queue _ _ (cs_waits _ _ _ _ _ Cs) q l Hl).
    + rewrite Hys. by destruct Hs as [->| ->].
  - specialize (Ho t Hne). destruct (threads k !! t) as [z|] eqn:Ez; [|done]. destruct Ho as (z' & Hz' & Hsb). exists z'. split; [done|].
    assert (Hwq : wait_queue z' = wait_queue z) by (apply (same_queue k k1 Q q l (l ++ [current_thread k]) t); try done; [apply Cs|set_solver]).
    destruct (fits_refl _ _ _ _ _ _ _ Cs Ez) as [_ _ Fw Fz]. rewrite Hsb. split; [done|by left| |]; simpl; by rewrite Hwq.
Qed.

Lemma block_ok qs k q :
  system_ok qs k -> q ∈ qs -> may_leave k -> exists k', go_to_sleep q k = Ret tt k' /\ system_ok qs k'.
Proof.
  intros (live & rq & Q & Cs & _) Hqs (x & Hx & Hs & Hq & Hi). destruct (queue_found _ _ _ _ _ _ Cs Hqs) as [l Hl].
  destruct (go_to_sleep_run k Q q l x) as (k1 & E & R); try done; [apply Cs|apply Cs|]. exists k1. split; [done|].
  apply (queued_ok qs live rq Q k q l THREAD_WAITING); try done; [by exists x|by left].
Qed.

Lemma block_until_ok qs k q d :
  system_ok qs k -> q ∈ qs -> may_leave k -> exists k', go_to_sleep_until q d k = Ret tt k' /\ system_ok qs k'.
Proof.
  intros (live & rq & Q & Cs & _) Hqs (x & Hx & Hs & Hq & Hi). destruct (queue_found _ _ _ _ _ _ Cs Hqs) as [l Hl].
  destruct (go_to_sleep_until_run k Q q l x d) as (k1 & E & R); try done; [apply Cs|apply Cs|]. exists k1. split; [done|].
  apply (queued_ok qs live rq Q k q l THREAD_SLEEPING); try done; [by exists x|by right].
Qed.

(** Whoever comes back takes itself off the queue if it is still on it. *)
Lemma resume_ok qs k q :
  system_ok qs k -> q ∈ qs -> is_in THREAD_RUNNING k (current_thread k) = true \/ is_in THREAD_READY k (current_thread k) = true ->
  exists k', come_back q k = Ret tt k' /\ system_ok qs k'.
Proof.
  intros (live & rq & Q & Cs & Hc) Hqs Hw. destruct (queue_found _ _ _ _ _ _ Cs Hqs) as [l Hl].
  destruct (come_back_run q k Q l _ (cs_waits _ _ _ _ _ Cs) (cs_unlocked _ _ _ _ _ Cs) Hl eq_refl Hc)
    as (k' & l' & E & W' & U' & Hn & Hsub & Hsup & Ho & Ek).
  exists k'. split; [done|]. exists live, rq, (<[q := l']> Q).
  assert (Ec : current_thread k' = current_thread k) by by rewrite Ek. split.
  - apply (consistent_update qs live rq Q _ k); [done|done| |done|by apply (dom_insert_same Q q l)].
    intros t. specialize (Ho t). destruct (threads k !! t) as [z|] eqn:Ez; [|done]. destruct Ho as (z' & Hz' & Hsb).
    exists z'. split; [done|]. destruct (fits_refl _ _ _ _ _ _ _ Cs Ez) as [_ _ Fw Fz].
    destruct (decide (t = current_thread k)) as [->|Hne].
    + assert (Hs : state z = THREAD_RUNNING \/ state z = THREAD_READY)
        by (destruct Hw as [Hw|Hw]; apply (is_in_found _ _ _ _ Ez) in Hw; tauto).
      rewrite Hsb. split; [done|by left| |]; simpl; destruct Hs as [->| ->]; done.
    + assert (Hwq : wait_queue z' = wait_queue z)
        by (apply (same_queue k k' Q q l l' t); try done; [apply Cs|set_solver]).
      rewrite Hsb. split; [done|by left| |]; simpl; by rewrite Hwq.
  - rewrite Ec. destruct Hc as [x Hx]. specialize (Ho (current_thread k)). rewrite Hx in Ho. destruct Ho as (y & Hy & _). by exists y.
Qed.

Lemma queued_blocked qs live rq Q k q l t x :
  consistent qs live rq Q k -> no_late k q -> Q !! q = Some l -> t ∈ l -> threads k !! t = Some x -> blocked x.
Proof.
  intros Cs Hl Hq Hin Hx. apply (Hl t x Hx).
  apply (wt_member _ _ (cs_waits _ _ _ _ _ Cs) q l t Hq) in Hin as (x' & Hx' & Hw). congruence.
Qed.

(** Threads taken off the queue and made READY. *)
Lemma wakeup_ok qs live rq Q k q l l' k' :
  consistent qs live rq Q k -> is_Some (threads k !! current_thread k) -> no_late k q -> Q !! q = Some l -> waits k' (<[q := l']> Q) ->
  (forall t, threads k' !! t = if bool_decide (t ∈ l /\ t ∉ l')
     then (fun x => x <| wait_next := 0 |> <| wait_queue := 0 |> <| state := THREAD_READY |> <| wake_tick := 0 |>) <$> threads k !! t
     else threads k !! t) ->
  k' = k <| threads := threads k' |> <| queues := queues k' |> -> system_ok qs k'.
Proof.
  intros Cs [c Hc] Hlate Hl W' Ht Ek. exists live, rq, (<[q := l']> Q).
  pose proof (fun t x => queued_blocked qs live rq Q k q l t x Cs Hlate Hl) as Hb.
  split.
  - apply (consistent_update qs live rq Q _ k); [done|done| |done|by apply (dom_insert_same Q q l)].
    intros t. rewrite Ht. destruct (threads k !! t) as [x|] eqn:Ex; [|by case_bool_decide]. case_bool_decide as Hd.
    + eexists. split; [reflexivity|]. split; [done| |done|done]. right. left. split; [done|]. exact (Hb t x (proj1 Hd) Ex).
    + exists x. split; [done|by eapply fits_refl].
  - assert (Ec : current_thread k' = current_thread k) by by rewrite Ek. rewrite Ec, Ht, Hc. case_bool_decide; by eexists.
Qed.

Lemma wake_one_ok qs k q :
  system_ok qs k -> q ∈ qs -> no_late k q -> exists k', wait_queue_wake_one q k = Ret tt k' /\ system_ok qs k'.
Proof.
  intros (live & rq & Q & Cs & Hc) Hqs Hlate. destruct (queue_found _ _ _ _ _ _ Cs Hqs) as [l Hl].
  assert (Hnd : NoDup l) by (destruct (wt_queue _ _ (cs_waits _ _ _ _ _ Cs) q l Hl) as (_ & w & _ & Hw); by eapply queue_rep_NoDup).
  destruct (wake_one_wakes_oldest k Q q l) as (k' & E & W' & _ & Ht & Ek); [apply Cs|apply Cs|done| |].
  { intros t x Hh Hx. apply (queued_blocked _ _ _ _ _ q l t x Cs Hlate Hl); [|done]. destruct l; [done|]. injection Hh as ->. left. }
  exists k'. split; [done|]. apply (wakeup_ok qs live rq Q k q l (List.tl l) k'); try done. intros t. rewrite Ht.
  rewrite (bool_decide_ext (hd_error l = Some t) (t ∈ l /\ t ∉ List.tl l)); [done|]. destruct l as [|a l]; simpl; [set_solver|].
  apply NoDup_cons in Hnd as [Ha _]. split; [intros [= ->]; set_solver|set_solver].
Qed.

Lemma wake_all_ok qs k q :
  system_ok qs k -> q ∈ qs -> no_late k q -> exists k', wait_queue_wake_all q k = Ret tt k' /\ system_ok qs k'.
Proof.
  intros (live & rq & Q & Cs & Hc) Hqs Hlate. destruct (queue_found _ _ _ _ _ _ Cs Hqs) as [l Hl].
  destruct (wake_all_wakes_everyone k Q q l) as (k' & E & W' & _ & Ht & Ek); [apply Cs|apply Cs|done| |].
  { intros t x Hin Hx. by apply (queued_blocked _ _ _ _ _ q l t x Cs Hlate Hl). }
  exists k'. split; [done|]. apply (wakeup_ok qs live rq Q k q l [] k'); try done. intros t. rewrite Ht.
  rewrite (bool_decide_ext (t ∈ l) (t ∈ l /\ t ∉ [])); [done|]. set_solver.
Qed.

Lemma create_ok qs k nm ent a :
  system_ok qs k -> 25000 <= mem_room (kheap k) ->
  exists t k', kernel_thread_create nm ent a k = Ret t k' /\ system_ok qs k'.
Proof.
  intros (live & rq & Q & Cs & Hc) Hroom. destruct (decide (ent = 0)) as [->|He]; [by exists 0, k; split; [|exists live, rq, Q]|].
  pose proof Cs as [I C S W U Hd Ha [Hi Hir] Hw].
  destruct (kernel_thread_create_run live rq k nm ent a I C He Hroom) as (t & k' & E & Ec & _ & Ek & Hcase).
  exists t, k'. split; [done|]. assert (S' : can_switch k') by by rewrite Ek. assert (U' : unlocked k' Q) by by rewrite Ek.
  assert (Ei : idle_thread k' = idle_thread k) by by rewrite Ek. assert (Eq : queues k' = queues k) by by rewrite Ek.
  destruct Hcase as [(_ & I' & C' & Et & _)|(live' & base & Ht0 & Hin & _ & Hk & I' & C' & Hx & _ & _ & _ & _ & _ & Hno)].
  - exists live, rq, Q. rewrite Ec, Et. split; [|done].
    split; try done; [by apply (waits_same k)|by rewrite Et|rewrite Ec, Ei; unfold is_in; by rewrite Et|by rewrite Et].
  - assert (Hnew : threads k !! t = None) by (destruct (threads k !! t) as [x|] eqn:Ex; [by destruct Hin; apply (Ha t x)|done]).
    assert (Hfrom : forall u y, u <> t -> threads k' !! u = Some y -> exists x, threads k !! u = Some x /\ same_but_next x y).
    { intros u y Hu Hy. destruct (threads k !! u) as [x|] eqn:Ex; [|by rewrite (Hno u Hu Ex) in Hy].
      destruct (Hk u x Hu Ex) as (y' & Hy' & Hs). rewrite Hy in Hy'. injection Hy' as <-. by exists x. }
    assert (His : forall s u, is_in s k u = true -> is_in s k' u = true).
    { intros s u Hs. destruct (is_in_lookup _ _ _ Hs) as (x & Hxu & Hsx). destruct (Hk u x) as (y & Hy & Hsame); [congruence|done|].
      apply (is_in_intro _ _ _ y Hy). by rewrite Hsame. }
    exists live', (rq ++ [t]), Q. split.
    2: { rewrite Ec. destruct Hc as [c Hcx]. destruct (Hk (current_thread k) c) as (y & Hy & _); [congruence|done|by exists y]. }
    split; try done.
    + apply (waits_threads k); [done|done|apply I'|..].
      * intros u y Hy. destruct (decide (u = t)) as [->|Hu]; [rewrite Hx in Hy; injection Hy as <-; by right|].
        destruct (Hfrom u y Hu Hy) as (x & Hxu & Hs). left. exists x. by rewrite Hs.
      * intros u x Hxu. left. destruct (Hk u x) as (y & Hy & _); [congruence|done|by exists y].
    + intros u y Hy. destruct (decide (u = t)) as [->|Hu]; [set_solver|]. destruct (Hfrom u y Hu Hy) as (x & Hxu & _).
      apply elem_of_app. left. by apply (Ha u x).
    + rewrite Ec, Ei. split; [done|]. by apply His.
    + intros u y Hy. destruct (decide (u = t)) as [->|Hu]; [rewrite Hx in Hy; injection Hy as <-; done|].
      destruct (Hfrom u y Hu Hy) as (x & Hxu & ->). simpl. by apply (Hw u).
Qed.

(** The tick leaves the system as it is, but for the sleepers that wake. *)
Lemma tick_consistent qs live rq Q k k1 now :
  consistent qs live rq Q k -> sched_inv live rq k1 -> ctx_inv live rq k1 -> can_switch k1 ->
  current_thread k1 = current_thread k -> idle_thread k1 = idle_thread k -> queues k1 = queues k -> locks k1 = locks k ->
  (forall t, threads k1 !! t = if bool_decide (t ∈ rq) then wake now <$> threads k !! t else threads k !! t) ->
  consistent qs live rq Q k1.
Proof.
  intros [I C S W U Hd Ha [Hi Hir] Hw] I1 C1 S1 Ec Ei Eq El Ht.
  assert (Hto : forall t x, threads k !! t = Some x -> exists y, threads k1 !! t = Some y /\
    wait_queue y = wait_queue x /\ wait_next y = wait_next x /\ (state x <> THREAD_SLEEPING -> state y = state x) /\
    (state x = THREAD_SLEEPING -> state y <> THREAD_WAITING)).
  { intros t x Hx. rewrite Ht, bool_decide_eq_true_2, Hx by by apply (Ha t x). eexists. split; [reflexivity|].
    unfold wake. destruct (bool_decide (state x = THREAD_SLEEPING)) eqn:Eb; cbn [andb].
    - apply bool_decide_eq_true_1 in Eb. case_bool_decide; simpl; split_and!; congruence.
    - apply bool_decide_eq_false_1 in Eb. split_and!; congruence. }
  assert (Hfrom : forall t y, threads k1 !! t = Some y -> exists x, threads k !! t = Some x /\
    wait_queue y = wait_queue x /\ wait_next y = wait_next x /\ (state y = THREAD_WAITING -> state x = THREAD_WAITING)).
  { intros t y Hy. assert (Hx : is_Some (threads k !! t)) by (rewrite Ht in Hy; destruct (threads k !! t); [by eexists|by case_bool_decide]).
    destruct Hx as [x Hx]. exists x. destruct (Hto t x Hx) as (y' & Hy' & Hq & Hn & Hs1 & Hs2). assert (y' = y) as -> by congruence.
    do 3 (split; [done|]). intros Hs. destruct (decide (state x = THREAD_SLEEPING)) as [Es|Es]; [by apply Hs2 in Es|]. by rewrite <- Hs1. }
  split; try done.
  - apply (waits_threads k); [done|done|apply I1|..].
    + intros t y Hy. destruct (Hfrom t y Hy) as (x & Hx & Hq & Hn & _). left. by exists x.
    + intros t x Hx. left. destruct (Hto t x Hx) as (y & Hy & _). by exists y.
  - destruct S1 as (_ & Hsd & _). split; [lia|]. rewrite El. apply U.
  - intros t y Hy. destruct (Hfrom t y Hy) as (x & Hx & _). by apply (Ha t x).
  - rewrite Ec, Ei. split; [done|]. destruct (is_in_lookup _ _ _ Hir) as (x & Hx & Hs). destruct (Hto _ x Hx) as (y & Hy & _ & _ & Hsy & _).
    apply (is_in_intro _ _ _ y Hy). rewrite <- Hs. apply Hsy. rewrite Hs. by destruct (decide _).
  - intros t y Hy Hs. destruct (Hfrom t y Hy) as (x & Hx & -> & _ & Hsx). apply (Hw t x Hx). by apply Hsx.
Qed.

Lemma timer_ok eoi qs k :
  acknowledges eoi -> system_ok qs k -> exists k', timer_interrupt eoi (mret tt) k = Ret tt k' /\ system_ok qs k'.
Proof.
  intros Hack (live & rq & Q & Cs & [c Hc]). pose proof (thread_nonzero _ _ _ _ _ _ _ Cs Hc) as Hc0.
  destruct (timer_interrupt_cases live rq k eoi (mret tt) Hack (cs_sched _ _ _ _ _ Cs) (cs_ctx _ _ _ _ _ Cs) (cs_switch _ _ _ _ _ Cs) Hc0)
    as (k1 & b & E & _ & _ & I1 & C1 & S1 & Ec & Ei & _ & [Eq El] & Ht).
  pose proof (tick_consistent qs live rq Q k k1 _ Cs I1 C1 S1 Ec Ei Eq El Ht) as Cs1. rewrite E. destruct b.
  - destruct (yield_ok qs live rq Q k1 Cs1) as (k' & Ey & Ok & _). by exists k'.
  - exists k1. split; [done|]. exists live, rq, Q. split; [done|]. rewrite Ec, Ht, Hc. case_bool_decide; by eexists.
Qed.

(** ** The system *)

Lemma action_ok eoi qs k a :
  acknowledges eoi -> system_ok qs k -> enabled qs k a -> exists k', perform eoi a k = Ret tt k' /\ system_ok qs k'.
Proof.
  intros Hack Ok En. destruct a as [|n|q|q d|q|q|q| |nm ent b|]; simpl in *.
  - destruct Ok as (live & rq & Q & Cs & _). destruct (yield_ok qs live rq Q k Cs) as (k' & E & Ok & _). by exists k'.
  - by apply mark_sleep_ok.
  - destruct En. by apply block_ok.
  - destruct En. by apply block_until_ok.
  - destruct En. by apply resume_ok.
  - destruct En. by apply wake_one_ok.
  - destruct En. by apply wake_all_ok.
  - by apply exit_ok.
  - destruct (create_ok qs k nm ent b Ok En) as (t & k' & E & Ok'). exists k'. split; [by mrun E|done].
  - by apply timer_ok.
Qed.

(** ** The calls in terms of the actions *)

Lemma sleep_actions others ticks k :
  current_thread k <> 0 -> ticks <> 0 -> sched_sleep others ticks k = (mark_sleep ticks ;; sched_yield others) k.
Proof.
  intros Hc Ht. unfold sched_sleep, mark_sleep. mred. rewrite !bool_decide_eq_false_2 by done. cbn [orb].
  apply bind_ext. intros [] k1 _. mred. unfold timer_ticks. by mred.
Qed.

(** A wait whose condition is false is a [GoToSleep], a [Yield] and, when the thread is
    switched to again, a [Resume]. *)
Lemma wait_round_actions c others q k :
  locks k !! QueueLock q = Some 0 -> ~ holds c q k ->
  wait_round_irq (mret tt) others q (gets c) tt k = (go_to_sleep q ;; sched_yield others ;; come_back q ;; mret (inl tt)) k.
Proof.
  intros Hl Hc. assert (E : wait_prepare (mret tt) q (gets c) k = (go_to_sleep q ;; mret (inl tt)) k).
  { unfold wait_prepare, unlock_irq, go_to_sleep, lock. rewrite bind_assoc. mrun (spin_lock_run k (QueueLock q) Hl).
    mrun (spin_lock_run k (QueueLock q) Hl).
    mred. assert (Hc0 : c (enter (QueueLock q) k) = 0) by (unfold holds in Hc; lia).
    rewrite Hc0, (bool_decide_eq_true_2 (0 = 0)) by done. cbn [negb]. mred.
    rewrite ?bind_assoc. apply bind_ext. intros [] ? _. rewrite ?bind_assoc. apply bind_ext. intros [] ? _. rewrite ?bind_assoc. apply bind_ext. intros [] ? _. by rewrite irq_window_ret. }
  unfold wait_round_irq. rewrite (bind_eq _ _ _ _ _ E), bind_assoc. apply bind_ext. intros [] k1 _. mred.
  apply bind_ext. intros [] k2 _. unfold come_back, unlock_irq, lock. mred.
  apply bind_ext. intros f k3 _. mred. apply bind_ext. intros n k4 _. mred. apply bind_ext. intros [] k5 _. by rewrite irq_window_ret.
Qed.

Lemma timeout_round_actions c others q deadline k :
  locks k !! QueueLock q = Some 0 -> ~ holds c q k -> tick_count k < deadline ->
  timeout_round others q (gets c) deadline tt k = (go_to_sleep_until q deadline ;; sched_yield others ;; come_back q ;; mret (inl tt)) k.
Proof.
  intros Hl Hc Hd. unfold timeout_round, timer_ticks, go_to_sleep_until, come_back, lock. mred. mrun (spin_lock_run k (QueueLock q) Hl). mred.
  mrun (spin_lock_run k (QueueLock q) Hl). mred.
  assert (Hc0 : c (enter (QueueLock q) k) = 0) by (unfold holds in Hc; lia).
  rewrite Hc0, (bool_decide_eq_true_2 (0 = 0)), (bool_decide_eq_false_2 (deadline <= tick_count k)) by (done || lia). cbn [negb].
  apply bind_ext. intros [] k1 _. mred. apply bind_ext. intros [] k2 _. mred. apply bind_ext. intros [] k3 _.
  apply bind_ext. intros [] k4 _. mred. apply bind_ext. intros f k5 _. mred. apply bind_ext. intros n k6 _. by mred.
Qed.

(** What holds between actions: whatever may be done next returns, and a yield runs the
    thread it goes on with; only the current thread is RUNNING, the idle thread is READY
    or the one that runs, a thread that waits is on one of the queues, and every thread but
    the current one has its context saved on its own stack. *)
Record safe eoi qs k : Prop := {
  sf_returns : forall a, enabled qs k a -> exists k', perform eoi a k = Ret tt k';
  sf_yield : exists k', sched_yield (mret tt) k = Ret tt k' /\ yield_result k k';
  sf_running : forall t, is_in THREAD_RUNNING k t = true -> t = current_thread k;
  sf_idle : is_in (if decide (current_thread k = idle_thread k) then THREAD_RUNNING else THREAD_READY) k (idle_thread k) = true;
  sf_threads : forall t x, threads k !! t = Some x ->
    state x <> THREAD_DEAD /\ (state x = THREAD_WAITING -> wait_queue x ∈ qs) /\ (t <> current_thread k -> SchedYield.parked k x)
}.

Lemma system_safe eoi qs k : acknowledges eoi -> system_ok qs k -> safe eoi qs k.
Proof.
  intros Hack Ok. pose proof Ok as (live & rq & Q & Cs & _). split.
  - intros a En. destruct (action_ok eoi qs k a Hack Ok En) as (k' & E & _). by exists k'.
  - destruct (yield_ok qs live rq Q k Cs) as (k' & E & _ & Y). by exists k'.
  - intros t Ht. destruct (is_in_lookup _ _ _ Ht) as (x & Hx & Hs). by apply (ok_running _ _ _ (thread_fine _ _ _ _ _ _ _ Cs Hx)).
  - apply (cs_idle _ _ _ _ _ Cs).
  - intros t x Hx. split; [apply (thread_fine _ _ _ _ _ _ _ Cs Hx)|]. split.
    + intros Hs. rewrite <- (cs_queues _ _ _ _ _ Cs). apply elem_of_dom. pose proof (cs_waiting _ _ _ _ _ Cs t x Hx Hs) as Hn.
      by destruct (wt_thread _ _ (cs_waits _ _ _ _ _ Cs) t x Hx) as [[? _]|].
    + intros Ht. apply (cx_parked _ _ _ (cs_ctx _ _ _ _ _ Cs) t x); [by apply (cs_all _ _ _ _ _ Cs t x)|done|done].
Qed.

Lemma reachable_safe eoi qs k k' :
  acknowledges eoi -> system_ok qs k -> rtc (step eoi qs) k k' -> system_ok qs k' /\ safe eoi qs k'.
Proof.
  intros Hack Ok Hsteps. cut (system_ok qs k'); [intros Ok'; split; [done|by apply system_safe]|].
  induction Hsteps as [|k1 k2 k3 [a k2' En E] _ IH]; [done|]. apply IH.
  destruct (action_ok eoi qs k1 a Hack Ok En) as (k4 & E4 & Ok4). congruence.
Qed.

(** C3. The scheduler as a transition system.  Its actions are the parts of the calls
    between which interrupts may come in: a thread marks itself asleep, waiting on a queue
    (with a deadline or without), or exited; it yields; it comes back from a wait; a thread
    or a handler wakes queues; a thread creates threads; the timer interrupts and may switch
    to another thread, also between a mark and its yield.  [sched_yield] and
    [kernel_thread_create] are one action each.  The conditions on the actions are those of
    [enabled]: a thread marks itself only when it is RUNNING, on no queue and not the idle
    thread; a queue is woken only when every thread on it is still blocked, so not after a
    deadline has woken one; a thread comes back only RUNNING or READY; a new thread needs
    address space.  Then every state that can be reached satisfies [system_ok], and in it:
    each enabled action returns, so none panics; a yield goes on with a RUNNING thread, or
    with the caller if that was READY and nobody replaced it; only the current thread is
    RUNNING; the idle thread is READY or runs; no thread is DEAD, one that waits is on one of
    the queues, and every thread but the current one has its context saved on its own stack. *)
Theorem reachable_states_are_safe eoi qs k k' :
  acknowledges eoi -> system_ok qs k -> rtc (step eoi qs) k k' ->
  system_ok qs k' /\
  (forall a, enabled qs k' a -> exists k'', perform eoi a k' = Ret tt k'') /\
  (exists k'', sched_yield (mret tt) k' = Ret tt k'' /\ yield_result k' k'') /\
  (forall t, is_in THREAD_RUNNING k' t = true -> t = current_thread k') /\
  is_in (if decide (current_thread k' = idle_thread k') then THREAD_RUNNING else THREAD_READY) k' (idle_thread k') = true /\
  (forall t x, threads k' !! t = Some x -> state x <> THREAD_DEAD /\ (state x = THREAD_WAITING -> wait_queue x ∈ qs) /\
     (t <> current_thread k' -> SchedYield.parked k' x)).
Proof. intros Hack Ok Hs. destruct (reachable_safe eoi qs k k' Hack Ok Hs) as [Ok' []]. by split_and!. Qed.
End system.

(** ** Two workers and a queue *)

(** [worker_a] runs, [worker_b] is the idle thread. *)
Definition quiet : kernel arena := calm <| idle_thread := worker_b |>.

Lemma quiet_ok : system_ok {[ event_queue ]} quiet.
Proof.
  exists two_live, two_queue, none_waiting. split; [|done]. split.
  - destruct two_sched_inv. split; try done; [right; right; left|]. intros t x _ Hx.
    apply calm_lookup in Hx as [[-> ->]|[-> ->]]; by split.
  - by destruct two_ctx_inv; split.
  - done.
  - by apply (waits_same calm); [exact calm_waits|..].
  - exact calm_unlocked.
  - unfold none_waiting. apply dom_singleton_L.
  - intros t x Hx. apply calm_lookup in Hx as [[-> _]|[-> _]]; set_solver.
  - done.
  - intros t x Hx. by apply calm_lookup in Hx as [[_ ->]|[_ ->]].
Qed.

Definition events : gset Z := {[ event_queue ]}.

Lemma quiet_may_leave : may_leave quiet.
Proof. exists thread_a. by split_and!. Qed.

(** The worker puts itself on the queue, the timer interrupts it, then it yields. *)
Lemma reachable_states_are_safe_witness :
  exists k1 k2 k3, perform (mret tt) (GoToSleep event_queue) quiet = Ret tt k1 /\ perform (mret tt) (TimerInterrupt) k1 = Ret tt k2 /\
    perform (mret tt) Yield k2 = Ret tt k3 /\ (forall t, is_in THREAD_RUNNING k3 t = true -> t = current_thread k3).
Proof.
  assert (Ha : acknowledges (mret tt : M (kernel arena) unit)).
  { intros k live Hm. exists (kheap k). split; [by destruct k|done]. }
  assert (E0 : enabled events quiet (GoToSleep event_queue)) by (split; [unfold events; set_solver|exact quiet_may_leave]).
  destruct (reachable_states_are_safe (mret tt) events quiet quiet Ha quiet_ok) as (_ & R0 & _); [reflexivity|].
  destruct (R0 (GoToSleep event_queue) E0) as [k1 E1].
  assert (S1 : rtc (step (mret tt) events) quiet k1) by (by apply rtc_once, (step_action _ _ _ (GoToSleep event_queue))).
  destruct (reachable_states_are_safe (mret tt) events quiet k1 Ha quiet_ok S1) as (_ & R1 & _).
  destruct (R1 TimerInterrupt) as [k2 E2]; [exact Logic.I|].
  assert (S2 : rtc (step (mret tt) events) quiet k2) by (by eapply rtc_r; [exact S1|]; apply (step_action _ _ _ TimerInterrupt)).
  destruct (reachable_states_are_safe (mret tt) events quiet k2 Ha quiet_ok S2) as (_ & R2 & _).
  destruct (R2 Yield) as [k3 E3]; [exact Logic.I|].
  exists k1, k2, k3. split; [exact E1|]. split; [exact E2|]. split; [exact E3|].
  apply (reachable_states_are_safe (mret tt) events quiet k3 Ha quiet_ok).
  eapply rtc_r; [exact S2|]. by apply (step_action _ _ _ Yield).
Defined.

(** ** Between the unlock and the yield

    Interrupts are on when a waiter has released the queue's lock and not yet yielded.  A
    wakeup at that point makes the current thread READY; with nobody else to run its
    [sched_yield] returns at once and leaves it so, and its next sleep panics. *)
Lemma wakeup_before_yield_breaks_next_sleep :
  exists k', (go_to_sleep event_queue ;; wait_queue_wake_all event_queue ;; sched_yield (mret tt) ;; sched_sleep (mret tt) 5) quiet
    = Panicked "invalid thread state transition" k' /\
    current_thread k' = worker_a /\ is_in THREAD_READY k' worker_a = true.
Proof. eexists. split; [vm_compute; reflexivity|]. by vm_compute. Qed.

(** ** Inside [sched_yield]

    [sched_yield] runs with interrupts on.  Here the timer interrupts [worker_a] when it has
    chosen [worker_b] and not yet switched: the handler's own yield goes to [worker_b],
    which sleeps, and [worker_a] is switched to again and goes on with its choice, which is
    no longer READY. *)
Lemma stale_choice_panics :
  schedule = (sched_assert_can_switch ;; sched_reap_dead_threads ;;
              prv ← gets (current_thread (H := arena)); nxt ← next_runnable_thread; switch_tail prv nxt) /\
  exists k', (sched_assert_can_switch ;; sched_reap_dead_threads ;;
              prv ← gets current_thread; nxt ← next_runnable_thread;
              timer_interrupt (mret tt) (sched_sleep (mret tt) 5) ;;
              switch_tail prv nxt) calm = Panicked "invalid thread state transition" k' /\
    current_thread k' = worker_a /\ is_in THREAD_SLEEPING k' worker_b = true.
Proof. split; [reflexivity|]. eexists. split; [vm_compute; reflexivity|]. by vm_compute. Qed.
