(* ===== verification/SchedBoot.v ===== *)
(** * Starting the scheduler: sched_init, sched_start and kernel/selftest/sched.c

    [sched_init] sets up an empty run queue and tests it with two threads; [sched_start]
    creates the idle thread and the demonstration threads and leaves the boot context for
    good. *)

From S2P Require Import Prelude LinkedList PhysMem Switch KState Sched SchedCore SchedReap SchedYield SchedThread WaitQueue.

(** The addresses the linker and the stack frame of [sched_selftest] give. *)
Class SchedStatics := {
  thread_selftest_entry : Z;
  idle_thread_entry : Z;
  scheduler_demo_entry : Z;
  wait_queue_demo_waiter : Z;
  wait_queue_demo_waker : Z;
  condition_wait_demo_waiter : Z;
  condition_wait_demo_waker : Z;
  timeout_wait_demo_waiter : Z;
  return_exit_demo_thread : Z;
  explicit_exit_demo_thread : Z;
  test_wait_queue : Z;
  demo_wait_queue : Z;
  condition_wait_queue : Z;
  timeout_wait_queue : Z;
  sched_entries : Forall (fun a => a <> 0) [thread_selftest_entry; idle_thread_entry; scheduler_demo_entry;
    wait_queue_demo_waiter; wait_queue_demo_waker; condition_wait_demo_waiter; condition_wait_demo_waker;
    timeout_wait_demo_waiter; return_exit_demo_thread; explicit_exit_demo_thread; test_wait_queue]
}.

Section boot.
Context {H : Type} `{KAlloc H} `{SchedStatics}.
Abbreviation K := (M (kernel H)).

Definition assert_thread_transition (from to : thread_state) (expected : bool) : K unit :=
  require (bool_decide (thread_state_transition_is_valid from to = expected)) "thread state transition selftest failed".

Definition sched_state_machine_selftest : K unit :=
  assert_thread_transition THREAD_READY THREAD_RUNNING true ;;
  assert_thread_transition THREAD_RUNNING THREAD_READY true ;;
  assert_thread_transition THREAD_RUNNING THREAD_SLEEPING true ;;
  assert_thread_transition THREAD_RUNNING THREAD_WAITING true ;;
  assert_thread_transition THREAD_RUNNING THREAD_ZOMBIE true ;;
  assert_thread_transition THREAD_SLEEPING THREAD_READY true ;;
  assert_thread_transition THREAD_WAITING THREAD_READY true ;;
  assert_thread_transition THREAD_SLEEPING THREAD_ZOMBIE true ;;
  assert_thread_transition THREAD_WAITING THREAD_ZOMBIE true ;;
  assert_thread_transition THREAD_ZOMBIE THREAD_DEAD true ;;
  assert_thread_transition THREAD_READY THREAD_SLEEPING false ;;
  assert_thread_transition THREAD_READY THREAD_WAITING false ;;
  assert_thread_transition THREAD_SLEEPING THREAD_RUNNING false ;;
  assert_thread_transition THREAD_WAITING THREAD_RUNNING false ;;
  assert_thread_transition THREAD_READY THREAD_ZOMBIE false ;;
  assert_thread_transition THREAD_READY THREAD_DEAD false ;;
  assert_thread_transition THREAD_SLEEPING THREAD_DEAD false ;;
  assert_thread_transition THREAD_WAITING THREAD_DEAD false ;;
  assert_thread_transition THREAD_ZOMBIE THREAD_READY false ;;
  assert_thread_transition THREAD_ZOMBIE THREAD_RUNNING false ;;
  assert_thread_transition THREAD_DEAD THREAD_READY false ;;
  assert_thread_transition THREAD_DEAD THREAD_RUNNING false.

(** The lock on the stack of [sched_selftest]. *)
Definition test_lock : lock_ref := StaticLock "sched_selftest.test_lock".

Definition selftest_condition_false : K Z := mret 0.

(** The checks on the two new threads. *)
Definition selftest_threads (first second : Z) : K unit :=
  require (negb (bool_decide (first = 0) || bool_decide (second = 0) || bool_decide (first = second)))
    "kernel thread selftest allocation failed" ;;
  f ← thread_at first;
  s ← thread_at second;
  require (negb (bool_decide (id f = id s) || negb (bool_decide (state f = THREAD_READY))
                 || negb (bool_decide (state s = THREAD_READY)))) "kernel thread selftest state failed" ;;
  require (negb (negb (bool_decide (wait_queue f = 0)) || negb (bool_decide (wait_queue s = 0))))
    "kernel thread selftest wait queue ownership failed" ;;
  require (negb (negb (bool_decide (Z.land (stack_top f) (STACK_ALIGNMENT - 1) = 0))
                 || negb (bool_decide (Z.land (stack_top s) (STACK_ALIGNMENT - 1) = 0))))
    "kernel thread selftest stack alignment failed" ;;
  hd ← gets run_queue_head;
  tl ← gets run_queue_tail;
  require (negb (negb (bool_decide (hd = first)) || negb (bool_decide (next f = second)) || negb (bool_decide (tl = second))))
    "kernel thread selftest run queue failed".

(** The checks on the lock depth and on the interrupt depth. *)
Definition selftest_depths (others : K unit) : K unit :=
  n ← spinlock_held_count;
  require (bool_decide (n = 0)) "spinlock depth selftest initial state failed" ;;
  flags ← spin_lock_irqsave (Some test_lock) true;
  n ← spinlock_held_count;
  require (bool_decide (n = 1)) "spinlock depth selftest acquire failed" ;;
  spin_unlock_irqrestore (Some test_lock) flags ;;
  n ← spinlock_held_count;
  require (bool_decide (n = 0)) "spinlock depth selftest release failed" ;;
  d ← gets irq_depth;
  require (bool_decide (d = 0)) "irq depth selftest initial state failed" ;;
  sched_irq_enter ;;
  d ← gets irq_depth;
  require (bool_decide (d = 1)) "irq depth selftest enter failed" ;;
  sched_irq_exit others ;;
  d ← gets irq_depth;
  require (bool_decide (d = 0)) "irq depth selftest exit failed".

Definition sched_selftest (others : K unit) : K unit :=
  first ← kernel_thread_create (Some "worker-a"%string) thread_selftest_entry 0;
  second ← kernel_thread_create (Some "worker-b"%string) thread_selftest_entry 0;
  sched_state_machine_selftest ;;
  modify (fun k => k <| locks ::= <[test_lock := 0]> |>) ;;
  selftest_threads first second ;;
  selftest_depths others ;;
  wait_queue_init test_wait_queue ;;
  r ← wait_queue_wait 0 others 0 (Some selftest_condition_false);
  require (bool_decide (r = - EINVAL)) "wait queue selftest null queue errno failed" ;;
  r ← wait_queue_wait 0 others test_wait_queue None;
  require (bool_decide (r = - EINVAL)) "wait queue selftest null condition errno failed".

Definition sched_init (others : K unit) : K unit :=
  ready ← gets scheduler_ready;
  if ready : bool then mret tt
  else
    modify (fun k => k <| run_queue_head := 0 |>) ;;
    modify (fun k => k <| run_queue_tail := 0 |>) ;;
    modify (fun k => k <| idle_thread := 0 |>) ;;
    modify (fun k => k <| scheduler_ready := true |>) ;;
    sched_selftest others.

(** [put] stores the static variable [condition_ready]. *)
Definition sched_demo_threads (put_condition_ready : Z -> K unit) : K unit :=
  wait_queue_init demo_wait_queue ;;
  wait_queue_init condition_wait_queue ;;
  wait_queue_init timeout_wait_queue ;;
  put_condition_ready 0 ;;
  first ← kernel_thread_create (Some "round-robin-a"%string) scheduler_demo_entry 1;
  second ← kernel_thread_create (Some "round-robin-b"%string) scheduler_demo_entry 2;
  waiter ← kernel_thread_create (Some "waiter"%string) wait_queue_demo_waiter 0;
  waker ← kernel_thread_create (Some "waker"%string) wait_queue_demo_waker 0;
  condition_waiter ← kernel_thread_create (Some "condition-waiter"%string) condition_wait_demo_waiter 0;
  condition_waker ← kernel_thread_create (Some "condition-waker"%string) condition_wait_demo_waker 0;
  timeout_waiter ← kernel_thread_create (Some "timeout-waiter"%string) timeout_wait_demo_waiter 0;
  return_exit ← kernel_thread_create (Some "return-exit"%string) return_exit_demo_thread 0;
  explicit_exit ← kernel_thread_create (Some "explicit-exit"%string) explicit_exit_demo_thread 0;
  require (negb (bool_decide (first = 0) || bool_decide (second = 0) || bool_decide (waiter = 0) || bool_decide (waker = 0)
                 || bool_decide (condition_waiter = 0) || bool_decide (condition_waker = 0)
                 || bool_decide (timeout_waiter = 0) || bool_decide (return_exit = 0) || bool_decide (explicit_exit = 0)))
    "scheduler demo thread creation failed".

Definition sched_demo_start (put_condition_ready : Z -> K unit) (others : K unit) : K unit :=
  sched_demo_threads put_condition_ready ;;
  sched_yield others ;;
  panic "scheduler returned to boot context".

Definition sched_start (put_condition_ready : Z -> K unit) (others : K unit) : K unit :=
  r ← sched_idle_create idle_thread_entry;
  (if negb (bool_decide (r = 0)) then panic "idle thread creation failed" else mret tt) ;;
  sched_demo_start put_condition_ready others.
End boot.

Section theory.
Context {H : Type} `{KAllocSpec H} `{SchedStatics}.
Implicit Types (k : kernel H) (rq : list Z) (live : gmap Z Z).

(** The invariants do not look at the rest of the state. *)
Lemma sched_env live rq k k' :
  sched_inv live rq k -> ctx_inv live rq k ->
  kheap k' = kheap k -> mach k' = mach k -> threads k' = threads k -> run_queue_head k' = run_queue_head k ->
  run_queue_tail k' = run_queue_tail k -> current_thread k' = current_thread k -> idle_thread k' = idle_thread k ->
  locks k' !! SchedulerLock = Some 0 -> 0 <= spinlock_depth k' ->
  sched_inv live rq k' /\ ctx_inv live rq k'.
Proof.
  intros [] [] Eh Em Et Ehd Etl Ec Ei El Ed. split; split; rewrite ?Eh, ?Et, ?Ec, ?Ei; try done.
  - unfold run_queue, tnext in *. by rewrite Et, Ehd, Etl.
  - intros t x Hin Hx. destruct (si_threads t x Hin Hx) as [A B C D]. split; [done|by rewrite Ec|by rewrite Ei|done].
  - intros t x Hin Hne Hx. destruct (cx_parked t x Hin Hne Hx) as (c & Hc & Ho). exists c. by rewrite Em.
  - unfold cpu_stack_ok in *. by rewrite Et, Ec, Em.
Qed.

(** The threads are those of [rq], and none has run yet. *)
Definition fresh rq k : Prop :=
  forall t x, threads k !! t = Some x -> t ∈ rq /\ state x = THREAD_READY /\ wait_queue x = 0 /\ wait_next x = 0.

Lemma fresh_created rq k k' t tid base nm ent a :
  fresh rq k -> threads k' !! t = Some (new_thread tid base nm ent a) ->
  (forall y z, y <> t -> threads k !! y = Some z -> exists z', threads k' !! y = Some z' /\ same_but_next z z') ->
  (forall y, y <> t -> threads k !! y = None -> threads k' !! y = None) -> fresh (rq ++ [t]) k'.
Proof.
  intros Hf Hx Hk Hno u y Hy. destruct (decide (u = t)) as [->|Hu]; [rewrite Hx in Hy; injection Hy as <-; set_solver|].
  destruct (threads k !! u) as [z|] eqn:Ez; [|by rewrite (Hno u Hu Ez) in Hy]. destruct (Hk u z Hu Ez) as (z' & Hz' & Es).
  rewrite Hy in Hz'. injection Hz' as <-. destruct (Hf u z Ez) as (Hin & Hs). rewrite Es. set_solver.
Qed.

(** The state [mm_init] leaves: memory, but no thread. *)
Record before_sched live k : Prop := {
  bf_ready : scheduler_ready k = false;
  bf_threads : threads k = ∅;
  bf_current : current_thread k = 0;
  bf_lock : locks k !! SchedulerLock = Some 0;
  bf_switch : can_switch k;
  bf_mem : mem_ok live (kheap k);
  bf_room : 50000 <= mem_room (kheap k);
  bf_stack : cpu_stack_ok k
}.

Definition emptied k : kernel H :=
  k <| run_queue_head := 0 |> <| run_queue_tail := 0 |> <| idle_thread := 0 |> <| scheduler_ready := true |>.

Lemma emptied_inv live k : before_sched live k -> sched_inv live [] (emptied k) /\ ctx_inv live [] (emptied k).
Proof.
  intros [Hr Ht Hc Hl (Sl & Sd & Si) Hm _ Hs]. split; split; simpl; try done.
  - by rewrite Ht.
  - by left.
  - by left.
  - lia.
  - constructor.
  - by intros a ?%not_elem_of_nil.
  - by intros t x ?%not_elem_of_nil.
  - by intros t x ?%not_elem_of_nil.
  - by intros t x ?%not_elem_of_nil.
Qed.

Lemma state_machine_run k : sched_state_machine_selftest k = Ret tt k.
Proof. reflexivity. Qed.

(** The two threads after both were created, as the checks read them. *)
Record two_created k t1 t2 f s : Prop := {
  tc_first : threads k !! t1 = Some f;
  tc_second : threads k !! t2 = Some s;
  tc_distinct : t1 <> 0 /\ t2 <> 0 /\ t1 <> t2;
  tc_ids : id f <> id s;
  tc_ready : state f = THREAD_READY /\ state s = THREAD_READY;
  tc_waiting : wait_queue f = 0 /\ wait_queue s = 0;
  tc_tops : stack_top f mod 16 = 0 /\ stack_top s mod 16 = 0;
  tc_queue : run_queue k [t1; t2]
}.

Lemma selftest_threads_run k t1 t2 f s : two_created k t1 t2 f s -> selftest_threads t1 t2 k = Ret tt k.
Proof.
  intros [Hf Hs (H1' & H2' & H3') Hid [R1 R2] [W1 W2] [T1 T2] [Hl Hlast]]. unfold selftest_threads.
  assert (Hal : forall z, z mod 16 = 0 -> Z.land z (STACK_ALIGNMENT - 1) = 0).
  { intros z Hz. change (STACK_ALIGNMENT - 1) with (2 ^ 4 - 1). by rewrite land_ones_mod by lia. }
  destruct Hl as (Ehd & _ & n & Hn & En & _). unfold tnext in Hn. rewrite Hf in Hn. injection Hn as <-. simpl in Hlast.
  rewrite bind_require by (rewrite !bool_decide_eq_false_2 by done; done).
  mrun (thread_at_run k t1 f Hf). mrun (thread_at_run k t2 s Hs).
  rewrite bind_require by (rewrite (bool_decide_eq_false_2 (id f = id s)), !bool_decide_eq_true_2 by done; done).
  rewrite bind_require by (rewrite !bool_decide_eq_true_2 by done; done).
  rewrite bind_require by (rewrite !bool_decide_eq_true_2 by auto; done).
  rewrite !bind_gets. apply require_true. rewrite !bool_decide_eq_true_2 by done. done.
Qed.

Lemma selftest_depths_run k others :
  can_switch k -> locks k !! test_lock = Some 0 -> current_thread k = 0 -> selftest_depths others k = Ret tt k.
Proof.
  intros (Sl & Sd & Si) Hl Hc. unfold selftest_depths, spinlock_held_count.
  rewrite bind_gets, bind_require by (by apply bool_decide_eq_true_2).
  mrun (spin_lock_run k test_lock Hl). rewrite bind_gets.
  rewrite bind_require by (apply bool_decide_eq_true_2; simpl; lia).
  erewrite bind_run by (eapply (spin_unlock_run _ _ 1); [apply lookup_insert_eq|done|simpl; lia]).
  rewrite (leave_enter test_lock k (enter test_lock k)) by done.
  match goal with |- _ ?q = _ => assert (Eq : q = k) by (by destruct k); rewrite Eq; clear Eq end.
  rewrite bind_gets, bind_require by (by apply bool_decide_eq_true_2).
  rewrite bind_gets, bind_require by (by apply bool_decide_eq_true_2).
  unfold sched_irq_enter. rewrite bind_modify, bind_gets.
  rewrite bind_require by (apply bool_decide_eq_true_2; simpl; lia).
  assert (Eexit : sched_irq_exit others (k <| irq_depth ::= Z.add 1 |>) = Ret tt k).
  { unfold sched_irq_exit. rewrite bind_gets. rewrite bool_decide_eq_false_2 by (simpl; lia).
    rewrite bind_modify, bind_gets. rewrite bool_decide_eq_true_2 by (simpl; lia). cbn [negb]. rewrite !bind_gets. simpl.
    rewrite Hc, (bool_decide_eq_true_2 (0 = 0)), orb_true_r by done. cbn [orb]. rewrite mret_run. destruct k. simpl in *. by rewrite Hc, Si. }
  mrun Eexit. rewrite bind_gets. apply require_true. by apply bool_decide_eq_true_2.
Qed.

Lemma entry_nonzero : thread_selftest_entry <> 0 /\ test_wait_queue <> 0.
Proof.
  pose proof sched_entries as E. rewrite Forall_forall in E. split; apply E; [left|do 10 right; left].
Qed.

Lemma wait_null_queue n others c k : wait_queue_wait n others 0 (Some c) k = Ret (- EINVAL) k.
Proof. reflexivity. Qed.

Lemma wait_null_condition n others q k : wait_queue_wait n others q None k = Ret (- EINVAL) k.
Proof. reflexivity. Qed.

(** [sched_selftest] once both threads exist. *)
Lemma selftest_tail_run live k t1 t2 f s others :
  sched_inv live [t1; t2] k -> ctx_inv live [t1; t2] k -> can_switch k -> current_thread k = 0 ->
  two_created k t1 t2 f s ->
  exists k', (sched_state_machine_selftest ;;
      modify (fun k => k <| locks ::= <[test_lock := 0]> |>) ;;
      selftest_threads t1 t2 ;;
      selftest_depths others ;;
      wait_queue_init test_wait_queue ;;
      r ← wait_queue_wait 0 others 0 (Some selftest_condition_false);
      require (bool_decide (r = - EINVAL)) "wait queue selftest null queue errno failed" ;;
      r ← wait_queue_wait 0 others test_wait_queue None;
      require (bool_decide (r = - EINVAL)) "wait queue selftest null condition errno failed") k = Ret tt k' /\
    sched_inv live [t1; t2] k' /\ ctx_inv live [t1; t2] k' /\ can_switch k' /\
    k' = k <| locks := locks k' |> <| queues := queues k' |>.
Proof.
  intros I C S Hc T. mrun (state_machine_run k). rewrite bind_modify.
  set (k1 := k <| locks ::= <[test_lock := 0]> |>).
  assert (T1 : two_created k1 t1 t2 f s) by (destruct T; by split).
  mrun (selftest_threads_run k1 t1 t2 f s T1).
  assert (Hl1 : locks k1 !! test_lock = Some 0) by apply lookup_insert_eq.
  mrun (selftest_depths_run k1 others S Hl1 Hc). unfold wait_queue_init.
  rewrite (bool_decide_eq_false_2 (test_wait_queue = 0)) by apply entry_nonzero.
  rewrite bind_assoc, !bind_modify. erewrite bind_run by apply wait_null_queue. rewrite bind_require by done.
  erewrite bind_run by apply wait_null_condition. eexists. split; [apply require_true; done|].
  match goal with |- sched_inv _ _ ?q /\ _ => set (k2 := q) end.
  assert (Hl : locks k2 !! SchedulerLock = Some 0).
  { unfold k2. simpl. rewrite !lookup_insert_ne by done. apply I. }
  assert (Hd : 0 <= spinlock_depth k2) by apply I.
  destruct (sched_env live [t1; t2] k k2 I C) as [I2 C2]; done.
Qed.

Lemma created_can_switch k k' :
  can_switch k ->
  k' = k <| kheap := kheap k' |> <| mach := mach k' |> <| threads := threads k' |> <| run_queue_head := run_queue_head k' |>
         <| run_queue_tail := run_queue_tail k' |> <| next_thread_id := next_thread_id k' |> -> can_switch k'.
Proof. intros S E. unfold can_switch in *. by rewrite E. Qed.

Lemma selftest_panics k t1 t2 (rest : M (kernel H) unit) :
  t1 = 0 \/ t2 = 0 -> exists k',
  (sched_state_machine_selftest ;; modify (fun k => k <| locks ::= <[test_lock := 0]> |>) ;;
   selftest_threads t1 t2 ;; rest) k = Panicked "kernel thread selftest allocation failed" k'.
Proof.
  intros Hu. mrun (state_machine_run k). rewrite bind_modify. eexists. apply bind_panic.
  unfold selftest_threads. apply bind_panic. unfold require.
  assert (E0 : bool_decide (t1 = 0) || bool_decide (t2 = 0) = true).
  { destruct Hu as [->| ->]; [by rewrite bool_decide_eq_true_2|by rewrite (bool_decide_eq_true_2 (0 = 0)), orb_true_r]. }
  by rewrite E0.
Qed.

Lemma sched_init_run live k others :
  before_sched live k ->
  (exists k' live' t1 t2, sched_init others k = Ret tt k' /\
     sched_inv live' [t1; t2] k' /\ ctx_inv live' [t1; t2] k' /\ can_switch k' /\ current_thread k' = 0 /\
     is_in THREAD_READY k' t1 = true /\ is_in THREAD_READY k' t2 = true /\ idle_thread k' = 0 /\
     mem_room (kheap k) - 50000 <= mem_room (kheap k') /\
     sched_init others k' = Ret tt k' /\
     fresh [t1; t2] k' /\
     exists k1 k2, kernel_thread_create (Some "worker-a"%string) thread_selftest_entry 0 (emptied k) = Ret t1 k1 /\
       kernel_thread_create (Some "worker-b"%string) thread_selftest_entry 0 k1 = Ret t2 k2 /\
       k' = k2 <| locks := locks k' |> <| queues := queues k' |>) \/
  (alloc_fails (H := H) /\ exists k', sched_init others k = Panicked "kernel thread selftest allocation failed" k').
Proof.
  intros B. pose proof B as [Hr _ Hc _ S _ Hroom _]. destruct (emptied_inv live k B) as [I0 C0]. destruct entry_nonzero as [Hent _].
  assert (Estart : sched_init others k = sched_selftest others (emptied k)).
  { unfold sched_init. rewrite bind_gets, Hr. by rewrite !bind_modify. }
  rewrite Estart. unfold sched_selftest.
  destruct (kernel_thread_create_run live [] (emptied k) (Some "worker-a"%string) thread_selftest_entry 0 I0 C0 Hent)
    as (t1 & k1 & E1 & Ec1 & Hr1 & F1 & T1); [simpl; lia|]. mrun E1.
  destruct T1 as [(-> & I1 & C1 & Ht1 & Hfail)|(live1 & base1 & Ht1 & _ & _ & _ & I1 & C1 & Hx1 & _ & Hid1 & _ & _ & Hal1 & Hno1)].
  { right. split; [done|].
    destruct (kernel_thread_create_run live [] k1 (Some "worker-b"%string) thread_selftest_entry 0 I1 C1 Hent)
      as (t2 & k2 & E2 & _); [simpl in Hr1; lia|]. mrun E2. apply selftest_panics. by left. }
  destruct (kernel_thread_create_run live1 [t1] k1 (Some "worker-b"%string) thread_selftest_entry 0 I1 C1 Hent)
    as (t2 & k2 & E2 & Ec2 & Hr2 & F2 & T2); [simpl in Hr1; lia|]. mrun E2.
  destruct T2 as [(-> & _ & _ & _ & Hfail)|(live2 & base2 & Ht2 & Hin2 & _ & Hk2 & I2 & C2 & Hx2 & _ & Hid2 & _ & _ & Hal2 & Hno2)].
  { right. split; [done|]. apply selftest_panics. by right. }
  left. assert (Hne : t1 <> t2) by (intros ->; apply Hin2; left).
  destruct (Hk2 t1 _ Hne Hx1) as (f & Hf & Ef).
  assert (F_id : id f = next_thread_id k) by (by rewrite Ef).
  assert (F_st : state f = THREAD_READY) by (by rewrite Ef).
  assert (F_wq : wait_queue f = 0) by (by rewrite Ef).
  assert (F_top : stack_top f = base1 + KERNEL_STACK_SIZE) by (by rewrite Ef).
  assert (T : two_created k2 t1 t2 f (new_thread (next_thread_id k1) base2 (Some "worker-b"%string) thread_selftest_entry 0)).
  { split; [done|done|done| |by rewrite F_st|by rewrite F_wq|by rewrite F_top|apply I2].
    rewrite F_id. simpl. rewrite Hid1. unfold wrap64. simpl. div_lia. }
  assert (S2 : can_switch k2) by (apply (created_can_switch k1); [by apply (created_can_switch (emptied k))|done]).
  destruct (selftest_tail_run live2 k2 t1 t2 f _ others I2 C2 S2 ltac:(by rewrite Ec2, Ec1) T) as (k3 & E3 & I3 & C3 & S3 & F3).
  exists k3, live2, t1, t2. split_and!; try done.
  - rewrite F3. simpl. by rewrite Ec2, Ec1.
  - unfold is_in. rewrite F3. simpl. by rewrite Hf, F_st.
  - unfold is_in. rewrite F3. simpl. by rewrite Hx2.
  - rewrite F3. simpl. rewrite F2. simpl. by rewrite F1.
  - rewrite F3. simpl in *. lia.
  - unfold sched_init. rewrite bind_gets. assert (Er : scheduler_ready k3 = true) by (rewrite F3; simpl; rewrite F2; simpl; by rewrite F1).
    by rewrite Er.
  - assert (Fr1 : fresh [t1] k1).
    { apply (fresh_created [] (emptied k) k1 t1 _ _ _ _ _) with (2 := Hx1); [|intros y z _; simpl; by rewrite (bf_threads _ _ B)|done].
      intros y z. simpl. by rewrite (bf_threads _ _ B). }
    pose proof (fresh_created [t1] k1 k2 t2 _ _ _ _ _ Fr1 Hx2 Hk2 Hno2) as Fr2. by rewrite F3.
  - by exists k1, k2.
Qed.

(** C20. [sched_init] on a machine with memory and no thread: the run queue is set up, both
    selftest threads are created and every check of the selftest passes, so it returns, with
    exactly these two threads queued and READY and the scheduler's invariant established;
    a second call does nothing.  The one way it can fail is an allocator that refuses
    memory, and then it panics. *)
Theorem sched_init_passes live k others :
  before_sched live k ->
  (exists k' live' t1 t2, sched_init others k = Ret tt k' /\
     sched_inv live' [t1; t2] k' /\ ctx_inv live' [t1; t2] k' /\ can_switch k' /\ current_thread k' = 0 /\
     is_in THREAD_READY k' t1 = true /\ is_in THREAD_READY k' t2 = true /\ idle_thread k' = 0 /\
     mem_room (kheap k) - 50000 <= mem_room (kheap k') /\
     sched_init others k' = Ret tt k') \/
  (alloc_fails (H := H) /\ exists k', sched_init others k = Panicked "kernel thread selftest allocation failed" k').
Proof.
  intros B. destruct (sched_init_run live k others B) as [(k' & live' & t1 & t2 & R)|F]; [left|by right].
  exists k', live', t1, t2. by destruct R as (? & ? & ? & ? & ? & ? & ? & ? & ? & ? & _).
Qed.

(** ** Handing over to the threads *)

(** The boot context with the threads [rq] queued, none of which has run yet, and room for
    more. *)
Record booting live rq k (room : Z) : Prop := {
  bo_inv : sched_inv live rq k;
  bo_ctx : ctx_inv live rq k;
  bo_switch : can_switch k;
  bo_current : current_thread k = 0;
  bo_room : room <= mem_room (kheap k);
  bo_fresh : fresh rq k
}.

Lemma demo_create_step live rq k room nm ent a :
  booting live rq k (room + 25000) -> ent <> 0 -> 0 <= room ->
  exists t k' live' rq', kernel_thread_create nm ent a k = Ret t k' /\ booting live' rq' k' room /\
    idle_thread k' = idle_thread k /\ (t = 0 -> alloc_fails (H := H)) /\
    (t <> 0 -> rq' = rq ++ [t] /\ is_in THREAD_READY k' t = true /\ (t ∉ rq)) /\
    (forall s u, u ∈ rq -> is_in s k u = true -> is_in s k' u = true) /\ (rq' = rq \/ rq' = rq ++ [t]) /\
    queues k' = queues k /\ locks k' = locks k.
Proof.
  intros [I C S Hc Hroom Hfr] He Hr.
  destruct (kernel_thread_create_run live rq k nm ent a I C He) as (t & k' & E & Ec & Hr' & F & T); [lia|].
  assert (S' : can_switch k') by by apply (created_can_switch k).
  destruct T as [(-> & I' & C' & Ht & Hf)|(live' & base & Ht & Hin & _ & Hk & I' & C' & Hx & _ & _ & _ & _ & _ & Hno)].
  - exists 0, k', live, rq. split_and!; [done|split; try done; [by rewrite Ec|lia|unfold fresh; by rewrite Ht]|by rewrite F|done|done| |by left|by rewrite F|by rewrite F].
    intros s u _. unfold is_in. by rewrite Ht.
  - exists t, k', live', (rq ++ [t]). split_and!; [done|split; try done; [by rewrite Ec|lia|by eapply fresh_created]|by rewrite F|done| | |by right|by rewrite F|by rewrite F].
    + intros _. split_and!; [done| |done]. unfold is_in. by rewrite Hx.
    + intros s u Hu. unfold is_in. destruct (threads k !! u) as [z|] eqn:Ez; [|done].
      destruct (Hk u z) as (z' & -> & Es); [by intros ->|done|]. by rewrite Es.
Qed.

(** A row of thread creations. *)
Fixpoint creates (l : list (string * Z * Z)) : M (kernel H) (list Z) :=
  match l with
  | [] => mret []
  | (nm, ent, a) :: l => t ← kernel_thread_create (Some nm) ent a; ts ← creates l; mret (t :: ts)
  end.

Lemma creates_cons {B} nm ent a l (c : list Z -> M (kernel H) B) k :
  (ts ← creates ((nm, ent, a) :: l); c ts) k = (t ← kernel_thread_create (Some nm) ent a; ts ← creates l; c (t :: ts)) k.
Proof.
  cbn [creates]. rewrite bind_assoc. apply bind_ext. intros t k' _. rewrite bind_assoc. by apply bind_ext.
Qed.

Lemma creates_run l : forall live rq k room,
  booting live rq k (room + 25000 * Z.of_nat (length l)) -> Forall (fun c => c.1.2 <> 0) l -> 0 <= room ->
  exists ts k' live' rq', creates l k = Ret ts k' /\ booting live' rq' k' room /\ idle_thread k' = idle_thread k /\
    length ts = length l /\ (0 ∈ ts -> alloc_fails (H := H)) /\
    (0 ∉ ts -> rq' = rq ++ ts /\ NoDup ts /\ forall t, t ∈ ts -> is_in THREAD_READY k' t = true /\ (t ∉ rq)) /\
    (forall s u, u ∈ rq -> is_in s k u = true -> is_in s k' u = true) /\ queues k' = queues k /\ locks k' = locks k.
Proof.
  induction l as [|[[nm ent] a] l IH]; intros live rq k room B Hl Hr.
  - exists [], k, live, rq. rewrite app_nil_r. split_and!; try done; [|by intros ?%not_elem_of_nil|].
    + destruct B. split; try done. simpl in *. lia.
    + intros _. split_and!; [done|constructor|]. by intros t ?%not_elem_of_nil.
  - apply Forall_cons in Hl as [He Hl]. simpl in He.
    destruct (demo_create_step live rq k (room + 25000 * Z.of_nat (length l)) (Some nm) ent a) as (t & k1 & live1 & rq1 & E1 & B1 & Ei1 & F1 & T1 & K1 & Q1 & Eq1 & El1);
      [destruct B; split; try done; simpl in *; lia|done|lia|].
    destruct (IH live1 rq1 k1 room B1 Hl Hr) as (ts & k2 & live2 & rq2 & E2 & B2 & Ei2 & Hlen & F2 & T2 & K2 & Eq2 & El2).
    exists (t :: ts), k2, live2, rq2. split_and!; try done.
    + cbn [creates]. mrun E1. by mrun E2.
    + congruence.
    + simpl. by rewrite Hlen.
    + intros [<-|Hin]%elem_of_cons; auto.
    + intros [Ht Hts]%not_elem_of_cons. destruct (T1 ltac:(done)) as (-> & R1 & N1). destruct (T2 Hts) as (-> & Nd & R2).
      rewrite <- app_assoc. split_and!; [done| |].
      * apply NoDup_cons. split; [|done]. intros Hin. destruct (R2 t Hin) as [_ Hn]. set_solver.
      * intros u [->|Hin]%elem_of_cons; [split; [apply K2; [set_solver|done]|done]|]. destruct (R2 u Hin) as [Hu Hn]. set_solver.
    + intros s u Hu Hs. apply K2; [destruct Q1 as [->| ->]; set_solver|by apply K1].
    + congruence.
    + congruence.
Qed.

Definition demo_list : list (string * Z * Z) := [
  ("round-robin-a"%string, scheduler_demo_entry, 1); ("round-robin-b"%string, scheduler_demo_entry, 2);
  ("waiter"%string, wait_queue_demo_waiter, 0); ("waker"%string, wait_queue_demo_waker, 0);
  ("condition-waiter"%string, condition_wait_demo_waiter, 0); ("condition-waker"%string, condition_wait_demo_waker, 0);
  ("timeout-waiter"%string, timeout_wait_demo_waiter, 0); ("return-exit"%string, return_exit_demo_thread, 0);
  ("explicit-exit"%string, explicit_exit_demo_thread, 0)].

Lemma demo_entries : Forall (fun c : string * Z * Z => c.1.2 <> 0) demo_list.
Proof.
  pose proof sched_entries as E. rewrite Forall_forall in E. apply Forall_forall. intros c Hc.
  unfold demo_list in Hc. repeat (apply elem_of_cons in Hc as [->|Hc]; [apply E; set_solver|]). by apply not_elem_of_nil in Hc.
Qed.

Lemma demo_threads_list put k :
  sched_demo_threads put k =
  (wait_queue_init demo_wait_queue ;; wait_queue_init condition_wait_queue ;; wait_queue_init timeout_wait_queue ;;
   put 0 ;; ts ← creates demo_list;
   require (negb (existsb (fun t => bool_decide (t = 0)) ts)) "scheduler demo thread creation failed") k.
Proof.
  unfold sched_demo_threads, demo_list. do 4 (apply bind_ext; intros ? ? _).
  do 9 (rewrite creates_cons; apply bind_ext; intros ? ? _).
  cbn [creates]. rewrite bind_ret. cbn [existsb]. by rewrite orb_false_r, !orb_assoc.
Qed.

(** [put] stores a static variable. *)
Definition stores (put : Z -> M (kernel H) unit) : Prop :=
  forall z k, exists h, put z k = Ret tt (k <| kheap := h |>) /\ mem_room h = mem_room (kheap k) /\
    forall live, mem_ok live (kheap k) -> mem_ok live h.

(** A wait queue that is set up and empty. *)
Definition vacant k (q : Z) : Prop := queues k !! q = Some (WaitQueue 0 0) /\ locks k !! QueueLock q = Some 0.

Lemma queue_init_booting live rq k room q :
  booting live rq k room ->
  exists k', wait_queue_init q k = Ret tt k' /\ booting live rq k' room /\ idle_thread k' = idle_thread k /\
    (forall p, p <> 0 -> p = q \/ vacant k p -> vacant k' p).
Proof.
  intros [I C S Hc Hr]. unfold wait_queue_init. destruct (decide (q = 0)) as [->|Hq].
  - exists k. split; [done|]. split; [by split|]. split; [done|]. by intros p Hp [?|?].
  - rewrite bool_decide_eq_false_2 by done. eexists. split; [reflexivity|]. split.
    2:{ split; [done|]. intros p _ Hp. unfold vacant. simpl. destruct (decide (p = q)) as [->|Hn]; [by rewrite !lookup_insert_eq|].
        destruct Hp as [|Hp]; [done|]. by rewrite !lookup_insert_ne by congruence. }
    match goal with |- booting _ _ ?q _ => set (k' := q) end.
    assert (Hl : locks k' !! SchedulerLock = Some 0) by (unfold k'; simpl; rewrite lookup_insert_ne by done; apply I).
    assert (Hd : 0 <= spinlock_depth k') by apply I.
    destruct (sched_env live rq k k' I C) as [I' C']; try done.
Qed.

Definition demo_queues : list Z := [demo_wait_queue; condition_wait_queue; timeout_wait_queue].

Lemma demo_threads_run live rq k put :
  booting live rq k 225000 -> stores put ->
  (alloc_fails (H := H) /\ exists k', sched_demo_threads put k = Panicked "scheduler demo thread creation failed" k') \/
  exists ts k' live', sched_demo_threads put k = Ret tt k' /\ booting live' (rq ++ ts) k' 0 /\ idle_thread k' = idle_thread k /\
    length ts = 9%nat /\ NoDup ts /\ (forall t, t ∈ ts -> is_in THREAD_READY k' t = true /\ (t ∉ rq)) /\
    (forall p, p <> 0 -> p ∈ demo_queues \/ vacant k p -> vacant k' p).
Proof.
  intros B Hput. rewrite demo_threads_list.
  destruct (queue_init_booting live rq k 225000 demo_wait_queue B) as (k1 & E1 & B1 & Ei1 & V1). mrun E1.
  destruct (queue_init_booting live rq k1 225000 condition_wait_queue B1) as (k2 & E2 & B2 & Ei2 & V2). mrun E2.
  destruct (queue_init_booting live rq k2 225000 timeout_wait_queue B2) as (k3 & E3 & B3 & Ei3 & V3). mrun E3.
  destruct (Hput 0 k3) as (h & E4 & Hr4 & Hok4). mrun E4.
  assert (B4 : booting live rq (k3 <| kheap := h |>) (0 + 25000 * Z.of_nat (length demo_list))).
  { destruct B3 as [I C S Hc Hr Hf]. destruct (heap_inv live rq k3 h I C (Hok4 live (si_mem _ _ _ I))) as [I' C'].
    split; try done. simpl. rewrite Hr4. lia. }
  destruct (creates_run demo_list live rq _ 0 B4 demo_entries ltac:(lia)) as (ts & k5 & live5 & rq5 & E5 & B5 & Ei5 & Hlen & F5 & T5 & _ & Eq5 & El5).
  mrun E5. destruct (decide (0 ∈ ts)) as [Hz|Hz].
  - left. split; [by apply F5|]. exists k5. unfold require.
    assert (Ee : existsb (fun t => bool_decide (t = 0)) ts = true).
    { apply existsb_exists. exists 0. split; [by apply list_elem_of_In|done]. }
    by rewrite Ee.
  - right. destruct (T5 Hz) as (-> & Nd & R). exists ts, k5, live5. split_and!; try done; [|simpl in Ei5; congruence|].
    2:{ intros p Hp Hv. unfold vacant. rewrite Eq5, El5. apply V3, or_comm; [done|]. unfold demo_queues in Hv.
        rewrite !elem_of_cons, elem_of_nil in Hv. destruct Hv as [[Hv|[Hv|[Hv|[]]]]|Hv]; [left; apply V2; [done|]; right; apply V1; auto|left; apply V2; auto|by right|].
        left. apply V2; [done|]. right. apply V1; auto. }
    apply require_true. apply negb_true_iff, not_true_is_false. intros (x & Hx & ->%bool_decide_eq_true_1)%existsb_exists.
    by apply Hz, list_elem_of_In.
Qed.

Lemma set_idle_inv live rq k t :
  sched_inv live rq k -> ctx_inv live rq k -> t ∈ rq -> is_in THREAD_READY k t = true ->
  sched_inv live rq (k <| idle_thread := t |>) /\ ctx_inv live rq (k <| idle_thread := t |>).
Proof.
  intros [] [] Hin Hr. split; split; try done; [by right|].
  intros u x Hu Hx. destruct (si_threads u x Hu Hx) as [A B C D]. split; try done. simpl. intros Hz.
  destruct (C Hz) as (W1 & W2 & _). split_and!; try done. intros ->. unfold is_in in Hr. simpl in Hx. rewrite Hx in Hr.
  apply bool_decide_eq_true_1 in Hr. congruence.
Qed.

(** The first switch, with a thread to switch to. *)
Lemma boot_switch live rq k room u :
  booting live rq k room -> u ∈ rq -> eligible k u = true ->
  exists nxt k2 live2, schedule k = Ret (Some (0, nxt)) k2 /\ nxt ∈ rq /\ eligible k nxt = true /\
    current_thread k2 = nxt /\ is_in THREAD_RUNNING k2 nxt = true /\
    (exists x, threads k !! nxt = Some x /\ saved_context (stacks (mach k)) (stack_pointer x) (regs (mach k2))) /\
    sched_inv live2 (survivors k rq) k2.
Proof.
  intros [I C S Hc _] Hu He. destruct (order_exists live rq k I) as [order Ho].
  destruct (pick_eligible live rq k order u I Ho Hu He) as [Hp0 Hpe].
  destruct (schedule_cases live rq k order I C S Ho) as (k4 & k5 & live5 & Hrp & Hm & Hcur & _ & _ & _ & I5 & _ & _ & Hk).
  rewrite Hc, (bool_decide_eq_false_2 (pick k order = 0)) in Hk by done. cbn [orb] in Hk. destruct Hk as [E5 W].
  destruct (sw_next _ _ _ W) as (xn & c & Hxn & Hst & Hsc & Hrg).
  destruct (reaped_thread _ _ _ _ _ Hrp Hxn) as (x & Hx & Hs).
  exists (pick k order), k5, live5. split_and!; try done.
  - destruct (pick_in k rq order) as [Hin _]; [apply I| |done|done].
    intros v Hv. by apply (search_order_elem _ _ _ _ Ho), elem_of_survivors in Hv as [_ Hv].
  - apply W.
  - unfold is_in. rewrite (sw_threads _ _ _ W), Hxn. simpl. by rewrite after_switch_state, (bool_decide_eq_true_2 (pick k order = pick k order)).
  - exists x. split; [done|]. rewrite Hrg. rewrite Hs, Hm in Hsc. exact Hsc.
Qed.

Lemma sched_start_run live rq k put others :
  booting live rq k 250000 -> stores put ->
  (alloc_fails (H := H) /\ exists msg k', sched_start put others k = Panicked msg k' /\
     (msg = "idle thread creation failed" \/ msg = "scheduler demo thread creation failed")%string) \/
  exists idle ts k1 live1 nxt k2 live2, booting live1 (rq ++ idle :: ts) k1 0 /\ idle_thread k1 = idle /\ length ts = 9%nat /\
    (forall t, t ∈ ts -> is_in THREAD_READY k1 t = true) /\ (forall p, p <> 0 -> p ∈ demo_queues \/ vacant k p -> vacant k1 p) /\
    schedule k1 = Ret (Some (0, nxt)) k2 /\ nxt ∈ rq ++ ts /\ nxt <> idle /\ is_in THREAD_READY k1 nxt = true /\
    current_thread k2 = nxt /\ is_in THREAD_RUNNING k2 nxt = true /\
    (exists x, threads k1 !! nxt = Some x /\ saved_context (stacks (mach k1)) (stack_pointer x) (regs (mach k2))) /\
    sched_inv live2 (survivors k1 (rq ++ idle :: ts)) k2 /\
    sched_start put others k = (others ;; panic "scheduler returned to boot context") k2.
Proof.
  intros B Hput. pose proof sched_entries as He. rewrite Forall_forall in He.
  destruct (demo_create_step live rq k 225000 (Some "idle"%string) idle_thread_entry 0) as (t & k1 & live1 & rq1 & E1 & B1 & Ei1 & F1 & T1 & _ & _ & Eq1 & El1);
    [by destruct B|apply He; set_solver|lia|].
  unfold sched_start, sched_idle_create. rewrite bind_assoc. mrun E1. rewrite bind_assoc, bind_modify, bind_ret.
  destruct (decide (t = 0)) as [->|Ht].
  { left. split; [by apply F1|]. eexists _, _. split; [reflexivity|by left]. }
  rewrite (bool_decide_eq_false_2 (t = 0)) by done. rewrite (bool_decide_eq_true_2 (0 = 0)) by done. cbn [negb]. rewrite bind_ret.
  destruct (T1 Ht) as (-> & R1 & N1). set (k2 := k1 <| idle_thread := t |>).
  assert (B2 : booting live1 (rq ++ [t]) k2 225000).
  { destruct B1 as [I C S Hc Hr Hf]. destruct (set_idle_inv live1 (rq ++ [t]) k1 t I C ltac:(set_solver) R1). by split. }
  unfold sched_demo_start.
  destruct (demo_threads_run live1 (rq ++ [t]) k2 put B2 Hput) as [(Hf & k3 & E3)|(ts & k3 & live3 & E3 & B3 & Ei3 & Hlen & Nd & R3 & V3)].
  { left. split; [done|]. eexists _, k3. split; [by apply bind_panic|by right]. }
  right. mrun E3. rewrite <- app_assoc in B3. cbn [app] in B3.
  destruct ts as [|u ts']; [done|]. set (ts := u :: ts') in *.
  destruct (R3 u ltac:(left)) as [Ru Nu].
  assert (Heu : eligible k3 u = true).
  { unfold eligible. rewrite Ru, Ei3. simpl. rewrite bool_decide_eq_false_2; [done|]. set_solver. }
  destruct (boot_switch live3 _ k3 0 u B3 ltac:(set_solver) Heu) as (nxt & k5 & live5 & E5 & Hin & Hpe & Hcur & Hrun & Hctx & I5).
  pose proof Hpe as [Hpr Hpi%negb_true_iff%bool_decide_eq_false_1]%andb_true_iff. rewrite Ei3 in Hpi. simpl in Hpi.
  exists t, ts, k3, live3, nxt, k5, live5. split_and!; try done.
  - intros v Hv. by apply R3.
  - intros p Hp Hv. apply V3; [done|]. destruct Hv as [|Hv]; [by left|right]. unfold vacant. simpl. by rewrite Eq1, El1.
  - set_solver.
  - unfold sched_yield. rewrite bind_assoc. by mrun E5.
Qed.

(** C19. [sched_start] hands the CPU over for good: the idle thread and the nine
    demonstration threads join the run queue, and the first switch leaves the boot context
    for a thread that is READY and not the idle one, which then is RUNNING with its own
    saved context on the CPU.  [sched_start] itself only goes on if something switched back
    to the boot context, and then panics.  If the allocator refuses memory it panics
    before the switch. *)
Theorem sched_start_hands_over live rq k put others :
  booting live rq k 250000 -> stores put ->
  (alloc_fails (H := H) /\ exists msg k', sched_start put others k = Panicked msg k' /\
     (msg = "idle thread creation failed" \/ msg = "scheduler demo thread creation failed")%string) \/
  exists idle ts k1 live1 nxt k2 live2, booting live1 (rq ++ idle :: ts) k1 0 /\ idle_thread k1 = idle /\ length ts = 9%nat /\
    (forall t, t ∈ ts -> is_in THREAD_READY k1 t = true) /\
    schedule k1 = Ret (Some (0, nxt)) k2 /\ nxt ∈ rq ++ ts /\ nxt <> idle /\ is_in THREAD_READY k1 nxt = true /\
    current_thread k2 = nxt /\ is_in THREAD_RUNNING k2 nxt = true /\
    (exists x, threads k1 !! nxt = Some x /\ saved_context (stacks (mach k1)) (stack_pointer x) (regs (mach k2))) /\
    sched_inv live2 (survivors k1 (rq ++ idle :: ts)) k2 /\
    sched_start put others k = (others ;; panic "scheduler returned to boot context") k2.
Proof.
  intros B Hput. destruct (sched_start_run live rq k put others B Hput) as [|(idle & ts & k1 & live1 & nxt & k2 & live2 & B1 & Hi & Hl & R & _ & Hrest)];
    [by left|right]. by exists idle, ts, k1, live1, nxt, k2, live2.
Qed.
End theory.
