(* ===== verification/SchedRun.v ===== *)
(** * From boot to the running system

    [sched_start] hands over to a system in the sense of [SchedSystem]: what it leaves
    satisfies the invariant, so that every state the transition system reaches from there
    is safe. *)

From S2P Require Import Prelude LinkedList PhysMem Switch KState Sched SchedCore SchedReap SchedYield SchedThread WaitQueue SchedSystem SchedBoot.

Section run.
Context {H : Type} `{KAllocSpec H} `{SchedStatics}.
Implicit Types (k : kernel H) (rq : list Z) (live : gmap Z Z) (qs : gset Z).

(** Before the first switch nobody waits. *)
Lemma boot_consistent live rq k room qs :
  booting live rq k room -> idle_thread k ∈ rq -> (forall q, q ∈ qs -> q <> 0 /\ vacant k q) ->
  consistent qs live rq (gset_to_gmap [] qs) k.
Proof.
  intros [I C S Hc _ Hf] Hi Hq.
  assert (Hg : forall q l, gset_to_gmap ([] : list Z) qs !! q = Some l -> q ∈ qs /\ l = []) by (intros q l [? <-]%lookup_gset_to_gmap_Some; done).
  assert (Hi0 : idle_thread k <> 0) by (by eapply run_queue_nonzero; [apply I|]).
  split; try done.
  - split.
    + intros q l [Hin ->]%Hg. destruct (Hq q Hin) as (Hq0 & Hv & _). split; [done|]. by exists (WaitQueue 0 0).
    + intros q l t [Hin ->]%Hg. split; [by intros ?%not_elem_of_nil|]. intros (x & Hx & Hw). destruct (Hq q Hin) as [Hq0 _].
      destruct (Hf t x Hx) as (_ & _ & Hz & _). congruence.
    + intros t x Hx. left. by destruct (Hf t x Hx) as (_ & _ & Hw).
    + apply I.
  - split; [apply I|]. intros q [l Hl]. apply Hg in Hl as [Hin _]. by destruct (Hq q Hin) as (_ & _ & Hl).
  - apply dom_gset_to_gmap.
  - intros t x Hx. by destruct (Hf t x Hx).
  - split; [done|]. rewrite decide_False by congruence. destruct (run_queue_thread _ _ _ (si_queue _ _ _ I) Hi) as [x Hx].
    apply (is_in_intro _ _ _ x Hx). by destruct (Hf _ x Hx) as (_ & Hs & _).
  - intros t x Hx. destruct (Hf t x Hx) as (_ & Hs & _). by rewrite Hs.
Qed.

Lemma started_ok live rq k put others qs :
  ~ alloc_fails (H := H) -> booting live rq k 250000 -> stores put ->
  (forall q, q ∈ qs -> q <> 0 /\ (q ∈ demo_queues \/ vacant k q)) ->
  exists k0, sched_start put others k = (others ;; panic "scheduler returned to boot context") k0 /\ system_ok qs k0 /\
    is_in THREAD_RUNNING k0 (current_thread k0) = true.
Proof.
  intros Sure B Hput Hq.
  destruct (sched_start_run live rq k put others B Hput) as
    [[Hf _]|(idle & ts & k1 & live1 & nxt & k2 & live2 & B1 & Hi & _ & _ & Hv & Es & _ & _ & _ & _ & _ & _ & _ & E)]; [done|].
  exists k2. split; [done|]. destruct (yield_ok qs live1 (rq ++ idle :: ts) (gset_to_gmap [] qs) k1) as (k2' & Ey & Ok & Yr).
  { apply (boot_consistent live1 _ k1 0); [done|rewrite Hi; set_solver|]. intros q Hin. destruct (Hq q Hin). auto. }
  assert (Ey' : sched_yield (mret tt) k1 = Ret tt k2) by (unfold sched_yield; by mrun Es).
  rewrite Ey in Ey'. injection Ey' as ->. split; [done|]. destruct Yr as [?|(_ & Hr & _)]; [done|].
  unfold is_in in Hr. by rewrite (bo_current _ _ _ _ B1), (si_null _ _ _ (bo_inv _ _ _ _ B1)) in Hr.
Qed.
End run.
