(* ===== verification/BootWitness.v ===== *)
(** * Starting the scheduler on a concrete machine *)

From S2P Require Import Prelude LinkedList PhysMem Switch KState Sched SchedCore SchedReap SchedYield SchedThread SchedWitness WaitQueue SchedBoot.

#[export] Program Instance demo_sched_statics : SchedStatics := {|
  thread_selftest_entry := 8192;
  idle_thread_entry := 8256;
  scheduler_demo_entry := 8320;
  wait_queue_demo_waiter := 8384;
  wait_queue_demo_waker := 8448;
  condition_wait_demo_waiter := 8512;
  condition_wait_demo_waker := 8576;
  timeout_wait_demo_waiter := 8640;
  return_exit_demo_thread := 8704;
  explicit_exit_demo_thread := 8768;
  test_wait_queue := 2304;
  demo_wait_queue := 2560;
  condition_wait_queue := 2816;
  timeout_wait_queue := 3072
|}.
Next Obligation. apply (bool_decide_unpack _). vm_compute. exact Logic.I. Qed.

(** A machine with free memory, on its boot stack. *)
Definition bare : kernel arena :=
  Kernel (Arena ∅ 1048576)
    (Machine (Cpu 140737488359424 (Word 0) (Word 0) (Word 0) (Word 0) (Word 0) (Word 0) (Code "kernel_main")) ∅)
    ∅ ∅ {[ SchedulerLock := 0 ]} 514 0 0 0 0 0 1 false false false 0 0 0.

Lemma bare_before_sched : before_sched ∅ bare.
Proof.
  split; try done. right. vm_compute. discriminate.
Qed.

(** An arena has memory as long as it has address space. *)
Lemma arena_never_fails : alloc_fails (H := arena) -> False.
Proof. intros (live & h & n & h' & (_ & Hb & _) & _ & _ & [= E _]). lia. Qed.

Lemma sched_init_passes_witness :
  exists k' t1 t2, sched_init (mret tt) bare = Ret tt k' /\ is_in THREAD_READY k' t1 = true /\ is_in THREAD_READY k' t2 = true.
Proof.
  destruct (sched_init_passes ∅ bare (mret tt) bare_before_sched)
    as [(k' & live' & t1 & t2 & E & _ & _ & _ & _ & R1 & R2 & _)|(Hf & _)].
  - exists k', t1, t2. exact (conj E (conj R1 R2)).
  - destruct (arena_never_fails Hf).
Defined.

Lemma bare_booting : booting ∅ [] (emptied bare) 250000.
Proof.
  destruct (emptied_inv ∅ bare bare_before_sched) as [I C]. by split.
Qed.

Lemma sched_start_hands_over_witness :
  exists nxt k2, current_thread k2 = nxt /\ is_in THREAD_RUNNING k2 nxt = true /\
    sched_start (fun _ => mret tt) (mret tt) (emptied bare) = Panicked "scheduler returned to boot context" k2.
Proof.
  destruct (sched_start_hands_over ∅ [] (emptied bare) (fun _ => mret tt) (mret tt) bare_booting)
    as [(Hf & _)|(idle & ts & k1 & live1 & nxt & k2 & live2 & _ & _ & _ & _ & _ & _ & _ & _ & Hc & R & _ & _ & E)].
  - intros z k. exists (kheap k). split; [by destruct k|]. by split.
  - destruct (arena_never_fails Hf).
  - exists nxt, k2. split; [exact Hc|]. split; [exact R|]. exact E.
Defined.
