(* ===== verification/DemoThreads.v ===== *)
(** * The demonstration threads of kernel/selftest/sched.c and the end of a thread

    Each thread body runs on the thread's own stack; [others] is what the rest of the system
    does while it does not run, and [rounds] bounds how often a waiting loop goes round.  The
    bodies' log lines are left out. *)

From S2P Require Import Prelude LinkedList PhysMem Switch KState Sched SchedCore SchedReap SchedYield SchedThread WaitQueue WaitTimeout SchedBoot.

(** The static variable [condition_ready], somewhere in memory. *)
Class DemoFlag (H : Type) := {
  condition_ready : H -> Z;
  put_ready : Z -> H -> H;
  ready_law : forall z h, condition_ready (put_ready z h) = z
}.

Section bodies.
Context {H : Type} `{KAlloc H} `{SchedStatics} `{DemoFlag H}.
Abbreviation K := (M (kernel H)).

(** [condition_is_ready] on the variable [ready] points to. *)
Definition condition_is_ready (ready : kernel H -> Z) (k : kernel H) : Z := if bool_decide (ready k = 0) then 0 else 1.

Definition the_condition : kernel H -> Z := condition_is_ready (fun k => condition_ready (kheap k)).

(** [kernel_thread_exit]: marks the thread and yields for ever; the thread is reaped before
    it could be switched to again, so a round that comes back is one too many. *)
Definition sched_thread_exit (rounds : nat) (others : K unit) : K unit :=
  sched_thread_exit_mark ;; loop rounds (fun _ => sched_yield others ;; mret (inl tt)) tt.
Definition kernel_thread_exit (rounds : nat) (others : K unit) : K unit := sched_thread_exit rounds others.

Definition scheduler_demo_body (others : K unit) : K unit :=
  for_each (seqZ 1 3) (fun _ => sched_sleep others 2).

Definition wait_queue_demo_waiter_body (rounds : nat) (others : K unit) : K unit := wait_queue_sleep rounds others demo_wait_queue.

Definition wait_queue_demo_waker_body (others : K unit) : K unit :=
  sched_sleep others 4 ;;
  wait_queue_wake_one demo_wait_queue.

Definition condition_wait_demo_waiter_body (rounds : nat) (others : K unit) : K unit :=
  r ← wait_queue_wait rounds others condition_wait_queue (Some (gets the_condition));
  if negb (bool_decide (r = 0)) then panic "condition wait failed" else mret tt.

Definition condition_wait_demo_waker_body (others : K unit) : K unit :=
  sched_sleep others 5 ;;
  flags ← wait_queue_lock_irqsave condition_wait_queue true;
  modify (fun k => k <| kheap ::= put_ready 1 |>) ;;
  wait_queue_wake_all_locked condition_wait_queue ;;
  flags ← deref (fun _ => flags);
  wait_queue_unlock_irqrestore condition_wait_queue flags.

(** [never_ready] is a local variable that stays 0. *)
Definition timeout_wait_demo_waiter_body (rounds : nat) (others : K unit) : K unit :=
  let never := Some (gets (condition_is_ready (fun _ => 0))) in
  r ← wait_queue_wait_timeout rounds others timeout_wait_queue never 0;
  (if negb (bool_decide (r = - ETIMEDOUT)) then panic "timeout wait zero tick errno failed" else mret tt) ;;
  r ← wait_queue_wait_timeout rounds others timeout_wait_queue never 3;
  if negb (bool_decide (r = - ETIMEDOUT)) then panic "timeout wait did not time out" else mret tt.

Definition return_exit_demo_body : K unit := mret tt.
Definition explicit_exit_demo_body (rounds : nat) (others : K unit) : K unit := kernel_thread_exit rounds others.

(** Which body the code at an entry address is; the trampoline calls it and then ends the
    thread. *)
Definition demo_entry (rounds : nat) (others : K unit) (entry : Z) : option (K unit) :=
  if bool_decide (entry = scheduler_demo_entry) then Some (scheduler_demo_body others)
  else if bool_decide (entry = wait_queue_demo_waiter) then Some (wait_queue_demo_waiter_body rounds others)
  else if bool_decide (entry = wait_queue_demo_waker) then Some (wait_queue_demo_waker_body others)
  else if bool_decide (entry = condition_wait_demo_waiter) then Some (condition_wait_demo_waiter_body rounds others)
  else if bool_decide (entry = condition_wait_demo_waker) then Some (condition_wait_demo_waker_body others)
  else if bool_decide (entry = timeout_wait_demo_waiter) then Some (timeout_wait_demo_waiter_body rounds others)
  else if bool_decide (entry = return_exit_demo_thread) then Some return_exit_demo_body
  else if bool_decide (entry = explicit_exit_demo_thread) then Some (explicit_exit_demo_body rounds others)
  else None.

Definition thread_trampoline (rounds : nat) (others : K unit) (run : Z -> option (K unit)) : K unit :=
  t ← gets current_thread;
  x ← (if bool_decide (t = 0) then mret raw_thread else thread_at t);
  if bool_decide (t = 0) || bool_decide (entry x = 0) then panic "kernel thread entered without entry"
  else
    body ← deref (fun _ => run (entry x));
    body ;;
    kernel_thread_exit rounds others.
End bodies.

Section theory.
Context {H : Type} `{KAlloc H} `{SchedStatics} `{DemoFlag H}.
Implicit Types (k : kernel H) (Q : gmap Z (list Z)) (l : list Z).

(** The section of the condition's waker: the flag is set and every waiter READY before the
    lock is released. *)
Lemma condition_waker_run others k0 k Q l :
  sched_sleep others 5 k0 = Ret tt k -> waits k Q -> unlocked k Q -> Q !! condition_wait_queue = Some l ->
  (forall t x, t ∈ l -> threads k !! t = Some x -> blocked x) ->
  exists k', condition_wait_demo_waker_body others k0 = Ret tt k' /\ the_condition k' = 1 /\
    waits k' (<[condition_wait_queue := []]> Q) /\ unlocked k' Q /\
    (forall t, t ∈ l -> exists x, threads k' !! t = Some x /\ state x = THREAD_READY /\ wait_queue x = 0) /\
    k' = k <| kheap := kheap k' |> <| threads := threads k' |> <| queues := queues k' |>.
Proof.
  intros Es W [Ud Ul] Hq Hb. set (q := condition_wait_queue) in *. destruct (wt_queue _ _ W q l Hq) as (Hq0 & _).
  assert (Hl : locks k !! QueueLock q = Some 0) by (apply Ul; by eexists).
  set (ks := k <| kheap ::= put_ready 1 |>).
  assert (We : waits (enter (QueueLock q) ks) Q) by by apply (waits_same k).
  destruct (wake_all_run q l (S (size (threads k))) (enter (QueueLock q) ks) Q We Hq) as (k2 & E & W2 & Ht & Ek);
    [by eapply waits_length|exact Hb|].
  exists (ks <| threads := threads k2 |> <| queues := queues k2 |>).
  assert (Erun : condition_wait_demo_waker_body others k0 = Ret tt (ks <| threads := threads k2 |> <| queues := queues k2 |>)).
  { unfold condition_wait_demo_waker_body. mrun Es. unfold wait_queue_lock_irqsave, wait_queue_wake_all_locked, thread_fuel.
    fold q. rewrite !(bool_decide_eq_false_2 (q = 0)) by done. cbn [orb negb]. rewrite bind_assoc. mrun (spin_lock_run k (QueueLock q) Hl). mred.
    assert (Ee : (enter (QueueLock q) k) <| kheap ::= put_ready 1 |> = enter (QueueLock q) ks) by by destruct k.
    rewrite Ee. mrun E. mred. unfold wait_queue_unlock_irqrestore. rewrite (bool_decide_eq_false_2 (q = 0)) by done.
    exact (unlock_run ks q k2 Hl Ud Ek). }
  split; [exact Erun|]. split_and!; [|by apply (waits_same k2)|by split| |by destruct k].
  - unfold the_condition, condition_is_ready. simpl. by rewrite ready_law.
  - intros t Hin. simpl. rewrite Ht, bool_decide_eq_true_2 by done.
    destruct (proj1 (wt_member _ _ W q l t Hq) Hin) as (x & Hx & _). change (threads (enter (QueueLock q) ks)) with (threads k). rewrite Hx. simpl. by eexists.
Qed.

(** The condition's waiter: with the flag clear it is WAITING and on the queue when it goes
    to sleep, and when it runs again with the flag set it ends without a panic. *)
Lemma condition_waiter_run k Q l t x :
  waits k Q -> unlocked k Q -> Q !! condition_wait_queue = Some l -> may_block k t x -> condition_ready (kheap k) = 0 ->
  exists k1, registered k Q condition_wait_queue l t THREAD_WAITING 0 k1 /\
    forall others k2 Q2 l2, sched_yield others k1 = Ret tt k2 -> waits k2 Q2 -> unlocked k2 Q2 ->
      Q2 !! condition_wait_queue = Some l2 -> current_thread k2 = t -> is_Some (threads k2 !! t) -> condition_ready (kheap k2) <> 0 ->
      exists k3, forall n, condition_wait_demo_waiter_body (S (S n)) others k = Ret tt k3.
Proof.
  intros W U Hq Hb Hz. destruct (wait_later_run the_condition condition_wait_queue k Q l t x W U Hq Hb) as (k1 & R1 & Hlater).
  { unfold holds, the_condition, condition_is_ready. simpl. rewrite Hz, bool_decide_eq_true_2 by done. lia. }
  exists k1. split; [done|]. intros others k2 Q2 l2 Ey W2 U2 Hq2 Hc2 Hx2 Hf.
  destruct (Hlater others k2 Q2 l2 Ey W2 U2 Hq2 Hc2 Hx2) as (k3 & l3 & _ & _ & _ & _ & _ & Ek3 & Hret). exists k3. intros n.
  unfold condition_wait_demo_waiter_body. erewrite bind_run; [|apply Hret].
  - by rewrite bool_decide_eq_true_2.
  - unfold holds, the_condition, condition_is_ready. simpl. rewrite Ek3. simpl. by rewrite bool_decide_eq_false_2.
Qed.
End theory.
