(* ===== verification/TrapVectors.v ===== *)
(** * arch/x86/kernel/trap_vectors.h, idt.c and gdt.c: vectors and descriptor tables

    The vector table is shared by the interrupt descriptor table and the dispatcher.
    Addresses the linker assigns (the entry stubs, the static tables and stacks) are
    arguments. *)

From S2P Require Import Prelude.

Definition X86_IDT_INTERRUPT_GATE : Z := 0x0e.
Definition X86_IDT_TRAP_GATE : Z := 0x0f.
Definition X86_IDT_DPL0 : Z := 0.
Definition X86_IDT_DPL3 : Z := 3.
Definition X86_IST_NONE : Z := 0.
Definition X86_IST_DOUBLE_FAULT : Z := 1.

Definition X86_VECTOR_COUNT : Z := 256.
Definition X86_EXCEPTION_VECTOR_BASE : Z := 0.
Definition X86_EXCEPTION_VECTOR_COUNT : Z := 32.
Definition X86_FIRST_EXTERNAL_VECTOR : Z := 0x20.
Definition X86_LEGACY_IRQ_VECTOR_BASE : Z := X86_FIRST_EXTERNAL_VECTOR.
Definition X86_LEGACY_IRQ_VECTOR_COUNT : Z := 16.
Definition X86_LEGACY_SYSCALL_VECTOR : Z := 0x80.
Definition X86_FIRST_SYSTEM_VECTOR : Z := 0xec.

Inductive vector_class :=
| X86_VECTOR_EXCEPTION
| X86_VECTOR_LEGACY_IRQ
| X86_VECTOR_SYSCALL
| X86_VECTOR_EXTERNAL_IRQ
| X86_VECTOR_SYSTEM
| X86_VECTOR_RESERVED.

#[export] Instance vector_class_eq_dec : EqDecision vector_class.
Proof. solve_decision. Defined.

Definition x86_vector_in_range (vector first count : Z) : bool :=
  bool_decide (first <= vector) && bool_decide (vector < wrap64 (first + count)).

Definition x86_vector_class (vector : Z) : vector_class :=
  if x86_vector_in_range vector X86_EXCEPTION_VECTOR_BASE X86_EXCEPTION_VECTOR_COUNT
  then X86_VECTOR_EXCEPTION
  else if x86_vector_in_range vector X86_LEGACY_IRQ_VECTOR_BASE X86_LEGACY_IRQ_VECTOR_COUNT
  then X86_VECTOR_LEGACY_IRQ
  else if bool_decide (vector = X86_LEGACY_SYSCALL_VECTOR) then X86_VECTOR_SYSCALL
  else if bool_decide (X86_FIRST_SYSTEM_VECTOR <= vector) && bool_decide (vector < X86_VECTOR_COUNT)
  then X86_VECTOR_SYSTEM
  else if bool_decide (X86_FIRST_EXTERNAL_VECTOR <= vector) && bool_decide (vector < X86_FIRST_SYSTEM_VECTOR)
  then X86_VECTOR_EXTERNAL_IRQ
  else X86_VECTOR_RESERVED.

(** The handlers of traps.c the table names. *)
Inductive exception_handler :=
| x86_handle_default_exception
| x86_handle_double_fault
| x86_handle_general_protection
| x86_handle_invalid_opcode
| x86_handle_page_fault.

(** A row of the table; the entry stub is the symbol of exception_entry.S. *)
Record exception_vector := ExceptionVector {
  xv_vector : Z;
  xv_entry : string;
  xv_has_error : Z;
  xv_gate_type : Z;
  xv_dpl : Z;
  xv_ist : Z;
  xv_name : string;
  xv_handler : exception_handler
}.

Definition X86_EXCEPTION_VECTORS : list exception_vector := [
  ExceptionVector 0 "exception_0" 0 X86_IDT_INTERRUPT_GATE X86_IDT_DPL0 X86_IST_NONE "divide error" x86_handle_default_exception;
  ExceptionVector 1 "exception_1" 0 X86_IDT_INTERRUPT_GATE X86_IDT_DPL0 X86_IST_NONE "debug" x86_handle_default_exception;
  ExceptionVector 2 "exception_2" 0 X86_IDT_INTERRUPT_GATE X86_IDT_DPL0 X86_IST_NONE "non-maskable interrupt" x86_handle_default_exception;
  ExceptionVector 3 "exception_3" 0 X86_IDT_TRAP_GATE X86_IDT_DPL3 X86_IST_NONE "breakpoint" x86_handle_default_exception;
  ExceptionVector 4 "exception_4" 0 X86_IDT_TRAP_GATE X86_IDT_DPL3 X86_IST_NONE "overflow" x86_handle_default_exception;
  ExceptionVector 5 "exception_5" 0 X86_IDT_INTERRUPT_GATE X86_IDT_DPL0 X86_IST_NONE "bound range exceeded" x86_handle_default_exception;
  ExceptionVector 6 "exception_6" 0 X86_IDT_INTERRUPT_GATE X86_IDT_DPL0 X86_IST_NONE "invalid opcode" x86_handle_invalid_opcode;
  ExceptionVector 7 "exception_7" 0 X86_IDT_INTERRUPT_GATE X86_IDT_DPL0 X86_IST_NONE "device not available" x86_handle_default_exception;
  ExceptionVector 8 "exception_8" 1 X86_IDT_INTERRUPT_GATE X86_IDT_DPL0 X86_IST_DOUBLE_FAULT "double fault" x86_handle_double_fault;
  ExceptionVector 9 "exception_9" 0 X86_IDT_INTERRUPT_GATE X86_IDT_DPL0 X86_IST_NONE "coprocessor segment overrun" x86_handle_default_exception;
  ExceptionVector 10 "exception_10" 1 X86_IDT_INTERRUPT_GATE X86_IDT_DPL0 X86_IST_NONE "invalid tss" x86_handle_default_exception;
  ExceptionVector 11 "exception_11" 1 X86_IDT_INTERRUPT_GATE X86_IDT_DPL0 X86_IST_NONE "segment not present" x86_handle_default_exception;
  ExceptionVector 12 "exception_12" 1 X86_IDT_INTERRUPT_GATE X86_IDT_DPL0 X86_IST_NONE "stack segment fault" x86_handle_default_exception;
  ExceptionVector 13 "exception_13" 1 X86_IDT_INTERRUPT_GATE X86_IDT_DPL0 X86_IST_NONE "general protection fault" x86_handle_general_protection;
  ExceptionVector 14 "exception_14" 1 X86_IDT_INTERRUPT_GATE X86_IDT_DPL0 X86_IST_NONE "page fault" x86_handle_page_fault;
  ExceptionVector 15 "exception_15" 0 X86_IDT_INTERRUPT_GATE X86_IDT_DPL0 X86_IST_NONE "reserved" x86_handle_default_exception;
  ExceptionVector 16 "exception_16" 0 X86_IDT_INTERRUPT_GATE X86_IDT_DPL0 X86_IST_NONE "x87 floating-point exception" x86_handle_default_exception;
  ExceptionVector 17 "exception_17" 1 X86_IDT_INTERRUPT_GATE X86_IDT_DPL0 X86_IST_NONE "alignment check" x86_handle_default_exception;
  ExceptionVector 18 "exception_18" 0 X86_IDT_INTERRUPT_GATE X86_IDT_DPL0 X86_IST_NONE "machine check" x86_handle_default_exception;
  ExceptionVector 19 "exception_19" 0 X86_IDT_INTERRUPT_GATE X86_IDT_DPL0 X86_IST_NONE "simd floating-point exception" x86_handle_default_exception;
  ExceptionVector 20 "exception_20" 0 X86_IDT_INTERRUPT_GATE X86_IDT_DPL0 X86_IST_NONE "virtualization exception" x86_handle_default_exception;
  ExceptionVector 21 "exception_21" 1 X86_IDT_INTERRUPT_GATE X86_IDT_DPL0 X86_IST_NONE "control protection exception" x86_handle_default_exception;
  ExceptionVector 22 "exception_22" 0 X86_IDT_INTERRUPT_GATE X86_IDT_DPL0 X86_IST_NONE "reserved" x86_handle_default_exception;
  ExceptionVector 23 "exception_23" 0 X86_IDT_INTERRUPT_GATE X86_IDT_DPL0 X86_IST_NONE "reserved" x86_handle_default_exception;
  ExceptionVector 24 "exception_24" 0 X86_IDT_INTERRUPT_GATE X86_IDT_DPL0 X86_IST_NONE "reserved" x86_handle_default_exception;
  ExceptionVector 25 "exception_25" 0 X86_IDT_INTERRUPT_GATE X86_IDT_DPL0 X86_IST_NONE "reserved" x86_handle_default_exception;
  ExceptionVector 26 "exception_26" 0 X86_IDT_INTERRUPT_GATE X86_IDT_DPL0 X86_IST_NONE "reserved" x86_handle_default_exception;
  ExceptionVector 27 "exception_27" 0 X86_IDT_INTERRUPT_GATE X86_IDT_DPL0 X86_IST_NONE "reserved" x86_handle_default_exception;
  ExceptionVector 28 "exception_28" 0 X86_IDT_INTERRUPT_GATE X86_IDT_DPL0 X86_IST_NONE "hypervisor injection exception" x86_handle_default_exception;
  ExceptionVector 29 "exception_29" 1 X86_IDT_INTERRUPT_GATE X86_IDT_DPL0 X86_IST_NONE "vmm communication exception" x86_handle_default_exception;
  ExceptionVector 30 "exception_30" 1 X86_IDT_INTERRUPT_GATE X86_IDT_DPL0 X86_IST_NONE "security exception" x86_handle_default_exception;
  ExceptionVector 31 "exception_31" 0 X86_IDT_INTERRUPT_GATE X86_IDT_DPL0 X86_IST_NONE "reserved" x86_handle_default_exception
].


Record irq_vector := IrqVector {
  iv_vector : Z;
  iv_entry : string;
  iv_irq : Z;
  iv_gate_type : Z;
  iv_dpl : Z;
  iv_ist : Z
}.

Definition X86_IRQ_VECTORS : list irq_vector := [
  IrqVector (X86_LEGACY_IRQ_VECTOR_BASE + 0) "irq_32" 0 X86_IDT_INTERRUPT_GATE X86_IDT_DPL0 X86_IST_NONE;
  IrqVector (X86_LEGACY_IRQ_VECTOR_BASE + 1) "irq_33" 1 X86_IDT_INTERRUPT_GATE X86_IDT_DPL0 X86_IST_NONE
].

(** ** The interrupt descriptor table *)

Definition KERNEL_CODE_SELECTOR : Z := 0x08.
Definition KERNEL_DATA_SELECTOR : Z := 0x10.
Definition TSS_SELECTOR : Z := 0x18.
Definition IDT_PRESENT : Z := 0x80.

Record idt_entry := IdtEntry {
  offset_low : Z;
  selector : Z;
  ist : Z;
  type_attr : Z;
  offset_mid : Z;
  offset_high : Z;
  reserved : Z
}.

(** An entry of the zero-initialised table. *)
Definition idt_absent : idt_entry := IdtEntry 0 0 0 0 0 0 0.

(** The entry [idt_set_gate] writes. *)
Definition gate (handler gate_type dpl ist : Z) : idt_entry :=
  IdtEntry (wrap16 (Z.land handler 0xffff)) KERNEL_CODE_SELECTOR (Z.land ist 0x07)
    (wrap8 (Z.lor (Z.lor IDT_PRESENT (Z.shiftl (Z.land dpl 0x03) 5)) gate_type))
    (wrap16 (Z.land (Z.shiftr handler 16) 0xffff)) (wrap32 (Z.shiftr handler 32)) 0.

(** ** The global descriptor table and the task-state segment *)

Definition GDT_PRESENT : Z := 0x80.
Definition GDT_RING0 : Z := 0x00.
Definition GDT_CODE : Z := 0x1a.
Definition GDT_DATA : Z := 0x12.
Definition GDT_TSS_AVAILABLE : Z := 0x09.
Definition GDT_LONG_MODE : Z := 0x20.
Definition GDT_GRANULARITY_4K : Z := 0x80.
Definition DOUBLE_FAULT_STACK_SIZE : Z := 16384.

Record gdt_entry := GdtEntry {
  limit_low : Z;
  base_low : Z;
  base_mid : Z;
  access : Z;
  limit_flags : Z;
  base_high : Z
}.

Record tss_descriptor := TssDescriptor {
  td_limit_low : Z;
  td_base_low : Z;
  td_base_mid : Z;
  td_access : Z;
  td_limit_flags : Z;
  td_base_high : Z;
  td_base_upper : Z;
  td_reserved : Z
}.

(** The fields of the task-state segment the kernel writes. *)
Record tss_entry := TssEntry { rsp0 : Z; tss_ist : list Z; io_map_base : Z }.
#[export] Instance eta_tss_entry : Eta tss_entry := fun t => TssEntry (rsp0 t) (tss_ist t) (io_map_base t).

Definition sizeof_tss : Z := 104.

Record gdt_table := GdtTable {
  gdt_null : gdt_entry;
  kernel_code : gdt_entry;
  kernel_data : gdt_entry;
  gdt_tss : tss_descriptor
}.
#[export] Instance eta_gdt_table : Eta gdt_table := fun g =>
  GdtTable (gdt_null g) (kernel_code g) (kernel_data g) (gdt_tss g).

Definition make_gdt_entry (access flags : Z) : gdt_entry :=
  GdtEntry 0xffff 0 0 (wrap8 (Z.lor (Z.lor GDT_PRESENT GDT_RING0) access)) (wrap8 (Z.lor 0x0f flags)) 0.

Definition make_tss_descriptor (base limit : Z) : tss_descriptor :=
  TssDescriptor (wrap16 (Z.land limit 0xffff)) (wrap16 (Z.land base 0xffff)) (wrap8 (Z.land (Z.shiftr base 16) 0xff))
    (Z.lor GDT_PRESENT GDT_TSS_AVAILABLE) (wrap8 (Z.land (Z.shiftr limit 16) 0x0f))
    (wrap8 (Z.land (Z.shiftr base 24) 0xff)) (wrap32 (Z.shiftr base 32)) 0.

(** The descriptor tables, and the limit and base LGDT and LIDT load. *)
Record descriptors := Descriptors {
  tss : tss_entry;
  gdt : gdt_table;
  gdtr : option (Z * Z);
  task_register : Z;
  idt : list idt_entry;
  idtr : option (Z * Z);
  code_segment : Z;
  data_segments : Z
}.
#[export] Instance eta_descriptors : Eta descriptors := fun d =>
  Descriptors (tss d) (gdt d) (gdtr d) (task_register d) (idt d) (idtr d) (code_segment d) (data_segments d).

(** The addresses of the static objects of gdt.c and idt.c and of the entry stubs. *)
Record layout := Layout {
  kernel_stack_top : Z;
  double_fault_stack : Z;
  addr_tss : Z;
  addr_gdt : Z;
  addr_idt : Z;
  stub : string -> Z
}.

Definition sizeof_gdt : Z := 3 * 8 + 16.

(** lgdt, then a far return that reloads CS, and moves that reload DS, ES and SS. *)
Definition load_gdt (limit base : Z) : M descriptors unit :=
  modify (fun d => d <| gdtr := Some (limit, base) |>) ;;
  modify (fun d => d <| code_segment := KERNEL_CODE_SELECTOR |>) ;;
  modify (fun d => d <| data_segments := KERNEL_DATA_SELECTOR |>).

Definition load_tss : M descriptors unit := modify (fun d => d <| task_register := TSS_SELECTOR |>).

Definition load_idt (limit base : Z) : M descriptors unit := modify (fun d => d <| idtr := Some (limit, base) |>).

Definition gdt_init (at_ : layout) : M descriptors unit :=
  modify (fun d => d <| tss ::= (fun t => t <| rsp0 := kernel_stack_top at_ |>) |>) ;;
  modify (fun d => d <| tss ::= (fun t => t <| tss_ist ::=
    <[Z.to_nat (X86_IST_DOUBLE_FAULT - 1) := wrap64 (double_fault_stack at_ + DOUBLE_FAULT_STACK_SIZE)]> |>) |>) ;;
  modify (fun d => d <| tss ::= (fun t => t <| io_map_base := sizeof_tss |>) |>) ;;
  modify (fun d => d <| gdt ::= (fun g => g <| gdt_null := GdtEntry 0 0 0 0 0 0 |>) |>) ;;
  modify (fun d => d <| gdt ::= (fun g =>
    g <| kernel_code := make_gdt_entry GDT_CODE (Z.lor GDT_LONG_MODE GDT_GRANULARITY_4K) |>) |>) ;;
  modify (fun d => d <| gdt ::= (fun g => g <| kernel_data := make_gdt_entry GDT_DATA GDT_GRANULARITY_4K |>) |>) ;;
  modify (fun d => d <| gdt ::= (fun g => g <| gdt_tss := make_tss_descriptor (addr_tss at_) (sizeof_tss - 1) |>) |>) ;;
  load_gdt (sizeof_gdt - 1) (addr_gdt at_) ;;
  load_tss.

Definition idt_set_gate (vector handler gate_type dpl ist : Z) : M descriptors unit :=
  modify (fun d => d <| idt ::= <[Z.to_nat vector := gate handler gate_type dpl ist]> |>).

Definition sizeof_idt : Z := 256 * 16.

Definition idt_init (at_ : layout) : M descriptors unit :=
  for_each X86_EXCEPTION_VECTORS (fun v =>
    idt_set_gate (xv_vector v) (stub at_ (xv_entry v)) (xv_gate_type v) (xv_dpl v) (xv_ist v)) ;;
  for_each X86_IRQ_VECTORS (fun v =>
    idt_set_gate (iv_vector v) (stub at_ (iv_entry v)) (iv_gate_type v) (iv_dpl v) (iv_ist v)) ;;
  load_idt (sizeof_idt - 1) (addr_idt at_).

(** traps.c *)
Definition arch_traps_init (at_ : layout) : M descriptors unit := gdt_init at_ ;; idt_init at_.

(** ** What the processor reads *)

Definition gate_offset (e : idt_entry) : Z := offset_low e + offset_mid e * 65536 + offset_high e * 4294967296.
Definition gate_present (e : idt_entry) : bool := Z.testbit (type_attr e) 7.
Definition gate_dpl (e : idt_entry) : Z := Z.land (Z.shiftr (type_attr e) 5) 3.
Definition gate_kind (e : idt_entry) : Z := Z.land (type_attr e) 15.

(** A present gate of the given kind that enters [handler] in the kernel's segment. *)
Record enters (e : idt_entry) (handler kind dpl i : Z) : Prop := {
  en_present : gate_present e = true;
  en_offset : gate_offset e = handler;
  en_selector : selector e = KERNEL_CODE_SELECTOR;
  en_kind : gate_kind e = kind;
  en_dpl : gate_dpl e = dpl;
  en_ist : ist e = i
}.

Lemma land_16 z : Z.land z 0xffff = z mod 65536.
Proof. apply (land_ones_mod z 16). lia. Qed.

Lemma land_8 z : Z.land z 0xff = z mod 256.
Proof. apply (land_ones_mod z 8). lia. Qed.

(** An address split into 16, 16 and 32 bits and put together again. *)
Lemma split_16_16_32 z :
  in64 z -> wrap16 (Z.land z 0xffff) + wrap16 (Z.land (Z.shiftr z 16) 0xffff) * 65536 +
    wrap32 (Z.shiftr z 32) * 4294967296 = z.
Proof. unfold in64, wrap16, wrap32. intros Hz. rewrite !land_16, !Z.shiftr_div_pow2 by lia. div_lia. Qed.

(** The attribute byte, for every kind and privilege level. *)
Lemma gate_attr h i : Forall (fun kind => Forall (fun dpl =>
    gate_present (gate h kind dpl i) = true /\ gate_kind (gate h kind dpl i) = kind /\
    gate_dpl (gate h kind dpl i) = dpl) (seqZ 0 4)) (seqZ 0 16).
Proof. repeat constructor. Qed.

Lemma gate_ist h kind dpl i : 0 <= i < 8 -> ist (gate h kind dpl i) = i.
Proof. intros Hi. transitivity (i mod 2 ^ 3); [apply (land_ones_mod i 3); lia|apply Z.mod_small; lia]. Qed.

Lemma gate_enters h kind dpl i :
  in64 h -> 0 <= kind < 16 -> 0 <= dpl < 4 -> 0 <= i < 8 -> enters (gate h kind dpl i) h kind dpl i.
Proof.
  intros Hh Hk Hd Hi. pose proof (gate_attr h i) as Ha. rewrite Forall_forall in Ha.
  specialize (Ha kind ltac:(apply elem_of_seqZ; lia)). rewrite Forall_forall in Ha.
  destruct (Ha dpl ltac:(apply elem_of_seqZ; lia)) as (Hp & Hkd & Hdp). split; [done| |done|done|done|].
  - by apply split_16_16_32.
  - by apply gate_ist.
Qed.

(** Installing a gate per row of a table whose vectors are distinct. *)
Lemma for_each_gates {R} (key : R -> Z) (val : R -> idt_entry) rows : forall d,
  NoDup (key <$> rows) -> Forall (fun r => 0 <= key r < Z.of_nat (length (idt d))) rows ->
  exists l, for_each rows (fun r => modify (fun d => d <| idt ::= <[Z.to_nat (key r) := val r]> |>)) d =
      Ret tt (d <| idt := l |>) /\
    length l = length (idt d) /\
    (forall r, r ∈ rows -> l !! Z.to_nat (key r) = Some (val r)) /\
    (forall n, 0 <= n -> n ∉ key <$> rows -> l !! Z.to_nat n = idt d !! Z.to_nat n).
Proof.
  induction rows as [|r rows IH]; intros d Hnd Hlt; simpl.
  - exists (idt d). split_and!; [by destruct d|done|by intros r ?%elem_of_nil|done].
  - rewrite fmap_cons in Hnd. apply NoDup_cons in Hnd as [Hnin Hnd]. apply Forall_cons in Hlt as [Hr Hlt]. mred.
    destruct (IH (d <| idt ::= <[Z.to_nat (key r) := val r]> |>)) as (l & E & Hl & Hin & Hout); [done| |].
    { simpl. rewrite length_insert. done. }
    simpl in Hl, Hout. rewrite length_insert in Hl. exists l. split_and!; [exact E|done| |].
    + intros x [->|Hx]%elem_of_cons; [|by apply Hin]. rewrite Hout by (done || lia).
      apply list_lookup_insert_eq. lia.
    + intros n Hn [Hne Hnot]%not_elem_of_cons. rewrite Hout by done. apply list_lookup_insert_ne. lia.
Qed.

Lemma exception_rows : NoDup (xv_vector <$> X86_EXCEPTION_VECTORS) /\
  Forall (fun r => 0 <= xv_vector r < 32 /\ 0 <= xv_gate_type r < 16 /\ 0 <= xv_dpl r < 4 /\ 0 <= xv_ist r < 8 /\
    (xv_ist r <> 0 <-> xv_vector r = 8)) X86_EXCEPTION_VECTORS.
Proof. split; apply (bool_decide_unpack _); vm_compute; exact Logic.I. Qed.

Lemma irq_rows : NoDup (iv_vector <$> X86_IRQ_VECTORS) /\
  Forall (fun r => 32 <= iv_vector r < 48 /\ 0 <= iv_gate_type r < 16 /\ 0 <= iv_dpl r < 4 /\ 0 <= iv_ist r < 8)
    X86_IRQ_VECTORS.
Proof. split; apply (bool_decide_unpack _); vm_compute; exact Logic.I. Qed.

Lemma double_fault_row r : r ∈ X86_EXCEPTION_VECTORS -> xv_vector r = 8 -> xv_ist r = X86_IST_DOUBLE_FAULT.
Proof.
  assert (Hall : Forall (fun r => xv_vector r = 8 -> xv_ist r = X86_IST_DOUBLE_FAULT) X86_EXCEPTION_VECTORS)
    by (apply (bool_decide_unpack _); vm_compute; exact Logic.I).
  rewrite Forall_forall in Hall. apply Hall.
Qed.

Lemma irq_ist r h kind dpl : r ∈ X86_IRQ_VECTORS -> ist (gate h kind dpl (iv_ist r)) = 0.
Proof.
  assert (Hall : Forall (fun r => iv_ist r = 0) X86_IRQ_VECTORS) by (apply (bool_decide_unpack _); vm_compute; exact Logic.I).
  rewrite Forall_forall in Hall. intros Hr. by rewrite (Hall r Hr).
Qed.

Lemma idt_init_run at_ d :
  length (idt d) = 256%nat ->
  exists l, idt_init at_ d = Ret tt (d <| idt := l |> <| idtr := Some (sizeof_idt - 1, addr_idt at_) |>) /\
    length l = 256%nat /\
    (forall r, r ∈ X86_EXCEPTION_VECTORS -> l !! Z.to_nat (xv_vector r) =
       Some (gate (stub at_ (xv_entry r)) (xv_gate_type r) (xv_dpl r) (xv_ist r))) /\
    (forall r, r ∈ X86_IRQ_VECTORS -> l !! Z.to_nat (iv_vector r) =
       Some (gate (stub at_ (iv_entry r)) (iv_gate_type r) (iv_dpl r) (iv_ist r))) /\
    (forall v, 0 <= v -> v ∉ xv_vector <$> X86_EXCEPTION_VECTORS -> v ∉ iv_vector <$> X86_IRQ_VECTORS ->
       l !! Z.to_nat v = idt d !! Z.to_nat v).
Proof.
  intros Hlen. destruct exception_rows as [Hnd Hrow]. destruct irq_rows as [Hnd' Hrow'].
  destruct (for_each_gates xv_vector
    (fun v => gate (stub at_ (xv_entry v)) (xv_gate_type v) (xv_dpl v) (xv_ist v)) X86_EXCEPTION_VECTORS d)
    as (l1 & E1 & Hl1 & Hin1 & Hout1); [done|eapply Forall_impl; [exact Hrow|]; simpl; lia|].
  destruct (for_each_gates iv_vector
    (fun v => gate (stub at_ (iv_entry v)) (iv_gate_type v) (iv_dpl v) (iv_ist v)) X86_IRQ_VECTORS (d <| idt := l1 |>))
    as (l2 & E2 & Hl2 & Hin2 & Hout2); [done|eapply Forall_impl; [exact Hrow'|]; simpl; lia|].
  simpl in Hl2, Hout2. exists l2. split_and!.
  - unfold idt_init, idt_set_gate. mrun E1. by mrun E2.
  - lia.
  - intros r Hr. rewrite Forall_forall in Hrow. pose proof (Hrow r Hr) as Hb. rewrite Hout2; [by apply Hin1|lia|].
    change (xv_vector r ∉ iv_vector <$> X86_IRQ_VECTORS).
    rewrite Forall_forall in Hrow'. intros (r' & E & Hr')%list_elem_of_fmap. specialize (Hrow' r' Hr'). lia.
  - exact Hin2.
  - intros v Hv Hx Hi. by rewrite Hout2, Hout1.
Qed.

Definition tss_base (t : tss_descriptor) : Z :=
  td_base_low t + td_base_mid t * 65536 + td_base_high t * 16777216 + td_base_upper t * 4294967296.
Definition tss_limit (t : tss_descriptor) : Z := td_limit_low t + Z.land (td_limit_flags t) 15 * 65536.

Lemma make_tss_descriptor_decodes base limit :
  in64 base -> 0 <= limit < 1048576 ->
  tss_base (make_tss_descriptor base limit) = base /\ tss_limit (make_tss_descriptor base limit) = limit.
Proof.
  unfold in64. intros Hb Hl. unfold tss_base, tss_limit, wrap8, wrap16, wrap32. simpl.
  change 15 with (2 ^ 4 - 1). unfold wrap16, wrap8, wrap32.
  rewrite !land_16, !land_8, !land_ones_mod, !Z.shiftr_div_pow2 by lia. split; div_lia.
Qed.

(** What the CPU finds when the tables are loaded: a gate to the stub of every vector of the
    two tables, no other gate, the task-state segment, and a stack of its own for the one
    vector that asks for it. *)
Definition traps_installed at_ d' : Prop :=
  (forall r, r ∈ X86_EXCEPTION_VECTORS -> exists e, idt d' !! Z.to_nat (xv_vector r) = Some e /\
     enters e (stub at_ (xv_entry r)) (xv_gate_type r) (xv_dpl r) (xv_ist r)) /\
  (forall r, r ∈ X86_IRQ_VECTORS -> exists e, idt d' !! Z.to_nat (iv_vector r) = Some e /\
     enters e (stub at_ (iv_entry r)) (iv_gate_type r) (iv_dpl r) (iv_ist r)) /\
  (forall v, 0 <= v < 256 -> v ∉ xv_vector <$> X86_EXCEPTION_VECTORS -> v ∉ iv_vector <$> X86_IRQ_VECTORS ->
     exists e, idt d' !! Z.to_nat v = Some e /\ gate_present e = false) /\
  idtr d' = Some (4095, addr_idt at_) /\ tss_base (gdt_tss (gdt d')) = addr_tss at_ /\
  tss_limit (gdt_tss (gdt d')) = 103 /\
  (forall v e, 0 <= v -> idt d' !! Z.to_nat v = Some e -> ist e <> 0 -> v = 8 /\
     tss_ist (tss d') !! Z.to_nat (ist e - 1) = Some (double_fault_stack at_ + DOUBLE_FAULT_STACK_SIZE)).

Lemma arch_traps_init_run at_ d :
  idt d = replicate 256 idt_absent -> (forall s, in64 (stub at_ s)) -> in64 (addr_tss at_) ->
  length (tss_ist (tss d)) = 7%nat -> in64 (double_fault_stack at_ + DOUBLE_FAULT_STACK_SIZE) ->
  exists d', arch_traps_init at_ d = Ret tt d' /\ traps_installed at_ d'.
Proof.
  intros Hempty Hstub Htss Hist Hdf. unfold arch_traps_init.
  set (d1 := match gdt_init at_ d with Ret _ d1 => d1 | _ => d end).
  assert (E1 : gdt_init at_ d = Ret tt d1) by done.
  assert (Hlen : length (idt d1) = 256%nat) by (simpl; by rewrite Hempty, length_replicate).
  destruct (idt_init_run at_ d1 Hlen) as (l & E & Hl & Hx & Hi & Ho).
  assert (Hfree : forall v, 0 <= v < 256 -> v ∉ xv_vector <$> X86_EXCEPTION_VECTORS ->
    v ∉ iv_vector <$> X86_IRQ_VECTORS -> l !! Z.to_nat v = Some idt_absent).
  { intros v Hv Hnx Hni. rewrite Ho by (done || lia). simpl. rewrite Hempty. apply lookup_replicate. split; [done|lia]. }
  destruct exception_rows as [_ Hrow]. destruct irq_rows as [_ Hrow']. rewrite Forall_forall in Hrow. rewrite Forall_forall in Hrow'.
  destruct (make_tss_descriptor_decodes (addr_tss at_) (sizeof_tss - 1)) as [Hb Hlim]; [done|unfold sizeof_tss; lia|].
  eexists. split; [mrun E1; exact E|]. unfold traps_installed. split_and!; simpl; try done.
  - intros r Hr. eexists. split; [by apply Hx|]. specialize (Hrow r Hr). apply gate_enters; [apply Hstub|lia..].
  - intros r Hr. eexists. split; [by apply Hi|]. specialize (Hrow' r Hr). apply gate_enters; [apply Hstub|lia..].
  - intros v Hv Hnx Hni. eexists. split; [by apply Hfree|done].
  - intros v e Hv He Hne. assert (Hv256 : v < 256) by (apply lookup_lt_Some in He; lia).
    destruct (decide (v ∈ xv_vector <$> X86_EXCEPTION_VECTORS)) as [Hin|Hnx].
    + apply list_elem_of_fmap in Hin as (r & -> & Hr). rewrite (Hx r Hr) in He. injection He as <-.
      destruct (Hrow r Hr) as (_ & _ & _ & Hist8 & Hdf8). rewrite (gate_ist _ _ _ _ Hist8) in Hne |- *.
      assert (H8 : xv_vector r = 8) by tauto. split; [done|]. rewrite (double_fault_row r Hr H8). simpl.
      rewrite list_lookup_insert_eq by (rewrite Hist; by apply Nat.ltb_lt). f_equal. by apply wrap64_id.
    + destruct (decide (v ∈ iv_vector <$> X86_IRQ_VECTORS)) as [Hin|Hni].
      * apply list_elem_of_fmap in Hin as (r & -> & Hr). rewrite (Hi r Hr) in He. injection He as <-.
        rewrite irq_ist in Hne; done.
      * rewrite Hfree in He by done. injection He as <-. done.
Qed.

(** C33.  [arch_traps_init] on a table of 256 empty gates: every exception and IRQ
    vector of the table has a present gate whose three offset fields together are the
    address of its stub, with the kind, privilege level and stack of its row; all other
    gates stay empty.  The task-state segment's descriptor has its address, and the only
    gate that switches stacks, the double fault's, gets the top of the stack made
    for it. *)
Theorem arch_traps_init_installs at_ d :
  idt d = replicate 256 idt_absent -> (forall s, in64 (stub at_ s)) -> in64 (addr_tss at_) ->
  length (tss_ist (tss d)) = 7%nat -> in64 (double_fault_stack at_ + DOUBLE_FAULT_STACK_SIZE) ->
  exists d', arch_traps_init at_ d = Ret tt d' /\
    (forall r, r ∈ X86_EXCEPTION_VECTORS -> exists e, idt d' !! Z.to_nat (xv_vector r) = Some e /\
       enters e (stub at_ (xv_entry r)) (xv_gate_type r) (xv_dpl r) (xv_ist r)) /\
    (forall r, r ∈ X86_IRQ_VECTORS -> exists e, idt d' !! Z.to_nat (iv_vector r) = Some e /\
       enters e (stub at_ (iv_entry r)) (iv_gate_type r) (iv_dpl r) (iv_ist r)) /\
    (forall v, 0 <= v < 256 -> v ∉ xv_vector <$> X86_EXCEPTION_VECTORS -> v ∉ iv_vector <$> X86_IRQ_VECTORS ->
       exists e, idt d' !! Z.to_nat v = Some e /\ gate_present e = false) /\
    idtr d' = Some (4095, addr_idt at_) /\ tss_base (gdt_tss (gdt d')) = addr_tss at_ /\
    tss_limit (gdt_tss (gdt d')) = 103 /\
    (forall v e, 0 <= v -> idt d' !! Z.to_nat v = Some e -> ist e <> 0 -> v = 8 /\
       tss_ist (tss d') !! Z.to_nat (ist e - 1) = Some (double_fault_stack at_ + DOUBLE_FAULT_STACK_SIZE)).
Proof. exact (arch_traps_init_run at_ d). Qed.

(** A kernel linked at the top of the address space. *)
Definition demo_layout : layout :=
  Layout 0xffffffff80010000 0xffffffff80020000 0xffffffff80030000 0xffffffff80031000 0xffffffff80032000
    (fun s => 0xffffffff80000000 + 16 * (Z.of_nat (String.length s) mod 64)).

Definition demo_descriptors : descriptors :=
  Descriptors (TssEntry 0 (replicate 7 0) 0)
    (GdtTable (GdtEntry 0 0 0 0 0 0) (GdtEntry 0 0 0 0 0 0) (GdtEntry 0 0 0 0 0 0) (TssDescriptor 0 0 0 0 0 0 0 0))
    None 0 (replicate 256 idt_absent) None 0 0.

Lemma arch_traps_init_installs_witness :
  exists d', arch_traps_init demo_layout demo_descriptors = Ret tt d' /\
    exists e, idt d' !! 8%nat = Some e /\ gate_present e = true /\ ist e = 1.
Proof.
  destruct (arch_traps_init_installs demo_layout demo_descriptors) as (d' & E & Hx & _).
  - reflexivity.
  - intros s. unfold in64. cbn [stub demo_layout]. pose proof (Z.mod_pos_bound (Z.of_nat (String.length s)) 64). lia.
  - unfold in64. cbn. lia.
  - reflexivity.
  - unfold in64, DOUBLE_FAULT_STACK_SIZE. cbn. lia.
  - exists d'. split; [exact E|].
    destruct (Hx (ExceptionVector 8 "exception_8" 1 X86_IDT_INTERRUPT_GATE X86_IDT_DPL0 X86_IST_DOUBLE_FAULT
      "double fault" x86_handle_double_fault)) as (e & He & Hen).
    + do 8 right. left.
    + exists e. split; [exact He|]. destruct Hen. split; assumption.
Defined.
