(* ===== verification/Devices.v ===== *)
(** * The drivers' static data, and kernel/printk/console.c

    The input core, the tty, the PS/2 keyboard, the work queue, the IRQ table and the
    consoles keep their state in static objects.  They are one record beside the heap,
    so that the scheduler's state over [memory H] holds all of it and a thread that
    blocks sees what the drivers did meanwhile. *)

From S2P Require Import Prelude LinkedList PhysMem Switch KState Sched SchedCore WaitQueue.

(** ** Data *)

Record input_event := InputEvent {
  ev_type : Z;
  ev_code : Z;
  ev_value : Z;
  ev_modifiers : Z;
  ev_device : Z;
  ev_timestamp : Z
}.

Record input_dev := InputDev {
  dev_name : option string;
  bus : Z;
  capabilities : Z;
  dev_id : Z;
  dev_registered : Z
}.
#[export] Instance eta_input_dev : Eta input_dev := fun d =>
  InputDev (dev_name d) (bus d) (capabilities d) (dev_id d) (dev_registered d).

(** [struct input_queue]; its [wait] is the wait queue at [addr_input_wait]. *)
Record input_queue_t := InputQueue {
  iq_events : list input_event;
  iq_head : Z;
  iq_tail : Z;
  iq_count : Z;
  iq_dropped : Z;
  iq_last : input_event;
  iq_devices : list Z;
  iq_device_count : Z;
  iq_next_device_id : Z;
  iq_has_last : Z;
  iq_initialized : Z
}.
#[export] Instance eta_input_queue : Eta input_queue_t := fun q =>
  InputQueue (iq_events q) (iq_head q) (iq_tail q) (iq_count q) (iq_dropped q) (iq_last q) (iq_devices q)
    (iq_device_count q) (iq_next_device_id q) (iq_has_last q) (iq_initialized q).

(** [struct tty_line_queue], at [addr_tty_wait], and the line being edited. *)
Record tty_t := Tty {
  tl_lines : list (list Z);
  tl_lengths : list Z;
  tl_head : Z;
  tl_tail : Z;
  tl_count : Z;
  tl_dropped : Z;
  edit_line : list Z;
  edit_length : Z;
  tty_ready : Z
}.
#[export] Instance eta_tty : Eta tty_t := fun t =>
  Tty (tl_lines t) (tl_lengths t) (tl_head t) (tl_tail t) (tl_count t) (tl_dropped t) (edit_line t)
    (edit_length t) (tty_ready t).

(** [struct ps2_keyboard]; its work item is at [addr_ps2_work]. *)
Record ps2_keyboard_t := Ps2Keyboard {
  raw : list Z;
  ps_head : Z;
  ps_tail : Z;
  ps_count : Z;
  ps_dropped : Z;
  ps_modifiers : Z;
  extended_pending : Z;
  pause_bytes : Z;
  ps_initialized : Z
}.
#[export] Instance eta_ps2_keyboard : Eta ps2_keyboard_t := fun p =>
  Ps2Keyboard (raw p) (ps_head p) (ps_tail p) (ps_count p) (ps_dropped p) (ps_modifiers p) (extended_pending p)
    (pause_bytes p) (ps_initialized p).

(** The functions work items and IRQ actions point to. *)
Inductive work_func := PS2_KEYBOARD_WORK | WORKQUEUE_SELFTEST_ENTRY.
Inductive irq_handler := TIMER_IRQ_HANDLER | PS2_KEYBOARD_IRQ_HANDLER.

#[export] Instance work_func_eq_dec : EqDecision work_func.
Proof. solve_decision. Defined.
#[export] Instance irq_handler_eq_dec : EqDecision irq_handler.
Proof. solve_decision. Defined.

Record work_struct := WorkStruct { func : option work_func; data : Z; wk_next : Z; pending : Z }.
#[export] Instance eta_work : Eta work_struct := fun w => WorkStruct (func w) (data w) (wk_next w) (pending w).

(** [struct workqueue], at [addr_wq_wait], and the flag of its self-test. *)
Record workqueue_t := Workqueue {
  wq_head : Z;
  wq_tail : Z;
  started : Z;
  wq_initialized : Z;
  workqueue_selftest_done : Z
}.
#[export] Instance eta_workqueue : Eta workqueue_t := fun w =>
  Workqueue (wq_head w) (wq_tail w) (started w) (wq_initialized w) (workqueue_selftest_done w).

Record irq_action := IrqAction { ia_handler : option irq_handler; ia_data : Z }.

(** A console backend: [has_write] says its callback is there. *)
Record console_t := Console { has_write : bool; cn_next : Z }.
#[export] Instance eta_console : Eta console_t := fun c => Console (has_write c) (cn_next c).

(** [struct printk_ring] and [printk_ready]. *)
Record printk_ring_t := PrintkRing {
  pk_buffer : list Z;
  pk_head : Z;
  pk_count : Z;
  pk_dropped : Z;
  printk_ready : Z
}.
#[export] Instance eta_printk_ring : Eta printk_ring_t := fun r =>
  PrintkRing (pk_buffer r) (pk_head r) (pk_count r) (pk_dropped r) (printk_ready r).

(** [port_writes] are the OUT instructions so far, the latest last; [port_reads] the
    values IN will deliver per port.  [shown] are the calls of the consoles' write
    callbacks, byte by byte with the console's address, 0 for the early log. *)
Record devices := Devices {
  inputq : input_queue_t;
  input_devs : gmap Z input_dev;
  tty : tty_t;
  kbd : ps2_keyboard_t;
  works : gmap Z work_struct;
  sysworkq : workqueue_t;
  irq_actions : list irq_action;
  port_writes : list (Z * Z);
  port_reads : gmap Z (list Z);
  consoles : gmap Z console_t;
  console_list : Z;
  shown : list (Z * Z);
  printk_ring : printk_ring_t
}.
#[export] Instance eta_devices : Eta devices := fun d =>
  Devices (inputq d) (input_devs d) (tty d) (kbd d) (works d) (sysworkq d) (irq_actions d) (port_writes d)
    (port_reads d) (consoles d) (console_list d) (shown d) (printk_ring d).

(** The addresses the linker gives to the static objects and thread entries; what the
    drivers rely on is that objects are apart and not at NULL, and that functions are not at NULL. *)
Class Statics := {
  addr_input_wait : Z;
  addr_tty_wait : Z;
  addr_wq_wait : Z;
  addr_ps2_work : Z;
  addr_selftest_work : Z;
  addr_ps2_input_dev : Z;
  entry_workqueue_thread : Z;
  entry_input_console_thread : Z;
  entry_kdb_thread : Z;
  static_entries : Forall (fun a => a <> 0) [entry_workqueue_thread; entry_input_console_thread; entry_kdb_thread];
  static_objects : NoDup [0; addr_input_wait; addr_tty_wait; addr_wq_wait; addr_ps2_work; addr_selftest_work;
                          addr_ps2_input_dev]
}.

(** ** Heap and static data *)

Record memory (H : Type) := Memory { heap_part : H; devs : devices }.
Arguments Memory {H} _ _.
Arguments heap_part {H} _.
Arguments devs {H} _.
#[export] Instance eta_memory {H} : Eta (memory H) := fun m => Memory (heap_part m) (devs m).

Definition on_heap_part {H A} (m : M H A) : M (memory H) A := zoom heap_part (fun h m => m <| heap_part := h |>) m.

#[export] Instance memory_kalloc {H} `{KAlloc H} : KAlloc (memory H) := {|
  mem_alloc n := on_heap_part (mem_alloc n);
  mem_free p := on_heap_part (mem_free p)
|}.

#[export] Program Instance memory_kalloc_spec {H} `{KAllocSpec H} : KAllocSpec (memory H) := {|
  mem_ok live m := mem_ok live (heap_part m);
  mem_room m := mem_room (heap_part m);
  mem_lo := mem_lo (H := H);
  mem_hi := mem_hi (H := H)
|}.
Next Obligation.
  intros H ? ? live [h d] n Hok Hn Hr. destruct (mem_alloc_law live h n Hok Hn Hr) as (p & h' & E & Hr' & Hc).
  exists p, (Memory h' d). split; [|by split]. exact (zoom_run heap_part (fun h m => m <| heap_part := h |>) _ (Memory h d) _ _ E).
Qed.
Next Obligation.
  intros H ? ? live [h d] p m Hok Hf. destruct (mem_free_law live h p m Hok Hf) as (h' & E & Hr & Hok').
  exists (Memory h' d). split; [|by split]. exact (zoom_run heap_part (fun h m => m <| heap_part := h |>) _ (Memory h d) _ _ E).
Qed.
Next Obligation. intros H ? ? live [h d] p m q n. apply mem_disjoint_law. Qed.
Next Obligation. intros H ? ? live [h d] p m. apply mem_range_law. Qed.

Section ops.
Context {H : Type} `{KAlloc H}.
Abbreviation K := (M (kernel (memory H))).

Definition dev {A} (f : devices -> A) : K A := gets (fun k => f (devs (kheap k))).
Definition set_dev (f : devices -> devices) : K unit := modify (fun k => k <| kheap ::= (fun m => m <| devs ::= f |>) |>).

(** ** arch/x86/include/arch/io.h *)

Definition outb (port value : Z) : K unit := set_dev (fun d => d <| port_writes ::= (fun l => l ++ [(port, value)]) |>).

(** The next value the port delivers; a port with nothing behind it reads as ones. *)
Definition inb (port : Z) : K Z :=
  l ← dev (fun d => default [] (port_reads d !! port));
  match l with
  | [] => mret 0xff
  | v :: rest => set_dev (fun d => d <| port_reads ::= <[port := rest]> |>) ;; mret v
  end.

(** ** kernel/printk/console.c *)

Definition console_at (c : Z) : K console_t := deref (fun k => consoles (devs (kheap k)) !! c).

Definition console_fuel : K nat := dev (fun d => S (size (consoles d))).

Definition find_console (target cursor : Z) : K (Z + bool) :=
  if bool_decide (cursor = 0) then mret (inr false)
  else if bool_decide (cursor = target) then mret (inr true)
  else c ← console_at cursor; mret (inl (cn_next c)).

Definition register_console (console : Z) : K Z :=
  if bool_decide (console = 0) then mret (- EINVAL)
  else
    c ← console_at console;
    if negb (has_write c) then mret (- EINVAL)
    else
      first ← dev console_list;
      fuel ← console_fuel;
      found ← loop fuel (find_console console) first;
      if found : bool then mret 0
      else
        c ← console_at console;
        set_dev (fun d => d <| consoles ::= <[console := c <| cn_next := first |>]> |>) ;;
        set_dev (fun d => d <| console_list := console |>) ;;
        mret 0.

(** A call of the backend's write callback. *)
Definition console_write (console : Z) (text : list Z) : K unit :=
  set_dev (fun d => d <| shown ::= (fun l => l ++ ((fun b => (console, b)) <$> text)) |>).

Definition write_loop (text : list Z) (v : Z * Z) : K (Z * Z + Z) :=
  let '(console, count) := v in
  if bool_decide (console = 0) then mret (inr count)
  else
    c ← console_at console;
    console_write console text ;;
    mret (inl (cn_next c, count + 1)).

Definition console_write_all (text : list Z) : K Z :=
  if bool_decide (text = []) then mret 0
  else
    first ← dev console_list;
    fuel ← console_fuel;
    count ← loop fuel (write_loop text) (first, 0);
    when (bool_decide (count = 0)) (console_write 0 text) ;;
    mret count.
End ops.

(** A newline is shown as CR LF. *)
Definition line_end (ch : Z) : list Z := if decide (ch = 10) then [13; 10] else [ch].
Definition crlf (text : list Z) : list Z := text ≫= line_end.

Lemma crlf_app s t : crlf (s ++ t) = crlf s ++ crlf t.
Proof. apply bind_app. Qed.

Section theory.
Context {H : Type} `{KAlloc H}.
Implicit Types (k : kernel (memory H)) (cs text : list Z).

Definition with_devs (f : devices -> devices) k : kernel (memory H) := k <| kheap ::= (fun m => m <| devs ::= f |>) |>.

Lemma with_devs_ext f g k : f (devs (kheap k)) = g (devs (kheap k)) -> with_devs f k = with_devs g k.
Proof. unfold with_devs. simpl. by intros ->. Qed.

Lemma with_devs_id f k : f (devs (kheap k)) = devs (kheap k) -> with_devs f k = k.
Proof. intros E. rewrite (with_devs_ext f (fun d => d)) by done. by destruct k as [[]]. Qed.

Lemma with_devs_comp f g k : with_devs f (with_devs g k) = with_devs (fun d => f (g d)) k.
Proof. reflexivity. Qed.

Lemma dev_run {A} (f : devices -> A) k : dev f k = Ret (f (devs (kheap k))) k.
Proof. reflexivity. Qed.

Lemma set_dev_run f k : set_dev f k = Ret tt (with_devs f k).
Proof. reflexivity. Qed.

Lemma bind_dev {A B} (f : devices -> A) (c : A -> M (kernel (memory H)) B) k :
  (x ← dev f; c x) k = c (f (devs (kheap k))) k.
Proof. reflexivity. Qed.

Lemma bind_set_dev {B} f (c : unit -> M (kernel (memory H)) B) k :
  (x ← set_dev f; c x) k = c tt (with_devs f k).
Proof. reflexivity. Qed.

(** Leaving a critical section entered from [k] in the state [k2]. *)
Lemma unlock_after k lk k2 :
  locks k !! lk = Some 0 -> 0 <= spinlock_depth k ->
  locks k2 = locks (enter lk k) -> spinlock_depth k2 = spinlock_depth (enter lk k) ->
  rflags k2 = rflags (enter lk k) ->
  spin_unlock_irqrestore (Some lk) (rflags k) k2 =
  Ret tt (k2 <| locks := locks k |> <| spinlock_depth := spinlock_depth k |> <| rflags := rflags k |>).
Proof.
  intros Hl Hd E1 E2 E3. rewrite (spin_unlock_run k2 lk 1).
  - by rewrite (leave_enter lk k k2 Hl E1 E2 E3).
  - rewrite E1. apply lookup_insert_eq.
  - done.
  - rewrite E2. simpl. lia.
Qed.

Lemma unlock_with_devs f k lk :
  locks k !! lk = Some 0 -> 0 <= spinlock_depth k ->
  spin_unlock_irqrestore (Some lk) (rflags k) (with_devs f (enter lk k)) = Ret tt (with_devs f k).
Proof. intros Hl Hd. rewrite (unlock_after k lk) by done. by destruct k. Qed.

Lemma unlock_entered k lk :
  locks k !! lk = Some 0 -> 0 <= spinlock_depth k ->
  spin_unlock_irqrestore (Some lk) (rflags k) (enter lk k) = Ret tt k.
Proof. intros Hl Hd. rewrite (unlock_after k lk) by done. by destruct k. Qed.

(** ** Consoles *)

Definition cnext (d : devices) (c : Z) : option Z := cn_next <$> consoles d !! c.

(** The registered consoles, the latest first. *)
Definition console_chain (d : devices) cs : Prop := lseg (cnext d) (console_list d) cs 0.

Definition tagged (text : list Z) (c : Z) : list (Z * Z) := (fun b => (c, b)) <$> text.

(** What one call shows, and where. *)
Definition display cs text : list (Z * Z) :=
  match cs with [] => tagged text 0 | _ => cs ≫= tagged text end.

(** What the console at [c] has shown so far. *)
Definition screen (d : devices) (c : Z) : list Z := snd <$> filter (fun p => p.1 = c) (shown d).

Lemma chain_length d cs : console_chain d cs -> (length cs <= size (consoles d))%nat.
Proof.
  intros Hc. pose proof (lseg_NoDup _ _ _ Hc) as Hnd. rewrite <- (length_map_to_list (consoles d)), <- (length_fmap fst).
  apply submseteq_length, NoDup_submseteq; [done|]. intros c Hin.
  destruct (lseg_next_is_Some _ _ _ _ _ Hc Hin) as [n Hn]. apply fmap_Some in Hn as (x & Hx & _).
  apply list_elem_of_fmap. exists (c, x). split; [done|]. by apply elem_of_map_to_list.
Qed.

Lemma write_step text c n x k :
  c <> 0 -> consoles (devs (kheap k)) !! c = Some x ->
  write_loop text (c, n) k =
  Ret (inl (cn_next x, n + 1)) (with_devs (fun d => d <| shown ::= (fun l => l ++ tagged text c) |>) k).
Proof.
  intros Hc Hx. unfold write_loop. rewrite bool_decide_eq_false_2 by done. unfold console_at, console_write.
  by erewrite bind_deref by exact Hx.
Qed.

Lemma write_loop_run text cs : forall fuel p n k,
  lseg (cnext (devs (kheap k))) p cs 0 -> (length cs < fuel)%nat ->
  loop fuel (write_loop text) (p, n) k =
  Ret (n + Z.of_nat (length cs)) (with_devs (fun d => d <| shown ::= (fun l => l ++ (cs ≫= tagged text)) |>) k).
Proof.
  induction cs as [|c cs IH]; intros fuel p n k Hl Hf; (destruct fuel as [|fuel]; [simpl in Hf; lia|]); rewrite loop_S.
  - simpl in Hl. subst p. unfold write_loop. rewrite bool_decide_eq_true_2 by done. mred. simpl.
    rewrite Z.add_0_r. f_equal. symmetry. apply with_devs_id. destruct (devs (kheap k)). cbn. by rewrite app_nil_r.
  - destruct Hl as (-> & Hc & nx & Hn & Hl). apply fmap_Some in Hn as (x & Hx & ->).
    mrun (write_step text c n x k Hc Hx). rewrite IH; [|done|simpl in Hf; lia]. f_equal; [simpl length; lia|].
    rewrite with_devs_comp. apply with_devs_ext. destruct (devs (kheap k)). cbn. by rewrite <- app_assoc.
Qed.

Lemma console_write_all_run text k cs :
  text <> [] -> console_chain (devs (kheap k)) cs ->
  console_write_all text k =
  Ret (Z.of_nat (length cs)) (with_devs (fun d => d <| shown ::= (fun l => l ++ display cs text) |>) k).
Proof.
  intros Ht Hc. unfold console_write_all, console_fuel. rewrite bool_decide_eq_false_2 by done. rewrite !bind_dev.
  erewrite bind_run by (apply (write_loop_run text cs); [exact Hc|apply Nat.lt_succ_r; by apply chain_length]).
  rewrite Z.add_0_l. destruct cs as [|c cs].
  - rewrite (bool_decide_eq_true_2 (Z.of_nat (length (@nil Z)) = 0)) by done. unfold console_write. mred.
    rewrite bind_set_dev. mred. f_equal. rewrite with_devs_comp. apply with_devs_ext.
    destruct (devs (kheap k)). cbn. by rewrite app_nil_r.
  - rewrite bool_decide_eq_false_2 by (simpl; lia). by mred.
Qed.

Lemma filter_tagged text c c' :
  filter (fun p : Z * Z => p.1 = c) (tagged text c') = if bool_decide (c' = c) then tagged text c' else [].
Proof.
  unfold tagged. induction text as [|b text IH]; [by case_bool_decide|].
  rewrite fmap_cons, filter_cons. cbn [fst]. rewrite IH. destruct (decide (c' = c)) as [E|E].
  - by rewrite bool_decide_eq_true_2.
  - by rewrite bool_decide_eq_false_2.
Qed.

Lemma filter_bind_tagged text cs c :
  NoDup cs -> filter (fun p : Z * Z => p.1 = c) (cs ≫= tagged text) = if bool_decide (c ∈ cs) then tagged text c else [].
Proof.
  induction cs as [|c' cs IH]; intros Hnd; [done|]. apply NoDup_cons in Hnd as [Hn Hnd].
  rewrite bind_cons, filter_app, filter_tagged, IH by done. destruct (decide (c' = c)) as [->|Hne].
  - rewrite (bool_decide_eq_true_2 (c = c)), (bool_decide_eq_false_2 (c ∈ cs)), bool_decide_eq_true_2 by (done || left).
    by rewrite app_nil_r.
  - rewrite (bool_decide_eq_false_2 (c' = c)) by done. simpl.
    by rewrite (bool_decide_ext (c ∈ c' :: cs) (c ∈ cs)) by set_solver.
Qed.

(** Every registered console shows the text, and with none registered the early log. *)
Lemma screen_display d cs text c :
  console_chain d cs -> (c ∈ cs \/ (cs = [] /\ c = 0)) ->
  screen (d <| shown ::= (fun l => l ++ display cs text) |>) c = screen d c ++ text.
Proof.
  intros Hc Hin. unfold screen. simpl. rewrite filter_app, fmap_app. f_equal.
  assert (Ef : filter (fun p : Z * Z => p.1 = c) (display cs text) = tagged text c).
  { unfold display. destruct cs as [|c0 cs'].
    - destruct Hin as [[]%elem_of_nil|[_ ->]]. by rewrite filter_tagged, bool_decide_eq_true_2.
    - destruct Hin as [Hin|[? _]]; [|done].
      rewrite filter_bind_tagged by (eapply lseg_NoDup; exact Hc). by rewrite bool_decide_eq_true_2. }
  rewrite Ef. unfold tagged. rewrite <- list_fmap_compose. by rewrite list_fmap_id.
Qed.

Lemma find_console_run target k : target <> 0 -> forall cs fuel p,
  lseg (cnext (devs (kheap k))) p cs 0 -> (length cs < fuel)%nat ->
  loop fuel (find_console target) p k = Ret (bool_decide (target ∈ cs)) k.
Proof.
  intros Ht. induction cs as [|c cs IH]; intros fuel p Hl Hf; (destruct fuel as [|fuel]; [simpl in Hf; lia|]); rewrite loop_S.
  - simpl in Hl. subst p. by erewrite bind_run by (unfold find_console; rewrite bool_decide_eq_true_2 by done; reflexivity).
  - destruct Hl as (-> & Hc & nx & Hn & Hl). apply fmap_Some in Hn as (x & Hx & ->).
    destruct (decide (c = target)) as [->|Hne].
    + erewrite bind_run by (unfold find_console; rewrite bool_decide_eq_false_2, bool_decide_eq_true_2 by done; reflexivity).
      by rewrite bool_decide_eq_true_2 by left.
    + erewrite bind_run by (unfold find_console, console_at; rewrite !bool_decide_eq_false_2 by done;
        erewrite bind_deref by exact Hx; reflexivity).
      cbv beta iota. rewrite (IH fuel _ Hl) by (simpl in Hf; lia).
      f_equal. apply bool_decide_ext. set_solver.
Qed.

(** Registering puts a console in front, once. *)
Lemma register_console_run c x k cs :
  console_chain (devs (kheap k)) cs -> c <> 0 -> consoles (devs (kheap k)) !! c = Some x -> has_write x = true ->
  exists k', register_console c k = Ret 0 k' /\
    console_chain (devs (kheap k')) (if decide (c ∈ cs) then cs else c :: cs) /\
    k' = with_devs (fun d => d <| consoles := consoles (devs (kheap k')) |> <| console_list := console_list (devs (kheap k')) |>) k /\
    (forall y, has_write <$> consoles (devs (kheap k')) !! y = has_write <$> consoles (devs (kheap k)) !! y).
Proof.
  intros Hc Hc0 Hx Hw. unfold register_console, console_fuel, console_at. rewrite bool_decide_eq_false_2 by done.
  erewrite bind_deref by exact Hx. rewrite Hw. cbn [negb]. rewrite !bind_dev.
  erewrite bind_run by (apply (find_console_run c k Hc0 cs); [exact Hc|apply Nat.lt_succ_r; by apply chain_length]).
  destruct (decide (c ∈ cs)) as [Hin|Hnin].
  - rewrite bool_decide_eq_true_2 by done. exists k. split_and!; [done|done| |done]. symmetry. apply with_devs_id. by destruct (devs (kheap k)).
  - rewrite bool_decide_eq_false_2 by done. erewrite bind_deref by exact Hx. rewrite !bind_set_dev, with_devs_comp.
    eexists. split; [reflexivity|]. split_and!; [|by destruct k as [[? []]]|].
    + split; [done|]. split; [done|]. exists (console_list (devs (kheap k))). split; [unfold cnext; simpl; by rewrite lookup_insert_eq|].
      eapply lseg_ext; [|exact Hc]. intros y Hy. unfold cnext. simpl. rewrite lookup_insert_ne; [done|]. by intros ->.
    + intros y. simpl. destruct (decide (y = c)) as [->|Hy]; [by rewrite lookup_insert_eq, Hx|by rewrite lookup_insert_ne].
Qed.
(** Computations that leave the drivers' data alone. *)
Abbreviation keeps_devs := (keeps (fun k : kernel (memory H) => devs (kheap k))).

Lemma keeps_alloc n : keeps_devs (on_heap (mem_alloc n)).
Proof.
  intros k r k'. unfold on_heap, zoom. simpl. unfold on_heap_part, zoom.
  destruct (mem_alloc n (heap_part (kheap k))); [|done..]. by intros [= _ <-].
Qed.

Lemma keeps_free p : keeps_devs (on_heap (mem_free p)).
Proof.
  intros k r k'. unfold on_heap, zoom. simpl. unfold on_heap_part, zoom.
  destruct (mem_free p (heap_part (kheap k))); [|done..]. by intros [= _ <-].
Qed.
End theory.

(** [dstep] steps through reads and writes of the drivers' data; successive writes
    become one [with_devs]. *)
Ltac dstep :=
  repeat first [ rewrite bind_dev | rewrite bind_set_dev | rewrite with_devs_comp | rewrite bind_ret
               | rewrite bind_assoc | rewrite bind_when_true | rewrite bind_when_false ];
  rewrite ?set_dev_run, ?dev_run, ?mret_run, ?with_devs_comp; cbv beta.

Ltac keep_devs := repeat first [ apply keeps_alloc | apply keeps_free | progress unfold on_machine | keep_step ].
