(* ===== verification/Printk.v ===== *)
(** * kernel/printk/printk.c: formatted log output

    [printk] formats a string, keeps the last 4096 bytes in a ring and sends every byte to
    the consoles.  A variable argument list is a list of values; a string is its bytes
    before the NUL.  The count of the characters is an [int]: the model keeps it at that width. *)

From S2P Require Import Prelude LinkedList Ring PhysMem Switch KState Sched SchedCore WaitQueue Devices.

Definition PRINTK_RING_SIZE : Z := 4096.

(** An argument: an integer or pointer, or a string ([None] for NULL). *)
Inductive va_value := VaInt (z : Z) | VaStr (s : option (list Z)).

(** The value of type [int], [long] or [long long] with the given bits. *)
Definition signed (bits z : Z) : Z := (z + 2 ^ (bits - 1)) mod 2 ^ bits - 2 ^ (bits - 1).

(** The digits of [value], least significant first, as the loop stores them; no more
    than 32 fit the array. *)
Fixpoint digit_loop (fuel : nat) (value base : Z) (digits : list Z) : option (list Z) :=
  match fuel with
  | O => None
  | S fuel =>
      if bool_decide (value = 0) then Some digits
      else
        if bool_decide (length digits < 32)%nat then digit_loop fuel (value / base) base (digits ++ [value mod base])
        else None
  end.

Definition digits_of (value base : Z) : option (list Z) :=
  if bool_decide (value = 0) then Some [0] else digit_loop 65 value base [].

(** ["0123456789abcdef"[d]] *)
Definition alphabet (d : Z) : Z := if bool_decide (d < 10) then 48 + d else 87 + d.

(** [while ( *fmt >= '0' && *fmt <= '9')] and [while ( *fmt == 'l')] *)
Fixpoint scan_width (fmt : list Z) (width : Z) : Z * list Z :=
  match fmt with
  | c :: rest => if bool_decide (48 <= c) && bool_decide (c <= 57)
                 then scan_width rest (wrap32 (wrap32 (width * 10) + (c - 48))) else (width, fmt)
  | [] => (width, fmt)
  end.

Fixpoint scan_longs (fmt : list Z) (n : Z) : Z * list Z :=
  match fmt with
  | c :: rest => if bool_decide (c = 108) then scan_longs rest (n + 1) else (n, fmt)
  | [] => (n, fmt)
  end.

(** The width of the integer a conversion with [longs] l's takes. *)
Definition arg_bits (longs : Z) : Z := if bool_decide (2 <= longs) then 64 else if bool_decide (longs = 1) then 64 else 32.

Section printk.
Context {H : Type} `{KAlloc H}.
Abbreviation K := (M (kernel (memory H))).

Definition pk {A} (f : printk_ring_t -> A) : K A := dev (fun d => f (printk_ring d)).
Definition set_pk (f : printk_ring_t -> printk_ring_t) : K unit := set_dev (fun d => d <| printk_ring ::= f |>).

Definition printk_ring_putc (ch : Z) : K unit :=
  head ← pk pk_head;
  _ ← deref (fun k => pk_buffer (printk_ring (devs (kheap k))) !! Z.to_nat head);
  set_pk (fun r => r <| pk_buffer ::= <[Z.to_nat head := ch]> |>) ;;
  set_pk (fun r => r <| pk_head := wrap64 (pk_head r + 1) mod PRINTK_RING_SIZE |>) ;;
  count ← pk pk_count;
  if bool_decide (count < PRINTK_RING_SIZE) then set_pk (fun r => r <| pk_count := wrap64 (pk_count r + 1) |>)
  else set_pk (fun r => r <| pk_dropped := wrap64 (pk_dropped r + 1) |>).

Definition printk_console_putc (ch : Z) : K unit :=
  when (bool_decide (ch = 10)) (console_write_all [13] ;; mret tt) ;;
  console_write_all [ch] ;;
  mret tt.

(** The emitters return the count after their output.  [*count] is an [int]; C leaves its
    overflow undefined, and it is modelled as the wrap-around of the machine. *)
Definition printk_emit_char (ch count : Z) : K Z :=
  ready ← pk printk_ready;
  when (negb (bool_decide (ready = 0))) (printk_ring_putc ch) ;;
  printk_console_putc ch ;;
  mret (signed 32 (count + 1)).

Fixpoint emit_all (text : list Z) (count : Z) : K Z :=
  match text with
  | [] => mret count
  | ch :: text => count ← printk_emit_char ch count; emit_all text count
  end.

Definition printk_emit_string (text : option (list Z)) (count : Z) : K Z :=
  match text with
  | None => emit_all [40; 110; 117; 108; 108; 41] count
  | Some text => emit_all text count
  end.

Definition printk_emit_unsigned_width (value base width pad count : Z) : K Z :=
  digits ← deref (fun _ => digits_of value base);
  let n := Z.of_nat (length digits) in
  count ← emit_all (replicate (Z.to_nat (width - n)) pad) count;
  emit_all (alphabet <$> reverse digits) count.

Definition printk_emit_unsigned (value base count : Z) : K Z := printk_emit_unsigned_width value base 0 32 count.

Definition printk_emit_signed (value count : Z) : K Z :=
  if bool_decide (value < 0) then
    count ← printk_emit_char 45 count;
    printk_emit_unsigned (wrap64 (wrap64 (- (value + 1)) + 1)) 10 count
  else printk_emit_unsigned (wrap64 value) 10 count.

(** [va_arg] *)
Definition va_int (args : list va_value) : K (Z * list va_value) :=
  match args with VaInt z :: args => mret (z, args) | _ => fault end.
Definition va_str (args : list va_value) : K (option (list Z) * list va_value) :=
  match args with VaStr s :: args => mret (s, args) | _ => fault end.

Definition emit_conversion (spec longs width pad : Z) (args : list va_value) (count : Z) : K (list va_value * Z) :=
  if bool_decide (spec = 99) then
    '(z, args) ← va_int args; count ← printk_emit_char (wrap8 (signed 32 z)) count; mret (args, count)
  else if bool_decide (spec = 115) then
    '(s, args) ← va_str args; count ← printk_emit_string s count; mret (args, count)
  else if bool_decide (spec = 100) || bool_decide (spec = 105) then
    '(z, args) ← va_int args; count ← printk_emit_signed (signed (arg_bits longs) z) count; mret (args, count)
  else if bool_decide (spec = 117) then
    '(z, args) ← va_int args;
    count ← printk_emit_unsigned_width (z mod 2 ^ arg_bits longs) 10 width pad count; mret (args, count)
  else if bool_decide (spec = 120) then
    '(z, args) ← va_int args;
    count ← printk_emit_unsigned_width (z mod 2 ^ arg_bits longs) 16 width pad count; mret (args, count)
  else if bool_decide (spec = 112) then
    count ← printk_emit_string (Some [48; 120]) count;
    '(z, args) ← va_int args; count ← printk_emit_unsigned (wrap64 z) 16 count; mret (args, count)
  else
    count ← printk_emit_char 37 count;
    count ← (if negb (bool_decide (spec = 0)) then printk_emit_char spec count else mret count);
    mret (args, count).

(** One round of the format loop; [None] is a pointer past the terminating NUL. *)
Definition format_round (v : option (list Z) * list va_value * Z) : K (option (list Z) * list va_value * Z + Z) :=
  let '(fmt, args, count) := v in
  match fmt with
  | None => fault
  | Some [] => mret (inr count)
  | Some (c :: fmt) =>
      if negb (bool_decide (c = 37)) then count ← printk_emit_char c count; mret (inl (Some fmt, args, count))
      else if bool_decide (hd_error fmt = Some 37) then
        count ← printk_emit_char 37 count; mret (inl (Some (List.tl fmt), args, count))
      else
        let '(pad, fmt) := if bool_decide (hd_error fmt = Some 48) then (48, List.tl fmt) else (32, fmt) in
        let '(width, fmt) := scan_width fmt 0 in
        let '(longs, fmt) := scan_longs fmt 0 in
        '(args, count) ← emit_conversion (default 0 (hd_error fmt)) longs width pad args count;
        mret (inl (match fmt with [] => None | _ :: fmt => Some fmt end, args, count))
  end.

Definition vprintk_format (fmt : option (list Z)) (args : list va_value) : K Z :=
  match fmt with
  | None => mret 0
  | Some fmt => loop (S (length fmt)) format_round (Some fmt, args, 0)
  end.

Definition printk_init : K unit :=
  ready ← pk printk_ready;
  if negb (bool_decide (ready = 0)) then mret tt
  else
    set_pk (fun r => r <| pk_head := 0 |>) ;;
    set_pk (fun r => r <| pk_count := 0 |>) ;;
    set_pk (fun r => r <| pk_dropped := 0 |>) ;;
    set_pk (fun r => r <| printk_ready := 1 |>).

Definition printk (fmt : option (list Z)) (args : list va_value) : K Z := vprintk_format fmt args.

Definition printk_level (level : Z) (fmt : option (list Z)) (args : list va_value) : K Z := vprintk_format fmt args.
End printk.

(** ** Numerals *)

Definition positional (base : Z) (ds : list Z) : Z := foldl (fun v d => v * base + d) 0 ds.

(** [ds] writes [v] in the given base, most significant digit first, without leading
    zeros. *)
Definition numeral (base v : Z) (ds : list Z) : Prop :=
  Forall (fun d => 0 <= d < base) ds /\ positional base ds = v /\ (ds = [0] \/ exists d ds', ds = d :: ds' /\ d <> 0).

Lemma positional_snoc base ds d : positional base (ds ++ [d]) = positional base ds * base + d.
Proof. unfold positional. by rewrite foldl_app. Qed.

Lemma digit_loop_run base n : forall fuel v acc,
  2 <= base -> 0 <= v < base ^ Z.of_nat n -> (n < fuel)%nat -> (length acc + n <= 32)%nat ->
  exists r, digit_loop fuel v base acc = Some (acc ++ r) /\ (length r <= n)%nat /\
    Forall (fun d => 0 <= d < base) (reverse r) /\ positional base (reverse r) = v /\
    (v <> 0 -> exists d ds, reverse r = d :: ds /\ d <> 0).
Proof.
  induction n as [|n IH]; intros fuel v acc Hb Hv Hf Hl; (destruct fuel as [|fuel]; [lia|]); cbn [digit_loop];
    destruct (decide (v = 0)) as [->|Hne].
  1,3: exists []; rewrite bool_decide_eq_true_2, app_nil_r by done; split_and!; [done|simpl; lia|done|done|done].
  { change (base ^ Z.of_nat 0) with 1 in Hv. lia. }
  rewrite bool_decide_eq_false_2, bool_decide_eq_true_2 by (done || lia).
  replace (base ^ Z.of_nat (S n)) with (base * base ^ Z.of_nat n) in Hv
    by (rewrite Nat2Z.inj_succ, Z.pow_succ_r by lia; done).
  destruct (IH fuel (v / base) (acc ++ [v mod base])) as (r & E & Hr & Hd & Hp & Hz); [done| |lia|rewrite length_app; simpl; lia|].
  { split; [apply Z.div_pos; lia|]. apply Z.div_lt_upper_bound; lia. }
  pose proof (Z.mod_pos_bound v base ltac:(lia)) as Hm. pose proof (Z.div_mod v base ltac:(lia)) as Hdm.
  exists (v mod base :: r). rewrite E, <- app_assoc, reverse_cons, positional_snoc, Hp. split_and!.
  - done.
  - simpl. lia.
  - apply Forall_app. split; [done|by apply Forall_singleton].
  - lia.
  - intros _. destruct (decide (v / base = 0)) as [E0|Hq].
    + destruct r as [|x r].
      * exists (v mod base), []. split; [done|]. lia.
      * destruct (reverse (x :: r)) as [|d ds] eqn:Er; [by apply (f_equal length) in Er; rewrite length_reverse in Er|].
        exists d, (ds ++ [v mod base]). split; [done|]. exfalso.
        revert E. clear -E0 . rewrite E0. destruct fuel; [done|]. cbn [digit_loop].
        rewrite bool_decide_eq_true_2 by done. intros [= E]. rewrite <- (app_nil_r (acc ++ _)) in E at 1.
        by apply app_inv_head in E.
    + destruct (Hz Hq) as (d & ds & Ed & Hd0). exists d, (ds ++ [v mod base]). by rewrite Ed.
Qed.

Lemma digits_of_run base n v :
  2 <= base -> (1 <= n <= 32)%nat -> 0 <= v < base ^ Z.of_nat n ->
  exists ds, digits_of v base = Some ds /\ (1 <= length ds <= n)%nat /\ numeral base v (reverse ds).
Proof.
  intros Hb Hn Hv. unfold digits_of. destruct (decide (v = 0)) as [->|Hne].
  { exists [0]. rewrite bool_decide_eq_true_2 by done. split_and!; [done|simpl; lia|simpl; lia|].
    split_and!; [|done|by left]. apply Forall_singleton. lia. }
  rewrite bool_decide_eq_false_2 by done.
  destruct (digit_loop_run base n 65 v []) as (r & E & Hr & Hd & Hp & Hz); [lia|done|lia|simpl; lia|].
  destruct (Hz Hne) as (d & ds & Er & Hd0). exists r. split_and!; [done| |done|].
  - rewrite <- length_reverse, Er. simpl. lia.
  - split_and!; [done|done|]. right. by exists d, ds.
Qed.

Lemma digits_of_10 v : in64 v ->
  exists ds, digits_of v 10 = Some ds /\ (1 <= length ds <= 20)%nat /\ numeral 10 v (reverse ds).
Proof. intros Hv. apply (digits_of_run 10 20); [lia|lia|]. unfold in64 in Hv. change (10 ^ Z.of_nat 20) with 100000000000000000000. lia. Qed.

Lemma digits_of_16 v : in64 v ->
  exists ds, digits_of v 16 = Some ds /\ (1 <= length ds <= 16)%nat /\ numeral 16 v (reverse ds).
Proof. intros Hv. apply (digits_of_run 16 16); [lia|lia|]. exact Hv. Qed.

(** C40. The digit array of [printk_emit_unsigned_width] never overflows: a 64-bit value
    takes at most 20 decimal or 16 hexadecimal digits of its 32, and the digits it holds,
    read backwards, are the numeral of the value in that base, without leading zeros. *)
Theorem printk_digits_fit v : in64 v ->
  (exists ds, digits_of v 10 = Some ds /\ (1 <= length ds <= 20)%nat /\ numeral 10 v (reverse ds)) /\
  (exists ds, digits_of v 16 = Some ds /\ (1 <= length ds <= 16)%nat /\ numeral 16 v (reverse ds)).
Proof. intros Hv. split; [by apply digits_of_10|by apply digits_of_16]. Qed.

Lemma printk_digits_fit_witness :
  exists ds, digits_of 18446744073709551615 10 = Some ds /\ (1 <= length ds <= 20)%nat /\
    numeral 10 18446744073709551615 (reverse ds).
Proof. apply (printk_digits_fit 18446744073709551615). unfold in64. lia. Defined.

(** ** Format strings *)

(** The directives of a format string.  [Unsigned base zero width longs] is [%u] or [%x],
    the digits of its field width written out. *)
Inductive directive :=
| Plain (c : Z)
| Percent
| Char
| Str
| Signed (i : bool) (longs : nat)
| Unsigned (hex zero : bool) (width : list Z) (longs : nat)
| Pointer.

Definition unparse_one (d : directive) : list Z :=
  match d with
  | Plain c => [c]
  | Percent => [37; 37]
  | Char => [37; 99]
  | Str => [37; 115]
  | Signed i longs => 37 :: replicate longs 108 ++ [if i then 105 else 100]
  | Unsigned hex zero width longs =>
      37 :: (if zero then [48] else []) ++ (Z.add 48 <$> width) ++ replicate longs 108 ++ [if hex then 120 else 117]
  | Pointer => [37; 112]
  end.

Definition unparse (ds : list directive) : list Z := ds ≫= unparse_one.

(** The directives a string can spell, and the arguments they take. *)
Definition well_formed (d : directive) : Prop :=
  match d with
  | Plain c => c <> 37
  | Unsigned _ zero width _ => Forall (fun x => 0 <= x < 10) width /\ (zero = false -> hd_error width <> Some 0)
  | _ => True
  end.

Fixpoint args_fit (ds : list directive) (args : list va_value) : Prop :=
  match ds with
  | [] => True
  | (Plain _ | Percent) :: ds => args_fit ds args
  | Str :: ds => match args with VaStr _ :: args => args_fit ds args | _ => False end
  | _ :: ds => match args with VaInt _ :: args => args_fit ds args | _ => False end
  end.

Definition glyphs (ds : list Z) : list Z := alphabet <$> ds.
Definition int_bits (longs : nat) : Z := if bool_decide (longs = 0%nat) then 32 else 64.

(** What the text of a format is: every directive replaced by its argument. *)
Inductive renders : list directive -> list va_value -> list Z -> Prop :=
| rn_nil args : renders [] args []
| rn_plain c ds args t : renders ds args t -> renders (Plain c :: ds) args ([c] ++ t)
| rn_percent ds args t : renders ds args t -> renders (Percent :: ds) args ([37] ++ t)
| rn_char z ds args t : renders ds args t -> renders (Char :: ds) (VaInt z :: args) ([z mod 256] ++ t)
| rn_str s ds args t : renders ds args t -> renders (Str :: ds) (VaStr (Some s) :: args) (s ++ t)
| rn_null ds args t : renders ds args t -> renders (Str :: ds) (VaStr None :: args) ([40; 110; 117; 108; 108; 41] ++ t)
| rn_pos i longs z num ds args t :
    0 <= signed (int_bits longs) z -> numeral 10 (signed (int_bits longs) z) num ->
    renders ds args t -> renders (Signed i longs :: ds) (VaInt z :: args) (glyphs num ++ t)
| rn_neg i longs z num ds args t :
    signed (int_bits longs) z < 0 -> numeral 10 (- signed (int_bits longs) z) num ->
    renders ds args t -> renders (Signed i longs :: ds) (VaInt z :: args) ((45 :: glyphs num) ++ t)
| rn_unsigned (hex zero : bool) width longs z num ds args t :
    numeral (if hex then 16 else 10) (z mod 2 ^ int_bits longs) num ->
    renders ds args t ->
    renders (Unsigned hex zero width longs :: ds) (VaInt z :: args)
      ((replicate (Z.to_nat (wrap32 (positional 10 width) - Z.of_nat (length num))) (if zero then 48 else 32)
        ++ glyphs num) ++ t)
| rn_pointer z num ds args t :
    numeral 16 (z mod 2 ^ 64) num -> renders ds args t ->
    renders (Pointer :: ds) (VaInt z :: args) ((48 :: 120 :: glyphs num) ++ t).

(** What a ring that holds [q] keeps: the last 4096 bytes. *)
Definition keep (q : list Z) : list Z := drop (length q - 4096) q.

Lemma keep_app q t : keep (keep q ++ t) = keep (q ++ t).
Proof.
  unfold keep. rewrite !length_app, length_drop.
  destruct (decide (length q <= 4096)%nat) as [Hq|Hq].
  - replace (length q - 4096)%nat with 0%nat by lia. rewrite drop_0. f_equal. lia.
  - rewrite <- (drop_app_le q t) by lia. rewrite drop_drop. f_equal. lia.
Qed.

Lemma keep_small q : (length q <= 4096)%nat -> keep q = q.
Proof. intros Hq. unfold keep. by replace (length q - 4096)%nat with 0%nat by lia. Qed.

Lemma keep_full x q : length (x :: q) = 4096%nat -> forall ch, keep ((x :: q) ++ [ch]) = q ++ [ch].
Proof. intros E ch. unfold keep. rewrite length_app, E. done. Qed.

(** ** Reading a directive *)

Lemma scan_width_run wd rest : forall a,
  Forall (fun d => 0 <= d < 10) wd -> (forall c, hd_error rest = Some c -> c < 48 \/ 57 < c) ->
  scan_width ((Z.add 48 <$> wd) ++ rest) (wrap32 a) = (wrap32 (foldl (fun v d => v * 10 + d) a wd), rest).
Proof.
  induction wd as [|d wd IH]; intros a Hd Hr.
  - simpl. destruct rest as [|c rest]; [done|]. simpl. specialize (Hr c eq_refl).
    rewrite <- bool_decide_and, bool_decide_eq_false_2 by lia. done.
  - apply Forall_cons in Hd as [Hd Hds]. rewrite fmap_cons. simpl scan_width.
    rewrite <- bool_decide_and, bool_decide_eq_true_2 by lia.
    replace (wrap32 (wrap32 (wrap32 a * 10) + (48 + d - 48))) with (wrap32 (a * 10 + d)); [by apply IH|].
    unfold wrap32. div_lia.
Qed.

Lemma scan_longs_run n rest : forall a,
  hd_error rest <> Some 108 -> scan_longs (replicate n 108 ++ rest) a = (a + Z.of_nat n, rest).
Proof.
  induction n as [|n IH]; intros a Hr.
  - simpl. rewrite Z.add_0_r. destruct rest as [|c rest]; [done|]. simpl.
    rewrite bool_decide_eq_false_2 by (intros ->; done). done.
  - simpl. rewrite IH by done. f_equal. lia.
Qed.

Lemma arg_bits_int_bits longs : arg_bits (Z.of_nat longs) = int_bits longs.
Proof.
  unfold arg_bits, int_bits. destruct longs as [|[|n]]; [done|done|].
  rewrite bool_decide_eq_true_2, bool_decide_eq_false_2 by lia. done.
Qed.

Lemma signed_range longs z : - 2 ^ 63 <= signed (int_bits longs) z < 2 ^ 63.
Proof.
  unfold signed, int_bits. case_bool_decide.
  - pose proof (Z.mod_pos_bound (z + 2 ^ (32 - 1)) (2 ^ 32)). lia.
  - pose proof (Z.mod_pos_bound (z + 2 ^ (64 - 1)) (2 ^ 64)). lia.
Qed.

Lemma unsigned_in64 longs z : in64 (z mod 2 ^ int_bits longs).
Proof.
  unfold in64, int_bits. case_bool_decide.
  - pose proof (Z.mod_pos_bound z (2 ^ 32)). lia.
  - pose proof (Z.mod_pos_bound z (2 ^ 64)). lia.
Qed.

(** Decide the comparisons of constants in a goal. *)
Ltac eval_tests :=
  repeat match goal with
  | |- context [bool_decide (?a = ?b)] =>
      let r := eval vm_compute in (bool_decide (a = b)) in
      lazymatch r with true => idtac | false => idtac end;
      change (bool_decide (a = b)) with r; cbn [orb negb andb]
  end; cbv beta iota.

(** ** One text for a format *)

Lemma positional_lead base d ds :
  2 <= base -> Forall (fun d => 0 <= d < base) (d :: ds) -> d <> 0 -> 0 < positional base (d :: ds).
Proof.
  intros Hb Hf Hd. induction ds as [|x ds IH] using rev_ind.
  - apply Forall_inv in Hf as Hr. cbn beta in Hr. change (0 < 0 * base + d). lia.
  - rewrite app_comm_cons in Hf |- *. apply Forall_app in Hf as [Hf Hx%Forall_inv].
    rewrite positional_snoc. cbn beta in Hx. specialize (IH Hf). nia.
Qed.

Lemma positional_inj base a : forall b,
  2 <= base -> Forall (fun d => 0 <= d < base) a -> Forall (fun d => 0 <= d < base) b ->
  hd_error a <> Some 0 -> hd_error b <> Some 0 -> positional base a = positional base b -> a = b.
Proof.
  induction a as [|x a IH] using rev_ind; intros b Hb Ha Hbb Hza Hzb E.
  - destruct b as [|y b]; [done|]. pose proof (positional_lead base y b Hb Hbb). change (positional base []) with 0 in E.
    simpl in Hzb. assert (y <> 0) by congruence. lia.
  - destruct b as [|y b _] using rev_ind.
    + destruct (a ++ [x]) as [|z l] eqn:Ez; [done|]. pose proof (positional_lead base z l Hb Ha). change (positional base []) with 0 in E.
      simpl in Hza. assert (z <> 0) by congruence. lia.
    + rewrite !positional_snoc in E. apply Forall_app in Ha as [Ha Hx%Forall_inv]. apply Forall_app in Hbb as [Hbb Hy%Forall_inv].
      cbn beta in Hx, Hy.
      assert (x = y /\ positional base a = positional base b) as [-> Ep].
      { assert (x = y); [|nia]. rewrite <- (Z.mod_small x base), <- (Z.mod_small y base) by lia.
        rewrite <- (Z.mod_add x (positional base a) base), <- (Z.mod_add y (positional base b) base) by lia. f_equal. lia. }
      f_equal. apply IH; try done; [by destruct a|by destruct b].
Qed.

Lemma numeral_unique base v a b : 2 <= base -> numeral base v a -> numeral base v b -> a = b.
Proof.
  intros Hb (Fa & Ea & Sa) (Fb & Eb & Sb).
  destruct Sa as [->|(d & a' & -> & Hd)], Sb as [->|(e & b' & -> & He)]; [done|..].
  - pose proof (positional_lead base e b' Hb Fb He). change (positional base [0]) with 0 in Ea. lia.
  - pose proof (positional_lead base d a' Hb Fa Hd). change (positional base [0]) with 0 in Eb. lia.
  - apply (positional_inj base); simpl; congruence.
Qed.

Lemma renders_unique ds args s t : renders ds args s -> renders ds args t -> s = t.
Proof.
  intros Hs. revert t. induction Hs; inversion 1; subst; try lia;
    repeat match goal with
    | IH : forall t, renders _ _ t -> _ = t, R : renders _ _ ?u |- _ => apply IH in R; subst
    | N : numeral _ _ ?a, N' : numeral _ _ ?b |- _ =>
        assert (a = b) as <- by (eapply numeral_unique; [|exact N|exact N']; by (lia || destruct hex)); clear N'
    end; done.
Qed.

(** The counter after [len] more characters. *)
Definition count_after (n : Z) (len : nat) : Z := Nat.iter len (fun c => signed 32 (c + 1)) n.

Lemma count_after_app n a b : count_after (count_after n a) b = count_after n (a + b).
Proof.
  unfold count_after. induction b as [|b IH]; [by rewrite Nat.add_0_r|].
  rewrite Nat.add_succ_r. simpl. by rewrite IH.
Qed.

Lemma count_after_S n b : count_after (signed 32 (n + 1)) b = count_after n (S b).
Proof. exact (count_after_app n 1 b). Qed.

Lemma count_after_fits n len : 0 <= n -> n + Z.of_nat len < 2147483648 -> count_after n len = n + Z.of_nat len.
Proof.
  intros Hn. unfold count_after. induction len as [|len IH]; intros Hl; simpl; [lia|].
  rewrite IH by lia. unfold signed. change (2 ^ (32 - 1)) with 2147483648. change (2 ^ 32) with 4294967296.
  rewrite Z.mod_small; lia.
Qed.

Section theory.
Context {H : Type} `{KAlloc H}.
Implicit Types (k : kernel (memory H)) (cs q text : list Z).

(** The log is set up: the consoles are registered, and the ring holds [q]. *)
Record log_inv k cs q : Prop := {
  lg_consoles : console_chain (devs (kheap k)) cs;
  lg_ready : printk_ready (printk_ring (devs (kheap k))) <> 0;
  lg_ring : exists start, ring_rep 4096 (pk_buffer (printk_ring (devs (kheap k)))) start
              (pk_head (printk_ring (devs (kheap k)))) (pk_count (printk_ring (devs (kheap k)))) q
}.

(** From [k] to [k'] the bytes of [text] went to the log and the consoles, and nothing
    else happened. *)
Record emitted cs q text k k' : Prop := {
  em_log : log_inv k' cs (keep (q ++ text));
  em_screen : forall c, c ∈ cs \/ (cs = [] /\ c = 0) ->
    screen (devs (kheap k')) c = screen (devs (kheap k)) c ++ crlf text;
  em_frame : exists r s, k' = with_devs (fun d => d <| printk_ring := r |> <| shown := s |>) k
}.

Lemma ring_overwrite buf start hd n q ch :
  ring_rep 4096 buf start hd n q ->
  exists start', ring_rep 4096 (<[Z.to_nat hd := ch]> buf) start' ((hd + 1) mod 4096)
    (if bool_decide (n < 4096) then n + 1 else n) (keep (q ++ [ch])).
Proof.
  intros R. pose proof R as (_ & Hs & _ & Hc & Hn & _). destruct (decide (n < 4096)) as [Hlt|Hge].
  - exists start. rewrite bool_decide_eq_true_2 by done. rewrite keep_small by (rewrite length_app; simpl; lia).
    by apply ring_rep_push.
  - rewrite bool_decide_eq_false_2 by done. destruct q as [|x q]; [simpl in Hc; lia|].
    destruct (ring_rep_pop _ _ _ _ _ _ _ R) as [_ R']. exists ((start + 1) mod 4096).
    rewrite keep_full by (simpl in *; lia). replace n with (n - 1 + 1) by lia. apply ring_rep_push; [done|lia].
Qed.

Lemma ring_putc_run ch k cs q :
  log_inv k cs q ->
  exists r, printk_ring_putc ch k = Ret tt (with_devs (fun d => d <| printk_ring := r |>) k) /\
    printk_ready r <> 0 /\
    exists start, ring_rep 4096 (pk_buffer r) start (pk_head r) (pk_count r) (keep (q ++ [ch])).
Proof.
  intros [Hc Hr [start R]]. pose proof (ring_rep_tail _ _ _ _ _ _ R) as Ht. pose proof (ring_rep_count _ _ _ _ _ _ R) as Hn.
  destruct (ring_overwrite _ _ _ _ _ ch R) as [start' R']. destruct R as (Hlen & _).
  unfold printk_ring_putc, pk, set_pk. rewrite bind_dev.
  destruct (lookup_lt_is_Some_2 (pk_buffer (printk_ring (devs (kheap k)))) (Z.to_nat (pk_head (printk_ring (devs (kheap k))))))
    as [old Hold]; [lia|].
  erewrite bind_deref by exact Hold. dstep.
  destruct (decide (pk_count (printk_ring (devs (kheap k))) < 4096)) as [Hlt|Hge].
  - rewrite (bool_decide_eq_true_2 (pk_count _ < 4096)) in R' by done.
    rewrite (bool_decide_eq_true_2 (_ < PRINTK_RING_SIZE)) by done. eexists. split; [rewrite set_dev_run, with_devs_comp; apply f_equal, with_devs_ext; reflexivity|].
    simpl. split; [done|]. exists start'. rewrite !wrap64_id by (unfold in64; lia). exact R'.
  - rewrite (bool_decide_eq_false_2 (pk_count _ < 4096)) in R' by done.
    rewrite (bool_decide_eq_false_2 (_ < PRINTK_RING_SIZE)) by done. eexists. split; [rewrite set_dev_run, with_devs_comp; apply f_equal, with_devs_ext; reflexivity|].
    simpl. split; [done|]. exists start'. rewrite wrap64_id by (unfold in64; lia). exact R'.
Qed.

Lemma console_putc_run ch k cs :
  console_chain (devs (kheap k)) cs ->
  exists s, printk_console_putc ch k = Ret tt (with_devs (fun d => d <| shown := s |>) k) /\
    forall c, c ∈ cs \/ (cs = [] /\ c = 0) ->
      screen (with_devs (fun d => d <| shown := s |>) k).(kheap).(devs) c = screen (devs (kheap k)) c ++ line_end ch.
Proof.
  intros Hc. unfold printk_console_putc, line_end. destruct (decide (ch = 10)) as [->|Hne].
  - rewrite (bool_decide_eq_true_2 (10 = 10)) by done. rewrite bind_when_true, bind_assoc.
    erewrite bind_run by (apply (console_write_all_run [13] _ cs); done). rewrite bind_ret.
    erewrite bind_run by (apply (console_write_all_run [10] _ cs); done).
    eexists. split; [rewrite mret_run, with_devs_comp; apply f_equal, with_devs_ext; reflexivity|].
    intros c Hin. change [13; 10] with ([13] ++ [10]). rewrite app_assoc.
    rewrite <- (screen_display _ cs [13] c Hc Hin).
    assert (Hc2 : console_chain ((devs (kheap k)) <| shown ::= (fun l => l ++ display cs [13]) |>) cs) by exact Hc.
    rewrite <- (screen_display _ cs [10] c Hc2 Hin). reflexivity.
  - rewrite (bool_decide_eq_false_2 (ch = 10)) by done. rewrite bind_when_false.
    erewrite bind_run by (apply (console_write_all_run [ch] _ cs); done).
    eexists. split; [rewrite mret_run; apply f_equal, with_devs_ext; reflexivity|].
    intros c Hin. rewrite <- (screen_display _ cs [ch] c Hc Hin). reflexivity.
Qed.

Lemma emit_char_run ch n k cs q :
  log_inv k cs q -> exists k', printk_emit_char ch n k = Ret (signed 32 (n + 1)) k' /\ emitted cs q [ch] k k'.
Proof.
  intros L. destruct (ring_putc_run ch k cs q L) as (r & Er & Hr & Hring). destruct L as [Hc Hready _].
  destruct (console_putc_run ch (with_devs (fun d => d <| printk_ring := r |>) k) cs) as (s & Es & Hs); [exact Hc|].
  unfold printk_emit_char, pk. rewrite bind_dev, bool_decide_eq_false_2, bind_when_true by done.
  mrun Er. mrun Es. eexists. split; [reflexivity|]. split.
  - by split.
  - intros c Hin. rewrite (Hs c Hin). unfold crlf. simpl. by rewrite app_nil_r.
  - exists r, s. by rewrite with_devs_comp.
Qed.

Lemma emitted_nil k cs q : log_inv k cs q -> emitted cs q [] k k.
Proof.
  intros L. split.
  - rewrite app_nil_r, keep_small; [done|]. destruct (lg_ring _ _ _ L) as (start & R). destruct R as (_ & _ & _ & ? & ? & _). lia.
  - intros c _. by rewrite app_nil_r.
  - exists (printk_ring (devs (kheap k))), (shown (devs (kheap k))). symmetry. apply with_devs_id. by destruct (devs (kheap k)).
Qed.

Lemma emitted_app cs q s t k k1 k2 :
  emitted cs q s k k1 -> emitted cs (keep (q ++ s)) t k1 k2 -> emitted cs q (s ++ t) k k2.
Proof.
  intros [L1 S1 (r1 & s1 & F1)] [L2 S2 (r2 & s2 & F2)]. split.
  - by rewrite keep_app, <- app_assoc in L2.
  - intros c Hin. by rewrite (S2 c Hin), (S1 c Hin), crlf_app, app_assoc.
  - exists r2, s2. by rewrite F2, F1, with_devs_comp.
Qed.

Lemma emit_all_run text : forall n k cs q,
  log_inv k cs q ->
  exists k', emit_all text n k = Ret (count_after n (length text)) k' /\ emitted cs q text k k'.
Proof.
  induction text as [|ch text IH]; intros n k cs q L; cbn [emit_all].
  - exists k. rewrite mret_run. split; [done|by apply emitted_nil].
  - destruct (emit_char_run ch n k cs q L) as (k1 & E1 & T1). mrun E1.
    destruct (IH (signed 32 (n + 1)) k1 cs _ (em_log _ _ _ _ _ T1)) as (k2 & E2 & T2). exists k2. rewrite E2.
    split; [by rewrite count_after_S|]. exact (emitted_app _ _ [ch] _ _ _ _ T1 T2).
Qed.

(** [%] with its flags, up to the conversion character. *)
Lemma conversion_round zero wd longs spec rest args n k :
  Forall (fun d => 0 <= d < 10) wd -> (zero = false -> hd_error wd <> Some 0) ->
  57 < spec -> spec <> 108 ->
  format_round (Some (37 :: (if zero then [48] else []) ++ (Z.add 48 <$> wd) ++ replicate longs 108 ++ spec :: rest), args, n) k =
  ('(args, n) ← emit_conversion spec (Z.of_nat longs) (wrap32 (positional 10 wd)) (if zero then 48 else 32) args n;
   mret (inl (Some rest, args, n))) k.
Proof.
  intros Hd Hz Hs Hl. set (tail := replicate longs 108 ++ spec :: rest).
  assert (Ht : forall c, hd_error tail = Some c -> 57 < c)
    by (subst tail; destruct longs; simpl; intros c [= <-]; lia).
  set (body := (Z.add 48 <$> wd) ++ tail).
  assert (Hb : hd_error body <> Some 37 /\ (zero = false -> hd_error body <> Some 48)).
  { subst body. destruct wd as [|d wd].
    - simpl. split; [|intros _]; intros E; specialize (Ht _ E); lia.
    - apply Forall_cons in Hd as [Hd _]. simpl. split; [intros [= E]; lia|]. intros Ez [= E]. apply (Hz Ez). simpl. f_equal. lia. }
  assert (Hscan : scan_width body 0 = (wrap32 (positional 10 wd), tail)).
  { apply (scan_width_run wd tail 0 Hd). intros c Hc. right. by apply Ht. }
  assert (Hlongs : scan_longs tail 0 = (Z.of_nat longs, spec :: rest)).
  { subst tail. rewrite scan_longs_run; [done|]. simpl. congruence. }
  unfold format_round. rewrite (bool_decide_eq_true_2 (37 = 37)) by done. cbn [negb]. destruct zero.
  - rewrite (bool_decide_eq_false_2 (hd_error _ = Some 37)) by done.
    rewrite (bool_decide_eq_true_2 (hd_error _ = Some 48)) by done. cbn [app List.tl]. fold body.
    rewrite Hscan, Hlongs. simpl hd_error. simpl default. apply bind_ext. by intros [??].
  - cbn [app]. fold body. rewrite (bool_decide_eq_false_2 (hd_error _ = Some 37)) by tauto.
    rewrite (bool_decide_eq_false_2 (hd_error _ = Some 48)) by tauto.
    rewrite Hscan, Hlongs. simpl hd_error. simpl default. apply bind_ext. by intros [??].
Qed.

Lemma emit_unsigned_width_run v base width pad n ds k cs q :
  log_inv k cs q -> digits_of v base = Some ds ->
  exists s k', s = replicate (Z.to_nat (width - Z.of_nat (length (reverse ds)))) pad ++ glyphs (reverse ds) /\
    printk_emit_unsigned_width v base width pad n k = Ret (count_after n (length s)) k' /\ emitted cs q s k k'.
Proof.
  intros L E. unfold printk_emit_unsigned_width. erewrite bind_deref by exact E. cbv zeta. rewrite length_reverse.
  destruct (emit_all_run (replicate (Z.to_nat (width - Z.of_nat (length ds))) pad) n k cs q L) as (k1 & E1 & T1). mrun E1.
  destruct (emit_all_run (alphabet <$> reverse ds) (count_after n (length (replicate (Z.to_nat (width - Z.of_nat (length ds))) pad)))
    k1 cs _ (em_log _ _ _ _ _ T1)) as (k2 & E2 & T2).
  eexists _, k2. split; [reflexivity|]. rewrite E2. split; [|by eapply emitted_app].
  by rewrite count_after_app, length_app.
Qed.

(** What the directive [d] prints, and what it leaves of the arguments. *)
Definition prints (d : directive) args s args' : Prop :=
  forall ds, args_fit (d :: ds) args ->
    args_fit ds args' /\ forall t, renders ds args' t -> renders (d :: ds) args (s ++ t).

Definition conversion_prints d spec longs width pad args n k cs q : Prop :=
  exists s args' k', emit_conversion spec longs width pad args n k = Ret (args', count_after n (length s)) k' /\
    emitted cs q s k k' /\ prints d args s args'.

Lemma emit_string_conversion a args n width pad k cs q :
  log_inv k cs q -> conversion_prints Str 115 0 width pad (VaStr a :: args) n k cs q.
Proof.
  intros L. unfold conversion_prints, emit_conversion, va_str. eval_tests. rewrite bind_ret.
  destruct a as [a|]; unfold printk_emit_string.
  - destruct (emit_all_run a n k cs q L) as (k1 & E & T). mrun E. exists a, args, k1. split; [done|]. split; [done|].
    intros ds Hfit. split; [done|]. intros t Ht. by constructor.
  - destruct (emit_all_run [40; 110; 117; 108; 108; 41] n k cs q L) as (k1 & E & T). mrun E. eexists _, args, k1. split; [done|].
    split; [done|]. intros ds Hfit. split; [done|]. intros t Ht. by constructor.
Qed.

Lemma emit_char_conversion z args n width pad k cs q :
  log_inv k cs q -> conversion_prints Char 99 0 width pad (VaInt z :: args) n k cs q.
Proof.
  intros L. unfold conversion_prints, emit_conversion, va_int. eval_tests. rewrite bind_ret.
  destruct (emit_char_run (wrap8 (signed 32 z)) n k cs q L) as (k1 & E & T). mrun E.
  exists [wrap8 (signed 32 z)], args, k1. split; [done|]. split; [done|].
  replace (wrap8 (signed 32 z)) with (z mod 256).
  - intros ds Hfit. split; [done|]. intros t Ht. by constructor.
  - unfold wrap8, signed. change (2 ^ (32 - 1)) with 2147483648. change (2 ^ 32) with 4294967296. div_lia.
Qed.

Lemma emit_unsigned_run v base n ds k cs q :
  log_inv k cs q -> digits_of v base = Some ds ->
  exists k', printk_emit_unsigned v base n k = Ret (count_after n (length ds)) k' /\ emitted cs q (glyphs (reverse ds)) k k'.
Proof.
  intros L E. destruct (emit_unsigned_width_run v base 0 32 n ds k cs q L E) as (s & k1 & Es & E1 & T).
  replace (Z.to_nat (0 - Z.of_nat (length (reverse ds)))) with 0%nat in Es by lia. simpl in Es. subst s.
  exists k1. split; [|done]. unfold printk_emit_unsigned. rewrite E1. unfold glyphs. by rewrite length_fmap, length_reverse.
Qed.

Lemma emit_signed_run v n k cs q :
  log_inv k cs q -> - 2 ^ 63 <= v < 2 ^ 63 ->
  exists num k', let s := if bool_decide (v < 0) then 45 :: glyphs num else glyphs num in
    printk_emit_signed v n k = Ret (count_after n (length s)) k' /\ emitted cs q s k k' /\ numeral 10 (Z.abs v) num.
Proof.
  intros L Hr. destruct (digits_of_10 (Z.abs v)) as (ds & Eds & _ & Hnum); [unfold in64; lia|].
  exists (reverse ds). unfold printk_emit_signed, glyphs. destruct (decide (v < 0)) as [Hneg|Hpos].
  - rewrite bool_decide_eq_true_2 by done. destruct (emit_char_run 45 n k cs q L) as (k1 & E1 & T1).
    destruct (emit_unsigned_run _ 10 (signed 32 (n + 1)) ds k1 cs _ (em_log _ _ _ _ _ T1) Eds) as (k2 & E2 & T2). exists k2.
    mrun E1. replace (wrap64 (wrap64 (- (v + 1)) + 1)) with (Z.abs v)
      by (rewrite (wrap64_id (- _)), wrap64_id by (unfold in64; lia); lia).
    rewrite E2. split_and!; [|exact (emitted_app _ _ [45] _ _ _ _ T1 T2)|done].
    rewrite count_after_S. cbn [length]. by rewrite length_fmap, length_reverse.
  - rewrite bool_decide_eq_false_2 by done. destruct (emit_unsigned_run _ 10 n ds k cs q L Eds) as (k2 & E2 & T2). exists k2.
    rewrite wrap64_id by (unfold in64; lia). replace v with (Z.abs v) at 1 by lia. rewrite E2.
    split_and!; [|done|done]. by rewrite length_fmap, length_reverse.
Qed.

Lemma emit_signed_conversion (i : bool) longs z args n width pad k cs q :
  log_inv k cs q ->
  conversion_prints (Signed i longs) (if i then 105 else 100) (Z.of_nat longs) width pad (VaInt z :: args) n k cs q.
Proof.
  intros L. destruct (emit_signed_run _ n k cs q L (signed_range longs z)) as (num & k1 & E & T & Hnum).
  unfold conversion_prints, emit_conversion, va_int. eexists _, args, k1. split; [|split; [exact T|]].
  - destruct i; eval_tests; rewrite bind_ret, arg_bits_int_bits; by mrun E.
  - intros ds Hfit. split; [done|]. intros t Ht. case_bool_decide.
    + apply rn_neg; [done| |done]. by rewrite <- Z.abs_neq by lia.
    + apply rn_pos; [lia| |done]. by rewrite <- (Z.abs_eq (signed _ _)) by lia.
Qed.

Lemma emit_conversion_unsigned (hex : bool) longs width pad z args n k :
  emit_conversion (if hex then 120 else 117) longs width pad (VaInt z :: args) n k =
  (c ← printk_emit_unsigned_width (z mod 2 ^ arg_bits longs) (if hex then 16 else 10) width pad n; mret (args, c)) k.
Proof. by destruct hex. Qed.

Lemma emit_unsigned_conversion (hex zero : bool) wd longs z args n k cs q :
  log_inv k cs q ->
  conversion_prints (Unsigned hex zero wd longs) (if hex then 120 else 117) (Z.of_nat longs) (wrap32 (positional 10 wd))
    (if zero then 48 else 32) (VaInt z :: args) n k cs q.
Proof.
  intros L. pose proof (unsigned_in64 longs z) as Hz.
  destruct hex; [destruct (digits_of_16 _ Hz) as (ds & Eds & _ & Hnum)|destruct (digits_of_10 _ Hz) as (ds & Eds & _ & Hnum)];
    edestruct (emit_unsigned_width_run _ _ (wrap32 (positional 10 wd)) (if zero then 48 else 32) n ds k cs q L Eds)
      as (s & k1 & -> & E & T);
    unfold conversion_prints; eexists _, args, k1; (split; [|split; [exact T|]]).
  - rewrite (emit_conversion_unsigned true), arg_bits_int_bits. mrun E. apply mret_run.
  - intros ds' Hfit. split; [exact Hfit|]. intros t Ht. exact (rn_unsigned true _ _ _ _ _ _ _ _ Hnum Ht).
  - rewrite (emit_conversion_unsigned false), arg_bits_int_bits. mrun E. apply mret_run.
  - intros ds' Hfit. split; [exact Hfit|]. intros t Ht. exact (rn_unsigned false _ _ _ _ _ _ _ _ Hnum Ht).
Qed.

Lemma emit_conversion_pointer longs width pad z args n k :
  emit_conversion 112 longs width pad (VaInt z :: args) n k =
  (c ← emit_all [48; 120] n; c ← printk_emit_unsigned (wrap64 z) 16 c; mret (args, c)) k.
Proof. reflexivity. Qed.

Lemma emit_pointer_conversion z args n width pad k cs q :
  log_inv k cs q -> conversion_prints Pointer 112 0 width pad (VaInt z :: args) n k cs q.
Proof.
  intros L. destruct (digits_of_16 (wrap64 z) (wrap64_in z)) as (ds & Eds & _ & Hnum).
  destruct (emit_all_run [48; 120] n k cs q L) as (k1 & E1 & T1).
  destruct (emit_unsigned_run _ 16 (count_after n 2) ds k1 cs _ (em_log _ _ _ _ _ T1) Eds) as (k2 & E2 & T2).
  exists (48 :: 120 :: glyphs (reverse ds)), args, k2. split; [|split; [exact (emitted_app _ _ [48; 120] _ _ _ _ T1 T2)|]].
  - rewrite emit_conversion_pointer. mrun E1. mrun E2.
    rewrite mret_run, count_after_app. unfold glyphs. cbn [length]. by rewrite length_fmap, length_reverse.
  - intros ds' Hfit. split; [done|]. intros t Ht. by apply rn_pointer.
Qed.

(** One directive is one round of the loop. *)
Lemma directive_round d ds args n rest k cs q :
  log_inv k cs q -> well_formed d -> args_fit (d :: ds) args ->
  exists s args' k', format_round (Some (unparse_one d ++ rest), args, n) k =
      Ret (inl (Some rest, args', count_after n (length s))) k' /\
    emitted cs q s k k' /\ prints d args s args'.
Proof.
  intros L Wf Hfit. destruct d as [c| | | |i longs|hex zero wd longs|]; simpl in Hfit.
  - destruct (emit_char_run c n k cs q L) as (k1 & E & T). exists [c], args, k1. split; [|split; [done|]].
    + unfold format_round, unparse_one. cbn [app]. rewrite bool_decide_eq_false_2 by exact Wf. cbn [negb]. by mrun E.
    + intros ds' Hf. split; [done|]. intros t Ht. by constructor.
  - destruct (emit_char_run 37 n k cs q L) as (k1 & E & T). exists [37], args, k1. split; [|split; [done|]].
    + unfold format_round, unparse_one. cbn [app hd_error]. eval_tests. by mrun E.
    + intros ds' Hf. split; [done|]. intros t Ht. by constructor.
  - destruct args as [|[z|] args]; [done| |done].
    destruct (emit_char_conversion z args n 0 32 k cs q L) as (s & args' & k1 & E & T & P). exists s, args', k1.
    split; [|done]. etrans; [by apply (conversion_round false [] 0 99 rest)|]. by mrun E.
  - destruct args as [|[|a] args]; [done|done|].
    destruct (emit_string_conversion a args n 0 32 k cs q L) as (s & args' & k1 & E & T & P). exists s, args', k1.
    split; [|done]. etrans; [by apply (conversion_round false [] 0 115 rest)|]. by mrun E.
  - destruct args as [|[z|] args]; [done| |done].
    destruct (emit_signed_conversion i longs z args n 0 32 k cs q L) as (s & args' & k1 & E & T & P). exists s, args', k1.
    split; [|done]. cbn [unparse_one app]. rewrite <- app_assoc.
    etrans; [apply (conversion_round false [] longs (if i then 105 else 100) rest); by destruct i|]. by mrun E.
  - destruct args as [|[z|] args]; [done| |done]. destruct Wf as [Hd Hz].
    destruct (emit_unsigned_conversion hex zero wd longs z args n k cs q L) as (s & args' & k1 & E & T & P). exists s, args', k1.
    split; [|done]. cbn [unparse_one app]. rewrite <- !app_assoc.
    etrans; [apply (conversion_round zero wd longs (if hex then 120 else 117) rest); by destruct hex|]. by mrun E.
  - destruct args as [|[z|] args]; [done| |done].
    destruct (emit_pointer_conversion z args n 0 32 k cs q L) as (s & args' & k1 & E & T & P). exists s, args', k1.
    split; [|done]. etrans; [by apply (conversion_round false [] 0 112 rest)|]. by mrun E.
Qed.

Lemma unparse_one_length d : (1 <= length (unparse_one d))%nat.
Proof. destruct d; simpl; lia. Qed.

Lemma format_loop_run ds : forall fuel args n k cs q,
  log_inv k cs q -> Forall well_formed ds -> args_fit ds args -> (length (unparse ds) < fuel)%nat ->
  exists text k', renders ds args text /\
    loop fuel format_round (Some (unparse ds), args, n) k = Ret (count_after n (length text)) k' /\ emitted cs q text k k'.
Proof.
  induction ds as [|d ds IH]; intros fuel args n k cs q L Wf Hfit Hf; (destruct fuel as [|fuel]; [lia|]); rewrite loop_S.
  - exists [], k. split; [constructor|]. split; [done|by apply emitted_nil].
  - apply Forall_cons in Wf as [Wd Wf]. unfold unparse in *. rewrite bind_cons in *. rewrite length_app in Hf.
    pose proof (unparse_one_length d) as Hone.
    destruct (directive_round d ds args n (ds ≫= unparse_one) k cs q L Wd Hfit) as (s & args' & k1 & E & T & P).
    mrun E. destruct (P ds Hfit) as [Hfit' Hren].
    destruct (IH fuel args' (count_after n (length s)) k1 cs _ (em_log _ _ _ _ _ T) Wf Hfit') as (t & k2 & Ht & E2 & T2); [lia|].
    exists (s ++ t), k2. split; [by apply Hren|]. rewrite E2. split; [by rewrite count_after_app, length_app|by eapply emitted_app].
Qed.

Lemma printk_run ds args k cs q :
  log_inv k cs q -> Forall well_formed ds -> args_fit ds args ->
  exists text k', renders ds args text /\
    printk (Some (unparse ds)) args k = Ret (count_after 0 (length text)) k' /\ emitted cs q text k k'.
Proof.
  intros L Wf Hfit. unfold printk, vprintk_format.
  destruct (format_loop_run ds (S (length (unparse ds))) args 0 k cs q L Wf Hfit) as (text & k' & Hr & E & T); [lia|].
  exists text, k'. by rewrite E.
Qed.

(** C22. [printk] on a format string that spells the directives [ds], with arguments that
    fit them: there is exactly one text in which every directive is replaced by its
    argument; if it is shorter than 2^31 bytes (and so is the format), [printk] returns its
    length; the text is appended to the kernel log, of which the ring keeps the last 4096
    bytes, and appears with CR LF line ends on every registered console.  A longer text
    overflows the [int] that counts the characters, which C leaves undefined. *)
Theorem printk_renders ds args k cs q :
  log_inv k cs q -> Forall well_formed ds -> args_fit ds args -> Z.of_nat (length (unparse ds)) < 2147483648 ->
  (exists text, renders ds args text) /\
  forall text, renders ds args text -> Z.of_nat (length text) < 2147483648 ->
    exists k', printk (Some (unparse ds)) args k = Ret (Z.of_nat (length text)) k' /\ emitted cs q text k k'.
Proof.
  intros L Wf Hfit _. destruct (printk_run ds args k cs q L Wf Hfit) as (text & k' & R & E & Em).
  split; [by exists text|]. intros text' R' Hl. rewrite (renders_unique _ _ _ _ R' R) in *.
  exists k'. by rewrite E, count_after_fits.
Qed.

(** A format string that ends inside a directive: the terminating NUL is taken for the
    conversion character, and the loop reads the byte after it. *)
Lemma printk_trailing_percent args k cs q :
  log_inv k cs q -> printk (Some [37]) args k = Fault.
Proof.
  intros L. destruct (emit_char_run 37 0 k cs q L) as (k1 & E & _).
  assert (E0 : emit_conversion 0 0 0 32 args 0 k = Ret (args, 1) k1).
  { change (emit_conversion 0 0 0 32 args 0) with (c ← printk_emit_char (H := H) 37 0; c ← mret c; mret (args, c)). by mrun E. }
  unfold printk, vprintk_format. cbn [length]. rewrite loop_S.
  change (format_round (Some [37], args, 0)) with
    ('(args, c) ← emit_conversion 0 0 0 32 args 0; mret (M := M (kernel (memory H))) (inl (B := Z) (@None (list Z), args, c))).
  rewrite bind_assoc. by mrun E0.
Qed.

(** ["%5d"] prints what ["%d"] does, while ["%5u"] pads to the width. *)
Lemma signed_width_ignored longs width pad args n k :
  emit_conversion (H := H) 100 longs width pad args n k = emit_conversion 100 longs 0 32 args n k.
Proof. reflexivity. Qed.
End theory.
