(* ===== verification/Fbcon.v ===== *)
(** * drivers/video/fbdev/core: the framebuffer console and its font

    Text on a linear framebuffer: a cell of 6 by 9 pixels for each character, a cursor,
    scrolling by copying pixel rows.  The framebuffer is a store of 32-bit words by
    address; a store or load outside of it is a [Fault].  Also
    arch/x86/kernel/screen.c, which binds the console to the mode of the boot loader. *)

From S2P Require Import Prelude PhysMem.

(** ** font.c *)

Definition FBCON_FONT_WIDTH : Z := 5.
Definition FBCON_FONT_HEIGHT : Z := 7.

(** [font], a character and its rows. *)
Definition font : list (Z * list Z) := [
  (32, [0; 0; 0; 0; 0; 0; 0]);
  (33, [4; 4; 4; 4; 4; 0; 4]);
  (46, [0; 0; 0; 0; 0; 12; 12]);
  (44, [0; 0; 0; 0; 12; 4; 8]);
  (58, [0; 12; 12; 0; 12; 12; 0]);
  (45, [0; 0; 0; 31; 0; 0; 0]);
  (95, [0; 0; 0; 0; 0; 0; 31]);
  (61, [0; 0; 31; 0; 31; 0; 0]);
  (47, [1; 2; 4; 4; 8; 16; 16]);
  (48, [14; 17; 19; 21; 25; 17; 14]);
  (49, [4; 12; 4; 4; 4; 4; 14]);
  (50, [14; 17; 1; 2; 4; 8; 31]);
  (51, [30; 1; 1; 14; 1; 1; 30]);
  (52, [2; 6; 10; 18; 31; 2; 2]);
  (53, [31; 16; 16; 30; 1; 1; 30]);
  (54, [14; 16; 16; 30; 17; 17; 14]);
  (55, [31; 1; 2; 4; 8; 8; 8]);
  (56, [14; 17; 17; 14; 17; 17; 14]);
  (57, [14; 17; 17; 15; 1; 1; 14]);
  (65, [14; 17; 17; 31; 17; 17; 17]);
  (66, [30; 17; 17; 30; 17; 17; 30]);
  (67, [14; 17; 16; 16; 16; 17; 14]);
  (68, [30; 17; 17; 17; 17; 17; 30]);
  (69, [31; 16; 16; 30; 16; 16; 31]);
  (70, [31; 16; 16; 30; 16; 16; 16]);
  (71, [14; 17; 16; 23; 17; 17; 15]);
  (72, [17; 17; 17; 31; 17; 17; 17]);
  (73, [14; 4; 4; 4; 4; 4; 14]);
  (74, [7; 2; 2; 2; 18; 18; 12]);
  (75, [17; 18; 20; 24; 20; 18; 17]);
  (76, [16; 16; 16; 16; 16; 16; 31]);
  (77, [17; 27; 21; 21; 17; 17; 17]);
  (78, [17; 25; 21; 19; 17; 17; 17]);
  (79, [14; 17; 17; 17; 17; 17; 14]);
  (80, [30; 17; 17; 30; 16; 16; 16]);
  (81, [14; 17; 17; 17; 21; 18; 13]);
  (82, [30; 17; 17; 30; 20; 18; 17]);
  (83, [15; 16; 16; 14; 1; 1; 30]);
  (84, [31; 4; 4; 4; 4; 4; 4]);
  (85, [17; 17; 17; 17; 17; 17; 14]);
  (86, [17; 17; 17; 17; 10; 10; 4]);
  (87, [17; 17; 17; 21; 21; 27; 17]);
  (88, [17; 17; 10; 4; 10; 17; 17]);
  (89, [17; 17; 10; 4; 4; 4; 4]);
  (90, [31; 1; 2; 4; 8; 16; 31]);
  (97, [0; 0; 14; 1; 15; 17; 15]);
  (98, [16; 16; 30; 17; 17; 17; 30]);
  (99, [0; 0; 14; 16; 16; 16; 14]);
  (100, [1; 1; 15; 17; 17; 17; 15]);
  (101, [0; 0; 14; 17; 31; 16; 14]);
  (102, [6; 8; 30; 8; 8; 8; 8]);
  (103, [0; 0; 15; 17; 15; 1; 14]);
  (104, [16; 16; 30; 17; 17; 17; 17]);
  (105, [4; 0; 12; 4; 4; 4; 14]);
  (106, [2; 0; 6; 2; 2; 18; 12]);
  (107, [16; 16; 18; 20; 24; 20; 18]);
  (108, [12; 4; 4; 4; 4; 4; 14]);
  (109, [0; 0; 26; 21; 21; 21; 21]);
  (110, [0; 0; 30; 17; 17; 17; 17]);
  (111, [0; 0; 14; 17; 17; 17; 14]);
  (112, [0; 0; 30; 17; 30; 16; 16]);
  (113, [0; 0; 15; 17; 15; 1; 1]);
  (114, [0; 0; 22; 24; 16; 16; 16]);
  (115, [0; 0; 15; 16; 14; 1; 30]);
  (116, [8; 8; 30; 8; 8; 9; 6]);
  (117, [0; 0; 17; 17; 17; 19; 13]);
  (118, [0; 0; 17; 17; 10; 10; 4]);
  (119, [0; 0; 17; 21; 21; 21; 10]);
  (120, [0; 0; 17; 10; 4; 10; 17]);
  (121, [0; 0; 17; 17; 15; 1; 14]);
  (122, [0; 0; 31; 2; 4; 8; 31]);
  (34, [10; 10; 10; 0; 0; 0; 0]);
  (35, [10; 10; 31; 10; 31; 10; 10]);
  (36, [4; 15; 20; 14; 5; 30; 4]);
  (37, [24; 25; 2; 4; 8; 19; 3]);
  (38, [12; 18; 20; 8; 21; 18; 13]);
  (39, [4; 4; 8; 0; 0; 0; 0]);
  (40, [2; 4; 8; 8; 8; 4; 2]);
  (41, [8; 4; 2; 2; 2; 4; 8]);
  (42, [0; 4; 21; 14; 21; 4; 0]);
  (43, [0; 4; 4; 31; 4; 4; 0]);
  (59, [0; 12; 12; 0; 12; 4; 8]);
  (60, [2; 4; 8; 16; 8; 4; 2]);
  (62, [8; 4; 2; 1; 2; 4; 8]);
  (64, [14; 17; 23; 21; 23; 16; 14]);
  (91, [14; 8; 8; 8; 8; 8; 14]);
  (92, [16; 8; 4; 4; 2; 1; 1]);
  (93, [14; 2; 2; 2; 2; 2; 14]);
  (94, [4; 10; 17; 0; 0; 0; 0]);
  (96, [8; 4; 2; 0; 0; 0; 0]);
  (123, [2; 4; 4; 24; 4; 4; 2]);
  (124, [4; 4; 4; 0; 4; 4; 4]);
  (125, [8; 4; 4; 3; 4; 4; 8]);
  (126, [0; 0; 8; 21; 2; 0; 0]);
  (63, [14; 17; 1; 2; 4; 0; 4])].

(** The rows of the first glyph for [ch], those of the last one of the table if there
    is none. *)
Fixpoint glyph_search (l : list (Z * list Z)) (ch : Z) : list Z :=
  match l with
  | [] => []
  | [(_, rows)] => rows
  | (c, rows) :: l' => if bool_decide (c = ch) then rows else glyph_search l' ch
  end.

Definition fbcon_font_glyph (ch : Z) : list Z := glyph_search font ch.

(** ** fbcon.c *)

Definition FBCON_PIXEL_FORMAT_RGB : Z := 0.
Definition FBCON_PIXEL_FORMAT_BGR : Z := 1.
Definition GLYPH_SCALE : Z := 1.
Definition CELL_WIDTH : Z := 6.
Definition CELL_HEIGHT : Z := 9.
Definition ASCII_BS : Z := 8.
Definition ASCII_CR : Z := 13.
Definition ASCII_LF : Z := 10.

Record fb_info := FbInfo {
  fb_base : Z;
  fb_width : Z;
  fb_height : Z;
  pixels_per_scan_line : Z;
  pixel_format : Z
}.

(** The static data of fbcon.c, and the memory behind [base]. *)
Record fbcon := Fbcon {
  fbcon_info : fb_info;
  cursor_x : Z;
  cursor_y : Z;
  columns : Z;
  rows : Z;
  vram : gmap Z Z
}.
#[export] Instance eta_fbcon : Eta fbcon := fun s =>
  Fbcon (fbcon_info s) (cursor_x s) (cursor_y s) (columns s) (rows s) (vram s).

Abbreviation FB := (M fbcon).

Definition load_pixel (i : Z) : FB Z :=
  info ← gets fbcon_info;
  deref (fun s => vram s !! (fb_base info + 4 * i)).

Definition store_pixel (i : Z) (color : Z) : FB unit :=
  info ← gets fbcon_info;
  _ ← deref (fun s => vram s !! (fb_base info + 4 * i));
  modify (fun s => s <| vram := <[fb_base info + 4 * i := color]> (vram s) |>).

Definition pixel_color (info : fb_info) (red green blue : Z) : Z :=
  if bool_decide (pixel_format info = FBCON_PIXEL_FORMAT_RGB)
  then Z.lor (Z.lor red (Z.shiftl green 8)) (Z.shiftl blue 16)
  else Z.lor (Z.lor blue (Z.shiftl green 8)) (Z.shiftl red 16).

(** [y * pixels_per_scan_line + x], in 32 bits *)
Definition pixel_index (info : fb_info) (x y : Z) : Z :=
  wrap32 (wrap32 (y * pixels_per_scan_line info) + x).

Definition draw_pixel (x y color : Z) : FB unit :=
  info ← gets fbcon_info;
  if bool_decide (fb_width info <= x) || bool_decide (fb_height info <= y) then mret tt
  else store_pixel (pixel_index info x y) color.

Definition clear_cell (column row : Z) : FB unit :=
  info ← gets fbcon_info;
  let start_x := wrap32 (column * CELL_WIDTH) in
  let start_y := wrap32 (row * CELL_HEIGHT) in
  let background := pixel_color info 0 0 0 in
  for_each (seqZ 0 CELL_HEIGHT) (fun y =>
    for_each (seqZ 0 CELL_WIDTH) (fun x =>
      draw_pixel (wrap32 (start_x + x)) (wrap32 (start_y + y)) background)).

Definition draw_char (ch column row : Z) : FB unit :=
  info ← gets fbcon_info;
  let glyph := fbcon_font_glyph ch in
  let foreground := pixel_color info 220 220 220 in
  let start_x := wrap32 (column * CELL_WIDTH) in
  let start_y := wrap32 (wrap32 (row * CELL_HEIGHT) + 1) in
  clear_cell column row ;;
  for_each (seqZ 0 FBCON_FONT_HEIGHT) (fun glyph_row =>
    for_each (seqZ 0 FBCON_FONT_WIDTH) (fun glyph_col =>
      bits ← deref (fun _ => glyph !! Z.to_nat glyph_row);
      if bool_decide (Z.land bits (Z.shiftl 1 (FBCON_FONT_WIDTH - 1 - glyph_col)) = 0) then mret tt
      else
        for_each (seqZ 0 GLYPH_SCALE) (fun scale_y =>
          for_each (seqZ 0 GLYPH_SCALE) (fun scale_x =>
            draw_pixel (wrap32 (start_x + glyph_col * GLYPH_SCALE + scale_x))
              (wrap32 (start_y + glyph_row * GLYPH_SCALE + scale_y)) foreground)))).

Definition clear_screen : FB unit :=
  info ← gets fbcon_info;
  let background := pixel_color info 0 0 0 in
  for_each (seqZ 0 (fb_height info)) (fun y =>
    for_each (seqZ 0 (fb_width info)) (fun x => draw_pixel x y background)).

Definition clear_text_row (row : Z) : FB unit :=
  n ← gets columns;
  for_each (seqZ 0 n) (fun column => clear_cell column row).

Definition scroll_up : FB unit :=
  info ← gets fbcon_info;
  n ← gets columns;
  r ← gets rows;
  for_each (seqZ CELL_HEIGHT (wrap32 (r * CELL_HEIGHT) - CELL_HEIGHT)) (fun y =>
    for_each (seqZ 0 (wrap32 (n * CELL_WIDTH))) (fun x =>
      p ← load_pixel (pixel_index info x y);
      store_pixel (pixel_index info x (y - CELL_HEIGHT)) p)) ;;
  clear_text_row (wrap32 (r - 1)).

Definition newline : FB unit :=
  modify (fun s => s <| cursor_x := 0 |>) ;;
  y ← gets cursor_y;
  r ← gets rows;
  if bool_decide (wrap32 (y + 1) < r) then modify (fun s => s <| cursor_y := wrap32 (y + 1) |>)
  else
    scroll_up ;;
    modify (fun s => s <| cursor_y := wrap32 (r - 1) |>).

Definition backspace : FB unit :=
  x ← gets cursor_x;
  if bool_decide (x = 0) then mret tt
  else
    modify (fun s => s <| cursor_x := wrap32 (x - 1) |>) ;;
    y ← gets cursor_y;
    clear_cell (wrap32 (x - 1)) y.

(** [info] is [None] for a NULL pointer. *)
Definition fbcon_init (info : option fb_info) : FB Z :=
  match info with
  | None => mret (- EINVAL)
  | Some info =>
      if bool_decide (fb_base info = 0) || bool_decide (fb_width info = 0) ||
        bool_decide (fb_height info = 0) || bool_decide (pixels_per_scan_line info = 0) ||
        bool_decide (FBCON_PIXEL_FORMAT_BGR < pixel_format info)
      then mret (- EINVAL)
      else
        modify (fun s => s <| fbcon_info := info |> <| columns := fb_width info / CELL_WIDTH |>
          <| rows := fb_height info / CELL_HEIGHT |> <| cursor_x := 0 |> <| cursor_y := 0 |>) ;;
        n ← gets columns;
        r ← gets rows;
        if bool_decide (n = 0) || bool_decide (r = 0) then mret (- EINVAL)
        else clear_screen ;; mret 0
  end.

Definition fbcon_putc (ch : Z) : FB unit :=
  info ← gets fbcon_info;
  n ← gets columns;
  r ← gets rows;
  if bool_decide (fb_base info = 0) || bool_decide (r = 0) || bool_decide (n = 0) then mret tt
  else if bool_decide (ch = ASCII_CR) then mret tt
  else if bool_decide (ch = ASCII_BS) then backspace
  else if bool_decide (ch = ASCII_LF) then newline
  else
    x ← gets cursor_x;
    y ← gets cursor_y;
    draw_char ch x y ;;
    modify (fun s => s <| cursor_x := wrap32 (x + 1) |>) ;;
    if bool_decide (n <= wrap32 (x + 1)) then newline else mret tt.

(** [text] is the buffer's bytes, [None] for a NULL pointer. *)
Definition fbcon_write (text : option (list Z)) : FB unit :=
  match text with
  | None => mret tt
  | Some bytes => for_each bytes fbcon_putc
  end.

(** ** arch/x86/kernel/screen.c *)

Definition screen_console_init (boot_info : option boot_info_t) : FB unit :=
  match boot_info with
  | None => mret tt
  | Some b =>
      if bool_decide (framebuffer_base b = 0) || bool_decide (framebuffer_width b = 0) ||
        bool_decide (framebuffer_height b = 0) || bool_decide (framebuffer_pixels_per_scan_line b = 0) ||
        bool_decide (FBCON_PIXEL_FORMAT_BGR < framebuffer_pixel_format b)
      then mret tt
      else
        _ ← fbcon_init (Some (FbInfo (framebuffer_base b) (framebuffer_width b) (framebuffer_height b)
          (framebuffer_pixels_per_scan_line b) (framebuffer_pixel_format b)));
        mret tt
  end.

Definition screen_console_putc (ch : Z) : FB unit := fbcon_putc ch.

(** ** What the console is for: a terminal of characters *)

(** The contents by column and row, and the cursor. *)
Record terminal := Terminal {
  text : Z -> Z -> Z;
  term_x : Z;
  term_y : Z
}.

Definition blank_terminal : terminal := Terminal (fun _ _ => 32) 0 0.

Definition text_put (g : Z -> Z -> Z) (x y ch : Z) : Z -> Z -> Z :=
  fun c r => if bool_decide (c = x /\ r = y) then ch else g c r.

(** All lines move up by one, an empty one comes in. *)
Definition text_scroll (nrows : Z) (g : Z -> Z -> Z) : Z -> Z -> Z :=
  fun c r => if bool_decide (r = nrows - 1) then 32 else g c (r + 1).

Definition term_newline (nrows : Z) (t : terminal) : terminal :=
  if bool_decide (term_y t + 1 < nrows) then Terminal (text t) 0 (term_y t + 1)
  else Terminal (text_scroll nrows (text t)) 0 (nrows - 1).

Definition term_putc (ncols nrows : Z) (t : terminal) (ch : Z) : terminal :=
  let '(Terminal g x y) := t in
  if bool_decide (ch = 13) then t
  else if bool_decide (ch = 8) then
    if bool_decide (x = 0) then t else Terminal (text_put g (x - 1) y 32) (x - 1) y
  else if bool_decide (ch = 10) then term_newline nrows t
  else
    let t' := Terminal (text_put g x y ch) (x + 1) y in
    if bool_decide (ncols <= x + 1) then term_newline nrows t' else t'.

(** The pixel at a place of the screen. *)
Definition pix (s : fbcon) (x y : Z) : option Z :=
  let info := fbcon_info s in
  vram s !! (fb_base info + 4 * (y * pixels_per_scan_line info + x)).

(** Whether the glyph of [ch] has a dot in column [gx], row [gy]. *)
Definition lit (ch gx gy : Z) : bool :=
  bool_decide (0 <= gx < FBCON_FONT_WIDTH) && bool_decide (0 <= gy < FBCON_FONT_HEIGHT) &&
  match fbcon_font_glyph ch !! Z.to_nat gy with
  | Some bits => Z.testbit bits (FBCON_FONT_WIDTH - 1 - gx)
  | None => false
  end.

(** The pixel of a cell that shows [ch]: the glyph is one pixel below the cell's top. *)
Definition cell_pixel (info : fb_info) (ch dx dy : Z) : Z :=
  if lit ch dx (dy - 1) then pixel_color info 220 220 220 else pixel_color info 0 0 0.

(** A mode whose pixels are all mapped and can be told apart by a 32-bit index. *)
Record mode_ok (info : fb_info) (v : gmap Z Z) : Prop := {
  mode_base : fb_base info <> 0;
  mode_width : 0 < fb_width info <= pixels_per_scan_line info;
  mode_height : 0 < fb_height info;
  mode_size : fb_height info * pixels_per_scan_line info <= 4294967296;
  mode_mapped : forall i, 0 <= i < fb_height info * pixels_per_scan_line info ->
    is_Some (v !! (fb_base info + 4 * i))
}.

Record screen_ok (s : fbcon) : Prop := {
  screen_mode : mode_ok (fbcon_info s) (vram s);
  screen_columns : columns s = fb_width (fbcon_info s) / CELL_WIDTH;
  screen_rows : rows s = fb_height (fbcon_info s) / CELL_HEIGHT;
  screen_cells : 0 < columns s /\ 0 < rows s
}.

Definition shows_text (s : fbcon) (g : Z -> Z -> Z) : Prop :=
  forall c r dx dy, 0 <= c < columns s -> 0 <= r < rows s -> 0 <= dx < CELL_WIDTH -> 0 <= dy < CELL_HEIGHT ->
    pix s (c * CELL_WIDTH + dx) (r * CELL_HEIGHT + dy) = Some (cell_pixel (fbcon_info s) (g c r) dx dy).

(** The framebuffer shows the terminal's text and the cursors agree. *)
Record shows (s : fbcon) (t : terminal) : Prop := {
  shows_cells : shows_text s (text t);
  shows_x : cursor_x s = term_x t;
  shows_y : cursor_y s = term_y t;
  shows_x_in : 0 <= term_x t < columns s;
  shows_y_in : 0 <= term_y t < rows s
}.

(** ** Painting

    [paints P c s s']: the pixels of [P] become [c], no other pixel and nothing else
    changes. *)

Definition paints (P : Z -> Z -> Prop) (c : Z -> Z -> Z) (s s' : fbcon) : Prop :=
  s' = s <| vram := vram s' |> /\
  forall x y, 0 <= x < pixels_per_scan_line (fbcon_info s) -> 0 <= y ->
    (P x y /\ pix s' x y = Some (c x y)) \/ (~ P x y /\ pix s' x y = pix s x y).

Lemma paints_refl c s : paints (fun _ _ => False) c s s.
Proof. split; [by destruct s|]. intros x y _ _. right. tauto. Qed.

Lemma paints_iff P Q c d s s' :
  paints P c s s' ->
  (forall x y, P x y <-> Q x y) -> (forall x y, P x y -> c x y = d x y) ->
  paints Q d s s'.
Proof.
  intros [E HP] HPQ Hc. split; [done|]. intros x y Hx Hy.
  destruct (HP x y Hx Hy) as [[Hp He]|[Hp He]]; [left|right]; rewrite <- HPQ; [|done].
  by rewrite <- Hc.
Qed.

Lemma paints_static P c s s' : paints P c s s' ->
  fbcon_info s' = fbcon_info s /\ cursor_x s' = cursor_x s /\ cursor_y s' = cursor_y s /\
  columns s' = columns s /\ rows s' = rows s.
Proof. intros [E _]. by rewrite E. Qed.

Lemma index_inj p x y x' y' :
  0 <= x < p -> 0 <= x' < p -> y * p + x = y' * p + x' -> x = x' /\ y = y'.
Proof.
  intros Hx Hx' E. assert (Hy : y = y').
  { apply (Z.div_mod_unique p y y' x x'); [lia|lia|lia]. }
  subst. lia.
Qed.

Lemma paints_mode P c s s' : paints P c s s' ->
  mode_ok (fbcon_info s) (vram s) -> mode_ok (fbcon_info s') (vram s').
Proof.
  intros HP Hm. destruct (paints_static _ _ _ _ HP) as (Ei & _). rewrite Ei.
  destruct HP as [_ HP], Hm as [Hb Hw Hh Hs Hmap]. constructor; [done..|]. intros i Hi.
  set (p := pixels_per_scan_line (fbcon_info s)) in *.
  assert (Hd : i = (i / p) * p + i mod p) by (rewrite Z.mul_comm; apply Z.div_mod; lia).
  pose proof (Z.mod_pos_bound i p ltac:(lia)) as Hmod.
  pose proof (Z.div_pos i p ltac:(lia) ltac:(lia)) as Hdiv.
  destruct (HP (i mod p) (i / p)) as [[_ E]|[_ E]]; [lia|done| |];
    unfold pix in E; rewrite ?Ei in E; fold p in E; rewrite <- Hd in E; rewrite E; [done|].
  by apply Hmap.
Qed.

Lemma paints_screen P c s s' : paints P c s s' -> screen_ok s -> screen_ok s'.
Proof.
  intros HP [Hm Hc Hr Hn]. destruct (paints_static _ _ _ _ HP) as (Ei & _ & _ & Ec & Er).
  constructor; [by eapply paints_mode|rewrite Ei, Ec|rewrite Ei, Er|rewrite Ec, Er]; done.
Qed.

Lemma paints_trans P Q c s s1 s2 :
  paints P c s s1 -> paints Q c s1 s2 -> paints (fun x y => P x y \/ Q x y) c s s2.
Proof.
  intros HP HQ. destruct (paints_static _ _ _ _ HP) as (Ei & _).
  destruct HP as [E1 HP], HQ as [E2 HQ]. split; [rewrite E2, E1; by destruct s|].
  intros x y Hx Hy. rewrite Ei in HQ.
  destruct (HQ x y Hx Hy) as [[Hq ->]|[Hq ->]]; [left; tauto|].
  destruct (HP x y Hx Hy) as [[Hp ->]|[Hp ->]]; [left|right]; tauto.
Qed.

(** A loop paints what its rounds paint. *)
Lemma for_each_paints {A} (l : list A) (body : A -> FB unit) (P : A -> Z -> Z -> Prop) c s0 :
  (forall pre a post s, l = pre ++ a :: post -> paints (fun x y => exists b, b ∈ pre /\ P b x y) c s0 s ->
    exists s', body a s = Ret tt s' /\ paints (P a) c s s') ->
  exists s', for_each l body s0 = Ret tt s' /\ paints (fun x y => exists b, b ∈ l /\ P b x y) c s0 s'.
Proof.
  intros Hb.
  apply (for_each_total (fun pre s => paints (fun x y => exists b, b ∈ pre /\ P b x y) c s0 s)).
  - intros pre a post s El Hp. destruct (Hb pre a post s El Hp) as (s' & Er & Hp'). exists s'. split; [done|].
    eapply paints_iff; [exact (paints_trans _ _ _ _ _ _ Hp Hp')| |done]. intros x y.
    setoid_rewrite elem_of_app. setoid_rewrite list_elem_of_singleton. naive_solver.
  - eapply paints_iff; [apply paints_refl| |done]. intros x y. split; [done|]. intros (b & Hin & _). set_solver.
Qed.

Lemma seqZ_pre m n pre a post : seqZ m n = pre ++ a :: post ->
  m <= a < m + n /\ forall b, b ∈ pre <-> m <= b < a.
Proof.
  intros E. assert (Ha : seqZ m n !! length pre = Some a) by (rewrite E; by apply list_lookup_middle).
  apply lookup_seqZ in Ha as [Ea Hl]. split; [lia|]. intros b.
  assert (Ep : pre = take (length pre) (seqZ m n)) by (rewrite E; by rewrite take_app_length).
  rewrite Ep. split.
  - intros (i & Hi)%list_elem_of_lookup. apply lookup_take_Some in Hi as [Hi Hlt].
    apply lookup_seqZ in Hi. lia.
  - intros Hb. apply list_elem_of_lookup. exists (Z.to_nat (b - m)).
    apply lookup_take_Some. split; [|lia]. apply lookup_seqZ. lia.
Qed.

(** Two nested counted loops: the round [(a, b)] sees what the rounds before it painted. *)
Lemma rect_paints y0 h x0 w (body : Z -> Z -> FB unit) (P : Z -> Z -> Z -> Z -> Prop) c s0 :
  (forall a b s, y0 <= a < y0 + h -> x0 <= b < x0 + w ->
    paints (fun x y => exists a' b', y0 <= a' /\ x0 <= b' < x0 + w /\ (a' < a \/ (a' = a /\ b' < b)) /\ P a' b' x y) c s0 s ->
    exists s', body a b s = Ret tt s' /\ paints (P a b) c s s') ->
  exists s', for_each (seqZ y0 h) (fun a => for_each (seqZ x0 w) (body a)) s0 = Ret tt s' /\
    paints (fun x y => exists a b, y0 <= a < y0 + h /\ x0 <= b < x0 + w /\ P a b x y) c s0 s'.
Proof.
  intros Hb.
  destruct (for_each_paints (seqZ y0 h) (fun a => for_each (seqZ x0 w) (body a))
    (fun a x y => exists b, x0 <= b < x0 + w /\ P a b x y) c s0) as (s' & E & Hp).
  - intros pre a post s1 [Ha Hpre]%seqZ_pre Hp1.
    destruct (for_each_paints (seqZ x0 w) (body a) (P a) c s1) as (s2 & E2 & Hp2).
    + intros pre' b post' s3 [Hb' Hpre']%seqZ_pre Hp3. apply Hb; [done|done|].
      eapply paints_iff; [exact (paints_trans _ _ _ _ _ _ Hp1 Hp3)| |done]. intros x y.
      setoid_rewrite Hpre. setoid_rewrite Hpre'. split.
      * intros [(a' & Ha' & b' & ? & ?)|(b' & ? & ?)]; [exists a', b'|exists a, b']; intuition lia.
      * intros (a' & b' & ? & ? & [?|[-> ?]] & ?); [left; exists a'|right; exists b']; intuition eauto.
    + exists s2. split; [done|]. eapply paints_iff; [exact Hp2| |done]. intros x y.
      by setoid_rewrite elem_of_seqZ.
  - exists s'. split; [done|]. eapply paints_iff; [exact Hp| |done]. intros x y.
    setoid_rewrite elem_of_seqZ. naive_solver.
Qed.

(** ** Pixels, cells and glyphs *)

Lemma pixel_index_id info v x y : mode_ok info v -> 0 <= x < fb_width info -> 0 <= y < fb_height info ->
  pixel_index info x y = y * pixels_per_scan_line info + x /\
  0 <= y * pixels_per_scan_line info + x < fb_height info * pixels_per_scan_line info.
Proof.
  intros [_ Hw _ Hs _] Hx Hy. set (p := pixels_per_scan_line info) in *.
  assert (Hb : 0 <= y * p /\ y * p + p <= fb_height info * p) by nia.
  split; [|lia]. unfold pixel_index. fold p. rewrite (wrap32_id (y * p)) by (unfold in32; lia).
  apply wrap32_id. unfold in32. lia.
Qed.

Lemma store_pixel_paints s x y color : mode_ok (fbcon_info s) (vram s) ->
  0 <= x < fb_width (fbcon_info s) -> 0 <= y < fb_height (fbcon_info s) ->
  exists s', store_pixel (pixel_index (fbcon_info s) x y) color s = Ret tt s' /\
    paints (fun x' y' => x' = x /\ y' = y) (fun _ _ => color) s s'.
Proof.
  intros Hm Hx Hy. destruct (pixel_index_id _ _ _ _ Hm Hx Hy) as [-> Hi].
  destruct Hm as [_ Hw _ _ Hmap]. destruct (Hmap _ Hi) as [old Hold].
  eexists. unfold store_pixel. mred. erewrite (bind_deref (fun s => vram s !! _)) by exact Hold. mred. split; [reflexivity|].
  split; [by destruct s|]. intros x' y' Hx' Hy'. unfold pix. cbn.
  destruct (decide (x' = x /\ y' = y)) as [[-> ->]|Hne].
  - left. split; [done|]. apply lookup_insert_eq.
  - right. split; [done|]. apply lookup_insert_ne. intros E. apply Hne.
    destruct (index_inj (pixels_per_scan_line (fbcon_info s)) x y x' y'); [lia|lia|lia|done].
Qed.

Lemma draw_pixel_paints s x y color : mode_ok (fbcon_info s) (vram s) ->
  0 <= x < fb_width (fbcon_info s) -> 0 <= y < fb_height (fbcon_info s) ->
  exists s', draw_pixel x y color s = Ret tt s' /\
    paints (fun x' y' => x' = x /\ y' = y) (fun _ _ => color) s s'.
Proof.
  intros Hm Hx Hy. unfold draw_pixel. mred. rewrite !bool_decide_eq_false_2 by lia.
  by apply store_pixel_paints.
Qed.

Definition in_cell (c r x y : Z) : Prop :=
  c * CELL_WIDTH <= x < c * CELL_WIDTH + CELL_WIDTH /\ r * CELL_HEIGHT <= y < r * CELL_HEIGHT + CELL_HEIGHT.

(** The cells lie on the screen. *)
Lemma cell_on_screen s c r x y : screen_ok s -> 0 <= c < columns s -> 0 <= r < rows s -> in_cell c r x y ->
  0 <= x < fb_width (fbcon_info s) /\ 0 <= y < fb_height (fbcon_info s).
Proof.
  intros [_ Hc Hr _] Hci Hri [Hx Hy]. rewrite Hc in Hci. rewrite Hr in Hri.
  unfold CELL_WIDTH, CELL_HEIGHT in *. div_lia.
Qed.

Lemma screen_width s : screen_ok s -> fb_width (fbcon_info s) <= 4294967296 /\ fb_height (fbcon_info s) <= 4294967296.
Proof. intros [[_ Hw Hh Hs _] _ _ _]. nia. Qed.

(** Column and row numbers times a cell's size fit in 32 bits. *)
Lemma cell_origin s c r : screen_ok s -> 0 <= c < columns s -> 0 <= r < rows s ->
  wrap32 (c * CELL_WIDTH) = c * CELL_WIDTH /\ wrap32 (r * CELL_HEIGHT) = r * CELL_HEIGHT.
Proof.
  intros Hs Hc Hr. pose proof (screen_width s Hs).
  destruct (cell_on_screen s c r (c * CELL_WIDTH) (r * CELL_HEIGHT) Hs Hc Hr) as [Hx Hy]; [unfold in_cell, CELL_WIDTH, CELL_HEIGHT; lia|].
  split; apply wrap32_id; unfold in32; lia.
Qed.

Lemma clear_cell_paints s c r : screen_ok s -> 0 <= c < columns s -> 0 <= r < rows s ->
  exists s', clear_cell c r s = Ret tt s' /\
    paints (in_cell c r) (fun _ _ => pixel_color (fbcon_info s) 0 0 0) s s'.
Proof.
  intros Hs Hc Hr. unfold clear_cell. mred. destruct (cell_origin s c r Hs Hc Hr) as [-> ->].
  pose proof (screen_width s Hs) as Hw32.
  destruct (rect_paints 0 CELL_HEIGHT 0 CELL_WIDTH (fun y x =>
      draw_pixel (wrap32 (c * CELL_WIDTH + x)) (wrap32 (r * CELL_HEIGHT + y)) (pixel_color (fbcon_info s) 0 0 0))
    (fun a b x y => x = c * CELL_WIDTH + b /\ y = r * CELL_HEIGHT + a)
    (fun _ _ => pixel_color (fbcon_info s) 0 0 0) s) as (s' & E & Hp).
  - intros a b s1 Ha Hb Hp1. pose proof (paints_screen _ _ _ _ Hp1 Hs) as Hs1.
    destruct (paints_static _ _ _ _ Hp1) as (Ei & _).
    destruct (cell_on_screen s c r (c * CELL_WIDTH + b) (r * CELL_HEIGHT + a) Hs Hc Hr) as [Hx Hy];
      [unfold in_cell; lia|].
    rewrite !wrap32_id by (unfold in32; lia).
    apply draw_pixel_paints; [apply Hs1| |]; by rewrite Ei.
  - exists s'. split; [done|]. eapply paints_iff; [exact Hp| |done]. intros x y. cbn.
    unfold in_cell. split; [intros (a & b & ? & ? & -> & ->); lia|].
    intros [Hx Hy]. exists (y - r * CELL_HEIGHT), (x - c * CELL_WIDTH). lia.
Qed.

Lemma land_bit_0 bits k : 0 <= k -> Z.land bits (Z.shiftl 1 k) = 0 <-> Z.testbit bits k = false.
Proof.
  intros Hk. rewrite Z.shiftl_1_l. split.
  - intros E. assert (Hb : Z.testbit (Z.land bits (2 ^ k)) k = false) by (rewrite E; apply Z.bits_0).
    by rewrite Z.land_spec, Z.pow2_bits_true, andb_true_r in Hb.
  - intros Hb. apply Z.bits_inj_0. intros n. rewrite Z.land_spec.
    destruct (decide (n = k)) as [->|Hn]; [by rewrite Hb|].
    by rewrite Z.pow2_bits_false, andb_false_r.
Qed.

Lemma glyph_search_in l ch : l <> [] -> exists c, (c, glyph_search l ch) ∈ l.
Proof.
  induction l as [|[c rows] l IH]; intros Hl; [done|]. destruct l as [|e l]; [exists c; simpl; set_solver|].
  change (glyph_search ((c, rows) :: e :: l) ch) with (if bool_decide (c = ch) then rows else glyph_search (e :: l) ch).
  case_bool_decide; [exists c; set_solver|]. destruct IH as [c' Hc']; [done|]. exists c'. set_solver.
Qed.

(** Every glyph has seven rows. *)
Lemma glyph_row ch gy : 0 <= gy < FBCON_FONT_HEIGHT -> is_Some (fbcon_font_glyph ch !! Z.to_nat gy).
Proof.
  intros Hy. destruct (glyph_search_in font ch) as [c Hc]; [done|].
  assert (Hall : Forall (fun e => length (snd e) = 7%nat) font) by (repeat constructor).
  apply (proj1 (Forall_forall _ _) Hall) in Hc. apply lookup_lt_is_Some_2.
  unfold fbcon_font_glyph. change (length (glyph_search font ch) = 7%nat) in Hc. rewrite Hc. unfold FBCON_FONT_HEIGHT in Hy. lia.
Qed.

Lemma lit_bits ch gx gy bits : fbcon_font_glyph ch !! Z.to_nat gy = Some bits ->
  0 <= gx < FBCON_FONT_WIDTH -> 0 <= gy < FBCON_FONT_HEIGHT ->
  lit ch gx gy = Z.testbit bits (FBCON_FONT_WIDTH - 1 - gx).
Proof. intros E Hx Hy. unfold lit. rewrite E. by rewrite !bool_decide_eq_true_2. Qed.

Lemma lit_inside ch gx gy : lit ch gx gy = true -> 0 <= gx < FBCON_FONT_WIDTH /\ 0 <= gy < FBCON_FONT_HEIGHT.
Proof. unfold lit. intros [[H1 H2]%andb_prop _]%andb_prop. by apply bool_decide_eq_true in H1, H2. Qed.

(** The glyph of a space is empty, so a cleared cell shows a space. *)
Lemma space_pixel info dx dy : cell_pixel info 32 dx dy = pixel_color info 0 0 0.
Proof.
  unfold cell_pixel. destruct (lit 32 dx (dy - 1)) eqn:E; [|done]. exfalso.
  pose proof (lit_inside _ _ _ E) as [_ Hy].
  destruct (glyph_row 32 (dy - 1) Hy) as [bits Hb].
  rewrite (lit_bits _ _ _ _ Hb) in E by (apply (lit_inside _ _ _ E)).
  assert (Hall : Forall (fun b => b = 0) (fbcon_font_glyph 32)) by (vm_compute; repeat constructor).
  rewrite (Forall_lookup_1 _ _ _ _ Hall Hb), Z.bits_0 in E. done.
Qed.

Lemma draw_char_paints s ch c r : screen_ok s -> 0 <= c < columns s -> 0 <= r < rows s ->
  exists s', draw_char ch c r s = Ret tt s' /\
    paints (in_cell c r) (fun x y => cell_pixel (fbcon_info s) ch (x - c * CELL_WIDTH) (y - r * CELL_HEIGHT)) s s'.
Proof.
  intros Hs Hc Hr. unfold draw_char. mred. destruct (cell_origin s c r Hs Hc Hr) as [-> ->].
  pose proof (screen_width s Hs) as Hw32.
  assert (Hin : forall gx gy, 0 <= gx < FBCON_FONT_WIDTH -> 0 <= gy < FBCON_FONT_HEIGHT ->
    in_cell c r (c * CELL_WIDTH + gx) (r * CELL_HEIGHT + 1 + gy))
    by (unfold in_cell, FBCON_FONT_WIDTH, FBCON_FONT_HEIGHT, CELL_WIDTH, CELL_HEIGHT; lia).
  destruct (clear_cell_paints s c r Hs Hc Hr) as (s1 & E1 & Hp1). mrun E1.
  destruct (paints_static _ _ _ _ Hp1) as (Ei1 & _).
  destruct (rect_paints 0 FBCON_FONT_HEIGHT 0 FBCON_FONT_WIDTH (fun glyph_row glyph_col =>
      bits ← deref (fun _ => fbcon_font_glyph ch !! Z.to_nat glyph_row);
      if bool_decide (Z.land bits (Z.shiftl 1 (FBCON_FONT_WIDTH - 1 - glyph_col)) = 0) then mret tt
      else for_each (seqZ 0 GLYPH_SCALE) (fun scale_y => for_each (seqZ 0 GLYPH_SCALE) (fun scale_x =>
            draw_pixel (wrap32 (c * CELL_WIDTH + glyph_col * GLYPH_SCALE + scale_x))
              (wrap32 (wrap32 (r * CELL_HEIGHT + 1) + glyph_row * GLYPH_SCALE + scale_y)) (pixel_color (fbcon_info s) 220 220 220))))
    (fun a b x y => lit ch b a = true /\ x = c * CELL_WIDTH + b /\ y = r * CELL_HEIGHT + 1 + a)
    (fun _ _ => pixel_color (fbcon_info s) 220 220 220) s1) as (s2 & E2 & Hp2).
  - intros a b s3 Ha Hb Hp3. destruct (paints_static _ _ _ _ Hp3) as (Ei3 & _).
    destruct (glyph_row ch a Ha) as [bits Hbits].
    erewrite (bind_deref (fun _ => fbcon_font_glyph ch !! _)) by exact Hbits.
    pose proof (lit_bits ch b a bits Hbits Hb Ha) as Hl.
    destruct (Z.testbit bits (FBCON_FONT_WIDTH - 1 - b)) eqn:Et.
    + rewrite bool_decide_eq_false_2 by (rewrite land_bit_0; [congruence|unfold FBCON_FONT_WIDTH in *; lia]).
      destruct (cell_on_screen s c r _ _ Hs Hc Hr (Hin b a Hb Ha)) as [Hx Hy].
      destruct (cell_on_screen s c r _ _ Hs Hc Hr (Hin 0 0 ltac:(done) ltac:(done))) as [_ Hy0].
      destruct (draw_pixel_paints s3 (c * CELL_WIDTH + b) (r * CELL_HEIGHT + 1 + a) (pixel_color (fbcon_info s) 220 220 220))
        as (s4 & E4 & Hp4); [apply (paints_mode _ _ _ _ Hp3), (paints_mode _ _ _ _ Hp1), Hs|by rewrite Ei3, Ei1|by rewrite Ei3, Ei1|].
      exists s4. split.
      * cbn [seqZ GLYPH_SCALE Z.to_nat seq fmap list_fmap Pos.to_nat Pos.iter_op for_each].
        change (seqZ 0 GLYPH_SCALE) with [0]. cbn [for_each]. mred.
        rewrite (wrap32_id (r * CELL_HEIGHT + 1)) by (unfold in32; lia).
        unfold GLYPH_SCALE. rewrite !Z.mul_1_r, !Z.add_0_r, !wrap32_id by (unfold in32; lia).
        rewrite (bind_run _ _ _ _ _ E4). done.
      * eapply paints_iff; [exact Hp4| |done]. intros x y. rewrite Hl. tauto.
    + rewrite bool_decide_eq_true_2 by (rewrite land_bit_0; [done|unfold FBCON_FONT_WIDTH in *; lia]).
      exists s3. split; [done|]. eapply paints_iff; [apply paints_refl| |done]. intros x y. rewrite Hl. naive_solver.
  - exists s2. split; [exact E2|]. destruct Hp1 as [F1 Hp1], Hp2 as [F2 Hp2].
    split; [rewrite F2, F1; by destruct s|]. intros x y Hx Hy. rewrite Ei1 in Hp2.
    destruct (Hp1 x y Hx Hy) as [[Hc1 He1]|[Hc1 He1]], (Hp2 x y Hx Hy) as [[Hc2 He2]|[Hc2 He2]].
    + left. split; [done|]. rewrite He2. unfold cell_pixel.
      destruct Hc2 as (a & b & _ & _ & Hl & -> & ->).
      replace (_ - 1) with a by lia. replace (_ + b - _) with b by lia. by rewrite Hl.
    + left. split; [done|]. rewrite He2, He1. unfold cell_pixel.
      destruct (lit ch _ _) eqn:El; [|done]. exfalso. apply Hc2. pose proof (lit_inside _ _ _ El).
      exists (y - r * CELL_HEIGHT - 1), (x - c * CELL_WIDTH). split_and!; try lia. done.
    + exfalso. apply Hc1. destruct Hc2 as (a & b & ? & ? & _ & -> & ->). by apply Hin.
    + right. split; [done|]. by rewrite He2.
Qed.

(** ** From pixels to text *)

Definition text_area (s : fbcon) (x y : Z) : Prop :=
  0 <= x < columns s * CELL_WIDTH /\ 0 <= y < rows s * CELL_HEIGHT.

(** The mode stays, and so do the pixels outside the cells. *)
Record evolves (s s' : fbcon) : Prop := {
  ev_info : fbcon_info s' = fbcon_info s;
  ev_columns : columns s' = columns s;
  ev_rows : rows s' = rows s;
  ev_margin : forall x y, 0 <= x < pixels_per_scan_line (fbcon_info s) -> 0 <= y -> ~ text_area s x y ->
    pix s' x y = pix s x y
}.

#[export] Instance evolves_preorder : PreOrder evolves.
Proof.
  split; [by constructor|]. intros s1 s2 s3 [Ei Ec Er Hm] [Ei' Ec' Er' Hm'].
  constructor; [congruence..|]. intros x y Hx Hy Hn. rewrite Hm', Hm; [done..|by rewrite Ei|done|].
  unfold text_area in *. by rewrite Ec, Er.
Qed.

Lemma paints_evolves P c s s' : paints P c s s' -> (forall x y, P x y -> text_area s x y) -> evolves s s'.
Proof.
  intros HP Ha. destruct (paints_static _ _ _ _ HP) as (Ei & _ & _ & Ec & Er). constructor; [done..|].
  intros x y Hx Hy Hn. destruct HP as [_ HP]. destruct (HP x y Hx Hy) as [[Hp _]|[_ E]]; [|done].
  by apply Ha in Hp.
Qed.

Lemma cell_area s c r x y : 0 <= c < columns s -> 0 <= r < rows s -> in_cell c r x y -> text_area s x y.
Proof. unfold in_cell, text_area, CELL_WIDTH, CELL_HEIGHT. lia. Qed.

Lemma cell_at c r dx dy : 0 <= dx < CELL_WIDTH -> 0 <= dy < CELL_HEIGHT ->
  in_cell c r (c * CELL_WIDTH + dx) (r * CELL_HEIGHT + dy).
Proof. unfold in_cell. lia. Qed.

Lemma cell_scan s c r x y : screen_ok s -> 0 <= c < columns s -> 0 <= r < rows s -> in_cell c r x y ->
  0 <= x < pixels_per_scan_line (fbcon_info s) /\ 0 <= y.
Proof.
  intros Hs Hc Hr Hin. destruct (cell_on_screen s c r x y Hs Hc Hr Hin) as [Hx Hy].
  destruct Hs as [[_ Hw _ _ _] _ _ _]. lia.
Qed.

(** Painting one cell with a character puts it into the text. *)
Lemma shows_text_put s s' g c r ch : screen_ok s -> 0 <= c < columns s -> 0 <= r < rows s ->
  shows_text s g ->
  paints (in_cell c r) (fun x y => cell_pixel (fbcon_info s) ch (x - c * CELL_WIDTH) (y - r * CELL_HEIGHT)) s s' ->
  shows_text s' (text_put g c r ch).
Proof.
  intros Hs Hc Hr Hg HP. destruct (paints_static _ _ _ _ HP) as (Ei & _ & _ & Ec & Er).
  intros c' r' dx dy Hc' Hr' Hdx Hdy. rewrite Ei. rewrite Ec in Hc'. rewrite Er in Hr'.
  pose proof (cell_at c' r' dx dy Hdx Hdy) as Hin.
  destruct (cell_scan s c' r' _ _ Hs Hc' Hr' Hin) as [Hx Hy].
  destruct HP as [_ HP]. unfold text_put.
  destruct (HP _ _ Hx Hy) as [[Hp ->]|[Hp ->]].
  - assert (c' = c /\ r' = r) as [-> ->] by (unfold in_cell, CELL_WIDTH, CELL_HEIGHT in *; lia).
    rewrite bool_decide_eq_true_2 by done. do 2 f_equal; lia.
  - rewrite bool_decide_eq_false_2; [by apply Hg|]. intros [-> ->]. done.
Qed.

Lemma clear_cell_shows s g c r : screen_ok s -> 0 <= c < columns s -> 0 <= r < rows s -> shows_text s g ->
  exists v, clear_cell c r s = Ret tt (s <| vram := v |>) /\ screen_ok (s <| vram := v |>) /\
    shows_text (s <| vram := v |>) (text_put g c r 32) /\ evolves s (s <| vram := v |>).
Proof.
  intros Hs Hc Hr Hg. destruct (clear_cell_paints s c r Hs Hc Hr) as (s' & E & Hp).
  exists (vram s'). rewrite <- (proj1 Hp). split_and!; [done|by eapply paints_screen| |].
  - eapply shows_text_put; [done..|]. eapply paints_iff; [exact Hp|done|]. intros x y _. by rewrite space_pixel.
  - eapply paints_evolves; [exact Hp|]. intros x y Hin. by eapply cell_area.
Qed.

Lemma draw_char_shows s g ch c r : screen_ok s -> 0 <= c < columns s -> 0 <= r < rows s -> shows_text s g ->
  exists v, draw_char ch c r s = Ret tt (s <| vram := v |>) /\ screen_ok (s <| vram := v |>) /\
    shows_text (s <| vram := v |>) (text_put g c r ch) /\ evolves s (s <| vram := v |>).
Proof.
  intros Hs Hc Hr Hg. destruct (draw_char_paints s ch c r Hs Hc Hr) as (s' & E & Hp).
  exists (vram s'). rewrite <- (proj1 Hp). split_and!; [done|by eapply paints_screen|by eapply shows_text_put|].
  eapply paints_evolves; [exact Hp|]. intros x y Hin. by eapply cell_area.
Qed.

Lemma clear_text_row_paints s r : screen_ok s -> 0 <= r < rows s ->
  exists s', clear_text_row r s = Ret tt s' /\
    paints (fun x y => exists c, 0 <= c < columns s /\ in_cell c r x y) (fun _ _ => pixel_color (fbcon_info s) 0 0 0) s s'.
Proof.
  intros Hs Hr. unfold clear_text_row. mred.
  destruct (for_each_paints (seqZ 0 (columns s)) (fun c => clear_cell c r) (fun c => in_cell c r)
    (fun _ _ => pixel_color (fbcon_info s) 0 0 0) s) as (s' & E & Hp).
  - intros pre c post s1 [Hc _]%seqZ_pre Hp1. destruct (paints_static _ _ _ _ Hp1) as (Ei & _ & _ & Ec & Er).
    rewrite <- Ei. apply clear_cell_paints; [by eapply paints_screen|rewrite Ec; lia|by rewrite Er].
  - exists s'. split; [done|]. eapply paints_iff; [exact Hp| |done]. intros x y. setoid_rewrite elem_of_seqZ.
    naive_solver lia.
Qed.

(** The copying loop of [scroll_up] reads every pixel before it is overwritten. *)
Lemma scroll_copy_paints s : screen_ok s ->
  exists s', for_each (seqZ CELL_HEIGHT (wrap32 (rows s * CELL_HEIGHT) - CELL_HEIGHT)) (fun y =>
      for_each (seqZ 0 (wrap32 (columns s * CELL_WIDTH))) (fun x =>
        p ← load_pixel (pixel_index (fbcon_info s) x y);
        store_pixel (pixel_index (fbcon_info s) x (y - CELL_HEIGHT)) p)) s = Ret tt s' /\
    paints (fun x y => 0 <= x < columns s * CELL_WIDTH /\ 0 <= y < rows s * CELL_HEIGHT - CELL_HEIGHT)
      (fun x y => default 0 (pix s x (y + CELL_HEIGHT))) s s'.
Proof.
  intros Hs. pose proof (screen_width s Hs) as Hw32. destruct (screen_cells s Hs) as [Hcs Hrs].
  destruct (cell_on_screen s (columns s - 1) (rows s - 1) (columns s * CELL_WIDTH - 1) (rows s * CELL_HEIGHT - 1) Hs)
    as [Hx Hy]; [lia|lia|unfold in_cell, CELL_WIDTH, CELL_HEIGHT; lia|].
  rewrite !wrap32_id by (unfold in32, CELL_WIDTH, CELL_HEIGHT in *; lia).
  destruct (rect_paints CELL_HEIGHT (rows s * CELL_HEIGHT - CELL_HEIGHT) 0 (columns s * CELL_WIDTH)
    (fun y x => p ← load_pixel (pixel_index (fbcon_info s) x y);
       store_pixel (pixel_index (fbcon_info s) x (y - CELL_HEIGHT)) p)
    (fun a b x y => x = b /\ y = a - CELL_HEIGHT)
    (fun x y => default 0 (pix s x (y + CELL_HEIGHT))) s) as (s' & E & Hp).
  - intros a b s1 Ha Hb Hp1. pose proof (paints_screen _ _ _ _ Hp1 Hs) as [Hm1 _ _ _].
    destruct (paints_static _ _ _ _ Hp1) as (Ei & _). unfold CELL_HEIGHT in *.
    destruct (pixel_index_id _ _ b a (screen_mode s Hs)) as [Hidx Hbound]; [lia|lia|].
    destruct (mode_mapped _ _ (screen_mode s Hs) _ Hbound) as [p Hpx].
    assert (Hload : pix s1 b a = Some p).
    { destruct Hp1 as [_ Hp1]. destruct (Hp1 b a) as [[(a' & b' & ? & ? & ? & -> & ?) _]|[_ ->]].
      - destruct (screen_mode s Hs) as [_ ? _ _ _]. lia.
      - lia.
      - lia.
      - exact Hpx. }
    unfold pix in Hload. rewrite Ei in Hload.
    destruct (store_pixel_paints s1 b (a - 9) p Hm1) as (s2 & E2 & Hp2); [rewrite Ei; lia|rewrite Ei; lia|].
    exists s2. split.
    + unfold load_pixel. mred. rewrite Ei, Hidx.
      erewrite (bind_deref (fun s => vram s !! _)) by exact Hload. by rewrite <- Ei.
    + eapply paints_iff; [exact Hp2|done|]. intros x y [-> ->]. cbn.
      replace (a - 9 + 9) with a by lia. unfold pix. by rewrite Hpx.
  - exists s'. split; [exact E|]. eapply paints_iff; [exact Hp| |done]. intros x y. unfold CELL_HEIGHT, CELL_WIDTH in *. split.
    + intros (a & b & ? & ? & -> & ->). lia.
    + intros [? ?]. exists (y + 9), x. lia.
Qed.

Lemma cells_fit s : screen_ok s -> columns s < 4294967296 /\ rows s < 4294967296.
Proof.
  intros Hs. pose proof (screen_width s Hs). destruct Hs as [_ -> -> _]. unfold CELL_WIDTH, CELL_HEIGHT in *. div_lia.
Qed.

Lemma scroll_up_shows s g : screen_ok s -> shows_text s g ->
  exists v, scroll_up s = Ret tt (s <| vram := v |>) /\ screen_ok (s <| vram := v |>) /\
    shows_text (s <| vram := v |>) (text_scroll (rows s) g) /\ evolves s (s <| vram := v |>).
Proof.
  intros Hs Hg. pose proof (cells_fit s Hs) as [_ Hr32]. destruct (screen_cells s Hs) as [_ Hrs].
  destruct (scroll_copy_paints s Hs) as (s1 & E1 & Hp1). pose proof (paints_screen _ _ _ _ Hp1 Hs) as Hs1.
  destruct (paints_static _ _ _ _ Hp1) as (Ei & _ & _ & Ec & Er).
  destruct (clear_text_row_paints s1 (rows s - 1) Hs1) as (s2 & E2 & Hp2); [rewrite Er; lia|].
  exists (vram s2). assert (F2 : s2 = s <| vram := vram s2 |>)
    by (rewrite (proj1 Hp2), (proj1 Hp1); by destruct s). rewrite <- F2. clear F2.
  assert (Hev : evolves s s2).
  { transitivity s1; eapply paints_evolves; [exact Hp1| |exact Hp2|].
    - intros x y [? ?]. unfold text_area, CELL_HEIGHT in *. lia.
    - intros x y (c & Hc & Hin). eapply cell_area; [exact Hc| |exact Hin]. rewrite Er. lia. }
  split_and!; [|by eapply paints_screen| |done].
  - unfold scroll_up. mred. rewrite (bind_run _ _ _ _ _ E1). rewrite wrap32_id by (unfold in32; lia). exact E2.
  - destruct (paints_static _ _ _ _ Hp2) as (Ei2 & _ & _ & Ec2 & Er2).
    intros c r dx dy Hc Hr Hdx Hdy. rewrite Ei2, Ei. rewrite Ec2, Ec in Hc. rewrite Er2, Er in Hr.
    destruct (cell_scan s c r _ _ Hs Hc Hr (cell_at c r dx dy Hdx Hdy)) as [Hx Hy].
    destruct Hp1 as [_ Hp1], Hp2 as [_ Hp2]. rewrite Ei in Hp2. unfold text_scroll, CELL_HEIGHT, CELL_WIDTH in *.
    destruct (Hp2 _ _ Hx Hy) as [[(c' & Hc' & Hin) ->]|[Hn ->]].
    + rewrite bool_decide_eq_true_2 by (unfold in_cell, CELL_HEIGHT in Hin; lia). by rewrite space_pixel.
    + assert (Hlast : r <> rows s - 1).
      { intros ->. apply Hn. exists c. rewrite Ec. split; [done|]. by apply (cell_at c (rows s - 1) dx dy). }
      rewrite bool_decide_eq_false_2 by done.
      destruct (Hp1 _ _ Hx Hy) as [[_ ->]|[Hn1 _]]; [|exfalso; apply Hn1; lia].
      replace (r * 9 + dy + 9) with ((r + 1) * 9 + dy) by lia.
      pose proof (Hg c (r + 1) dx dy) as Hg1. unfold CELL_HEIGHT, CELL_WIDTH in Hg1. by rewrite Hg1 by lia.
Qed.

(** Only the pixels matter to [screen_ok], [shows_text] and [evolves], not the cursor. *)
Lemma cursor_indep s x y g : let s' := s <| cursor_x := x |> <| cursor_y := y |> in
  (screen_ok s' <-> screen_ok s) /\ (shows_text s' g <-> shows_text s g) /\ evolves s s'.
Proof. split_and!; [split; intros [? ? ? ?]; by constructor|done|by constructor]. Qed.

Lemma newline_shows s g x : screen_ok s -> shows_text s g -> 0 <= cursor_y s < rows s ->
  exists s', newline s = Ret tt s' /\ screen_ok s' /\
    shows s' (term_newline (rows s) (Terminal g x (cursor_y s))) /\ evolves s s'.
Proof.
  intros Hs Hg Hy. pose proof (cells_fit s Hs) as [_ Hr32]. destruct (screen_cells s Hs) as [Hcs Hrs].
  unfold newline, term_newline. mred. cbn [cursor_y rows upd eta_fbcon eta].
  rewrite !(wrap32_id (cursor_y s + 1)) by (unfold in32; lia). cbn [term_y text].
  case_bool_decide as Hlast.
  - mred. eexists. split; [reflexivity|].
    destruct (cursor_indep s 0 (cursor_y s + 1) g) as (H1 & H2 & H3).
    split_and!; [by apply H1| |done]. by constructor; [apply H2|..|cbn; lia].
  - destruct (cursor_indep s 0 (cursor_y s) g) as (H1 & H2 & H3).
    destruct (scroll_up_shows (s <| cursor_x := 0 |> <| cursor_y := cursor_y s |>) g) as (v & E & Hs' & Hg' & Hev);
      [by apply H1|by apply H2|].
    change (s <| cursor_x := 0 |>) with (s <| cursor_x := 0 |> <| cursor_y := cursor_y s |>).
    mrun E. mred. rewrite wrap32_id by (unfold in32; lia). eexists. split; [reflexivity|].
    set (s1 := s <| cursor_x := 0 |> <| cursor_y := cursor_y s |>) in *.
    destruct (cursor_indep (s1 <| vram := v |>) 0 (rows s - 1) (text_scroll (rows s) g)) as (H4 & H5 & H6).
    split_and!; [by apply H4| |].
    + constructor; [by apply H5|..]; cbn; try done; lia.
    + etransitivity; [exact H3|]. etransitivity; [exact Hev|]. exact H6.
Qed.

Lemma fbcon_putc_shows s t ch : screen_ok s -> shows s t ->
  exists s', fbcon_putc ch s = Ret tt s' /\ screen_ok s' /\
    shows s' (term_putc (columns s) (rows s) t ch) /\ evolves s s'.
Proof.
  intros Hs [Hg Ex Ey Hx Hy]. destruct t as [g x y]. cbn [text term_x term_y] in *. subst x y.
  pose proof (cells_fit s Hs) as [Hc32 _]. destruct (screen_cells s Hs) as [Hcs Hrs].
  unfold fbcon_putc, term_putc. mred.
  rewrite (bool_decide_eq_false_2 (fb_base _ = 0)) by apply (mode_base _ _ (screen_mode s Hs)).
  rewrite (bool_decide_eq_false_2 (rows s = 0)), (bool_decide_eq_false_2 (columns s = 0)) by lia. cbn [orb].
  unfold ASCII_CR, ASCII_BS, ASCII_LF.
  case_bool_decide as Hcr; [by exists s|]. case_bool_decide as Hbs; [|case_bool_decide as Hlf].
  - unfold backspace. mred. case_bool_decide as H0x; [by exists s|]. mred. rewrite wrap32_id by (unfold in32; lia).
    destruct (cursor_indep s (cursor_x s - 1) (cursor_y s) g) as (H1 & H2 & H3).
    destruct (clear_cell_shows (s <| cursor_x := cursor_x s - 1 |> <| cursor_y := cursor_y s |>) g (cursor_x s - 1) (cursor_y s))
      as (v & E & Hs' & Hg' & Hev); [by apply H1|cbn; lia|cbn; lia|by apply H2|].
    eexists. split; [exact E|]. split_and!; [done| |by etransitivity].
    constructor; [done|..]; cbn; try done; lia.
  - by apply newline_shows.
  - destruct (draw_char_shows s g ch (cursor_x s) (cursor_y s) Hs Hx Hy Hg) as (v & E & Hs' & Hg' & Hev).
    mred. mrun E. mred. rewrite wrap32_id by (unfold in32; lia).
    destruct (cursor_indep (s <| vram := v |>) (cursor_x s + 1) (cursor_y s) (text_put g (cursor_x s) (cursor_y s) ch))
      as (H1 & H2 & H3). apply H1 in Hs'. apply H2 in Hg'.
    case_bool_decide as Hfull.
    + destruct (newline_shows _ _ (cursor_x s + 1) Hs' Hg') as (s2 & E2 & Hs2 & Hg2 & Hev2); [done|].
      exists s2. split_and!; [exact E2|done|exact Hg2|]. etransitivity; [exact Hev|]. etransitivity; [exact H3|done].
    + eexists. split; [reflexivity|]. split_and!; [done| |by etransitivity].
      constructor; [done|..]; cbn; try done; lia.
Qed.

Lemma fbcon_write_shows bytes s t : screen_ok s -> shows s t ->
  exists s', fbcon_write (Some bytes) s = Ret tt s' /\ screen_ok s' /\
    shows s' (foldl (term_putc (columns s) (rows s)) t bytes) /\ evolves s s'.
Proof.
  revert s t. induction bytes as [|ch bytes IH]; intros s t Hs Ht; [by exists s|].
  destruct (fbcon_putc_shows s t ch Hs Ht) as (s1 & E1 & Hs1 & Ht1 & Hev1).
  destruct (IH s1 _ Hs1 Ht1) as (s2 & E2 & Hs2 & Ht2 & Hev2).
  exists s2. cbn [fbcon_write for_each foldl]. rewrite (bind_run _ _ _ _ _ E1).
  rewrite (ev_columns _ _ Hev1), (ev_rows _ _ Hev1) in Ht2.
  split_and!; [exact E2|done|done|by etransitivity].
Qed.

(** ** Start-up *)

Definition boot_mode (b : boot_info_t) : fb_info :=
  FbInfo (framebuffer_base b) (framebuffer_width b) (framebuffer_height b)
    (framebuffer_pixels_per_scan_line b) (framebuffer_pixel_format b).

Lemma clear_screen_paints s : mode_ok (fbcon_info s) (vram s) ->
  exists s', clear_screen s = Ret tt s' /\
    paints (fun x y => 0 <= x < fb_width (fbcon_info s) /\ 0 <= y < fb_height (fbcon_info s))
      (fun _ _ => pixel_color (fbcon_info s) 0 0 0) s s'.
Proof.
  intros Hm. unfold clear_screen. mred.
  destruct (rect_paints 0 (fb_height (fbcon_info s)) 0 (fb_width (fbcon_info s))
    (fun y x => draw_pixel x y (pixel_color (fbcon_info s) 0 0 0)) (fun a b x y => x = b /\ y = a)
    (fun _ _ => pixel_color (fbcon_info s) 0 0 0) s) as (s' & E & Hp).
  - intros a b s1 Ha Hb Hp1. destruct (paints_static _ _ _ _ Hp1) as (Ei & _).
    apply draw_pixel_paints; [by eapply paints_mode|rewrite Ei; lia|rewrite Ei; lia].
  - exists s'. split; [exact E|]. eapply paints_iff; [exact Hp| |done]. intros x y. split.
    + intros (a & b & ? & ? & -> & ->). lia.
    + intros [? ?]. exists y, x. lia.
Qed.

Lemma fbcon_init_clears info s : mode_ok info (vram s) ->
  CELL_WIDTH <= fb_width info -> CELL_HEIGHT <= fb_height info -> pixel_format info <= FBCON_PIXEL_FORMAT_BGR ->
  exists s', fbcon_init (Some info) s = Ret 0 s' /\ screen_ok s' /\ fbcon_info s' = info /\
    shows s' blank_terminal /\
    forall x y, 0 <= x < pixels_per_scan_line info -> 0 <= y -> fb_width info <= x \/ fb_height info <= y ->
      pix s' x y = pix (s <| fbcon_info := info |>) x y.
Proof.
  intros Hm Hw Hh Hf. unfold fbcon_init. destruct Hm as [Hb Hw' Hh' Hs Hmap].
  rewrite !bool_decide_eq_false_2 by lia. cbn [orb]. mred. cbn [columns rows upd eta_fbcon eta].
  unfold CELL_WIDTH, CELL_HEIGHT in *.
  rewrite !bool_decide_eq_false_2 by div_lia. cbn [orb].
  set (s0 := s <| fbcon_info := info |> <| columns := fb_width info / 6 |> <| rows := fb_height info / 9 |>
    <| cursor_x := 0 |> <| cursor_y := 0 |>).
  assert (Hok : screen_ok s0) by (constructor; [by constructor|done|done|cbn; div_lia]).
  destruct (clear_screen_paints s0 (screen_mode s0 Hok)) as (s1 & E & Hp). mrun E.
  destruct (paints_static _ _ _ _ Hp) as (Ei & Ecx & Ecy & Ec & Er).
  pose proof (paints_screen _ _ _ _ Hp Hok) as Hok1. destruct Hp as [_ Hp].
  exists s1. split_and!; [done|done|done| |].
  - destruct (screen_cells s0 Hok) as [Hcs Hrs]. constructor; [|done|done|cbn [term_x blank_terminal]; lia|cbn [term_y blank_terminal]; lia].
    intros c r dx dy Hc Hr Hdx Hdy. cbn [text blank_terminal]. rewrite space_pixel, Ei. rewrite Ec in Hc. rewrite Er in Hr.
    pose proof (cell_at c r dx dy Hdx Hdy) as Hin.
    destruct (cell_scan s0 c r _ _ Hok Hc Hr Hin) as [Hx Hy].
    destruct (Hp _ _ Hx Hy) as [[_ ->]|[Hn _]]; [done|]. exfalso. apply Hn. by apply (cell_on_screen s0 c r).
  - intros x y Hx Hy Hout. destruct (Hp x y Hx Hy) as [[Hin _]|[_ ->]]; [cbn in Hin; lia|done].
Qed.

Lemma screen_console_init_run b s :
  mode_ok (boot_mode b) (vram s) -> CELL_WIDTH <= framebuffer_width b -> CELL_HEIGHT <= framebuffer_height b ->
  framebuffer_pixel_format b <= FBCON_PIXEL_FORMAT_BGR ->
  exists s', screen_console_init (Some b) s = Ret tt s' /\ screen_ok s' /\ fbcon_info s' = boot_mode b /\ shows s' blank_terminal.
Proof.
  intros Hm Hw Hh Hf. destruct (fbcon_init_clears (boot_mode b) s Hm Hw Hh Hf) as (s1 & E1 & Hok & Ei & Hsh & _).
  exists s1. split; [|done]. unfold screen_console_init. destruct Hm as [Hb Hw' Hh' _ _]. cbn in Hb, Hw', Hh'.
  rewrite !bool_decide_eq_false_2 by (unfold CELL_WIDTH, CELL_HEIGHT in *; lia). cbn [orb]. mrun E1. done.
Qed.

(** C21. The framebuffer console is a terminal.  Bound to a mode whose pixels are mapped,
    it never reads or writes outside of the framebuffer, and after any sequence of bytes
    every cell shows, pixel by pixel, the glyph that a terminal with a cursor, backspace,
    line feed, wrapping and scrolling has there; pixels right of and below the visible
    screen are never touched. *)
Theorem screen_refines_terminal b bytes s :
  mode_ok (boot_mode b) (vram s) ->
  CELL_WIDTH <= framebuffer_width b -> CELL_HEIGHT <= framebuffer_height b ->
  framebuffer_pixel_format b <= FBCON_PIXEL_FORMAT_BGR ->
  exists s1 s2, screen_console_init (Some b) s = Ret tt s1 /\ for_each bytes screen_console_putc s1 = Ret tt s2 /\
    fbcon_info s2 = boot_mode b /\
    shows s2 (foldl (term_putc (framebuffer_width b / CELL_WIDTH) (framebuffer_height b / CELL_HEIGHT)) blank_terminal bytes) /\
    forall x y, 0 <= x < framebuffer_pixels_per_scan_line b -> 0 <= y ->
      framebuffer_width b <= x \/ framebuffer_height b <= y ->
      pix s2 x y = vram s !! (framebuffer_base b + 4 * (y * framebuffer_pixels_per_scan_line b + x)).
Proof.
  intros Hm Hw Hh Hf. destruct (fbcon_init_clears (boot_mode b) s Hm Hw Hh Hf) as (s1 & E1 & Hok & Ei & Hsh & Hout).
  destruct (fbcon_write_shows bytes s1 _ Hok Hsh) as (s2 & E2 & Hok2 & Hsh2 & Hev).
  exists s1, s2. rewrite (screen_columns s1 Hok), (screen_rows s1 Hok), Ei in Hsh2. split_and!; [|exact E2| |exact Hsh2|].
  - unfold screen_console_init. destruct Hm as [Hb Hw' Hh' _ _]. cbn in Hb, Hw', Hh'.
    rewrite !bool_decide_eq_false_2 by (unfold CELL_WIDTH, CELL_HEIGHT in *; lia). cbn [orb]. mrun E1. done.
  - by rewrite (ev_info _ _ Hev).
  - intros x y Hx Hy Hxy. rewrite (ev_margin _ _ Hev); [by apply Hout|by rewrite Ei|done|].
    unfold text_area. rewrite (screen_columns s1 Hok), (screen_rows s1 Hok), Ei. cbn.
    unfold CELL_WIDTH, CELL_HEIGHT. div_lia.
Qed.

(** A screen smaller than one cell is refused, and later output is dropped. *)
Lemma small_screen_is_silent info s ch : fb_base info <> 0 -> 0 < fb_width info -> 0 < fb_height info ->
  0 < pixels_per_scan_line info -> pixel_format info <= FBCON_PIXEL_FORMAT_BGR ->
  fb_width info < CELL_WIDTH \/ fb_height info < CELL_HEIGHT ->
  exists s', fbcon_init (Some info) s = Ret (- EINVAL) s' /\ fbcon_putc ch s' = Ret tt s'.
Proof.
  intros Hb Hw Hh Hp Hf Hsmall.
  assert (Hz : bool_decide (fb_width info / CELL_WIDTH = 0) || bool_decide (fb_height info / CELL_HEIGHT = 0) = true).
  { apply orb_true_iff. rewrite !bool_decide_eq_true. destruct Hsmall; [left|right]; apply Z.div_small; lia. }
  unfold fbcon_init. rewrite !bool_decide_eq_false_2 by lia. cbn [orb]. eexists. split.
  - mred. cbn. rewrite Hz. reflexivity.
  - unfold fbcon_putc. mred. cbn. rewrite <- orb_assoc, (orb_comm (bool_decide (_ / CELL_HEIGHT = 0))), Hz. by rewrite orb_true_r.
Qed.

(** ** A screen of two by two cells *)

Definition tiny_boot : boot_info_t := BootInfo 1 0 4096 40 0 40 1 0 65536 2048 13 20 16 1.

Definition tiny_screen : fbcon :=
  Fbcon (FbInfo 0 0 0 0 0) 0 0 0 0 (gset_to_gmap 0 (list_to_set ((fun i => 65536 + 4 * i) <$> seqZ 0 320))).

Lemma tiny_mode : mode_ok (boot_mode tiny_boot) (vram tiny_screen).
Proof.
  constructor; [done..|]. intros i Hi. exists 0. apply lookup_gset_to_gmap_Some. split; [|done].
  apply elem_of_list_to_set, list_elem_of_fmap. exists i. split; [done|]. apply elem_of_seqZ. cbn in Hi. lia.
Qed.

(** Three characters wrap, a line feed scrolls: the second line moves up. *)
Lemma screen_refines_terminal_witness :
  exists s1 s2, screen_console_init (Some tiny_boot) tiny_screen = Ret tt s1 /\
    for_each [97; 98; 99; 10; 100] screen_console_putc s1 = Ret tt s2 /\
    pix s2 0 0 = Some (cell_pixel (boot_mode tiny_boot) 99 0 0) /\
    (text (foldl (term_putc 2 2) blank_terminal [97; 98; 99; 10; 100]) 0 0 = 99 /\
     text (foldl (term_putc 2 2) blank_terminal [97; 98; 99; 10; 100]) 0 1 = 100).
Proof.
  destruct (screen_refines_terminal tiny_boot [97; 98; 99; 10; 100] tiny_screen tiny_mode)
    as (s1 & s2 & E1 & E2 & Ei & Hsh & _); [done|done|done|].
  exists s1, s2. split_and!; [exact E1|exact E2| |reflexivity|reflexivity].
  pose proof (shows_cells _ _ Hsh 0 0 0 0) as Hc. rewrite Ei in Hc. apply Hc;
    pose proof (shows_x_in _ _ Hsh) as Hx; pose proof (shows_y_in _ _ Hsh) as Hy;
    cbn in Hx, Hy; unfold CELL_WIDTH, CELL_HEIGHT; lia.
Defined.
