(* ===== verification/DevWait.v ===== *)
(** * Driver data under a wait queue's lock

    The input core, the tty and the work queue guard their data with the lock of the
    wait queue their readers sleep on: they take it, change the data, wake one reader
    and release it.  [posted] says what such a section does. *)

From S2P Require Import Prelude LinkedList PhysMem Switch KState Sched SchedCore WaitQueue Devices.

Section wait.
Context {H : Type} `{KAlloc H}.
Abbreviation K := (M (kernel (memory H))).

(** [wait_queue_lock_irqsave(queue, &flags)], and the value of [flags] after it. *)
Definition wait_lock (queue : Z) : K Z := f ← wait_queue_lock_irqsave queue true; deref (fun _ => f).
End wait.

Section theory.
Context {H : Type} `{KAlloc H}.
Implicit Types (k : kernel (memory H)) (Q : gmap Z (list Z)) (l : list Z).

(** The wait queues hold the threads [Q] says, are not locked, and every thread on one
    of them is blocked. *)
Record wq_inv k Q : Prop := {
  wi_waits : waits k Q;
  wi_unlocked : unlocked k Q;
  wi_blocked : forall q l t x, Q !! q = Some l -> t ∈ l -> threads k !! t = Some x -> blocked x
}.

Lemma wait_lock_run k Q q l :
  wq_inv k Q -> Q !! q = Some l -> wait_lock q k = Ret (rflags k) (enter (QueueLock q) k).
Proof.
  intros I Hq. destruct (wt_queue _ _ (wi_waits _ _ I) q l Hq) as (Hq0 & _).
  unfold wait_lock, wait_queue_lock_irqsave. rewrite bool_decide_eq_false_2 by done. cbn [orb negb].
  mred. by mrun (spin_lock_run k (QueueLock q) (proj2 (wi_unlocked _ _ I) q ltac:(by eexists))).
Qed.

(** Releasing the lock after changes to the drivers' data, the threads and the queues. *)
Lemma wait_unlock_run k Q q l k2 :
  wq_inv k Q -> Q !! q = Some l ->
  k2 = (enter (QueueLock q) k) <| kheap := kheap k2 |> <| threads := threads k2 |> <| queues := queues k2 |> ->
  wait_queue_unlock_irqrestore q (rflags k) k2 =
  Ret tt (k <| kheap := kheap k2 |> <| threads := threads k2 |> <| queues := queues k2 |>).
Proof.
  intros I Hq Ek. destruct (wt_queue _ _ (wi_waits _ _ I) q l Hq) as (Hq0 & _).
  destruct (wi_unlocked _ _ I) as [Hd Hl].
  unfold wait_queue_unlock_irqrestore. rewrite bool_decide_eq_false_2 by done.
  rewrite (unlock_after k (QueueLock q) k2); [|by apply Hl; eexists|done|by rewrite Ek|by rewrite Ek|by rewrite Ek].
  rewrite Ek. by destruct k.
Qed.

Lemma wq_inv_same k k' Q :
  wq_inv k Q -> threads k' = threads k -> queues k' = queues k -> locks k' = locks k ->
  spinlock_depth k' = spinlock_depth k -> wq_inv k' Q.
Proof.
  intros [W [Ud Ul] B] Et Eq El Ed. split; [by apply (waits_same k)|split; [by rewrite Ed|by rewrite El]|by rewrite Et].
Qed.

Lemma wq_inv_with_devs f k Q : wq_inv k Q -> wq_inv (with_devs f k) Q.
Proof. intros I. by apply (wq_inv_same k). Qed.

Lemma bind_wait_lock {A} k Q q l (c : Z -> M (kernel (memory H)) A) :
  wq_inv k Q -> Q !! q = Some l -> (f ← wait_lock q; c f) k = c (rflags k) (enter (QueueLock q) k).
Proof. intros I Hq. apply bind_run. by apply (wait_lock_run k Q q l). Qed.

(** A section that changed the drivers' data only. *)
Lemma bind_wait_unlock {A} k Q q l f (c : unit -> M (kernel (memory H)) A) :
  wq_inv k Q -> Q !! q = Some l ->
  (x ← wait_queue_unlock_irqrestore q (rflags k); c x) (with_devs f (enter (QueueLock q) k)) = c tt (with_devs f k).
Proof.
  intros I Hq. apply bind_run. rewrite (wait_unlock_run k Q q l) by done. by destruct k.
Qed.

Lemma bind_wait_unlock_id {A} k Q q l (c : unit -> M (kernel (memory H)) A) :
  wq_inv k Q -> Q !! q = Some l ->
  (x ← wait_queue_unlock_irqrestore q (rflags k); c x) (enter (QueueLock q) k) = c tt k.
Proof.
  intros I Hq. apply bind_run. rewrite (wait_unlock_run k Q q l) by done. by destruct k.
Qed.

(** A thread taken off its queue and made ready. *)
Definition roused (x : thread) : thread :=
  x <| wait_next := 0 |> <| wait_queue := 0 |> <| state := THREAD_READY |> <| wake_tick := 0 |>.

(** [f] was applied to the drivers' data and the oldest waiter of [q] was woken. *)
Record posted k Q (q : Z) (l : list Z) (f : devices -> devices) k' : Prop := {
  po_heap : kheap k' = (kheap k) <| devs ::= f |>;
  po_inv : wq_inv k' (<[q := List.tl l]> Q);
  po_threads : forall t, threads k' !! t =
    if bool_decide (hd_error l = Some t) then roused <$> threads k !! t else threads k !! t;
  po_frame : k' = k <| kheap := kheap k' |> <| threads := threads k' |> <| queues := queues k' |>
}.

Lemma post_run k Q q l f :
  wq_inv k Q -> Q !! q = Some l ->
  exists k', (wait_queue_wake_one_locked q ;; wait_queue_unlock_irqrestore q (rflags k))
               (with_devs f (enter (QueueLock q) k)) = Ret tt k' /\ posted k Q q l f k'.
Proof.
  intros I Hq. set (k1 := with_devs f (enter (QueueLock q) k)).
  destruct I as [W U B]. assert (I : wq_inv k Q) by by split. destruct U as [Ud Ul].
  assert (W1 : waits k1 Q) by by apply (waits_same k).
  pose proof (wake_one_locked_run k1 Q q l W1 Hq) as Hrun. destruct l as [|t rest].
  - eexists. split; [mrun Hrun; apply (wait_unlock_run k Q q [] k1); done|].
    split; [done| |done|done]. rewrite (insert_id Q) by done. by apply (wq_inv_same k).
  - assert (Hx : exists x, threads k !! t = Some x /\ wait_queue x = q) by (apply (wt_member _ _ W q _ t Hq); left).
    destruct Hx as (x & Hx & _).
    destruct (Hrun x Hx ltac:(apply (B q _ t x Hq); [left|done])) as (k2 & E & W2 & Hx2 & Ho & Ek).
    pose proof (wt_queue _ _ W q _ Hq) as (_ & w & _ & Hrep).
    pose proof (queue_rep_NoDup _ _ _ _ Hrep) as Hnd. apply NoDup_cons in Hnd as [Hnin _].
    eexists. split; [mrun E; apply (wait_unlock_run k Q q (t :: rest) k2); [done|done|by rewrite Ek]|].
    assert (Hthr : forall y, threads k2 !! y =
      if bool_decide (hd_error (t :: rest) = Some y) then roused <$> threads k !! y else threads k !! y).
    { intros y. destruct (decide (y = t)) as [->|Hy].
      - by rewrite bool_decide_eq_true_2, Hx2, Hx by done.
      - rewrite bool_decide_eq_false_2 by (simpl; congruence). by rewrite Ho. }
    assert (Hh : kheap k2 = (kheap k) <| devs ::= f |>) by by rewrite Ek.
    split; [exact Hh| |exact Hthr|done]. simpl List.tl. split.
    + by apply (waits_same k2).
    + split; [done|]. simpl. intros q' [l' Hl']. apply Ul.
      destruct (decide (q' = q)) as [->|Hne]; [by eexists|]. rewrite lookup_insert_ne in Hl' by done. by eexists.
    + intros q' l' y z Hq' Hin. simpl. rewrite Hthr. intros Hz.
      destruct (decide (y = t)) as [->|Hyt].
      * exfalso. destruct (decide (q' = q)) as [->|Hne].
        { rewrite lookup_insert_eq in Hq'. by injection Hq' as <-. }
        rewrite lookup_insert_ne in Hq' by done.
        apply (wt_member _ _ W q' l' t Hq') in Hin as (x' & Hx' & E').
        assert (Ht : t ∈ t :: rest) by left. apply (wt_member _ _ W q _ t Hq) in Ht as (x'' & Hx'' & E''). congruence.
      * rewrite bool_decide_eq_false_2 in Hz by (simpl; congruence).
        destruct (decide (q' = q)) as [->|Hne].
        { rewrite lookup_insert_eq in Hq'. injection Hq' as <-. apply (B q _ y z Hq); [by right|done]. }
        rewrite lookup_insert_ne in Hq' by done. by apply (B q' l' y z).
Qed.

(** ** Steps of the drivers

    What a driver does between two context switches: it changes the drivers' data and
    wakes threads that wait on its queues. *)
Record drives k Q k' Q' : Prop := {
  dr_wq : wq_inv k' Q';
  dr_dom : forall q, is_Some (Q !! q) -> is_Some (Q' !! q);
  dr_idle : forall t x, threads k !! t = Some x -> wait_queue x = 0 -> threads k' !! t = Some x;
  dr_heap : heap_part (kheap k') = heap_part (kheap k);
  dr_frame : k' = k <| kheap := kheap k' |> <| threads := threads k' |> <| queues := queues k' |>
}.

Lemma drives_with_devs f k Q : wq_inv k Q -> drives k Q (with_devs f k) Q.
Proof. intros I. split; [by apply wq_inv_with_devs|done|done|done|by destruct k]. Qed.

Lemma drives_refl k Q : wq_inv k Q -> drives k Q k Q.
Proof. intros I. split; [done|done|done|done|by destruct k]. Qed.

Lemma drives_trans k1 Q1 k2 Q2 k3 Q3 : drives k1 Q1 k2 Q2 -> drives k2 Q2 k3 Q3 -> drives k1 Q1 k3 Q3.
Proof.
  intros [W1 D1 I1 H1 F1] [W2 D2 I2 H2 F2]. split; [done|by eauto|by eauto|congruence|].
  rewrite F2, F1. by destruct k1.
Qed.

Lemma drives_posted k Q q l f k' :
  wq_inv k Q -> Q !! q = Some l -> posted k Q q l f k' -> drives k Q k' (<[q := List.tl l]> Q).
Proof.
  intros [W U B] Hq P. split; [apply P| | | |apply P].
  - intros q' Hs. destruct (decide (q' = q)) as [->|Hne]; [rewrite lookup_insert_eq; by eexists|by rewrite lookup_insert_ne].
  - intros t x Hx Hwq. rewrite (po_threads _ _ _ _ _ _ P t), bool_decide_eq_false_2; [done|].
    intros Hh. destruct l as [|t' l]; [done|]. injection Hh as ->.
    assert (Hin : t ∈ t :: l) by left. apply (wt_member _ _ W q _ t Hq) in Hin as (x' & Hx' & E).
    destruct (wt_queue _ _ W q _ Hq) as (Hq0 & _). congruence.
  - by rewrite (po_heap _ _ _ _ _ _ P).
Qed.

Lemma drives_may_block k Q k' Q' t x : drives k Q k' Q' -> may_block k t x -> may_block k' t x.
Proof.
  intros [_ _ Hi _ F] [Hc Hx Hs Hw Hsl Hd Hirq].
  split; [rewrite F; done|by apply Hi|done|done|rewrite F; done|rewrite F; done|rewrite F; done].
Qed.

Lemma drives_locks k Q k' Q' : drives k Q k' Q' -> locks k' = locks k.
Proof. intros [_ _ _ _ F]. by rewrite F. Qed.

(** ** Waiting for a condition on the drivers' data *)

Lemma wait_dev_now k Q q l t x (c : devices -> Z) n others :
  wq_inv k Q -> Q !! q = Some l -> may_block k t x -> c (devs (kheap k)) <> 0 ->
  wait_queue_wait (S n) others q (Some (dev c)) k = Ret 0 k.
Proof.
  intros [W U _] Hq Hb Hc. by apply (wait_now_run (fun k => c (devs (kheap k))) q k Q l t x).
Qed.

Lemma wait_dev_later k Q q l t x (c : devices -> Z) :
  wq_inv k Q -> Q !! q = Some l -> may_block k t x -> c (devs (kheap k)) = 0 ->
  exists k1, registered k Q q l t THREAD_WAITING 0 k1 /\
    forall others k2 Q2 l2, sched_yield others k1 = Ret tt k2 -> wq_inv k2 Q2 -> Q2 !! q = Some l2 ->
      current_thread k2 = t -> is_Some (threads k2 !! t) -> c (devs (kheap k2)) <> 0 ->
      exists k3 l3, wq_inv k3 (<[q := l3]> Q2) /\ (t ∉ l3) /\
        k3 = k2 <| threads := threads k3 |> <| queues := queues k3 |> /\
        forall n, wait_queue_wait (S (S n)) others q (Some (dev c)) k = Ret 0 k3.
Proof.
  intros [W U _] Hq Hb Hc.
  destruct (wait_later_run (fun k => c (devs (kheap k))) q k Q l t x W U Hq Hb) as (k1 & R & Hl).
  { intros Hh. by apply Hh. }
  exists k1. split; [done|]. intros others k2 Q2 l2 Ey [W2 U2 B2] Hq2 Hcur Hx2 Hc2.
  destruct (Hl others k2 Q2 l2 Ey W2 U2 Hq2 Hcur Hx2) as (k3 & l3 & W3 & [Ud3 Ul3] & Hn & Hsub & Ho & Ek3 & Hret).
  exists k3, l3. split_and!; [|done|done|].
  - split; [done|split; [done|]|].
    + intros q' [l' Hl']. apply Ul3. destruct (decide (q' = q)) as [->|]; [by eexists|].
      rewrite lookup_insert_ne in Hl' by done. by eexists.
    + intros q' l' u z Hq' Hin Hz. specialize (Ho u). destruct (threads k2 !! u) as [z0|] eqn:Hz0; [|congruence].
      destruct Ho as (z' & Hz' & Hs). assert (z' = z) as -> by congruence.
      assert (Hb0 : blocked z0).
      { destruct (decide (q' = q)) as [->|].
        - rewrite lookup_insert_eq in Hq'. injection Hq' as <-. apply (B2 q l2 u z0 Hq2); [by apply Hsub|done].
        - rewrite lookup_insert_ne in Hq' by done. by apply (B2 q' l' u z0). }
      unfold blocked in *. rewrite Hs. done.
  - apply Hret. unfold holds. simpl. by rewrite Ek3.
Qed.
End theory.
