(* ===== verification/Input.v ===== *)
(** * drivers/input/input.c: the input core

    One ring of 64 events between the drivers and the readers, guarded by the lock of
    the wait queue the readers sleep on. *)

From S2P Require Import Prelude LinkedList Ring PhysMem Switch KState Sched SchedCore WaitQueue Devices DevWait.

Definition INPUT_EVENT_KEY : Z := 1.
Definition INPUT_BUS_I8042 : Z := 1.
Definition INPUT_DEVICE_CAP_KEY : Z := Z.shiftl 1 0.
Definition INPUT_QUEUE_CAPACITY : Z := 64.
Definition INPUT_DEVICE_CAPACITY : Z := 16.

Section input.
Context {H : Type} `{KAlloc H} `{Statics}.
Abbreviation K := (M (kernel (memory H))).

Definition inq {A} (f : input_queue_t -> A) : K A := dev (fun d => f (inputq d)).
Definition set_inq (f : input_queue_t -> input_queue_t) : K unit := set_dev (fun d => d <| inputq ::= f |>).

Definition input_dev_at (a : Z) : K input_dev := deref (fun k => input_devs (devs (kheap k)) !! a).
Definition set_input_dev (a : Z) (f : input_dev -> input_dev) : K unit :=
  x ← input_dev_at a; set_dev (fun d => d <| input_devs ::= <[a := f x]> |>).

(** Reading and writing a slot of an array field. *)
Definition slot {A} (f : devices -> list A) (i : Z) : K A := deref (fun k => f (devs (kheap k)) !! Z.to_nat i).

Definition input_pending (d : devices) : Z := if bool_decide (iq_count (inputq d) = 0) then 0 else 1.
Definition input_has_event : K Z := dev input_pending.

(** The result and what was stored to [*event]. *)
Definition input_pop_locked : K (Z * option input_event) :=
  count ← inq iq_count;
  if bool_decide (count = 0) then mret (- EAGAIN, None)
  else
    head ← inq iq_head;
    e ← slot (fun d => iq_events (inputq d)) head;
    set_inq (fun q => q <| iq_head := wrap32 (iq_head q + 1) mod INPUT_QUEUE_CAPACITY |>) ;;
    set_inq (fun q => q <| iq_count := wrap32 (iq_count q - 1) |>) ;;
    mret (0, Some e).

Definition input_init : K unit :=
  ready ← inq iq_initialized;
  if negb (bool_decide (ready = 0)) then mret tt
  else
    wait_queue_init addr_input_wait ;;
    set_inq (fun q => q <| iq_head := 0 |>) ;;
    set_inq (fun q => q <| iq_tail := 0 |>) ;;
    set_inq (fun q => q <| iq_count := 0 |>) ;;
    set_inq (fun q => q <| iq_dropped := 0 |>) ;;
    set_inq (fun q => q <| iq_device_count := 0 |>) ;;
    set_inq (fun q => q <| iq_next_device_id := 1 |>) ;;
    set_inq (fun q => q <| iq_has_last := 0 |>) ;;
    set_inq (fun q => q <| iq_initialized := 1 |>).

Definition input_register_device (a : Z) : K Z :=
  ready ← inq iq_initialized;
  if bool_decide (ready = 0) || bool_decide (a = 0) then mret (- EINVAL)
  else
    x ← input_dev_at a;
    if bool_decide (dev_name x = None) || negb (bool_decide (dev_registered x = 0)) then mret (- EINVAL)
    else
      flags ← wait_lock addr_input_wait;
      n ← inq iq_device_count;
      if bool_decide (n = INPUT_DEVICE_CAPACITY) then
        wait_queue_unlock_irqrestore addr_input_wait flags ;; mret (- ENOSPC)
      else
        i ← inq iq_next_device_id;
        set_inq (fun q => q <| iq_next_device_id := wrap32 (iq_next_device_id q + 1) |>) ;;
        set_input_dev a (fun x => x <| dev_id := i |>) ;;
        set_input_dev a (fun x => x <| dev_registered := 1 |>) ;;
        _ ← slot (fun d => iq_devices (inputq d)) n;
        set_inq (fun q => q <| iq_devices ::= <[Z.to_nat n := a]> |>) ;;
        set_inq (fun q => q <| iq_device_count := wrap32 (iq_device_count q + 1) |>) ;;
        wait_queue_unlock_irqrestore addr_input_wait flags ;;
        mret 0.

(** [event = None] is a NULL pointer. *)
Definition input_report_event (event : option input_event) : K Z :=
  ready ← inq iq_initialized;
  match event with
  | None => mret (- EINVAL)
  | Some e =>
      if bool_decide (ready = 0) then mret (- EINVAL)
      else
        flags ← wait_lock addr_input_wait;
        count ← inq iq_count;
        if bool_decide (count = INPUT_QUEUE_CAPACITY) then
          set_inq (fun q => q <| iq_dropped := wrap64 (iq_dropped q + 1) |>) ;;
          wait_queue_unlock_irqrestore addr_input_wait flags ;;
          mret (- ENOSPC)
        else
          tail ← inq iq_tail;
          _ ← slot (fun d => iq_events (inputq d)) tail;
          set_inq (fun q => q <| iq_events ::= <[Z.to_nat tail := e]> |>) ;;
          set_inq (fun q => q <| iq_last := e |>) ;;
          set_inq (fun q => q <| iq_has_last := 1 |>) ;;
          set_inq (fun q => q <| iq_tail := wrap32 (iq_tail q + 1) mod INPUT_QUEUE_CAPACITY |>) ;;
          set_inq (fun q => q <| iq_count := wrap32 (iq_count q + 1) |>) ;;
          wait_queue_wake_one_locked addr_input_wait ;;
          wait_queue_unlock_irqrestore addr_input_wait flags ;;
          mret 0
  end.

Definition input_report_key (a code value modifiers : Z) : K Z :=
  if bool_decide (a = 0) then mret (- EINVAL)
  else
    x ← input_dev_at a;
    if bool_decide (dev_registered x = 0) || bool_decide (Z.land (capabilities x) INPUT_DEVICE_CAP_KEY = 0) then
      mret (- EINVAL)
    else
      now ← timer_ticks;
      input_report_event (Some (InputEvent INPUT_EVENT_KEY code value modifiers (dev_id x) now)).

(** [event = false] is a NULL pointer. *)
Definition input_read_event (rounds : nat) (others : K unit) (event : bool) : K (Z * option input_event) :=
  ready ← inq iq_initialized;
  if bool_decide (ready = 0) || negb event then mret (- EINVAL, None)
  else
    ret ← wait_queue_wait rounds others addr_input_wait (Some input_has_event);
    if negb (bool_decide (ret = 0)) then mret (ret, None)
    else
      flags ← wait_lock addr_input_wait;
      r ← input_pop_locked;
      wait_queue_unlock_irqrestore addr_input_wait flags ;;
      mret r.

Definition input_try_read_event (event : bool) : K (Z * option input_event) :=
  ready ← inq iq_initialized;
  if bool_decide (ready = 0) || negb event then mret (- EINVAL, None)
  else
    flags ← wait_lock addr_input_wait;
    r ← input_pop_locked;
    wait_queue_unlock_irqrestore addr_input_wait flags ;;
    mret r.

Definition input_dropped_events : K Z :=
  ready ← inq iq_initialized;
  if bool_decide (ready = 0) then mret 0
  else
    flags ← wait_lock addr_input_wait;
    dropped ← inq iq_dropped;
    wait_queue_unlock_irqrestore addr_input_wait flags ;;
    mret dropped.

Definition input_last_event (event : bool) : K (Z * option input_event) :=
  ready ← inq iq_initialized;
  if bool_decide (ready = 0) || negb event then mret (- EINVAL, None)
  else
    flags ← wait_lock addr_input_wait;
    has ← inq iq_has_last;
    if bool_decide (has = 0) then
      wait_queue_unlock_irqrestore addr_input_wait flags ;; mret (- EAGAIN, None)
    else
      e ← inq iq_last;
      wait_queue_unlock_irqrestore addr_input_wait flags ;;
      mret (0, Some e).
End input.

Section theory.
Context {H : Type} `{KAlloc H} `{Statics}.
Implicit Types (k : kernel (memory H)) (Q : gmap Z (list Z)) (l : list Z) (q : list input_event).

Definition iq k : input_queue_t := inputq (devs (kheap k)).

(** The input core is ready, its readers are those [Q] says, and its ring holds [q]. *)
Record input_inv k Q q : Prop := {
  in_wq : wq_inv k Q;
  in_queue : is_Some (Q !! addr_input_wait);
  in_ring : ring_rep 64 (iq_events (iq k)) (iq_head (iq k)) (iq_tail (iq k)) (iq_count (iq k)) q;
  in_ready : iq_initialized (iq k) <> 0
}.

Definition pushed (e : input_event) (x : input_queue_t) : input_queue_t :=
  x <| iq_events ::= <[Z.to_nat (iq_tail x) := e]> |> <| iq_last := e |> <| iq_has_last := 1 |>
    <| iq_tail := (iq_tail x + 1) mod 64 |> <| iq_count := iq_count x + 1 |>.

Definition popped (x : input_queue_t) : input_queue_t :=
  x <| iq_head := (iq_head x + 1) mod 64 |> <| iq_count := iq_count x - 1 |>.

Lemma input_report_run k Q q e l :
  input_inv k Q q -> Q !! addr_input_wait = Some l -> (length q < 64)%nat ->
  exists k', input_report_event (Some e) k = Ret 0 k' /\
    posted k Q addr_input_wait l (fun d => d <| inputq ::= pushed e |>) k' /\
    input_inv k' (<[addr_input_wait := List.tl l]> Q) (q ++ [e]).
Proof.
  intros [Iw _ Ir Irdy] Hl Hlen. unfold input_report_event, inq, set_inq. dstep.
  rewrite (bool_decide_eq_false_2 (iq_initialized _ = 0)) by exact Irdy.
  rewrite (bind_wait_lock k Q _ l) by done. dstep.
  pose proof (ring_rep_tail _ _ _ _ _ _ Ir) as Ht. pose proof Ir as (Hb & _ & _ & Hc & _).
  rewrite (bool_decide_eq_false_2 (iq_count _ = INPUT_QUEUE_CAPACITY)) by (change (iq_count (iq k) <> 64); lia).
  destruct (lookup_lt_is_Some_2 (iq_events (iq k)) (Z.to_nat (iq_tail (iq k)))) as [old Hold]; [lia|].
  dstep. unfold slot. erewrite bind_deref by exact Hold. dstep.
  match goal with |- context [with_devs ?f (enter ?lk k)] => set (f0 := f) end.
  assert (Hf : f0 (devs (kheap k)) = (fun d => d <| inputq ::= pushed e |>) (devs (kheap k))).
  { unfold f0, pushed, wrap32, INPUT_QUEUE_CAPACITY. simpl. fold (iq k).
    rewrite (Z.mod_small (iq_tail (iq k) + 1)), (Z.mod_small (iq_count (iq k) + 1)) by lia. done. }
  rewrite (with_devs_ext f0 (fun d => d <| inputq ::= pushed e |>)) by exact Hf.
  destruct (post_run k Q addr_input_wait l (fun d => d <| inputq ::= pushed e |>) Iw Hl) as (k' & E & P).
  exists k'. split; [by rewrite <- bind_assoc, (bind_run _ _ _ _ _ E)|]. split; [done|].
  assert (Eq : iq k' = pushed e (iq k)) by (unfold iq; by rewrite (po_heap _ _ _ _ _ _ P)).
  split; [apply P|rewrite lookup_insert_eq; by eexists| |by rewrite Eq].
  rewrite Eq. apply (ring_rep_push 64 _ _ _ _ q e Ir). lia.
Qed.

Lemma input_report_full k Q q e l :
  input_inv k Q q -> Q !! addr_input_wait = Some l -> length q = 64%nat ->
  input_report_event (Some e) k =
  Ret (- ENOSPC) (with_devs (fun d => d <| inputq ::= (fun x => x <| iq_dropped := wrap64 (iq_dropped x + 1) |>) |>) k).
Proof.
  intros [Iw _ Ir Irdy] Hl Hlen. unfold input_report_event, inq, set_inq. dstep.
  rewrite (bool_decide_eq_false_2 (iq_initialized _ = 0)) by exact Irdy.
  rewrite (bind_wait_lock k Q _ l) by done. dstep. pose proof Ir as (_ & _ & _ & Hc & _).
  rewrite (bool_decide_eq_true_2 (iq_count _ = INPUT_QUEUE_CAPACITY)) by (change (iq_count (iq k) = 64); lia). dstep.
  by rewrite (bind_wait_unlock k Q _ l).
Qed.

Lemma input_pop_run k q e :
  ring_rep 64 (iq_events (iq k)) (iq_head (iq k)) (iq_tail (iq k)) (iq_count (iq k)) (e :: q) ->
  input_pop_locked k = Ret (0, Some e) (with_devs (fun d => d <| inputq ::= popped |>) k).
Proof.
  intros Ir. destruct (ring_rep_pop _ _ _ _ _ _ _ Ir) as [Hh _].
  pose proof Ir as (_ & Hhd & _ & Hc & Hcap & _). simpl length in Hc.
  unfold input_pop_locked, inq, set_inq. dstep.
  rewrite (bool_decide_eq_false_2 (iq_count _ = 0)) by (change (iq_count (iq k) <> 0); lia). dstep.
  unfold slot. erewrite bind_deref by exact Hh. dstep. f_equal. apply with_devs_ext.
  unfold popped, wrap32, INPUT_QUEUE_CAPACITY. simpl. fold (iq k).
  by rewrite (Z.mod_small (iq_head (iq k) + 1)), (Z.mod_small (iq_count (iq k) - 1)) by lia.
Qed.

Lemma input_pop_empty k : iq_count (iq k) = 0 -> input_pop_locked k = Ret (- EAGAIN, None) k.
Proof.
  intros Hc. unfold input_pop_locked, inq. dstep.
  by rewrite (bool_decide_eq_true_2 (iq_count (inputq (devs (kheap k))) = 0)).
Qed.

Lemma popped_inv k Q q e :
  input_inv k Q (e :: q) -> input_inv (with_devs (fun d => d <| inputq ::= popped |>) k) Q q.
Proof.
  intros [Iw Iq Ir Irdy]. split; [by apply wq_inv_with_devs|done| |done].
  by destruct (ring_rep_pop _ _ _ _ _ _ _ Ir) as [_ Hr].
Qed.

Lemma input_try_read_run k Q q :
  input_inv k Q q ->
  match q with
  | e :: q' => exists k', input_try_read_event true k = Ret (0, Some e) k' /\ input_inv k' Q q' /\
      k' = with_devs (fun d => d <| inputq ::= popped |>) k
  | [] => input_try_read_event true k = Ret (- EAGAIN, None) k
  end.
Proof.
  intros I. destruct I as [Iw [l Hl] Ir Irdy]. assert (I : input_inv k Q q) by (split; eauto).
  assert (Hstart : input_try_read_event true k =
    (r ← input_pop_locked; wait_queue_unlock_irqrestore addr_input_wait (rflags k) ;; mret r)
      (enter (QueueLock addr_input_wait) k)).
  { unfold input_try_read_event, inq. dstep. rewrite (bool_decide_eq_false_2 (iq_initialized _ = 0)) by exact Irdy.
    cbn [orb negb]. by rewrite (bind_wait_lock k Q _ l). }
  destruct q as [|e q].
  - rewrite Hstart. erewrite bind_run by (apply input_pop_empty; apply (ring_rep_nil_count _ _ _ _ _ _ Ir); done).
    by rewrite (bind_wait_unlock_id k Q _ l).
  - exists (with_devs (fun d => d <| inputq ::= popped |>) k). split; [|split; [by apply (popped_inv k Q q e)|done]].
    rewrite Hstart. erewrite bind_run by (apply (input_pop_run (enter (QueueLock addr_input_wait) k) q e); exact Ir).
    by rewrite (bind_wait_unlock k Q _ l).
Qed.

(** ** The specification: a FIFO of at most 64 events *)

Inductive input_op := Report (e : input_event) | TryRead.

Definition fifo_step (op : input_op) q : (Z * option input_event) * list input_event :=
  match op, q with
  | Report e, _ => if decide (length q < 64)%nat then ((0, None), q ++ [e]) else ((- ENOSPC, None), q)
  | TryRead, e :: q' => ((0, Some e), q')
  | TryRead, [] => ((- EAGAIN, None), [])
  end.

Fixpoint fifo_run (ops : list input_op) q : list (Z * option input_event) * list input_event :=
  match ops with
  | [] => ([], q)
  | op :: ops => let '(r, q1) := fifo_step op q in let '(rs, q2) := fifo_run ops q1 in (r :: rs, q2)
  end.

Definition input_step (op : input_op) : M (kernel (memory H)) (Z * option input_event) :=
  match op with
  | Report e => r ← input_report_event (Some e); mret (r, None)
  | TryRead => input_try_read_event true
  end.

Fixpoint input_run (ops : list input_op) : M (kernel (memory H)) (list (Z * option input_event)) :=
  match ops with
  | [] => mret []
  | op :: ops => r ← input_step op; rs ← input_run ops; mret (r :: rs)
  end.

Lemma ring_q_le k Q q : input_inv k Q q -> (length q <= 64)%nat.
Proof. intros I. destruct (in_ring _ _ _ I) as (_ & _ & _ & Hc & Hle & _). lia. Qed.

Lemma input_step_run op k Q q :
  input_inv k Q q ->
  exists k' Q', input_step op k = Ret (fifo_step op q).1 k' /\ input_inv k' Q' (fifo_step op q).2.
Proof.
  intros I. pose proof (ring_q_le k Q q I) as Hle. destruct (in_queue _ _ _ I) as [l Hl]. destruct op as [e|]; simpl.
  - destruct (decide (length q < 64)%nat) as [Hlt|Hge].
    + destruct (input_report_run k Q q e l I Hl Hlt) as (k' & E & _ & I'). exists k'. eexists. by mrun E.
    + eexists _, Q. mrun (input_report_full k Q q e l I Hl ltac:(lia)). split; [reflexivity|].
      destruct I as [Iw Iq Ir Irdy]. split; [by apply wq_inv_with_devs|done..].
  - pose proof (input_try_read_run k Q q I) as Hr. destruct q as [|e q].
    + by exists k, Q.
    + destruct Hr as (k' & E & I' & _). by exists k', Q.
Qed.

(** C18.  The input core refines a FIFO of 64 events: whatever sequence of reports and
    non-blocking reads it is given, it returns what the FIFO returns: 0 or -ENOSPC for a
    report, the oldest event or -EAGAIN for a read. *)
Theorem input_refines_fifo ops : forall k Q q,
  input_inv k Q q ->
  exists k' Q', input_run ops k = Ret (fifo_run ops q).1 k' /\ input_inv k' Q' (fifo_run ops q).2.
Proof.
  induction ops as [|op ops IH]; intros k Q q I; [by exists k, Q|].
  destruct (input_step_run op k Q q I) as (k1 & Q1 & E1 & I1).
  destruct (IH k1 Q1 _ I1) as (k2 & Q2 & E2 & I2). exists k2, Q2. simpl.
  destruct (fifo_step op q) as [r q1]. simpl in *. mrun E1. mrun E2.
  by destruct (fifo_run ops q1).
Qed.

Lemma input_pending_zero k Q q : input_inv k Q q -> (input_pending (devs (kheap k)) = 0 <-> q = []).
Proof.
  intros I. pose proof (ring_rep_nil_count _ _ _ _ _ _ (in_ring _ _ _ I)) as Hc.
  unfold input_pending. change (inputq (devs (kheap k))) with (iq k). case_bool_decide; naive_solver.
Qed.

(** The read once the wait is over. *)
Lemma input_read_after k n others k3 Q3 e q3 :
  iq_initialized (iq k) <> 0 -> input_inv k3 Q3 (e :: q3) ->
  wait_queue_wait n others addr_input_wait (Some input_has_event) k = Ret 0 k3 ->
  input_read_event n others true k = Ret (0, Some e) (with_devs (fun d => d <| inputq ::= popped |>) k3).
Proof.
  intros Irdy I3 Ew. unfold input_read_event, inq. dstep.
  rewrite (bool_decide_eq_false_2 (iq_initialized _ = 0)) by exact Irdy. cbn [orb negb]. mrun Ew.
  rewrite bool_decide_eq_true_2 by done. cbn [negb]. destruct (in_queue _ _ _ I3) as [l3 Hl3].
  rewrite (bind_wait_lock k3 Q3 _ l3) by (done || apply I3).
  erewrite bind_run by (apply (input_pop_run (enter (QueueLock addr_input_wait) k3) q3 e); apply I3).
  by rewrite (bind_wait_unlock k3 Q3 _ l3) by (done || apply I3).
Qed.

Lemma input_read_now k Q e q t x n others :
  input_inv k Q (e :: q) -> may_block k t x ->
  input_read_event (S n) others true k = Ret (0, Some e) (with_devs (fun d => d <| inputq ::= popped |>) k).
Proof.
  intros I Hb. destruct (in_queue _ _ _ I) as [l Hl]. apply (input_read_after k (S n) others k Q e q (in_ready _ _ _ I) I).
  apply (wait_dev_now k Q _ l t x input_pending n others (in_wq _ _ _ I) Hl Hb).
  rewrite (input_pending_zero k Q (e :: q) I). done.
Qed.

(** [input_read_event], blocking: with events queued it takes the oldest at once.
    With none the caller is WAITING on the queue's end when the lock is released, and
    when it runs again and finds an event, the call returns the oldest one. *)
Theorem input_read_blocks k Q q t x :
  input_inv k Q q -> may_block k t x ->
  match q with
  | e :: q' => exists k', input_inv k' Q q' /\
      forall n others, input_read_event (S n) others true k = Ret (0, Some e) k'
  | [] => exists k1 l, Q !! addr_input_wait = Some l /\ registered k Q addr_input_wait l t THREAD_WAITING 0 k1 /\
      forall others k2 Q2 e q2, sched_yield others k1 = Ret tt k2 -> input_inv k2 Q2 (e :: q2) ->
        current_thread k2 = t -> is_Some (threads k2 !! t) ->
        exists k3 l3, input_inv k3 (<[addr_input_wait := l3]> Q2) q2 /\ (t ∉ l3) /\
          forall n, input_read_event (S (S n)) others true k = Ret (0, Some e) k3
  end.
Proof.
  intros I Hb. destruct (in_queue _ _ _ I) as [l Hl]. destruct q as [|e q].
  - destruct (wait_dev_later k Q addr_input_wait l t x input_pending (in_wq _ _ _ I) Hl Hb
      (proj2 (input_pending_zero k Q [] I) eq_refl)) as (k1 & R & Hlater).
    exists k1, l. split_and!; [done|done|]. intros others k2 Q2 e q2 Ey I2 Hcur Hx2.
    destruct (in_queue _ _ _ I2) as [l2 Hl2].
    destruct (Hlater others k2 Q2 l2 Ey (in_wq _ _ _ I2) Hl2 Hcur Hx2) as (k3 & l3 & I3 & Hn & Ek3 & Hret).
    { rewrite (input_pending_zero k2 Q2 (e :: q2) I2). done. }
    assert (I3' : input_inv k3 (<[addr_input_wait := l3]> Q2) (e :: q2)).
    { split; [done|rewrite lookup_insert_eq; by eexists|..]; unfold iq; rewrite Ek3; apply I2. }
    eexists _, l3. split_and!; [apply (popped_inv k3 _ q2 e I3')|done|]. intros n.
    by apply (input_read_after k _ _ k3 _ e q2 (in_ready _ _ _ I) I3').
  - eexists. split; [apply (popped_inv k Q q e I)|]. intros n others. by apply (input_read_now k Q e q t x).
Qed.
End theory.
