(* ===== verification/Workqueue.v ===== *)
(** * kernel/workqueue.c: deferred work

    One FIFO of work items, linked through [next] and guarded by the lock of the wait
    queue the worker thread sleeps on.  What the work functions may do is [well_behaved]. *)

From S2P Require Import Prelude LinkedList PhysMem Switch KState Sched SchedCore WaitQueue Devices DevWait.

Section workqueue.
Context {H : Type} `{KAlloc H} `{Statics}.
Abbreviation K := (M (kernel (memory H))).

Definition wq {A} (f : workqueue_t -> A) : K A := dev (fun d => f (sysworkq d)).
Definition set_wq (f : workqueue_t -> workqueue_t) : K unit := set_dev (fun d => d <| sysworkq ::= f |>).

Definition work_at (w : Z) : K work_struct := deref (fun k => works (devs (kheap k)) !! w).
Definition set_work (w : Z) (f : work_struct -> work_struct) : K unit :=
  _ ← work_at w; set_dev (fun d => d <| works ::= alter f w |>).

Definition work_waiting (d : devices) : Z := if bool_decide (wq_head (sysworkq d) = 0) then 0 else 1.
Definition workqueue_has_work : K Z := dev work_waiting.

Definition workqueue_pop : K Z :=
  flags ← wait_lock addr_wq_wait;
  work ← wq wq_head;
  (if negb (bool_decide (work = 0)) then
     x ← work_at work;
     set_wq (fun q => q <| wq_head := wk_next x |>) ;;
     head ← wq wq_head;
     when (bool_decide (head = 0)) (set_wq (fun q => q <| wq_tail := 0 |>)) ;;
     set_work work (fun x => x <| wk_next := 0 |>) ;;
     set_work work (fun x => x <| pending := 0 |>)
   else mret tt) ;;
  wait_queue_unlock_irqrestore addr_wq_wait flags ;;
  mret work.

(** [run f work] is the call [work->func(work)] of the function [f]. *)
Definition drain_loop (run : work_func -> Z -> K unit) (_ : unit) : K (unit + unit) :=
  work ← workqueue_pop;
  if bool_decide (work = 0) then mret (inr tt)
  else
    x ← work_at work;
    f ← deref (fun _ => func x);
    run f work ;;
    mret (inl tt).

(** One round of the worker's endless loop; [batch] bounds the items of the round. *)
Definition workqueue_round (run : work_func -> Z -> K unit) (rounds batch : nat) (others : K unit) : K unit :=
  r ← wait_queue_wait rounds others addr_wq_wait (Some workqueue_has_work);
  if negb (bool_decide (r = 0)) then panic "workqueue wait failed"
  else loop batch (drain_loop run) tt.

Definition workqueue_selftest_entry : K unit := set_wq (fun q => q <| workqueue_selftest_done := 1 |>).

Definition work_init (work : Z) (f : option work_func) (a : Z) : K unit :=
  if bool_decide (work = 0) then mret tt
  else
    set_work work (fun x => x <| func := f |>) ;;
    set_work work (fun x => x <| data := a |>) ;;
    set_work work (fun x => x <| wk_next := 0 |>) ;;
    set_work work (fun x => x <| pending := 0 |>).

Definition workqueue_init : K unit :=
  ready ← wq wq_initialized;
  if negb (bool_decide (ready = 0)) then mret tt
  else
    wait_queue_init addr_wq_wait ;;
    set_wq (fun q => q <| wq_head := 0 |>) ;;
    set_wq (fun q => q <| wq_tail := 0 |>) ;;
    set_wq (fun q => q <| started := 0 |>) ;;
    set_wq (fun q => q <| wq_initialized := 1 |>) ;;
    set_wq (fun q => q <| workqueue_selftest_done := 0 |>) ;;
    work_init addr_selftest_work (Some WORKQUEUE_SELFTEST_ENTRY) 0.

Definition queue_work (work : Z) : K Z :=
  ready ← wq wq_initialized;
  if bool_decide (ready = 0) || bool_decide (work = 0) then mret (- EINVAL)
  else
    x ← work_at work;
    if bool_decide (func x = None) then mret (- EINVAL)
    else
      flags ← wait_lock addr_wq_wait;
      x ← work_at work;
      if negb (bool_decide (pending x = 0)) then
        wait_queue_unlock_irqrestore addr_wq_wait flags ;; mret (- EBUSY)
      else
        set_work work (fun x => x <| wk_next := 0 |>) ;;
        set_work work (fun x => x <| pending := 1 |>) ;;
        tail ← wq wq_tail;
        (if negb (bool_decide (tail = 0)) then set_work tail (fun x => x <| wk_next := work |>)
         else set_wq (fun q => q <| wq_head := work |>)) ;;
        set_wq (fun q => q <| wq_tail := work |>) ;;
        wait_queue_wake_one_locked addr_wq_wait ;;
        wait_queue_unlock_irqrestore addr_wq_wait flags ;;
        mret 0.

Definition workqueue_start : K Z :=
  ready ← wq wq_initialized;
  if bool_decide (ready = 0) then mret (- EINVAL)
  else
    s ← wq started;
    if negb (bool_decide (s = 0)) then mret 0
    else
      t ← kernel_thread_create (Some "workqueue"%string) entry_workqueue_thread 0;
      if bool_decide (t = 0) then mret (- ENOMEM)
      else
        set_wq (fun q => q <| started := 1 |>) ;;
        queue_work addr_selftest_work.
End workqueue.

Section theory.
Context {H : Type} `{KAlloc H} `{Statics}.
Implicit Types (k : kernel (memory H)) (Q : gmap Z (list Z)) (l ws : list Z) (d : devices).

Definition wknext d (w : Z) : option Z := wk_next <$> works d !! w.

(** The pending items, oldest first: they are linked in this order, and an item is
    marked pending exactly when it is among them. *)
Record work_rep d ws : Prop := {
  wr_queue : queue_rep (wknext d) (wq_head (sysworkq d)) (wq_tail (sysworkq d)) ws;
  wr_pending : forall w x, works d !! w = Some x -> (pending x <> 0 <-> w ∈ ws);
  wr_null : works d !! 0 = None;
  wr_func : forall w x, w ∈ ws -> works d !! w = Some x -> func x <> None
}.

Lemma work_rep_some d ws w : work_rep d ws -> w ∈ ws -> w <> 0 /\ exists x, works d !! w = Some x.
Proof.
  intros R Hin. destruct (wr_queue _ _ R) as [Hl _]. split; [by eapply lseg_nonzero|].
  destruct (lseg_next_is_Some _ _ _ _ _ Hl Hin) as [n Hn]. apply fmap_Some in Hn as (x & Hx & _). by exists x.
Qed.

(** ** What the two operations do to the drivers' data *)

Definition enqueued (w : Z) d : devices :=
  let d1 := d <| works ::= alter (fun x => x <| wk_next := 0 |> <| pending := 1 |>) w |> in
  let d2 := if decide (wq_tail (sysworkq d) = 0) then d1 <| sysworkq ::= (fun q => q <| wq_head := w |>) |>
            else d1 <| works ::= alter (fun x => x <| wk_next := w |>) (wq_tail (sysworkq d)) |> in
  d2 <| sysworkq ::= (fun q => q <| wq_tail := w |>) |>.

Definition dequeued_work (w n : Z) d : devices :=
  d <| works ::= alter (fun x => x <| wk_next := 0 |> <| pending := 0 |>) w |>
    <| sysworkq ::= (fun q => q <| wq_head := n |> <| wq_tail := if decide (n = 0) then 0 else wq_tail q |>) |>.

Lemma enqueued_works w d y :
  y <> w -> works (enqueued w d) !! y =
  if bool_decide (y = wq_tail (sysworkq d) /\ y <> 0) then (fun x => x <| wk_next := w |>) <$> works d !! y
  else works d !! y.
Proof.
  intros Hy. unfold enqueued. destruct (decide (wq_tail (sysworkq d) = 0)) as [E|E]; simpl.
  - rewrite lookup_alter_ne by done. rewrite bool_decide_eq_false_2; [done|]. rewrite E. tauto.
  - destruct (decide (y = wq_tail (sysworkq d))) as [->|Hne].
    + rewrite lookup_alter_eq, lookup_alter_ne by done. by rewrite bool_decide_eq_true_2.
    + rewrite !lookup_alter_ne by done. rewrite bool_decide_eq_false_2; [done|]. tauto.
Qed.

Lemma enqueued_self w d x :
  works d !! w = Some x -> wq_tail (sysworkq d) <> w ->
  works (enqueued w d) !! w = Some (x <| wk_next := 0 |> <| pending := 1 |>).
Proof.
  intros Hx Ht. unfold enqueued. destruct (decide _); simpl.
  - by rewrite lookup_alter_eq, Hx.
  - rewrite lookup_alter_ne by done. by rewrite lookup_alter_eq, Hx.
Qed.

Lemma enqueued_rep d ws w x :
  work_rep d ws -> works d !! w = Some x -> pending x = 0 -> func x <> None -> work_rep (enqueued w d) (ws ++ [w]).
Proof.
  intros R Hx Hp Hfx. destruct R as [Hq Hpend Hnull Hfun]. assert (R : work_rep d ws) by by split.
  assert (Hw : w <> 0) by (intros ->; congruence).
  assert (Hnin : w ∉ ws) by (intros Hin; by apply (Hpend w x Hx) in Hin).
  assert (Htl : wq_tail (sysworkq d) <> 0 -> wq_tail (sysworkq d) ∈ ws).
  { destruct Hq as [_ Hlast]. destruct (last ws) as [z|] eqn:El; simpl in Hlast; [|done].
    intros _. rewrite Hlast. by apply last_Some_elem_of. }
  assert (Htw : wq_tail (sysworkq d) <> w).
  { intros E. apply Hnin. rewrite <- E. apply Htl. by rewrite E. }
  split.
  - assert (Et : wq_tail (sysworkq (enqueued w d)) = w) by (unfold enqueued; by destruct (decide _)).
    assert (Eh : wq_head (sysworkq (enqueued w d)) =
      if decide (wq_tail (sysworkq d) = 0) then w else wq_head (sysworkq d)) by (unfold enqueued; by destruct (decide _)).
    rewrite Et, Eh. apply (queue_rep_enqueue (wknext d)); try done.
    + unfold wknext. by rewrite (enqueued_self w d x).
    + intros y Hy Hyt. unfold wknext. rewrite enqueued_works by (by intros ->).
      rewrite bool_decide_eq_false_2; [done|]. tauto.
    + intros Ht0. unfold wknext. rewrite enqueued_works by done. rewrite bool_decide_eq_true_2 by done.
      destruct (work_rep_some d ws _ R (Htl Ht0)) as (_ & z & Hz). by rewrite Hz.
  - intros y z. destruct (decide (y = w)) as [->|Hy].
    + rewrite (enqueued_self w d x) by done. intros [= <-]. simpl. set_solver.
    + rewrite enqueued_works by done. rewrite elem_of_app, list_elem_of_singleton.
      case_bool_decide; [|intros Hz; rewrite (Hpend y z Hz); tauto].
      intros (z0 & Hz0 & ->)%fmap_Some. simpl. rewrite (Hpend y z0 Hz0). tauto.
  - rewrite enqueued_works by done. rewrite bool_decide_eq_false_2 by tauto. done.
  - intros y z Hy. destruct (decide (y = w)) as [->|Hyw].
    + rewrite (enqueued_self w d x) by done. by intros [= <-].
    + rewrite enqueued_works by done. assert (Hin : y ∈ ws) by set_solver. case_bool_decide.
      * intros (z0 & Hz0 & ->)%fmap_Some. by apply (Hfun y z0).
      * by apply (Hfun y z).
Qed.

Lemma dequeued_rep d ws w x :
  work_rep d (w :: ws) -> works d !! w = Some x -> work_rep (dequeued_work w (wk_next x) d) ws.
Proof.
  intros R Hx. pose proof (queue_rep_NoDup _ _ _ _ (wr_queue _ _ R)) as Hnd.
  apply NoDup_cons in Hnd as [Hnin _]. destruct (work_rep_some d _ w R ltac:(left)) as [Hw0 _].
  destruct R as [Hq Hpend Hnull Hfun]. split.
  - simpl. apply (queue_rep_dequeue (wknext d) _ (wq_head (sysworkq d)) _ w ws); [exact Hq|unfold wknext; by rewrite Hx|].
    intros y Hy. unfold wknext. simpl. rewrite lookup_alter_ne; [done|]. by intros ->.
  - intros y z. simpl. destruct (decide (y = w)) as [->|Hy].
    + rewrite lookup_alter_eq, Hx. intros [= <-]. simpl. naive_solver.
    + rewrite lookup_alter_ne by done. intros Hz. rewrite (Hpend y z Hz). set_solver.
  - simpl. by rewrite lookup_alter_ne.
  - intros y z Hy. simpl. rewrite lookup_alter_ne by (by intros ->). apply Hfun. by right.
Qed.

(** ** The operations *)

Lemma set_work_run w f x k :
  works (devs (kheap k)) !! w = Some x -> set_work w f k = Ret tt (with_devs (fun d => d <| works ::= alter f w |>) k).
Proof. intros Hx. unfold set_work, work_at. by erewrite bind_deref by exact Hx. Qed.

Lemma work_at_run w x k : works (devs (kheap k)) !! w = Some x -> work_at w k = Ret x k.
Proof. intros Hx. unfold work_at, deref. by rewrite Hx. Qed.

Lemma alter_twice {A} (f g : A -> A) (m : gmap Z A) i : alter f i (alter g i m) = alter (fun x => f (g x)) i m.
Proof.
  apply map_eq. intros j. destruct (decide (j = i)) as [->|Hj].
  - rewrite !lookup_alter_eq. by destruct (m !! i).
  - by rewrite !lookup_alter_ne.
Qed.

(** The work queue is ready, its worker sleeps where [Q] says, and [ws] are the items
    pending, oldest first. *)
Record work_inv k Q ws : Prop := {
  wo_wq : wq_inv k Q;
  wo_queue : is_Some (Q !! addr_wq_wait);
  wo_rep : work_rep (devs (kheap k)) ws;
  wo_ready : wq_initialized (sysworkq (devs (kheap k))) <> 0
}.

Lemma queue_work_run k Q ws w x l :
  work_inv k Q ws -> Q !! addr_wq_wait = Some l -> works (devs (kheap k)) !! w = Some x -> func x <> None ->
  pending x = 0 ->
  exists k', queue_work w k = Ret 0 k' /\ posted k Q addr_wq_wait l (enqueued w) k' /\
    work_inv k' (<[addr_wq_wait := List.tl l]> Q) (ws ++ [w]).
Proof.
  intros [Iw _ R Hrdy] Hl Hx Hf Hp. assert (Hw : w <> 0) by (intros ->; by rewrite (wr_null _ _ R) in Hx).
  unfold queue_work, wq. dstep. rewrite (bool_decide_eq_false_2 (wq_initialized _ = 0)), (bool_decide_eq_false_2 (w = 0)) by done.
  cbn [orb]. mrun (work_at_run w x k Hx). rewrite (bool_decide_eq_false_2 (func x = None)) by done.
  rewrite (bind_wait_lock k Q _ l) by done. set (ke := enter (QueueLock addr_wq_wait) k).
  mrun (work_at_run w x ke Hx). rewrite (bool_decide_eq_true_2 (pending x = 0)) by done. cbn [negb].
  mrun (set_work_run w (fun x => x <| wk_next := 0 |>) x ke Hx).
  erewrite bind_run by (eapply set_work_run; simpl; by rewrite lookup_alter_eq, Hx). dstep.
  destruct (post_run k Q addr_wq_wait l (enqueued w) Iw Hl) as (k' & E & P).
  exists k'. assert (Edevs : devs (kheap k') = enqueued w (devs (kheap k))) by by rewrite (po_heap _ _ _ _ _ _ P).
  split_and!; [|done|].
  - set (tl := wq_tail (sysworkq (devs (kheap ke)))) in *.
    match goal with |- context [with_devs ?f ke] => set (f0 := f) end.
    assert (Hgo : forall f1, f1 (devs (kheap k)) = enqueued w (devs (kheap k)) ->
      (wait_queue_wake_one_locked addr_wq_wait ;;
       wait_queue_unlock_irqrestore addr_wq_wait (rflags k) ;; mret 0) (with_devs f1 ke) = Ret 0 k').
    { intros f1 E1. rewrite (with_devs_ext f1 (enqueued w)) by exact E1. rewrite <- bind_assoc. by mrun E. }
    destruct (decide (tl = 0)) as [Et|Et].
    + rewrite (bool_decide_eq_true_2 (tl = 0)) by done. cbn [negb]. unfold set_wq. dstep.
      apply Hgo. unfold enqueued, f0. change (wq_tail (sysworkq (devs (kheap k)))) with tl.
      destruct (decide (tl = 0)); [|done]. simpl. by rewrite alter_twice.
    + rewrite (bool_decide_eq_false_2 (tl = 0)) by done. cbn [negb].
      destruct (work_rep_some _ ws tl R) as (_ & z & Hz).
      { destruct (wr_queue _ _ R) as [_ Hlast]. destruct (last ws) as [y|] eqn:El; simpl in Hlast; [|done].
        change tl with (wq_tail (sysworkq (devs (kheap k)))). rewrite Hlast. by apply last_Some_elem_of. }
      assert (Hz1 : exists z1, works (devs (kheap (with_devs f0 ke))) !! tl = Some z1).
      { unfold f0. simpl. rewrite alter_twice. destruct (decide (tl = w)) as [->|Hne].
        - rewrite lookup_alter_eq, Hx. by eexists.
        - rewrite lookup_alter_ne by done. by eexists. }
      destruct Hz1 as [z1 Hz1]. mrun (set_work_run tl (fun x => x <| wk_next := w |>) z1 _ Hz1). unfold set_wq. dstep.
      apply Hgo. unfold enqueued, f0. change (wq_tail (sysworkq (devs (kheap k)))) with tl.
      destruct (decide (tl = 0)); [done|]. simpl. by rewrite alter_twice.
  - split; [apply P|rewrite lookup_insert_eq; by eexists|rewrite Edevs; by apply (enqueued_rep _ ws w x)|].
    rewrite Edevs. unfold enqueued. by destruct (decide _).
Qed.

Lemma queue_work_busy k Q ws w x l :
  work_inv k Q ws -> Q !! addr_wq_wait = Some l -> works (devs (kheap k)) !! w = Some x -> func x <> None ->
  pending x <> 0 -> queue_work w k = Ret (- EBUSY) k.
Proof.
  intros [Iw _ R Hrdy] Hl Hx Hf Hp. assert (Hw : w <> 0) by (intros ->; by rewrite (wr_null _ _ R) in Hx).
  unfold queue_work, wq. dstep. rewrite (bool_decide_eq_false_2 (wq_initialized _ = 0)), (bool_decide_eq_false_2 (w = 0)) by done.
  cbn [orb]. mrun (work_at_run w x k Hx). rewrite (bool_decide_eq_false_2 (func x = None)) by done.
  rewrite (bind_wait_lock k Q _ l) by done. set (ke := enter (QueueLock addr_wq_wait) k).
  mrun (work_at_run w x ke Hx). rewrite (bool_decide_eq_false_2 (pending x = 0)) by done. cbn [negb].
  unfold ke. by rewrite (bind_wait_unlock_id k Q _ l).
Qed.

Lemma workqueue_pop_run k Q w ws :
  work_inv k Q (w :: ws) ->
  exists x, works (devs (kheap k)) !! w = Some x /\
    let k' := with_devs (dequeued_work w (wk_next x)) k in workqueue_pop k = Ret w k' /\ work_inv k' Q ws.
Proof.
  intros [Iw [l Hl] R Hrdy]. destruct (work_rep_some _ _ w R ltac:(left)) as (Hw & x & Hx).
  exists x. split; [done|]. cbv zeta. split.
  2:{ split; [by apply wq_inv_with_devs|by eexists| |done]. by apply dequeued_rep. }
  unfold workqueue_pop, wq. rewrite (bind_wait_lock k Q _ l) by done. set (ke := enter (QueueLock addr_wq_wait) k).
  dstep. assert (Eh : wq_head (sysworkq (devs (kheap ke))) = w) by (destruct (wr_queue _ _ R) as [(E & _) _]; exact E).
  rewrite Eh, (bool_decide_eq_false_2 (w = 0)) by done. cbn [negb]. rewrite bind_assoc.
  mrun (work_at_run w x ke Hx). unfold set_wq. dstep.
  assert (Hgo : forall f1, works (f1 (devs (kheap k))) !! w = Some x ->
    (f1 (devs (kheap k))) <| works ::= alter (fun x => x <| wk_next := 0 |> <| pending := 0 |>) w |> =
      dequeued_work w (wk_next x) (devs (kheap k)) ->
    (set_work w (fun x => x <| wk_next := 0 |>) ;; set_work w (fun x => x <| pending := 0 |>) ;;
     wait_queue_unlock_irqrestore addr_wq_wait (rflags k) ;; mret w) (with_devs f1 ke) =
    Ret w (with_devs (dequeued_work w (wk_next x)) k)).
  { intros f1 Hf1 E1. mrun (set_work_run w (fun x => x <| wk_next := 0 |>) x (with_devs f1 ke) Hf1).
    erewrite bind_run by (eapply set_work_run; simpl; by rewrite lookup_alter_eq, Hf1). dstep.
    unfold ke. rewrite (bind_wait_unlock k Q _ l) by done. mred. f_equal. apply with_devs_ext. rewrite <- E1. simpl.
    by rewrite alter_twice. }
  simpl. destruct (decide (wk_next x = 0)) as [En|En].
  - rewrite (bool_decide_eq_true_2 (wk_next x = 0)) by done. dstep. apply Hgo; [done|].
    unfold dequeued_work. simpl. by destruct (decide _).
  - rewrite (bool_decide_eq_false_2 (wk_next x = 0)) by done. dstep. apply Hgo; [done|].
    unfold dequeued_work. simpl. by destruct (decide _).
Qed.

Lemma workqueue_pop_empty k Q : work_inv k Q [] -> workqueue_pop k = Ret 0 k.
Proof.
  intros [Iw [l Hl] R Hrdy]. unfold workqueue_pop, wq. rewrite (bind_wait_lock k Q _ l) by done. dstep.
  assert (Eh : wq_head (sysworkq (devs (kheap (enter (QueueLock addr_wq_wait) k)))) = 0)
    by (destruct (wr_queue _ _ R) as [E _]; exact E).
  rewrite Eh, (bool_decide_eq_true_2 (0 = 0)) by done. cbn [negb]. dstep. by rewrite (bind_wait_unlock_id k Q _ l).
Qed.

(** [queue_work] queues an item once: an item that is not pending goes to the end
    of the queue and its worker is woken; while it is pending, queueing it again returns
    -EBUSY and changes nothing; an item without a function, or NULL, is refused. *)
Theorem queue_work_once k Q ws w :
  work_inv k Q ws -> w ∉ ws ->
  match works (devs (kheap k)) !! w with
  | Some x =>
      match func x with
      | Some _ => exists k' Q', queue_work w k = Ret 0 k' /\ work_inv k' Q' (ws ++ [w]) /\
          (forall l t y, Q !! addr_wq_wait = Some (t :: l) -> threads k !! t = Some y ->
             threads k' !! t = Some (roused y)) /\
          queue_work w k' = Ret (- EBUSY) k'
      | None => queue_work w k = Ret (- EINVAL) k
      end
  | None => w = 0 -> queue_work w k = Ret (- EINVAL) k
  end.
Proof.
  intros I Hnin. pose proof I as [Iw [l Hl] R Hrdy]. destruct (works (devs (kheap k)) !! w) as [x|] eqn:Hx.
  2:{ intros ->. unfold queue_work, wq. dstep. by rewrite orb_true_r. }
  assert (Hw : w <> 0) by (intros ->; by rewrite (wr_null _ _ R) in Hx).
  destruct (func x) as [f|] eqn:Hf.
  - assert (Hp : pending x = 0) by (destruct (decide (pending x = 0)) as [|Hp]; [done|by apply (wr_pending _ _ R w x Hx) in Hp]).
    destruct (queue_work_run k Q ws w x l I Hl Hx ltac:(congruence) Hp) as (k' & E & P & I').
    exists k', (<[addr_wq_wait := List.tl l]> Q). split_and!; [done|done| |].
    + intros l' t y Hl' Hy. rewrite (po_threads _ _ _ _ _ _ P t). assert (l = t :: l') as -> by congruence.
      by rewrite bool_decide_eq_true_2, Hy.
    + assert (Hin : w ∈ ws ++ [w]) by set_solver.
      destruct (work_rep_some _ _ w (wo_rep _ _ _ I') Hin) as (_ & x' & Hx').
      apply (queue_work_busy k' (<[addr_wq_wait := List.tl l]> Q) (ws ++ [w]) w x' (List.tl l)); [done|apply lookup_insert_eq|done| |].
      * by apply (wr_func _ _ (wo_rep _ _ _ I') w x').
      * by apply (wr_pending _ _ (wo_rep _ _ _ I') w x').
  - unfold queue_work, wq. dstep.
    rewrite (bool_decide_eq_false_2 (wq_initialized _ = 0)), (bool_decide_eq_false_2 (w = 0)) by done.
    cbn [orb]. mrun (work_at_run w x k Hx). by rewrite Hf.
Qed.

(** ** The worker *)

(** The functions of [ws] were called, once each and in this order, each with its item
    already off the queue. *)
Inductive ran (run : work_func -> Z -> M (kernel (memory H)) unit) : list Z -> kernel (memory H) -> kernel (memory H) -> Prop :=
| ran_nil k : ran run [] k k
| ran_cons w x f ws k k1 k2 :
    works (devs (kheap k)) !! w = Some x -> func x = Some f ->
    run f w (with_devs (dequeued_work w (wk_next x)) k) = Ret tt k1 ->
    ran run ws k1 k2 -> ran run (w :: ws) k k2.

(** Work functions that, in a state with [P], return, leave the work queue as they found
    it and keep [P]; and [P] is not lost when an item is taken off the queue.  ([P] is
    what the functions need of the rest of the kernel; for the kernel's own functions see
    [run_work_well_behaved] in Typing.v.) *)
Definition well_behaved (run : work_func -> Z -> M (kernel (memory H)) unit) (P : gmap Z (list Z) -> kernel (memory H) -> Prop) : Prop :=
  (forall f w k Q ws, work_inv k Q ws -> P Q k ->
    exists k' Q', run f w k = Ret tt k' /\ work_inv k' Q' ws /\ P Q' k') /\
  forall w n k Q, wq_inv k Q -> P Q k -> P Q (with_devs (dequeued_work w n) k).

Lemma drain_run run P ws : forall k Q fuel,
  well_behaved run P -> work_inv k Q ws -> P Q k -> (length ws < fuel)%nat ->
  exists k' Q', loop fuel (drain_loop run) tt k = Ret tt k' /\ ran run ws k k' /\ work_inv k' Q' [] /\ P Q' k'.
Proof.
  induction ws as [|w ws IH]; intros k Q fuel Hrun I HP Hf; (destruct fuel as [|fuel]; [simpl in Hf; lia|]); rewrite loop_S.
  - exists k, Q. split; [|split_and!; [constructor|done|done]]. unfold drain_loop. rewrite bind_assoc.
    by mrun (workqueue_pop_empty k Q I).
  - destruct (workqueue_pop_run k Q w ws I) as (x & Hx & Epop & I1).
    destruct (work_rep_some _ _ w (wo_rep _ _ _ I) ltac:(left)) as (Hw & _).
    pose proof (wr_func _ _ (wo_rep _ _ _ I) w x ltac:(left) Hx) as Hfn. destruct (func x) as [f|] eqn:Ef; [|done].
    set (k1 := with_devs (dequeued_work w (wk_next x)) k) in *.
    destruct (proj1 Hrun f w k1 Q ws I1) as (k2 & Q2 & E2 & I2 & HP2); [by apply Hrun; [apply I|]|].
    assert (Estep : drain_loop run tt k = Ret (inl tt) k2).
    { unfold drain_loop. mrun Epop. rewrite bool_decide_eq_false_2 by done.
      erewrite bind_run by (apply work_at_run; unfold k1; simpl; by rewrite lookup_alter_eq, Hx). simpl.
      erewrite bind_deref by exact Ef. by mrun E2. }
    mrun Estep. destruct (IH k2 Q2 fuel Hrun I2 HP2) as (k3 & Q3 & E3 & R3 & I3 & HP3); [simpl in Hf; lia|].
    exists k3, Q3. split_and!; [done|by eapply ran_cons|done|done].
Qed.

(** C36.  A round of the worker thread with work pending, when the work functions return
    and leave the queue as they found it ([well_behaved], which the kernel's own two
    functions are): it does not sleep, calls the function of every pending item exactly
    once and in the order they were queued, each after its item was taken off (so that it
    may be queued again), and stops with the queue empty. *)
Theorem workqueue_runs_in_order run P k Q ws t x n batch others :
  work_inv k Q ws -> ws <> [] -> may_block k t x -> well_behaved run P -> P Q k -> (length ws < batch)%nat ->
  exists k' Q', workqueue_round run (S n) batch others k = Ret tt k' /\ ran run ws k k' /\ work_inv k' Q' [] /\ P Q' k'.
Proof.
  intros I Hne Hb Hrun HP Hlen. destruct (wo_queue _ _ _ I) as [l Hl].
  assert (Hc : work_waiting (devs (kheap k)) <> 0).
  { destruct ws as [|w ws]; [done|]. destruct (wr_queue _ _ (wo_rep _ _ _ I)) as [(E & Hw & _) _].
    unfold work_waiting. by rewrite E, bool_decide_eq_false_2. }
  destruct (drain_run run P ws k Q batch Hrun I HP Hlen) as (k' & Q' & E & R & I' & HP').
  exists k', Q'. split_and!; [|done|done|done]. unfold workqueue_round.
  by mrun (wait_dev_now k Q addr_wq_wait l t x work_waiting n others (wo_wq _ _ _ I) Hl Hb Hc).
Qed.
End theory.
