(* ===== verification/Keymap.v ===== *)
(** * drivers/tty/keymap.c, the key tables, and UTF-8

    Key codes, the US keymap and the PS/2 tables as the source has them, and the pure
    functions on them: key code and modifiers to key symbol, symbol to bytes. *)

From S2P Require Import Prelude.

(** Characters and strings as lists of bytes. *)
Definition chr (s : string) : Z := match s with String c _ => Z.of_N (Ascii.N_of_ascii c) | EmptyString => 0 end.
Fixpoint str (s : string) : list Z := match s with String c s => Z.of_N (Ascii.N_of_ascii c) :: str s | EmptyString => [] end.

(** ** include/tianole/input-event-codes.h: the key codes the kernel uses *)

Definition INPUT_KEY_RESERVED : Z := 0.
Definition INPUT_KEY_ESC : Z := 1.
Definition INPUT_KEY_1 : Z := 2.
Definition INPUT_KEY_2 : Z := 3.
Definition INPUT_KEY_3 : Z := 4.
Definition INPUT_KEY_4 : Z := 5.
Definition INPUT_KEY_5 : Z := 6.
Definition INPUT_KEY_6 : Z := 7.
Definition INPUT_KEY_7 : Z := 8.
Definition INPUT_KEY_8 : Z := 9.
Definition INPUT_KEY_9 : Z := 10.
Definition INPUT_KEY_0 : Z := 11.
Definition INPUT_KEY_MINUS : Z := 12.
Definition INPUT_KEY_EQUAL : Z := 13.
Definition INPUT_KEY_BACKSPACE : Z := 14.
Definition INPUT_KEY_TAB : Z := 15.
Definition INPUT_KEY_Q : Z := 16.
Definition INPUT_KEY_W : Z := 17.
Definition INPUT_KEY_E : Z := 18.
Definition INPUT_KEY_R : Z := 19.
Definition INPUT_KEY_T : Z := 20.
Definition INPUT_KEY_Y : Z := 21.
Definition INPUT_KEY_U : Z := 22.
Definition INPUT_KEY_I : Z := 23.
Definition INPUT_KEY_O : Z := 24.
Definition INPUT_KEY_P : Z := 25.
Definition INPUT_KEY_LEFTBRACE : Z := 26.
Definition INPUT_KEY_RIGHTBRACE : Z := 27.
Definition INPUT_KEY_ENTER : Z := 28.
Definition INPUT_KEY_LEFTCTRL : Z := 29.
Definition INPUT_KEY_A : Z := 30.
Definition INPUT_KEY_S : Z := 31.
Definition INPUT_KEY_D : Z := 32.
Definition INPUT_KEY_F : Z := 33.
Definition INPUT_KEY_G : Z := 34.
Definition INPUT_KEY_H : Z := 35.
Definition INPUT_KEY_J : Z := 36.
Definition INPUT_KEY_K : Z := 37.
Definition INPUT_KEY_L : Z := 38.
Definition INPUT_KEY_SEMICOLON : Z := 39.
Definition INPUT_KEY_APOSTROPHE : Z := 40.
Definition INPUT_KEY_GRAVE : Z := 41.
Definition INPUT_KEY_LEFTSHIFT : Z := 42.
Definition INPUT_KEY_BACKSLASH : Z := 43.
Definition INPUT_KEY_Z : Z := 44.
Definition INPUT_KEY_X : Z := 45.
Definition INPUT_KEY_C : Z := 46.
Definition INPUT_KEY_V : Z := 47.
Definition INPUT_KEY_B : Z := 48.
Definition INPUT_KEY_N : Z := 49.
Definition INPUT_KEY_M : Z := 50.
Definition INPUT_KEY_COMMA : Z := 51.
Definition INPUT_KEY_DOT : Z := 52.
Definition INPUT_KEY_SLASH : Z := 53.
Definition INPUT_KEY_RIGHTSHIFT : Z := 54.
Definition INPUT_KEY_KPASTERISK : Z := 55.
Definition INPUT_KEY_LEFTALT : Z := 56.
Definition INPUT_KEY_SPACE : Z := 57.
Definition INPUT_KEY_CAPSLOCK : Z := 58.
Definition INPUT_KEY_F1 : Z := 59.
Definition INPUT_KEY_F2 : Z := 60.
Definition INPUT_KEY_F3 : Z := 61.
Definition INPUT_KEY_F4 : Z := 62.
Definition INPUT_KEY_F5 : Z := 63.
Definition INPUT_KEY_F6 : Z := 64.
Definition INPUT_KEY_F7 : Z := 65.
Definition INPUT_KEY_F8 : Z := 66.
Definition INPUT_KEY_F9 : Z := 67.
Definition INPUT_KEY_F10 : Z := 68.
Definition INPUT_KEY_NUMLOCK : Z := 69.
Definition INPUT_KEY_SCROLLLOCK : Z := 70.
Definition INPUT_KEY_KP7 : Z := 71.
Definition INPUT_KEY_KP8 : Z := 72.
Definition INPUT_KEY_KP9 : Z := 73.
Definition INPUT_KEY_KPMINUS : Z := 74.
Definition INPUT_KEY_KP4 : Z := 75.
Definition INPUT_KEY_KP5 : Z := 76.
Definition INPUT_KEY_KP6 : Z := 77.
Definition INPUT_KEY_KPPLUS : Z := 78.
Definition INPUT_KEY_KP1 : Z := 79.
Definition INPUT_KEY_KP2 : Z := 80.
Definition INPUT_KEY_KP3 : Z := 81.
Definition INPUT_KEY_KP0 : Z := 82.
Definition INPUT_KEY_KPDOT : Z := 83.
Definition INPUT_KEY_F11 : Z := 87.
Definition INPUT_KEY_F12 : Z := 88.
Definition INPUT_KEY_KPENTER : Z := 96.
Definition INPUT_KEY_RIGHTCTRL : Z := 97.
Definition INPUT_KEY_KPSLASH : Z := 98.
Definition INPUT_KEY_RIGHTALT : Z := 100.
Definition INPUT_KEY_HOME : Z := 102.
Definition INPUT_KEY_UP : Z := 103.
Definition INPUT_KEY_PAGEUP : Z := 104.
Definition INPUT_KEY_LEFT : Z := 105.
Definition INPUT_KEY_RIGHT : Z := 106.
Definition INPUT_KEY_END : Z := 107.
Definition INPUT_KEY_DOWN : Z := 108.
Definition INPUT_KEY_PAGEDOWN : Z := 109.
Definition INPUT_KEY_INSERT : Z := 110.
Definition INPUT_KEY_DELETE : Z := 111.

(** ** include/tianole/keysym.h and input.h *)

Definition TTY_KEYSYM_NONE : Z := 0.
Definition TTY_KEYSYM_UNICODE : Z := 1.
Definition TTY_KEYSYM_FUNCTION : Z := 2.

Definition TTY_FUNC_F1 : Z := 0.
Definition TTY_FUNC_F2 : Z := 1.
Definition TTY_FUNC_F3 : Z := 2.
Definition TTY_FUNC_F4 : Z := 3.
Definition TTY_FUNC_F5 : Z := 4.
Definition TTY_FUNC_F6 : Z := 5.
Definition TTY_FUNC_F7 : Z := 6.
Definition TTY_FUNC_F8 : Z := 7.
Definition TTY_FUNC_F9 : Z := 8.
Definition TTY_FUNC_F10 : Z := 9.
Definition TTY_FUNC_F11 : Z := 10.
Definition TTY_FUNC_F12 : Z := 11.
Definition TTY_FUNC_HOME : Z := 20.
Definition TTY_FUNC_INSERT : Z := 21.
Definition TTY_FUNC_DELETE : Z := 22.
Definition TTY_FUNC_END : Z := 23.
Definition TTY_FUNC_PAGEUP : Z := 24.
Definition TTY_FUNC_PAGEDOWN : Z := 25.
Definition TTY_FUNC_UP : Z := 26.
Definition TTY_FUNC_DOWN : Z := 27.
Definition TTY_FUNC_LEFT : Z := 28.
Definition TTY_FUNC_RIGHT : Z := 29.

Definition INPUT_MODIFIER_SHIFT : Z := Z.shiftl 1 0.
Definition INPUT_MODIFIER_CTRL : Z := Z.shiftl 1 1.
Definition INPUT_MODIFIER_ALT : Z := Z.shiftl 1 2.
Definition INPUT_MODIFIER_CAPSLOCK : Z := Z.shiftl 1 3.
Definition INPUT_MODIFIER_NUMLOCK : Z := Z.shiftl 1 4.
Definition INPUT_MODIFIER_SCROLLLOCK : Z := Z.shiftl 1 5.

Record tty_keysym := Keysym { sym_type : Z; sym_value : Z }.

#[export] Instance tty_keysym_eq_dec : EqDecision tty_keysym.
Proof. solve_decision. Defined.

(** ** The US keymap *)

Record tty_keymap_entry := KeymapEntry {
  km_code : Z;
  km_normal : Z;
  km_shifted : Z;
  km_type : Z;
  km_flags : Z
}.

Definition TTY_KEYMAP_LETTER : Z := 1.

Definition us_keymap : list tty_keymap_entry := [
  KeymapEntry INPUT_KEY_A (chr "a") (chr "A") TTY_KEYSYM_UNICODE TTY_KEYMAP_LETTER;
  KeymapEntry INPUT_KEY_B (chr "b") (chr "B") TTY_KEYSYM_UNICODE TTY_KEYMAP_LETTER;
  KeymapEntry INPUT_KEY_C (chr "c") (chr "C") TTY_KEYSYM_UNICODE TTY_KEYMAP_LETTER;
  KeymapEntry INPUT_KEY_D (chr "d") (chr "D") TTY_KEYSYM_UNICODE TTY_KEYMAP_LETTER;
  KeymapEntry INPUT_KEY_E (chr "e") (chr "E") TTY_KEYSYM_UNICODE TTY_KEYMAP_LETTER;
  KeymapEntry INPUT_KEY_F (chr "f") (chr "F") TTY_KEYSYM_UNICODE TTY_KEYMAP_LETTER;
  KeymapEntry INPUT_KEY_G (chr "g") (chr "G") TTY_KEYSYM_UNICODE TTY_KEYMAP_LETTER;
  KeymapEntry INPUT_KEY_H (chr "h") (chr "H") TTY_KEYSYM_UNICODE TTY_KEYMAP_LETTER;
  KeymapEntry INPUT_KEY_I (chr "i") (chr "I") TTY_KEYSYM_UNICODE TTY_KEYMAP_LETTER;
  KeymapEntry INPUT_KEY_J (chr "j") (chr "J") TTY_KEYSYM_UNICODE TTY_KEYMAP_LETTER;
  KeymapEntry INPUT_KEY_K (chr "k") (chr "K") TTY_KEYSYM_UNICODE TTY_KEYMAP_LETTER;
  KeymapEntry INPUT_KEY_L (chr "l") (chr "L") TTY_KEYSYM_UNICODE TTY_KEYMAP_LETTER;
  KeymapEntry INPUT_KEY_M (chr "m") (chr "M") TTY_KEYSYM_UNICODE TTY_KEYMAP_LETTER;
  KeymapEntry INPUT_KEY_N (chr "n") (chr "N") TTY_KEYSYM_UNICODE TTY_KEYMAP_LETTER;
  KeymapEntry INPUT_KEY_O (chr "o") (chr "O") TTY_KEYSYM_UNICODE TTY_KEYMAP_LETTER;
  KeymapEntry INPUT_KEY_P (chr "p") (chr "P") TTY_KEYSYM_UNICODE TTY_KEYMAP_LETTER;
  KeymapEntry INPUT_KEY_Q (chr "q") (chr "Q") TTY_KEYSYM_UNICODE TTY_KEYMAP_LETTER;
  KeymapEntry INPUT_KEY_R (chr "r") (chr "R") TTY_KEYSYM_UNICODE TTY_KEYMAP_LETTER;
  KeymapEntry INPUT_KEY_S (chr "s") (chr "S") TTY_KEYSYM_UNICODE TTY_KEYMAP_LETTER;
  KeymapEntry INPUT_KEY_T (chr "t") (chr "T") TTY_KEYSYM_UNICODE TTY_KEYMAP_LETTER;
  KeymapEntry INPUT_KEY_U (chr "u") (chr "U") TTY_KEYSYM_UNICODE TTY_KEYMAP_LETTER;
  KeymapEntry INPUT_KEY_V (chr "v") (chr "V") TTY_KEYSYM_UNICODE TTY_KEYMAP_LETTER;
  KeymapEntry INPUT_KEY_W (chr "w") (chr "W") TTY_KEYSYM_UNICODE TTY_KEYMAP_LETTER;
  KeymapEntry INPUT_KEY_X (chr "x") (chr "X") TTY_KEYSYM_UNICODE TTY_KEYMAP_LETTER;
  KeymapEntry INPUT_KEY_Y (chr "y") (chr "Y") TTY_KEYSYM_UNICODE TTY_KEYMAP_LETTER;
  KeymapEntry INPUT_KEY_Z (chr "z") (chr "Z") TTY_KEYSYM_UNICODE TTY_KEYMAP_LETTER;
  KeymapEntry INPUT_KEY_0 (chr "0") (chr ")") TTY_KEYSYM_UNICODE 0;
  KeymapEntry INPUT_KEY_1 (chr "1") (chr "!") TTY_KEYSYM_UNICODE 0;
  KeymapEntry INPUT_KEY_2 (chr "2") (chr "@") TTY_KEYSYM_UNICODE 0;
  KeymapEntry INPUT_KEY_3 (chr "3") (chr "#") TTY_KEYSYM_UNICODE 0;
  KeymapEntry INPUT_KEY_4 (chr "4") (chr "$") TTY_KEYSYM_UNICODE 0;
  KeymapEntry INPUT_KEY_5 (chr "5") (chr "%") TTY_KEYSYM_UNICODE 0;
  KeymapEntry INPUT_KEY_6 (chr "6") (chr "^") TTY_KEYSYM_UNICODE 0;
  KeymapEntry INPUT_KEY_7 (chr "7") (chr "&") TTY_KEYSYM_UNICODE 0;
  KeymapEntry INPUT_KEY_8 (chr "8") (chr "*") TTY_KEYSYM_UNICODE 0;
  KeymapEntry INPUT_KEY_9 (chr "9") (chr "(") TTY_KEYSYM_UNICODE 0;
  KeymapEntry INPUT_KEY_ENTER 10 10 TTY_KEYSYM_UNICODE 0;
  KeymapEntry INPUT_KEY_BACKSPACE 8 8 TTY_KEYSYM_UNICODE 0;
  KeymapEntry INPUT_KEY_TAB 9 9 TTY_KEYSYM_UNICODE 0;
  KeymapEntry INPUT_KEY_SPACE (chr " ") (chr " ") TTY_KEYSYM_UNICODE 0;
  KeymapEntry INPUT_KEY_MINUS (chr "-") (chr "_") TTY_KEYSYM_UNICODE 0;
  KeymapEntry INPUT_KEY_EQUAL (chr "=") (chr "+") TTY_KEYSYM_UNICODE 0;
  KeymapEntry INPUT_KEY_LEFTBRACE (chr "[") (chr "{") TTY_KEYSYM_UNICODE 0;
  KeymapEntry INPUT_KEY_RIGHTBRACE (chr "]") (chr "}") TTY_KEYSYM_UNICODE 0;
  KeymapEntry INPUT_KEY_BACKSLASH 92 (chr "|") TTY_KEYSYM_UNICODE 0;
  KeymapEntry INPUT_KEY_SEMICOLON (chr ";") (chr ":") TTY_KEYSYM_UNICODE 0;
  KeymapEntry INPUT_KEY_APOSTROPHE 39 34 TTY_KEYSYM_UNICODE 0;
  KeymapEntry INPUT_KEY_GRAVE (chr "`") (chr "~") TTY_KEYSYM_UNICODE 0;
  KeymapEntry INPUT_KEY_COMMA (chr ",") (chr "<") TTY_KEYSYM_UNICODE 0;
  KeymapEntry INPUT_KEY_DOT (chr ".") (chr ">") TTY_KEYSYM_UNICODE 0;
  KeymapEntry INPUT_KEY_SLASH (chr "/") (chr "?") TTY_KEYSYM_UNICODE 0;
  KeymapEntry INPUT_KEY_F1 TTY_FUNC_F1 TTY_FUNC_F11 TTY_KEYSYM_FUNCTION 0;
  KeymapEntry INPUT_KEY_F2 TTY_FUNC_F2 TTY_FUNC_F12 TTY_KEYSYM_FUNCTION 0;
  KeymapEntry INPUT_KEY_F3 TTY_FUNC_F3 TTY_FUNC_F3 TTY_KEYSYM_FUNCTION 0;
  KeymapEntry INPUT_KEY_F4 TTY_FUNC_F4 TTY_FUNC_F4 TTY_KEYSYM_FUNCTION 0;
  KeymapEntry INPUT_KEY_F5 TTY_FUNC_F5 TTY_FUNC_F5 TTY_KEYSYM_FUNCTION 0;
  KeymapEntry INPUT_KEY_F6 TTY_FUNC_F6 TTY_FUNC_F6 TTY_KEYSYM_FUNCTION 0;
  KeymapEntry INPUT_KEY_F7 TTY_FUNC_F7 TTY_FUNC_F7 TTY_KEYSYM_FUNCTION 0;
  KeymapEntry INPUT_KEY_F8 TTY_FUNC_F8 TTY_FUNC_F8 TTY_KEYSYM_FUNCTION 0;
  KeymapEntry INPUT_KEY_F9 TTY_FUNC_F9 TTY_FUNC_F9 TTY_KEYSYM_FUNCTION 0;
  KeymapEntry INPUT_KEY_F10 TTY_FUNC_F10 TTY_FUNC_F10 TTY_KEYSYM_FUNCTION 0;
  KeymapEntry INPUT_KEY_F11 TTY_FUNC_F11 TTY_FUNC_F11 TTY_KEYSYM_FUNCTION 0;
  KeymapEntry INPUT_KEY_F12 TTY_FUNC_F12 TTY_FUNC_F12 TTY_KEYSYM_FUNCTION 0;
  KeymapEntry INPUT_KEY_HOME TTY_FUNC_HOME TTY_FUNC_HOME TTY_KEYSYM_FUNCTION 0;
  KeymapEntry INPUT_KEY_INSERT TTY_FUNC_INSERT TTY_FUNC_INSERT TTY_KEYSYM_FUNCTION 0;
  KeymapEntry INPUT_KEY_DELETE TTY_FUNC_DELETE TTY_FUNC_DELETE TTY_KEYSYM_FUNCTION 0;
  KeymapEntry INPUT_KEY_END TTY_FUNC_END TTY_FUNC_END TTY_KEYSYM_FUNCTION 0;
  KeymapEntry INPUT_KEY_PAGEUP TTY_FUNC_PAGEUP TTY_FUNC_PAGEUP TTY_KEYSYM_FUNCTION 0;
  KeymapEntry INPUT_KEY_PAGEDOWN TTY_FUNC_PAGEDOWN TTY_FUNC_PAGEDOWN TTY_KEYSYM_FUNCTION 0;
  KeymapEntry INPUT_KEY_UP TTY_FUNC_UP TTY_FUNC_UP TTY_KEYSYM_FUNCTION 0;
  KeymapEntry INPUT_KEY_DOWN TTY_FUNC_DOWN TTY_FUNC_DOWN TTY_KEYSYM_FUNCTION 0;
  KeymapEntry INPUT_KEY_LEFT TTY_FUNC_LEFT TTY_FUNC_LEFT TTY_KEYSYM_FUNCTION 0;
  KeymapEntry INPUT_KEY_RIGHT TTY_FUNC_RIGHT TTY_FUNC_RIGHT TTY_KEYSYM_FUNCTION 0
].

(** [sym = false] is a NULL pointer; the result is what is stored to [*sym], with the
    returned value 1, or 0 and nothing. *)
Fixpoint keymap_search (entries : list tty_keymap_entry) (code : Z) (shifted caps : bool) : option tty_keysym :=
  match entries with
  | [] => None
  | e :: rest =>
      if negb (bool_decide (km_code e = code)) then keymap_search rest code shifted caps
      else
        let shifted := if negb (bool_decide (Z.land (km_flags e) TTY_KEYMAP_LETTER = 0))
                       then xorb shifted caps else shifted in
        Some (Keysym (km_type e) (if shifted then km_shifted e else km_normal e))
  end.

Definition tty_key_event_to_keysym (code modifiers : Z) (sym : bool) : option tty_keysym :=
  let shifted := negb (bool_decide (Z.land modifiers INPUT_MODIFIER_SHIFT = 0)) in
  let caps := negb (bool_decide (Z.land modifiers INPUT_MODIFIER_CAPSLOCK = 0)) in
  if negb sym then None else keymap_search us_keymap code shifted caps.

(** ** drivers/input/keyboard/ps2.c: the scancode tables

    Designated initialisers of arrays of 128 key codes; the other elements are 0. *)

Definition ps2_set1_keycode : list (Z * Z) := [
  (0x01, INPUT_KEY_ESC); (0x02, INPUT_KEY_1); (0x03, INPUT_KEY_2);
  (0x04, INPUT_KEY_3); (0x05, INPUT_KEY_4); (0x06, INPUT_KEY_5);
  (0x07, INPUT_KEY_6); (0x08, INPUT_KEY_7); (0x09, INPUT_KEY_8);
  (0x0a, INPUT_KEY_9); (0x0b, INPUT_KEY_0); (0x0c, INPUT_KEY_MINUS);
  (0x0d, INPUT_KEY_EQUAL); (0x0e, INPUT_KEY_BACKSPACE); (0x0f, INPUT_KEY_TAB);
  (0x10, INPUT_KEY_Q); (0x11, INPUT_KEY_W); (0x12, INPUT_KEY_E);
  (0x13, INPUT_KEY_R); (0x14, INPUT_KEY_T); (0x15, INPUT_KEY_Y);
  (0x16, INPUT_KEY_U); (0x17, INPUT_KEY_I); (0x18, INPUT_KEY_O);
  (0x19, INPUT_KEY_P); (0x1a, INPUT_KEY_LEFTBRACE); (0x1b, INPUT_KEY_RIGHTBRACE);
  (0x1c, INPUT_KEY_ENTER); (0x1d, INPUT_KEY_LEFTCTRL); (0x1e, INPUT_KEY_A);
  (0x1f, INPUT_KEY_S); (0x20, INPUT_KEY_D); (0x21, INPUT_KEY_F);
  (0x22, INPUT_KEY_G); (0x23, INPUT_KEY_H); (0x24, INPUT_KEY_J);
  (0x25, INPUT_KEY_K); (0x26, INPUT_KEY_L); (0x27, INPUT_KEY_SEMICOLON);
  (0x28, INPUT_KEY_APOSTROPHE); (0x29, INPUT_KEY_GRAVE); (0x2a, INPUT_KEY_LEFTSHIFT);
  (0x2b, INPUT_KEY_BACKSLASH); (0x2c, INPUT_KEY_Z); (0x2d, INPUT_KEY_X);
  (0x2e, INPUT_KEY_C); (0x2f, INPUT_KEY_V); (0x30, INPUT_KEY_B);
  (0x31, INPUT_KEY_N); (0x32, INPUT_KEY_M); (0x33, INPUT_KEY_COMMA);
  (0x34, INPUT_KEY_DOT); (0x35, INPUT_KEY_SLASH); (0x36, INPUT_KEY_RIGHTSHIFT);
  (0x37, INPUT_KEY_KPASTERISK); (0x38, INPUT_KEY_LEFTALT); (0x39, INPUT_KEY_SPACE);
  (0x3a, INPUT_KEY_CAPSLOCK); (0x3b, INPUT_KEY_F1); (0x3c, INPUT_KEY_F2);
  (0x3d, INPUT_KEY_F3); (0x3e, INPUT_KEY_F4); (0x3f, INPUT_KEY_F5);
  (0x40, INPUT_KEY_F6); (0x41, INPUT_KEY_F7); (0x42, INPUT_KEY_F8);
  (0x43, INPUT_KEY_F9); (0x44, INPUT_KEY_F10); (0x45, INPUT_KEY_NUMLOCK);
  (0x46, INPUT_KEY_SCROLLLOCK); (0x47, INPUT_KEY_KP7); (0x48, INPUT_KEY_KP8);
  (0x49, INPUT_KEY_KP9); (0x4a, INPUT_KEY_KPMINUS); (0x4b, INPUT_KEY_KP4);
  (0x4c, INPUT_KEY_KP5); (0x4d, INPUT_KEY_KP6); (0x4e, INPUT_KEY_KPPLUS);
  (0x4f, INPUT_KEY_KP1); (0x50, INPUT_KEY_KP2); (0x51, INPUT_KEY_KP3);
  (0x52, INPUT_KEY_KP0); (0x53, INPUT_KEY_KPDOT); (0x57, INPUT_KEY_F11);
  (0x58, INPUT_KEY_F12)
].

Definition ps2_set1_e0_keycode : list (Z * Z) := [
  (0x1c, INPUT_KEY_KPENTER); (0x1d, INPUT_KEY_RIGHTCTRL); (0x35, INPUT_KEY_KPSLASH);
  (0x38, INPUT_KEY_RIGHTALT); (0x47, INPUT_KEY_HOME); (0x48, INPUT_KEY_UP);
  (0x49, INPUT_KEY_PAGEUP); (0x4b, INPUT_KEY_LEFT); (0x4d, INPUT_KEY_RIGHT);
  (0x4f, INPUT_KEY_END); (0x50, INPUT_KEY_DOWN); (0x51, INPUT_KEY_PAGEDOWN);
  (0x52, INPUT_KEY_INSERT); (0x53, INPUT_KEY_DELETE)
].

Definition designated (entries : list (Z * Z)) (i : Z) : Z := default 0 (snd <$> find (fun p => bool_decide (p.1 = i)) entries).

Definition PS2_SCANCODE_MASK : Z := 0x7f.

Definition ps2_keyboard_keycode_from_set1 (code extended : Z) : Z :=
  let code := Z.land code PS2_SCANCODE_MASK in
  if negb (bool_decide (extended = 0)) then designated ps2_set1_e0_keycode code
  else designated ps2_set1_keycode code.

(** ** drivers/tty/tty.c: symbols to bytes *)

Definition tty_function_strings : list (Z * list Z) := [
  (TTY_FUNC_F1, 27 :: str "[[A");
  (TTY_FUNC_F2, 27 :: str "[[B");
  (TTY_FUNC_F3, 27 :: str "[[C");
  (TTY_FUNC_F4, 27 :: str "[[D");
  (TTY_FUNC_F5, 27 :: str "[[E");
  (TTY_FUNC_F6, 27 :: str "[17~");
  (TTY_FUNC_F7, 27 :: str "[18~");
  (TTY_FUNC_F8, 27 :: str "[19~");
  (TTY_FUNC_F9, 27 :: str "[20~");
  (TTY_FUNC_F10, 27 :: str "[21~");
  (TTY_FUNC_F11, 27 :: str "[23~");
  (TTY_FUNC_F12, 27 :: str "[24~");
  (TTY_FUNC_HOME, 27 :: str "[1~");
  (TTY_FUNC_INSERT, 27 :: str "[2~");
  (TTY_FUNC_DELETE, 27 :: str "[3~");
  (TTY_FUNC_END, 27 :: str "[4~");
  (TTY_FUNC_PAGEUP, 27 :: str "[5~");
  (TTY_FUNC_PAGEDOWN, 27 :: str "[6~");
  (TTY_FUNC_UP, 27 :: str "[A");
  (TTY_FUNC_DOWN, 27 :: str "[B");
  (TTY_FUNC_RIGHT, 27 :: str "[C");
  (TTY_FUNC_LEFT, 27 :: str "[D")
].

(** The table has elements up to the last designated one, some of them NULL. *)
Definition function_string_count : Z := TTY_FUNC_RIGHT + 1.

(** [sym = None] is a NULL pointer.  The length the caller gets is that of the list. *)
Definition tty_keysym_function_string (sym : option tty_keysym) : option (list Z) :=
  match sym with
  | None => None
  | Some s =>
      if negb (bool_decide (sym_type s = TTY_KEYSYM_FUNCTION)) || bool_decide (function_string_count <= sym_value s)
      then None
      else snd <$> find (fun p => bool_decide (p.1 = sym_value s)) tty_function_strings
  end.

(** The bytes stored to [buffer]; the returned length is theirs.  [buffer = false] is a
    NULL pointer. *)
Definition tty_keysym_to_utf8 (sym : option tty_keysym) (buffer : bool) (size : Z) : list Z :=
  match sym with
  | None => []
  | Some s =>
      if negb buffer || negb (bool_decide (sym_type s = TTY_KEYSYM_UNICODE)) then []
      else
        let codepoint := sym_value s in
        if bool_decide (codepoint <= 0x7f) then
          if bool_decide (size < 1) then [] else [wrap8 codepoint]
        else if bool_decide (codepoint <= 0x7ff) then
          if bool_decide (size < 2) then []
          else [wrap8 (Z.lor 0xc0 (Z.shiftr codepoint 6)); wrap8 (Z.lor 0x80 (Z.land codepoint 0x3f))]
        else if bool_decide (codepoint <= 0xffff) then
          if bool_decide (size < 3) then []
          else [wrap8 (Z.lor 0xe0 (Z.shiftr codepoint 12));
                wrap8 (Z.lor 0x80 (Z.land (Z.shiftr codepoint 6) 0x3f));
                wrap8 (Z.lor 0x80 (Z.land codepoint 0x3f))]
        else if bool_decide (codepoint <= 0x10ffff) then
          if bool_decide (size < 4) then []
          else [wrap8 (Z.lor 0xf0 (Z.shiftr codepoint 18));
                wrap8 (Z.lor 0x80 (Z.land (Z.shiftr codepoint 12) 0x3f));
                wrap8 (Z.lor 0x80 (Z.land (Z.shiftr codepoint 6) 0x3f));
                wrap8 (Z.lor 0x80 (Z.land codepoint 0x3f))]
        else []
  end.

(** ** Correctness of the tables *)

Definition has_modifier (modifiers mask : Z) : bool := negb (bool_decide (Z.land modifiers mask = 0)).

Definition is_letter (e : tty_keymap_entry) : bool := negb (bool_decide (Z.land (km_flags e) TTY_KEYMAP_LETTER = 0)).

Lemma keymap_search_entry entries e shifted caps :
  NoDup (km_code <$> entries) -> e ∈ entries ->
  keymap_search entries (km_code e) shifted caps =
  Some (Keysym (km_type e) (if (if is_letter e then xorb shifted caps else shifted) then km_shifted e else km_normal e)).
Proof.
  induction entries as [|e' entries IH]; [by intros _ ?%elem_of_nil|]. rewrite fmap_cons.
  intros [Hn Hnd]%NoDup_cons [->|Hin]%elem_of_cons; simpl.
  - by rewrite bool_decide_eq_true_2.
  - rewrite bool_decide_eq_false_2; [by apply IH|]. intros E. apply Hn. rewrite E. apply list_elem_of_fmap. eauto.
Qed.

Lemma keymap_search_none entries code shifted caps :
  code ∉ km_code <$> entries -> keymap_search entries code shifted caps = None.
Proof.
  induction entries as [|e entries IH]; [done|]. rewrite fmap_cons. intros [Hne Hn]%not_elem_of_cons. simpl.
  rewrite bool_decide_eq_false_2 by done. by apply IH.
Qed.

Lemma us_keymap_distinct : NoDup (km_code <$> us_keymap).
Proof. apply (bool_decide_unpack _). vm_compute. exact Logic.I. Qed.

(** The keymap: no entry hides another.  A key in the table gives its shifted symbol
    exactly when Shift is on, or for a letter when exactly one of Shift and Caps Lock is
    on, whatever the other modifiers; a key that is not in the table gives none. *)
Theorem keymap_applies_modifiers code modifiers :
  (forall e, e ∈ us_keymap -> km_code e = code ->
     tty_key_event_to_keysym code modifiers true =
     Some (Keysym (km_type e)
       (if xorb (has_modifier modifiers INPUT_MODIFIER_SHIFT)
                (is_letter e && has_modifier modifiers INPUT_MODIFIER_CAPSLOCK)
        then km_shifted e else km_normal e))) /\
  (code ∉ km_code <$> us_keymap -> tty_key_event_to_keysym code modifiers true = None).
Proof.
  unfold tty_key_event_to_keysym. cbn [negb]. split.
  - intros e Hin <-. rewrite keymap_search_entry by (done || apply us_keymap_distinct).
    destruct (is_letter e); cbn [andb]; [done|]. by rewrite xorb_false_r.
  - apply keymap_search_none.
Qed.

Definition types (scancode modifiers c : Z) : bool :=
  bool_decide (tty_key_event_to_keysym (ps2_keyboard_keycode_from_set1 scancode 0) modifiers true =
               Some (Keysym TTY_KEYSYM_UNICODE c)).

Lemma typeable_table :
  Forall (fun c => existsb (fun sc => existsb (fun m => types sc m c) [0; INPUT_MODIFIER_SHIFT]) (seqZ 1 88))
    ([8; 9; 10] ++ seqZ 32 95).
Proof. apply (bool_decide_unpack _). vm_compute. exact Logic.I. Qed.

(** The scancode table and the keymap together: every printable ASCII character,
    and newline, tab and backspace, is typed by some key of the main block alone or with
    Shift. *)
Theorem ascii_is_typeable c :
  32 <= c <= 126 \/ c ∈ [8; 9; 10] ->
  exists scancode modifiers, 1 <= scancode <= 88 /\ (modifiers = 0 \/ modifiers = INPUT_MODIFIER_SHIFT) /\
    tty_key_event_to_keysym (ps2_keyboard_keycode_from_set1 scancode 0) modifiers true =
    Some (Keysym TTY_KEYSYM_UNICODE c).
Proof.
  intros Hc. pose proof typeable_table as Ht. rewrite Forall_forall in Ht.
  assert (Hin : c ∈ [8; 9; 10] ++ seqZ 32 95).
  { apply elem_of_app. destruct Hc as [Hc|Hc]; [right|by left]. apply elem_of_seqZ. lia. }
  specialize (Ht c Hin). apply Is_true_eq_true, existsb_exists in Ht as (sc & Hsc & Hm).
  apply existsb_exists in Hm as (m & Hm & E). apply bool_decide_eq_true_1 in E.
  apply list_elem_of_In, elem_of_seqZ in Hsc. exists sc, m. split_and!; [lia|lia| |done].
  destruct Hm as [<-|[<-|[]]]; [by left|by right].
Qed.

Lemma ascii_is_typeable_witness :
  exists scancode modifiers, 1 <= scancode <= 88 /\ (modifiers = 0 \/ modifiers = INPUT_MODIFIER_SHIFT) /\
    tty_key_event_to_keysym (ps2_keyboard_keycode_from_set1 scancode 0) modifiers true =
    Some (Keysym TTY_KEYSYM_UNICODE 65).
Proof. apply (ascii_is_typeable 65). left. lia. Defined.

(** ** UTF-8 *)

(** A decoder as RFC 3629 defines the encoding: the code point a sequence of one to four
    bytes stands for.  A sequence longer than the code point needs, a surrogate and a value
    above 0x10ffff are not UTF-8. *)
Definition continuation (b : Z) : option Z := if bool_decide (0x80 <= b < 0xc0) then Some (b - 0x80) else None.

Definition surrogate (cp : Z) : Prop := 0xd800 <= cp <= 0xdfff.

Definition scalar_from (lowest cp : Z) : option Z :=
  if bool_decide (lowest <= cp <= 0x10ffff /\ ~ (0xd800 <= cp <= 0xdfff)) then Some cp else None.

Definition utf8_decode (bytes : list Z) : option Z :=
  match bytes with
  | [a] => if bool_decide (0 <= a < 0x80) then Some a else None
  | [a; b] =>
      y ← continuation b;
      if bool_decide (0xc0 <= a < 0xe0) then scalar_from 0x80 ((a - 0xc0) * 64 + y) else None
  | [a; b; c] =>
      y ← continuation b; z ← continuation c;
      if bool_decide (0xe0 <= a < 0xf0) then scalar_from 0x800 (((a - 0xe0) * 64 + y) * 64 + z) else None
  | [a; b; c; d] =>
      y ← continuation b; z ← continuation c; w ← continuation d;
      if bool_decide (0xf0 <= a < 0xf8) then scalar_from 0x10000 ((((a - 0xf0) * 64 + y) * 64 + z) * 64 + w) else None
  | _ => None
  end.

(** A prefix above [n] bits and a value below. *)
Lemma lor_prefix p n a : 0 <= n -> 0 <= a < 2 ^ n -> p mod 2 ^ n = 0 -> Z.lor p a = p + a.
Proof.
  intros Hn Ha Hp. apply lor_disjoint_add. apply Z.bits_inj'. intros i Hi. rewrite Z.land_spec, Z.bits_0.
  destruct (Z.lt_ge_cases i n) as [Hlt|Hge].
  - rewrite <- (Z.mod_pow2_bits_low p n i) by done. by rewrite Hp, Z.bits_0.
  - rewrite <- (Z.mod_small a (2 ^ n)) by done. rewrite (Z.mod_pow2_bits_high a n i) by lia. apply andb_false_r.
Qed.

Lemma land_6 a : Z.land a 0x3f = a mod 64.
Proof. apply (land_ones_mod a 6). lia. Qed.

Lemma continuation_byte a : continuation (wrap8 (Z.lor 0x80 (Z.land a 0x3f))) = Some (a mod 64).
Proof.
  rewrite land_6. pose proof (Z.mod_pos_bound a 64).
  rewrite (lor_prefix 0x80 6) by (done || lia). unfold wrap8. rewrite Z.mod_small by lia. unfold continuation.
  rewrite bool_decide_eq_true_2 by lia. f_equal. lia.
Qed.

Lemma lead_byte p n a : 0 <= n -> 0 <= a < 2 ^ n -> p mod 2 ^ n = 0 -> 0 <= p -> p + a < 256 -> wrap8 (Z.lor p a) = p + a.
Proof. intros. rewrite (lor_prefix p n) by done. unfold wrap8. apply Z.mod_small. lia. Qed.

Lemma encoded_byte a : 0x80 <= wrap8 (Z.lor 0x80 (Z.land a 0x3f)) < 256.
Proof. rewrite land_6. pose proof (Z.mod_pos_bound a 64). rewrite (lead_byte 0x80 6) by (done || lia). lia. Qed.

Lemma scalar_from_run lowest cp v : v = cp -> lowest <= cp <= 0x10ffff -> ~ surrogate cp -> scalar_from lowest v = Some cp.
Proof. intros -> H1 H2. unfold scalar_from. by rewrite bool_decide_eq_true_2. Qed.

(** The three longer forms. *)
Lemma utf8_two cp : 0x7f < cp <= 0x7ff ->
  utf8_decode [wrap8 (Z.lor 0xc0 (Z.shiftr cp 6)); wrap8 (Z.lor 0x80 (Z.land cp 0x3f))] = Some cp.
Proof.
  intros Hcp. rewrite Z.shiftr_div_pow2 by lia. rewrite (lead_byte 0xc0 5) by (done || div_lia).
  unfold utf8_decode. rewrite continuation_byte. simpl. rewrite bool_decide_eq_true_2 by div_lia.
  apply scalar_from_run; [div_lia|lia|unfold surrogate; lia].
Qed.

Lemma utf8_three cp : 0x7ff < cp <= 0xffff -> ~ surrogate cp ->
  utf8_decode [wrap8 (Z.lor 0xe0 (Z.shiftr cp 12)); wrap8 (Z.lor 0x80 (Z.land (Z.shiftr cp 6) 0x3f)); wrap8 (Z.lor 0x80 (Z.land cp 0x3f))] = Some cp.
Proof.
  intros Hcp Hs. rewrite !Z.shiftr_div_pow2 by lia. rewrite (lead_byte 0xe0 4) by (done || div_lia).
  unfold utf8_decode. rewrite !continuation_byte. simpl. rewrite bool_decide_eq_true_2 by div_lia.
  apply scalar_from_run; [div_lia|lia|done].
Qed.

Lemma utf8_four cp : 0xffff < cp <= 0x10ffff ->
  utf8_decode [wrap8 (Z.lor 0xf0 (Z.shiftr cp 18)); wrap8 (Z.lor 0x80 (Z.land (Z.shiftr cp 12) 0x3f));
    wrap8 (Z.lor 0x80 (Z.land (Z.shiftr cp 6) 0x3f)); wrap8 (Z.lor 0x80 (Z.land cp 0x3f))] = Some cp.
Proof.
  intros Hcp. rewrite !Z.shiftr_div_pow2 by lia. rewrite (lead_byte 0xf0 3) by (done || div_lia).
  unfold utf8_decode. rewrite !continuation_byte. simpl. rewrite bool_decide_eq_true_2 by div_lia.
  apply scalar_from_run; [div_lia|lia|unfold surrogate; lia].
Qed.

Definition to_utf8 (cp : Z) : list Z := tty_keysym_to_utf8 (Some (Keysym TTY_KEYSYM_UNICODE cp)) true 4.

(** C39.  [tty_keysym_to_utf8]: a Unicode scalar value (a code point up to 0x10ffff that is
    no surrogate) becomes the one to four bytes that a strict UTF-8 decoder, which refuses
    overlong forms, maps back to it; all bytes of a value above 0x7f are above 0x7f, so the
    line discipline never takes one for a newline or a backspace.  A value above 0x10ffff
    gives nothing, and a buffer that is too small gets nothing. *)
Theorem utf8_round_trip cp size :
  0 <= cp < 4294967296 -> 0 <= size ->
  (cp <= 0x10ffff -> ~ surrogate cp -> utf8_decode (to_utf8 cp) = Some cp) /\
  (0x7f < cp -> Forall (fun b => 0x80 <= b < 256) (to_utf8 cp)) /\
  (0x10ffff < cp -> to_utf8 cp = []) /\
  tty_keysym_to_utf8 (Some (Keysym TTY_KEYSYM_UNICODE cp)) true size =
    if bool_decide (Z.of_nat (length (to_utf8 cp)) <= size) then to_utf8 cp else [].
Proof.
  intros Hcp Hsz. unfold to_utf8, tty_keysym_to_utf8. cbn [negb orb sym_type sym_value].
  rewrite (bool_decide_eq_true_2 (TTY_KEYSYM_UNICODE = _)) by done. cbn [negb orb].
  rewrite !(bool_decide_eq_false_2 (4 < _)) by lia.
  assert (Hcut : forall (n : Z) (l : list Z), Z.of_nat (length l) = n ->
    (if bool_decide (size < n) then [] else l) = if bool_decide (Z.of_nat (length l) <= size) then l else []).
  { intros n l <-. do 2 case_bool_decide; done || lia. }
  assert (Hlead : forall p n, 0 <= n -> p mod 2 ^ n = 0 -> forall a, 0 <= a < 2 ^ n -> 0x80 <= p -> p + a < 256 -> 0x80 <= wrap8 (Z.lor p a) < 256).
  { intros p n Hn Hp a Ha Hp' Hpa. rewrite (lead_byte p n) by (done || lia). lia. }
  case_bool_decide as H1; [|case_bool_decide as H2; [|case_bool_decide as H3; [|case_bool_decide as H4]]].
  - split_and!; [intros _ _; simpl|lia|lia|by apply Hcut]. unfold wrap8. rewrite Z.mod_small by lia. by rewrite bool_decide_eq_true_2 by lia.
  - split_and!; [intros _ _; apply utf8_two; lia| |lia|by apply Hcut].
    intros _. repeat constructor; try apply encoded_byte; rewrite Z.shiftr_div_pow2 by lia; apply (Hlead 0xc0 5); try done; div_lia.
  - split_and!; [intros _ Hs; apply utf8_three; [lia|done]| |lia|by apply Hcut].
    intros _. repeat constructor; try apply encoded_byte; rewrite Z.shiftr_div_pow2 by lia; apply (Hlead 0xe0 4); try done; div_lia.
  - split_and!; [intros _ _; apply utf8_four; lia| |lia|by apply Hcut].
    intros _. repeat constructor; try apply encoded_byte; rewrite Z.shiftr_div_pow2 by lia; apply (Hlead 0xf0 3); try done; div_lia.
  - split_and!; [lia|by constructor|done|]. by case_bool_decide.
Qed.

Lemma utf8_round_trip_witness :
  utf8_decode (to_utf8 8364) = Some 8364 /\ tty_keysym_to_utf8 (Some (Keysym TTY_KEYSYM_UNICODE 8364)) true 2 = [].
Proof.
  destruct (utf8_round_trip 8364 2) as (Hd & _ & _ & Hn); [lia|lia|]. split; [apply Hd; [lia|unfold surrogate; lia]|].
  rewrite Hn. reflexivity.
Defined.

(** A surrogate is encoded all the same, to bytes that are not UTF-8. *)
Lemma surrogate_is_encoded : length (to_utf8 0xd800) = 3%nat /\ utf8_decode (to_utf8 0xd800) = None.
Proof. done. Qed.
