(* ===== verification/LogLines.v ===== *)
(** * Lines of log output

    The macros of include/tianole/printk.h, and what a sequence of such calls prints: a
    [line] is a format with its arguments, and [tells m a ls] says that [m] prints the lines
    [ls], changes nothing but the log and the consoles, and returns [a]. *)

From S2P Require Import Prelude LinkedList PhysMem Switch KState Sched WaitQueue Devices Printk Keymap.

Definition LOGLEVEL_EMERG : Z := 0.
Definition LOGLEVEL_ERR : Z := 3.
Definition LOGLEVEL_WARN : Z := 4.
Definition LOGLEVEL_INFO : Z := 6.

Section macros.
Context {H : Type} `{KAlloc H}.
Abbreviation K := (M (kernel (memory H))).

Definition pr_emerg (text : list Z) (args : list va_value) : K unit := _ ← printk_level LOGLEVEL_EMERG (Some text) args; mret tt.
Definition pr_err (text : list Z) (args : list va_value) : K unit := _ ← printk_level LOGLEVEL_ERR (Some text) args; mret tt.
Definition pr_warn (text : list Z) (args : list va_value) : K unit := _ ← printk_level LOGLEVEL_WARN (Some text) args; mret tt.
Definition pr_info (text : list Z) (args : list va_value) : K unit := _ ← printk_level LOGLEVEL_INFO (Some text) args; mret tt.
End macros.

Definition line : Type := list directive * list va_value.

Definition lit (s : string) : list directive := Plain <$> str s.
Definition u64 : directive := Unsigned false false [] 2.
Definition hex016 : directive := Unsigned true true [1; 6] 2.
Definition u32 : directive := Unsigned false false [] 0.

(** The text of the lines one after another. *)
Inductive rendered : list line -> list Z -> Prop :=
| rd_nil : rendered [] []
| rd_cons ds args t ls u : renders ds args t -> rendered ls u -> rendered ((ds, args) :: ls) (t ++ u).

Lemma rendered_app l1 t1 l2 t2 : rendered l1 t1 -> rendered l2 t2 -> rendered (l1 ++ l2) (t1 ++ t2).
Proof. intros R1 R2. induction R1 as [|ds args t ls u Hr _ IH]; [done|]. rewrite <- app_assoc. by constructor. Qed.

Section theory.
Context {H : Type} `{KAlloc H}.
Abbreviation K := (M (kernel (memory H))).
Implicit Types (k : kernel (memory H)) (cs q : list Z) (ls : list line).

Definition tells {A} (m : K A) (a : A) ls : Prop :=
  forall k cs q, log_inv k cs q -> exists t k', m k = Ret a k' /\ rendered ls t /\ emitted cs q t k k'.

(** The same for a computation that ends in a panic. *)
Definition dies {A} (m : K A) (msg : string) ls : Prop :=
  forall k cs q, log_inv k cs q -> exists t k', m k = Panicked msg k' /\ rendered ls t /\ emitted cs q t k k'.

Lemma tells_ret {A} (a : A) : tells (mret a) a [].
Proof. intros k cs q L. exists [], k. split; [done|]. split; [constructor|by apply emitted_nil]. Qed.

Lemma tells_bind {A B} (m : K A) (c : A -> K B) a b l1 l2 : tells m a l1 -> tells (c a) b l2 -> tells (x ← m; c x) b (l1 ++ l2).
Proof.
  intros Hm Hc k cs q L. destruct (Hm k cs q L) as (t1 & k1 & E1 & R1 & M1).
  destruct (Hc k1 cs _ (em_log _ _ _ _ _ M1)) as (t2 & k2 & E2 & R2 & M2). exists (t1 ++ t2), k2.
  mrun E1. split; [done|]. split; [by apply rendered_app|by eapply emitted_app].
Qed.

Lemma dies_panic {A} msg : dies (panic msg : K A) msg [].
Proof. intros k cs q L. exists [], k. split; [done|]. split; [constructor|by apply emitted_nil]. Qed.

Lemma dies_after {A B} (m : K A) (c : A -> K B) a msg l1 l2 : tells m a l1 -> dies (c a) msg l2 -> dies (x ← m; c x) msg (l1 ++ l2).
Proof.
  intros Hm Hc k cs q L. destruct (Hm k cs q L) as (t1 & k1 & E1 & R1 & M1).
  destruct (Hc k1 cs _ (em_log _ _ _ _ _ M1)) as (t2 & k2 & E2 & R2 & M2). exists (t1 ++ t2), k2.
  mrun E1. split; [done|]. split; [by apply rendered_app|by eapply emitted_app].
Qed.

Lemma dies_bind {A B} (m : K A) (c : A -> K B) msg ls : dies m msg ls -> dies (x ← m; c x) msg ls.
Proof. intros Hm k cs q L. destruct (Hm k cs q L) as (t & k' & E & R). exists t, k'. split; [by apply bind_panic|done]. Qed.

(** One call whose format spells [ds]. *)
Lemma tells_line level fmt ds args :
  unparse ds = fmt -> Forall well_formed ds -> args_fit ds args ->
  tells (_ ← printk_level level (Some fmt) args; mret tt) tt [(ds, args)].
Proof.
  intros <- Wf Hfit k cs q L. destruct (printk_run ds args k cs q L Wf Hfit) as (t & k' & R & E & M). exists t, k'. split.
  - unfold printk_level. unfold printk in E. by mrun E.
  - split; [|done]. rewrite <- (app_nil_r t). constructor; [done|constructor].
Qed.
End theory.

(** Reads a sequence of calls off the code. *)
Ltac log_line := apply tells_line; [reflexivity|by repeat first [constructor|done]|done].
