(* ===== verification/Tty.v ===== *)
(** * drivers/tty/tty.c: the line discipline

    Characters are edited into a line, completed lines go to a ring of eight, readers
    sleep on the ring's wait queue; everything typed is echoed to the consoles. *)

From S2P Require Import Prelude LinkedList Ring PhysMem Switch KState Sched SchedCore WaitQueue Devices DevWait Keymap.

Definition TTY_LINE_LENGTH : Z := 128.
Definition TTY_LINE_QUEUE_SIZE : Z := 8.

(** [for (index = i; index < i + n; index++) dst[index] = src[index]], undefined
    outside either array. *)
Fixpoint copy_bytes (n i : nat) (src dst : list Z) : option (list Z) :=
  match n with
  | O => Some dst
  | S n =>
      match src !! i with
      | Some x => if bool_decide (i < length dst)%nat then copy_bytes n (S i) src (<[i := x]> dst) else None
      | None => None
      end
  end.

Section tty.
Context {H : Type} `{KAlloc H} `{Statics}.
Abbreviation K := (M (kernel (memory H))).

Definition tt_ {A} (f : tty_t -> A) : K A := dev (fun d => f (tty d)).
Definition set_tty (f : tty_t -> tty_t) : K unit := set_dev (fun d => d <| tty ::= f |>).

Definition line_waiting (d : devices) : Z := if bool_decide (tl_count (tty d) = 0) then 0 else 1.
Definition tty_has_line : K Z := dev line_waiting.

(** The bytes of [buffer] up to [size]; no bytes for a NULL buffer. *)
Definition tty_write (buffer : list Z) : K unit :=
  for_each buffer (fun ch =>
    when (bool_decide (ch = 10)) (console_write_all [13] ;; mret tt) ;;
    console_write_all [ch] ;;
    mret tt).

(** [text = None] is a NULL pointer; a string is its bytes before the NUL. *)
Definition tty_write_string (text : option (list Z)) : K unit :=
  match text with None => mret tt | Some text => tty_write text end.

Definition tty_echo_char (ch : Z) : K unit := tty_write [ch].

(** The length and the bytes stored to [buffer] before the NUL. *)
Definition tty_pop_line_locked (size : Z) : K (Z * option (list Z)) :=
  count ← tt_ tl_count;
  if bool_decide (count = 0) then mret (- EAGAIN, None)
  else
    head ← tt_ tl_head;
    length0 ← deref (fun k => tl_lengths (tty (devs (kheap k))) !! Z.to_nat head);
    let length1 := if bool_decide (size < wrap64 (length0 + 1)) then wrap64 (size - 1) else length0 in
    line ← deref (fun k => tl_lines (tty (devs (kheap k))) !! Z.to_nat head);
    bytes ← deref (fun _ => copy_bytes (Z.to_nat length1) 0 line (replicate (Z.to_nat length1) 0));
    set_tty (fun t => t <| tl_head := wrap32 (tl_head t + 1) mod TTY_LINE_QUEUE_SIZE |>) ;;
    set_tty (fun t => t <| tl_count := wrap32 (tl_count t - 1) |>) ;;
    mret (length1, Some bytes).

Definition tty_submit_edit_line : K unit :=
  flags ← wait_lock addr_tty_wait;
  count ← tt_ tl_count;
  if bool_decide (count = TTY_LINE_QUEUE_SIZE) then
    set_tty (fun t => t <| tl_dropped := wrap64 (tl_dropped t + 1) |>) ;;
    wait_queue_unlock_irqrestore addr_tty_wait flags ;;
    set_tty (fun t => t <| edit_length := 0 |>)
  else
    tail ← tt_ tl_tail;
    n ← tt_ edit_length;
    src ← tt_ edit_line;
    dst ← deref (fun k => tl_lines (tty (devs (kheap k))) !! Z.to_nat tail);
    line ← deref (fun _ => copy_bytes (Z.to_nat n) 0 src dst);
    _ ← deref (fun _ => line !! Z.to_nat n);
    set_tty (fun t => t <| tl_lines ::= <[Z.to_nat tail := <[Z.to_nat n := 0]> line]> |>) ;;
    _ ← deref (fun k => tl_lengths (tty (devs (kheap k))) !! Z.to_nat tail);
    set_tty (fun t => t <| tl_lengths ::= <[Z.to_nat tail := n]> |>) ;;
    set_tty (fun t => t <| tl_tail := wrap32 (tl_tail t + 1) mod TTY_LINE_QUEUE_SIZE |>) ;;
    set_tty (fun t => t <| tl_count := wrap32 (tl_count t + 1) |>) ;;
    wait_queue_wake_one_locked addr_tty_wait ;;
    wait_queue_unlock_irqrestore addr_tty_wait flags ;;
    set_tty (fun t => t <| edit_length := 0 |>).

Definition tty_handle_backspace : K unit :=
  n ← tt_ edit_length;
  if bool_decide (n = 0) then mret tt
  else
    set_tty (fun t => t <| edit_length := wrap64 (edit_length t - 1) |>) ;;
    tty_echo_char 8.

Definition tty_init : K unit :=
  ready ← tt_ tty_ready;
  if negb (bool_decide (ready = 0)) then mret tt
  else
    wait_queue_init addr_tty_wait ;;
    set_tty (fun t => t <| tl_head := 0 |>) ;;
    set_tty (fun t => t <| tl_tail := 0 |>) ;;
    set_tty (fun t => t <| tl_count := 0 |>) ;;
    set_tty (fun t => t <| tl_dropped := 0 |>) ;;
    set_tty (fun t => t <| edit_length := 0 |>) ;;
    set_tty (fun t => t <| tty_ready := 1 |>).

Definition tty_receive_char (ch : Z) : K unit :=
  ready ← tt_ tty_ready;
  when (bool_decide (ready = 0)) tty_init ;;
  if bool_decide (ch = 8) then tty_handle_backspace
  else if bool_decide (ch = 10) then tty_echo_char 10 ;; tty_submit_edit_line
  else
    n ← tt_ edit_length;
    if bool_decide (TTY_LINE_LENGTH <= wrap64 (n + 1)) then mret tt
    else
      _ ← deref (fun k => edit_line (tty (devs (kheap k))) !! Z.to_nat n);
      set_tty (fun t => t <| edit_line ::= <[Z.to_nat n := ch]> |>) ;;
      set_tty (fun t => t <| edit_length := wrap64 (edit_length t + 1) |>) ;;
      tty_echo_char ch.

Definition tty_receive_keysym (sym : option tty_keysym) : K unit :=
  match tty_keysym_function_string sym with
  | Some function => for_each function tty_receive_char
  | None => for_each (tty_keysym_to_utf8 sym true 4) tty_receive_char
  end.

(** [buffer = false] is a NULL pointer. *)
Definition tty_read_line (rounds : nat) (others : K unit) (buffer : bool) (size : Z) : K (Z * option (list Z)) :=
  if negb buffer || bool_decide (size = 0) then mret (- EINVAL, None)
  else
    ready ← tt_ tty_ready;
    when (bool_decide (ready = 0)) tty_init ;;
    ret ← wait_queue_wait rounds others addr_tty_wait (Some tty_has_line);
    if negb (bool_decide (ret = 0)) then mret (ret, None)
    else
      flags ← wait_lock addr_tty_wait;
      r ← tty_pop_line_locked size;
      wait_queue_unlock_irqrestore addr_tty_wait flags ;;
      mret r.

Definition tty_try_read_line (buffer : bool) (size : Z) : K (Z * option (list Z)) :=
  if negb buffer || bool_decide (size = 0) then mret (- EINVAL, None)
  else
    ready ← tt_ tty_ready;
    when (bool_decide (ready = 0)) tty_init ;;
    flags ← wait_lock addr_tty_wait;
    r ← tty_pop_line_locked size;
    wait_queue_unlock_irqrestore addr_tty_wait flags ;;
    mret r.

Definition tty_dropped_lines : K Z :=
  ready ← tt_ tty_ready;
  if bool_decide (ready = 0) then mret 0
  else
    flags ← wait_lock addr_tty_wait;
    dropped ← tt_ tl_dropped;
    wait_queue_unlock_irqrestore addr_tty_wait flags ;;
    mret dropped.
End tty.

(** ** The specification: a line editor *)

(** The line being edited, the completed lines not yet read, oldest first, and the
    number of lines lost. *)
Record editor := Editor { ed_line : list Z; ed_lines : list (list Z); ed_lost : Z }.
#[export] Instance eta_editor : Eta editor := fun e => Editor (ed_line e) (ed_lines e) (ed_lost e).

(** The editor after a character, and the echo. *)
Definition editor_step (ch : Z) (e : editor) : editor * list Z :=
  if decide (ch = 8) then
    match ed_line e with [] => (e, []) | _ => (e <| ed_line ::= (fun l => take (pred (length l)) l) |>, [8]) end
  else if decide (ch = 10) then
    (if decide (length (ed_lines e) < 8)%nat
     then Editor [] (ed_lines e ++ [ed_line e]) (ed_lost e)
     else Editor [] (ed_lines e) (ed_lost e + 1), [13; 10])
  else if decide (length (ed_line e) < 127)%nat then (e <| ed_line ::= (fun l => l ++ [ch]) |>, [ch])
  else (e, []).

Fixpoint editor_run (chars : list Z) (e : editor) : editor * list Z :=
  match chars with
  | [] => (e, [])
  | ch :: chars => let '(e1, o1) := editor_step ch e in let '(e2, o2) := editor_run chars e1 in (e2, o1 ++ o2)
  end.

Lemma editor_run_app a b e :
  editor_run (a ++ b) e = ((editor_run b (editor_run a e).1).1, (editor_run a e).2 ++ (editor_run b (editor_run a e).1).2).
Proof.
  revert e. induction a as [|ch a IH]; intros e; simpl; [by destruct (editor_run b e)|].
  destruct (editor_step ch e) as [e1 o1]. rewrite IH. destruct (editor_run a e1) as [e2 o2]. simpl. by rewrite app_assoc.
Qed.

(** A character of two bytes, erased with one backspace: its first byte stays. *)
Lemma erase_leaves_half_a_character : (editor_run [195; 169; 8] (Editor [] [] 0)).1 = Editor [195] [] 0.
Proof. reflexivity. Qed.

Lemma copy_bytes_run n : forall i src dst,
  (i + n <= length src)%nat -> (i + n <= length dst)%nat ->
  copy_bytes n i src dst = Some (take i dst ++ take n (drop i src) ++ drop (i + n) dst).
Proof.
  induction n as [|n IH]; intros i src dst Hs Hd; simpl.
  - rewrite Nat.add_0_r. by rewrite take_drop.
  - destruct (lookup_lt_is_Some_2 src i) as [x Hx]; [lia|]. rewrite Hx, bool_decide_eq_true_2 by lia.
    rewrite IH by (rewrite ?length_insert; lia). f_equal. rewrite (drop_S src x i) by done. simpl.
    rewrite (take_S_r (<[i:=x]> dst) i x) by (apply list_lookup_insert_eq; lia).
    rewrite take_insert_ge by lia. rewrite <- app_assoc. simpl. do 3 f_equal.
    rewrite drop_insert_lt by lia. f_equal. lia.
Qed.

Section theory.
Context {H : Type} `{KAlloc H} `{Statics}.
Implicit Types (k : kernel (memory H)) (Q : gmap Z (list Z)) (cs : list Z) (e : editor).

Definition td k : tty_t := tty (devs (kheap k)).

(** The lines the ring's slots hold. *)
Definition tty_slots (t : tty_t) : list (list Z) := zip_with (fun l n => take (Z.to_nat n) l) (tl_lines t) (tl_lengths t).

(** The tty is ready, its readers are those [Q] says, the registered consoles are [cs],
    and the arrays hold the editor's state. *)
Record tty_inv k Q cs e : Prop := {
  ti_wq : wq_inv k Q;
  ti_queue : is_Some (Q !! addr_tty_wait);
  ti_ring : ring_rep 8 (tty_slots (td k)) (tl_head (td k)) (tl_tail (td k)) (tl_count (td k)) (ed_lines e);
  ti_shape : Forall (fun l => length l = 128%nat) (tl_lines (td k)) /\ length (tl_lines (td k)) = 8%nat /\
    length (tl_lengths (td k)) = 8%nat /\ Forall (fun n => 0 <= n < 128) (tl_lengths (td k));
  ti_edit : length (edit_line (td k)) = 128%nat /\ edit_length (td k) = Z.of_nat (length (ed_line e)) /\
    (length (ed_line e) < 128)%nat /\ take (length (ed_line e)) (edit_line (td k)) = ed_line e;
  ti_lost : tl_dropped (td k) = ed_lost e mod 18446744073709551616;
  ti_ready : tty_ready (td k) <> 0;
  ti_consoles : console_chain (devs (kheap k)) cs
}.

(** What is shown on a console that shows everything, or on the early log when there is
    no console. *)
Definition shows cs (c : Z) : Prop := c ∈ cs \/ (cs = [] /\ c = 0).

(** The steps the tty takes: among the drivers' data only its own and what the consoles
    have shown change. *)
Record tty_step k Q k' Q' : Prop := {
  ts_drives : drives k Q k' Q';
  ts_devs : devs (kheap k') = (devs (kheap k)) <| tty := td k' |> <| shown := shown (devs (kheap k')) |>
}.

Lemma tty_step_refl k Q : wq_inv k Q -> tty_step k Q k Q.
Proof. intros I. split; [by apply drives_refl|]. unfold td. by destruct (devs (kheap k)). Qed.

Lemma tty_step_trans k1 Q1 k2 Q2 k3 Q3 : tty_step k1 Q1 k2 Q2 -> tty_step k2 Q2 k3 Q3 -> tty_step k1 Q1 k3 Q3.
Proof. intros [D1 E1] [D2 E2]. split; [by eapply drives_trans|]. rewrite E2, E1. done. Qed.

Lemma tty_step_with_devs f k Q :
  wq_inv k Q -> f (devs (kheap k)) = (devs (kheap k)) <| tty := tty (f (devs (kheap k))) |> <| shown := shown (f (devs (kheap k))) |> ->
  tty_step k Q (with_devs f k) Q.
Proof. intros I E. split; [by apply drives_with_devs|exact E]. Qed.

(** ** Echo *)

Lemma console_chain_shown d cs g : console_chain d cs -> console_chain (d <| shown ::= g |>) cs.
Proof. done. Qed.

Lemma tty_write_run text : forall k cs,
  console_chain (devs (kheap k)) cs ->
  tty_write text k =
  Ret tt (with_devs (fun d => d <| shown ::= (fun l => l ++ (crlf text ≫= (fun b => display cs [b]))) |>) k).
Proof.
  unfold tty_write. induction text as [|ch text IH]; intros k cs Hc; cbn [for_each].
  - mred. f_equal. symmetry. apply with_devs_id. destruct (devs (kheap k)). cbn. by rewrite app_nil_r.
  - assert (Hone : forall b k, console_chain (devs (kheap k)) cs -> (console_write_all [b] ;; mret tt) k =
      Ret tt (with_devs (fun d => d <| shown ::= (fun l => l ++ display cs [b]) |>) k)).
    { intros b k' Hc'. by mrun (console_write_all_run [b] k' cs ltac:(done) Hc'). }
    unfold crlf. rewrite bind_cons. fold (crlf text). unfold line_end. destruct (decide (ch = 10)) as [->|Hne].
    + rewrite (bool_decide_eq_true_2 (10 = 10)) by done. mred. rewrite <- bind_assoc. mrun (Hone 13 k Hc).
      erewrite bind_run by by apply Hone.
      rewrite (IH _ cs) by done. f_equal. rewrite !with_devs_comp. apply with_devs_ext.
      cbn. f_equal. by rewrite <- !app_assoc.
    + rewrite (bool_decide_eq_false_2 (ch = 10)) by done. mred. rewrite <- bind_assoc. mrun (Hone ch k Hc).
      rewrite (IH _ cs) by done. f_equal. rewrite !with_devs_comp. apply with_devs_ext.
      cbn. f_equal. by rewrite <- !app_assoc.
Qed.

Lemma screen_displays d cs text c :
  console_chain d cs -> shows cs c ->
  screen (d <| shown ::= (fun l => l ++ (text ≫= (fun b => display cs [b]))) |>) c = screen d c ++ text.
Proof.
  intros Hc Hs. revert d Hc. induction text as [|b text IH]; intros d Hc.
  - unfold screen. simpl. by rewrite !app_nil_r.
  - set (d1 := d <| shown ::= (fun l => l ++ display cs [b]) |>).
    assert (E1 : screen d1 c = screen d c ++ [b]) by by apply screen_display.
    specialize (IH d1 Hc). rewrite E1, <- app_assoc in IH. cbn [app] in IH. rewrite <- IH.
    unfold screen, d1. cbn. by rewrite <- app_assoc.
Qed.

Definition echoed cs (out : list Z) k : kernel (memory H) :=
  with_devs (fun d => d <| shown ::= (fun l => l ++ (out ≫= (fun b => display cs [b]))) |>) k.

Lemma tty_echo_run ch k cs :
  console_chain (devs (kheap k)) cs ->
  tty_echo_char ch k = Ret tt (echoed cs (if decide (ch = 10) then [13; 10] else [ch]) k).
Proof.
  intros Hc. unfold tty_echo_char. rewrite (tty_write_run [ch] k cs Hc). unfold crlf, echoed.
  rewrite bind_singleton. done.
Qed.

Lemma echoed_inv k Q cs e out : tty_inv k Q cs e -> tty_inv (echoed cs out k) Q cs e.
Proof. intros []. split; try done. by apply wq_inv_with_devs. Qed.

Lemma echoed_screen k cs out c :
  console_chain (devs (kheap k)) cs -> shows cs c ->
  screen (devs (kheap (echoed cs out k))) c = screen (devs (kheap k)) c ++ out.
Proof. intros. by apply screen_displays. Qed.

(** ** Editing *)

Lemma backspace_run k Q cs e :
  tty_inv k Q cs e -> exists k', tty_handle_backspace k = Ret tt k' /\ tty_step k Q k' Q /\ tty_inv k' Q cs (editor_step 8 e).1 /\
    (forall c, shows cs c -> screen (devs (kheap k')) c = screen (devs (kheap k)) c ++ (editor_step 8 e).2).
Proof.
  intros I. pose proof (ti_edit _ _ _ _ I) as (Hel & Hn & Hlt & Hed). unfold tty_handle_backspace, tt_, set_tty.
  unfold editor_step. rewrite (decide_True_pi (P := 8 = 8) eq_refl). rewrite bind_dev. fold (td k). rewrite Hn.
  destruct (ed_line e) as [|x l] eqn:El.
  - exists k. split; [done|]. split; [apply tty_step_refl, I|]. split; [done|]. intros c _. by rewrite app_nil_r.
  - rewrite bool_decide_eq_false_2 by (simpl; lia). rewrite bind_set_dev.
    match goal with |- context [with_devs ?f k] => set (k1 := with_devs f k) end.
    rewrite (tty_echo_run 8 k1 cs (ti_consoles _ _ _ _ I)). rewrite decide_False by done.
    exists (echoed cs [8] k1). split; [done|].
    split; [apply (tty_step_trans k Q k1 Q); apply tty_step_with_devs; try done; [apply I|apply wq_inv_with_devs, I]|].
    split; [|intros c Hs; by rewrite (echoed_screen k1 cs) by (done || apply I)].
    apply echoed_inv. destruct I. split; try done; [by apply wq_inv_with_devs|].
    unfold k1, td. simpl. fold (td k). rewrite El, Hn. rewrite length_take. unfold wrap64.
    split_and!; [done|rewrite Z.mod_small; simpl length in *; lia|simpl length in *; lia|].
    transitivity (take (pred (length (x :: l))) (take (length (x :: l)) (edit_line (td k)))); [|by rewrite Hed].
    by rewrite take_take.
Qed.

Lemma store_run k Q cs e ch :
  tty_inv k Q cs e -> (length (ed_line e) < 127)%nat -> ch <> 10 ->
  exists k', (_ ← deref (fun k => edit_line (td k) !! Z.to_nat (edit_length (td k)));
      set_tty (fun t => t <| edit_line ::= <[Z.to_nat (edit_length (td k)) := ch]> |>) ;;
      set_tty (fun t => t <| edit_length := wrap64 (edit_length t + 1) |>) ;;
      tty_echo_char ch) k = Ret tt k' /\ tty_step k Q k' Q /\ tty_inv k' Q cs (e <| ed_line ::= (fun l => l ++ [ch]) |>) /\
    (forall c, shows cs c -> screen (devs (kheap k')) c = screen (devs (kheap k)) c ++ [ch]).
Proof.
  intros I Hlen Hch. pose proof (ti_edit _ _ _ _ I) as (Hel & Hn & Hlt & Hed).
  destruct (lookup_lt_is_Some_2 (edit_line (td k)) (length (ed_line e))) as [old Hold]; [lia|].
  erewrite bind_deref by (rewrite Hn, Nat2Z.id; exact Hold). unfold set_tty. dstep.
  match goal with |- context [with_devs ?f k] => set (k1 := with_devs f k) end.
  rewrite (tty_echo_run ch k1 cs (ti_consoles _ _ _ _ I)). rewrite decide_False by done.
  exists (echoed cs [ch] k1). split; [done|].
  split; [apply (tty_step_trans k Q k1 Q); apply tty_step_with_devs; try done; [apply I|apply wq_inv_with_devs, I]|].
  split; [|intros c Hs; by rewrite (echoed_screen k1 cs) by (done || apply I)].
  apply echoed_inv. destruct I. split; try done; [by apply wq_inv_with_devs|].
  unfold k1. cbn. fold (td k). rewrite Hn, Nat2Z.id, length_insert, length_app. unfold wrap64. simpl length.
  split_and!; [done|rewrite Z.mod_small; lia|lia|].
  replace (length (ed_line e) + 1)%nat with (S (length (ed_line e))) by lia.
  rewrite (take_S_r _ _ ch) by (apply list_lookup_insert_eq; lia). by rewrite take_insert_ge, Hed by lia.
Qed.

(** ** Submitting a line *)

Definition submitted (line : list Z) (t : tty_t) : tty_t :=
  t <| tl_lines ::= <[Z.to_nat (tl_tail t) := line]> |>
    <| tl_lengths ::= <[Z.to_nat (tl_tail t) := edit_length t]> |>
    <| tl_tail := (tl_tail t + 1) mod 8 |> <| tl_count := tl_count t + 1 |>.

Lemma tty_slots_length t n : length (tl_lines t) = n -> length (tl_lengths t) = n -> length (tty_slots t) = n.
Proof. intros E1 E2. unfold tty_slots. rewrite length_zip_with, E1, E2. lia. Qed.

(** The slot a line was copied to holds the line. *)
Lemma submitted_slots t (line : list Z) :
  tty_slots (submitted line t) = <[Z.to_nat (tl_tail t) := take (Z.to_nat (edit_length t)) line]> (tty_slots t).
Proof.
  symmetry. apply (insert_zip_with (fun l n => take (Z.to_nat n) l)).
Qed.

Lemma copied_line (src dst : list Z) n :
  (n < length src)%nat -> length dst = length src ->
  copy_bytes n 0 src dst = Some (take n src ++ drop n dst) /\
  (exists x, (take n src ++ drop n dst) !! n = Some x) /\
  take n (<[n := 0]> (take n src ++ drop n dst)) = take n src /\
  length (<[n := 0]> (take n src ++ drop n dst)) = length src.
Proof.
  intros Hn Hlen. split_and!.
  - rewrite copy_bytes_run by lia. done.
  - apply lookup_lt_is_Some_2. rewrite length_app, length_take, length_drop. lia.
  - rewrite take_insert_ge by lia. by rewrite take_app_length' by (rewrite length_take; lia).
  - rewrite length_insert, length_app, length_take, length_drop. lia.
Qed.

Lemma submit_run k Q cs e l :
  tty_inv k Q cs e -> Q !! addr_tty_wait = Some l -> (length (ed_lines e) < 8)%nat ->
  exists k' Q', tty_submit_edit_line k = Ret tt k' /\ tty_step k Q k' Q' /\ tty_inv k' Q' cs (Editor [] (ed_lines e ++ [ed_line e]) (ed_lost e)) /\
    shown (devs (kheap k')) = shown (devs (kheap k)).
Proof.
  intros I Hl Hlen. pose proof (ti_edit _ _ _ _ I) as (Hel & Hn & Hlt & Hed).
  pose proof (ti_shape _ _ _ _ I) as (Hsh & Hll & Hln & Hlb). pose proof (ti_ring _ _ _ _ I) as Ir.
  pose proof (ring_rep_tail _ _ _ _ _ _ Ir) as Ht. pose proof Ir as (_ & _ & _ & Hc & _).
  destruct (lookup_lt_is_Some_2 (tl_lines (td k)) (Z.to_nat (tl_tail (td k)))) as [dst Hdst]; [lia|].
  destruct (lookup_lt_is_Some_2 (tl_lengths (td k)) (Z.to_nat (tl_tail (td k)))) as [old Hold]; [lia|].
  assert (Hdl : length dst = 128%nat) by (rewrite Forall_forall in Hsh; apply Hsh; by eapply list_elem_of_lookup_2).
  destruct (copied_line (edit_line (td k)) dst (length (ed_line e))) as (Ecp & [z Hz] & Etk & Elen); [lia|lia|].
  set (line := take (length (ed_line e)) (edit_line (td k)) ++ drop (length (ed_line e)) dst) in *.
  unfold tty_submit_edit_line, tt_, set_tty. rewrite (bind_wait_lock k Q _ l) by (done || apply I). dstep.
  change (tty (devs (kheap (enter (QueueLock addr_tty_wait) k)))) with (td k).
  rewrite (bool_decide_eq_false_2 (tl_count (td k) = TTY_LINE_QUEUE_SIZE)) by (unfold TTY_LINE_QUEUE_SIZE; lia). dstep.
  change (tty (devs (kheap (enter (QueueLock addr_tty_wait) k)))) with (td k).
  erewrite bind_deref by exact Hdst. rewrite Hn, Nat2Z.id. erewrite bind_deref by exact Ecp.
  erewrite bind_deref by exact Hz. dstep. erewrite bind_deref by exact Hold. dstep.
  match goal with |- context [with_devs ?f (enter _ _)] => set (f0 := f) end.
  set (nl := <[length (ed_line e) := 0]> line).
  assert (Hf : f0 (devs (kheap k)) = (devs (kheap k)) <| tty ::= submitted nl |>).
  { unfold f0, submitted, wrap32, TTY_LINE_QUEUE_SIZE. cbn. fold (td k). rewrite Hn.
    by rewrite (Z.mod_small (tl_tail (td k) + 1)), (Z.mod_small (tl_count (td k) + 1)) by lia. }
  rewrite (with_devs_ext f0 (fun d => d <| tty ::= submitted nl |>)) by exact Hf.
  destruct (post_run k Q addr_tty_wait l (fun d => d <| tty ::= submitted nl |>) (ti_wq _ _ _ _ I) Hl) as (k1 & E1 & P).
  eexists _, (<[addr_tty_wait := List.tl l]> Q). split; [rewrite <- bind_assoc; mrun E1; apply set_dev_run|].
  assert (Ed : td k1 = submitted nl (td k)) by (unfold td; by rewrite (po_heap _ _ _ _ _ _ P)).
  assert (Ek : devs (kheap k1) = (devs (kheap k)) <| tty ::= submitted nl |>) by by rewrite (po_heap _ _ _ _ _ _ P).
  split.
  { split; [|cbn; by rewrite Ek].
    apply (drives_trans k Q k1 (<[addr_tty_wait := List.tl l]> Q)); [|apply drives_with_devs, P].
    by eapply drives_posted; [apply I| |]. }
  split; [|cbn; by rewrite Ek]. destruct I as [Iw Iq _ _ _ Ilost Irdy Icons].
  match goal with |- tty_inv ?k2 _ _ _ => set (k' := k2) end.
  assert (Et : td k' = (submitted nl (td k)) <| edit_length := 0 |>) by (rewrite <- Ed; done).
  split; rewrite ?Et.
  - apply wq_inv_with_devs, P.
  - rewrite lookup_insert_eq. by eexists.
  - change (tty_slots (submitted nl (td k)) <| edit_length := 0 |>) with (tty_slots (submitted nl (td k))).
    rewrite submitted_slots, Hn, Nat2Z.id. unfold nl. rewrite Etk, Hed. apply ring_rep_push; [exact Ir|lia].
  - cbn. rewrite !length_insert. split_and!; [|done|done|].
    + apply Forall_insert; [done|]. unfold nl. by rewrite Elen.
    + apply Forall_insert; [done|]. lia.
  - cbn. split_and!; [done|done|lia|done].
  - done.
  - done.
  - unfold console_chain in *. cbn. rewrite Ek. exact Icons.
Qed.

Lemma submit_full_run k Q cs e l :
  tty_inv k Q cs e -> Q !! addr_tty_wait = Some l -> length (ed_lines e) = 8%nat ->
  exists k', tty_submit_edit_line k = Ret tt k' /\ tty_step k Q k' Q /\ tty_inv k' Q cs (Editor [] (ed_lines e) (ed_lost e + 1)) /\
    shown (devs (kheap k')) = shown (devs (kheap k)).
Proof.
  intros I Hl Hlen. pose proof (ti_ring _ _ _ _ I) as (_ & _ & _ & Hc & _).
  unfold tty_submit_edit_line, tt_, set_tty. rewrite (bind_wait_lock k Q _ l) by (done || apply I). dstep.
  change (tty (devs (kheap (enter (QueueLock addr_tty_wait) k)))) with (td k).
  rewrite (bool_decide_eq_true_2 (tl_count (td k) = TTY_LINE_QUEUE_SIZE)) by (unfold TTY_LINE_QUEUE_SIZE; lia). dstep.
  rewrite (bind_wait_unlock k Q _ l) by (done || apply I). dstep. eexists. split; [done|]. split; [by apply tty_step_with_devs; [apply I|]|]. split; [|done].
  destruct I as [Iw Iq Ir Ish (Hel & _) Ilost Irdy Icons]. split; try done.
  - by apply wq_inv_with_devs.
  - cbn. split_and!; [done|done|lia|done].
  - unfold td in *. cbn. rewrite Ilost. unfold wrap64. by rewrite Zplus_mod_idemp_l.
Qed.

(** ** A character *)

Lemma tty_receive_char_run ch k Q cs e :
  tty_inv k Q cs e ->
  exists k' Q', tty_receive_char ch k = Ret tt k' /\ tty_step k Q k' Q' /\ tty_inv k' Q' cs (editor_step ch e).1 /\
    (forall c, shows cs c -> screen (devs (kheap k')) c = screen (devs (kheap k)) c ++ (editor_step ch e).2).
Proof.
  intros I. unfold tty_receive_char, tt_. rewrite bind_dev. fold (td k).
  rewrite (bool_decide_eq_false_2 (tty_ready (td k) = 0)) by apply I. dstep.
  destruct (decide (ch = 8)) as [->|H8].
  { rewrite (bool_decide_eq_true_2 (8 = 8)) by done. destruct (backspace_run k Q cs e I) as (k' & E & T & I' & Hs). by exists k', Q. }
  rewrite (bool_decide_eq_false_2 (ch = 8)) by done. unfold editor_step. rewrite (decide_False (P := ch = 8)) by done.
  destruct (decide (ch = 10)) as [->|H10].
  - rewrite (bool_decide_eq_true_2 (10 = 10)) by done.
    mrun (tty_echo_run 10 k cs (ti_consoles _ _ _ _ I)). rewrite (decide_True (P := 10 = 10)) by done.
    assert (T0 : tty_step k Q (echoed cs [13; 10] k) Q) by (by apply tty_step_with_devs; [apply I|]).
    pose proof (echoed_inv k Q cs e [13; 10] I) as I1. destruct (ti_queue _ _ _ _ I1) as [l Hl].
    assert (Hsc : forall k', shown (devs (kheap k')) = shown (devs (kheap (echoed cs [13; 10] k))) -> forall c, shows cs c ->
      screen (devs (kheap k')) c = screen (devs (kheap k)) c ++ [13; 10]).
    { intros k' E c Hs. rewrite <- (echoed_screen k cs [13; 10] c) by (done || apply I). unfold screen. by rewrite E. }
    destruct (decide (length (ed_lines e) < 8)%nat) as [Hlt|Hge].
    + destruct (submit_run _ Q cs e l I1 Hl Hlt) as (k' & Q' & E & T & I' & Esh). exists k', Q'.
      split_and!; [done|by apply (tty_step_trans _ Q _ Q _ _ T0)|done|by apply Hsc].
    + assert (H8' : length (ed_lines e) = 8%nat) by (destruct (ti_ring _ _ _ _ I) as (_ & _ & _ & Hc & Hle & _); lia).
      destruct (submit_full_run _ Q cs e l I1 Hl H8') as (k' & E & T & I' & Esh). exists k', Q.
      split_and!; [done|by apply (tty_step_trans _ Q _ Q _ _ T0)|done|by apply Hsc].
  - rewrite (bool_decide_eq_false_2 (ch = 10)) by done. dstep.
    change (tty (devs (kheap k))) with (td k). pose proof (ti_edit _ _ _ _ I) as (_ & Hn & Hlt & _).
    destruct (decide (length (ed_line e) < 127)%nat) as [Hroom|Hfull].
    + rewrite bool_decide_eq_false_2 by (unfold TTY_LINE_LENGTH, wrap64; rewrite Z.mod_small; lia).
      destruct (store_run k Q cs e ch I Hroom H10) as (k' & E & T & I' & Hs). exists k', Q. by split_and!.
    + rewrite bool_decide_eq_true_2 by (unfold TTY_LINE_LENGTH, wrap64; rewrite Z.mod_small; lia).
      exists k, Q. split_and!; [done|apply tty_step_refl, I|done|]. intros c _. by rewrite app_nil_r.
Qed.

Lemma for_each_receive text : forall k Q cs e,
  tty_inv k Q cs e ->
  exists k' Q', for_each text tty_receive_char k = Ret tt k' /\ tty_step k Q k' Q' /\ tty_inv k' Q' cs (editor_run text e).1 /\
    (forall c, shows cs c -> screen (devs (kheap k')) c = screen (devs (kheap k)) c ++ (editor_run text e).2).
Proof.
  induction text as [|ch text IH]; intros k Q cs e I; simpl.
  - exists k, Q. split_and!; [done|apply tty_step_refl, I|done|]. intros c _. by rewrite app_nil_r.
  - destruct (tty_receive_char_run ch k Q cs e I) as (k1 & Q1 & E1 & T1 & I1 & S1).
    destruct (editor_step ch e) as [e1 o1]. simpl in I1, S1.
    destruct (IH k1 Q1 cs e1 I1) as (k2 & Q2 & E2 & T2 & I2 & S2). destruct (editor_run text e1) as [e2 o2]. simpl in *.
    exists k2, Q2. split_and!; [by mrun E1|by eapply tty_step_trans|done|]. intros c Hs. by rewrite S2, S1, app_assoc.
Qed.

(** C8.  The tty refines a line editor: whatever characters it is given, its arrays hold
    the line being edited and, in order, the completed lines that wait to be read, at most
    eight of them.  While eight wait, a line that is completed is not kept: the oldest
    eight stay, the new one is counted as dropped.  Every registered console has shown
    exactly the echo of the editor. *)
Theorem tty_refines_editor chars k Q cs e :
  tty_inv k Q cs e ->
  exists k' Q', for_each chars tty_receive_char k = Ret tt k' /\ tty_inv k' Q' cs (editor_run chars e).1 /\
    (forall c, shows cs c -> screen (devs (kheap k')) c = screen (devs (kheap k)) c ++ (editor_run chars e).2).
Proof.
  intros I. destruct (for_each_receive chars k Q cs e I) as (k' & Q' & E & _ & I' & S'). by exists k', Q'.
Qed.

(** ** Reading a line *)

Definition line_popped (t : tty_t) : tty_t := t <| tl_head := (tl_head t + 1) mod 8 |> <| tl_count := tl_count t - 1 |>.

Definition fitting (size : Z) (line : list Z) : list Z := take (Z.to_nat (Z.min (Z.of_nat (length line)) (size - 1))) line.

Lemma tty_slot_lookup t i line :
  tty_slots t !! i = Some line -> exists l n, tl_lines t !! i = Some l /\ tl_lengths t !! i = Some n /\ line = take (Z.to_nat n) l.
Proof. intros (l & n & -> & Hl & Hn)%lookup_zip_with_Some. by exists l, n. Qed.

(** The shape of the arrays. *)
Definition tty_shape (t : tty_t) : Prop :=
  Forall (fun l => length l = 128%nat) (tl_lines t) /\ length (tl_lines t) = 8%nat /\
  length (tl_lengths t) = 8%nat /\ Forall (fun n => 0 <= n < 128) (tl_lengths t).

Lemma tty_pop_run k line lines size :
  ring_rep 8 (tty_slots (td k)) (tl_head (td k)) (tl_tail (td k)) (tl_count (td k)) (line :: lines) ->
  tty_shape (td k) -> 0 < size < 18446744073709551616 ->
  tty_pop_line_locked size k =
  Ret (Z.of_nat (length (fitting size line)), Some (fitting size line)) (with_devs (fun d => d <| tty ::= line_popped |>) k).
Proof.
  intros Ir (Hsh & Hll & Hln & Hlb) Hs.
  destruct (ring_rep_pop _ _ _ _ _ _ _ Ir) as [Hh _]. pose proof Ir as (_ & Hhd & _ & Hc & Hcap & _). simpl length in Hc.
  destruct (tty_slot_lookup _ _ _ Hh) as (l & n & Hl & Hn & Eline).
  assert (Hl128 : length l = 128%nat) by (rewrite Forall_forall in Hsh; apply Hsh; by eapply list_elem_of_lookup_2).
  assert (Hnb : 0 <= n < 128) by (rewrite Forall_forall in Hlb; apply Hlb; by eapply list_elem_of_lookup_2).
  assert (Hlen : Z.of_nat (length line) = n) by (rewrite Eline, length_take; lia).
  unfold tty_pop_line_locked, tt_, set_tty. dstep. change (tty (devs (kheap k))) with (td k).
  rewrite (bool_decide_eq_false_2 (tl_count (td k) = 0)) by lia. dstep. change (tty (devs (kheap k))) with (td k).
  erewrite bind_deref by exact Hn. erewrite bind_deref by exact Hl.
  assert (Elen : (if bool_decide (size < wrap64 (n + 1)) then wrap64 (size - 1) else n) = Z.min n (size - 1)).
  { unfold wrap64. rewrite !Z.mod_small by lia. case_bool_decide; lia. }
  rewrite Elen. set (m := Z.min n (size - 1)).
  assert (Ecp : copy_bytes (Z.to_nat m) 0 l (replicate (Z.to_nat m) 0) = Some (fitting size line)).
  { rewrite copy_bytes_run by (rewrite ?length_replicate; lia). f_equal.
    rewrite drop_replicate, Nat.add_0_l, Nat.sub_diag, drop_0, app_nil_r, take_0. cbn [app]. unfold fitting. rewrite Hlen. fold m.
    rewrite Eline, take_take. f_equal. lia. }
  erewrite bind_deref by exact Ecp. dstep. f_equal.
  - f_equal. unfold fitting. rewrite length_take. fold m. lia.
  - apply with_devs_ext. unfold line_popped, wrap32, TTY_LINE_QUEUE_SIZE. cbn. fold (td k).
    by rewrite (Z.mod_small (tl_head (td k) + 1)), (Z.mod_small (tl_count (td k) - 1)) by lia.
Qed.

Lemma line_popped_inv k Q cs e line lines :
  tty_inv k Q cs e -> ed_lines e = line :: lines ->
  tty_inv (with_devs (fun d => d <| tty ::= line_popped |>) k) Q cs (e <| ed_lines := lines |>).
Proof.
  intros [] El. split; try done; [by apply wq_inv_with_devs|].
  rewrite El in ti_ring0. by destruct (ring_rep_pop _ _ _ _ _ _ _ ti_ring0) as [_ Hr].
Qed.

Lemma tty_try_read_run k Q cs e size :
  tty_inv k Q cs e -> 0 < size < 18446744073709551616 ->
  match ed_lines e with
  | [] => tty_try_read_line true size k = Ret (- EAGAIN, None) k
  | line :: lines => exists k', tty_try_read_line true size k =
      Ret (Z.of_nat (length (fitting size line)), Some (fitting size line)) k' /\ tty_inv k' Q cs (e <| ed_lines := lines |>)
  end.
Proof.
  intros I Hs. destruct (ti_queue _ _ _ _ I) as [l Hl].
  assert (Hstart : tty_try_read_line true size k =
    (r ← tty_pop_line_locked size; wait_queue_unlock_irqrestore addr_tty_wait (rflags k) ;; mret r)
      (enter (QueueLock addr_tty_wait) k)).
  { unfold tty_try_read_line, tt_. cbn [negb orb]. rewrite bool_decide_eq_false_2 by lia. rewrite bind_dev. fold (td k).
    rewrite (bool_decide_eq_false_2 (tty_ready (td k) = 0)) by apply I. dstep.
    by rewrite (bind_wait_lock k Q _ l) by (done || apply I). }
  destruct (ed_lines e) as [|line lines] eqn:El.
  - rewrite Hstart. pose proof (ti_ring _ _ _ _ I) as Ir. rewrite El in Ir.
    apply ring_rep_nil_count in Ir as [_ Hz]. specialize (Hz eq_refl). unfold tty_pop_line_locked, tt_. dstep.
    change (tty (devs (kheap (enter (QueueLock addr_tty_wait) k)))) with (td k). rewrite bool_decide_eq_true_2 by done. mred.
    by rewrite (bind_wait_unlock_id k Q _ l) by (done || apply I).
  - eexists. split; [|by apply (line_popped_inv k Q cs e line lines)]. rewrite Hstart.
    pose proof (ti_ring _ _ _ _ I) as Ir. rewrite El in Ir.
    mrun (tty_pop_run (enter (QueueLock addr_tty_wait) k) line lines size Ir (ti_shape _ _ _ _ I) Hs).
    by rewrite (bind_wait_unlock k Q _ l) by (done || apply I).
Qed.

(** A completed line fits a buffer of [TTY_LINE_LENGTH]. *)
Lemma fitting_line k Q cs e line lines :
  tty_inv k Q cs e -> ed_lines e = line :: lines -> fitting TTY_LINE_LENGTH line = line.
Proof.
  intros I El. pose proof (ti_ring _ _ _ _ I) as Ir. rewrite El in Ir.
  destruct (ring_rep_pop _ _ _ _ _ _ _ Ir) as [Hh _]. destruct (tty_slot_lookup _ _ _ Hh) as (l & n & _ & Hn & ->).
  destruct (ti_shape _ _ _ _ I) as (_ & _ & _ & Hb). rewrite Forall_forall in Hb.
  apply list_elem_of_lookup_2, Hb in Hn. unfold fitting, TTY_LINE_LENGTH. apply take_ge. rewrite length_take. lia.
Qed.

Lemma line_waiting_zero k Q cs e : tty_inv k Q cs e -> (line_waiting (devs (kheap k)) = 0 <-> ed_lines e = []).
Proof.
  intros I. pose proof (ring_rep_nil_count _ _ _ _ _ _ (ti_ring _ _ _ _ I)) as Hc.
  unfold line_waiting. change (tty (devs (kheap k))) with (td k). case_bool_decide; naive_solver.
Qed.

(** The blocking read once the wait is over. *)
Lemma tty_read_after k n others k3 Q3 cs e line lines :
  tty_ready (td k) <> 0 -> tty_inv k3 Q3 cs e -> ed_lines e = line :: lines ->
  wait_queue_wait n others addr_tty_wait (Some tty_has_line) k = Ret 0 k3 ->
  tty_read_line n others true TTY_LINE_LENGTH k =
  Ret (Z.of_nat (length line), Some line) (with_devs (fun d => d <| tty ::= line_popped |>) k3).
Proof.
  intros Hr I3 El Ew. unfold tty_read_line, tt_. cbn [negb orb].
  rewrite (bool_decide_eq_false_2 (TTY_LINE_LENGTH = 0)) by done. dstep. change (tty (devs (kheap k))) with (td k).
  rewrite (bool_decide_eq_false_2 (tty_ready (td k) = 0)) by done. dstep. mrun Ew.
  rewrite bool_decide_eq_true_2 by done. cbn [negb]. destruct (ti_queue _ _ _ _ I3) as [l3 Hl3].
  rewrite (bind_wait_lock k3 Q3 _ l3) by (done || apply I3).
  pose proof (ti_ring _ _ _ _ I3) as Ir. rewrite El in Ir.
  mrun (tty_pop_run (enter (QueueLock addr_tty_wait) k3) line lines TTY_LINE_LENGTH Ir (ti_shape _ _ _ _ I3) ltac:(done)).
  rewrite (fitting_line k3 Q3 cs e line lines I3 El).
  by rewrite (bind_wait_unlock k3 Q3 _ l3) by (done || apply I3).
Qed.

(** ** Typing a line and reading it *)

Lemma editor_plain text : forall e,
  Forall (fun ch => ch <> 8 /\ ch <> 10) text -> (length (ed_line e) + length text <= 127)%nat ->
  editor_run text e = (e <| ed_line ::= (fun l => l ++ text) |>, text).
Proof.
  induction text as [|ch text IH]; intros e Ht Hlen; simpl.
  - f_equal. destruct e. cbn. by rewrite app_nil_r.
  - apply Forall_cons in Ht as [[H8 H10] Ht]. simpl in Hlen. unfold editor_step.
    rewrite !decide_False by done. rewrite decide_True by lia.
    rewrite IH; [|done|cbn; rewrite length_app; simpl; lia]. simpl. f_equal. destruct e. cbn. by rewrite <- app_assoc.
Qed.

(** C37.  A line typed is the line read: with nothing half-typed or waiting, up to 127
    ordinary characters and a newline make the next read of a large enough buffer return
    exactly these characters; a smaller buffer gets as many as fit before its NUL, and the
    read after that finds no line. *)
Theorem typed_line_is_read text k Q cs lost size :
  tty_inv k Q cs (Editor [] [] lost) -> Forall (fun ch => ch <> 8 /\ ch <> 10) text -> (length text <= 127)%nat ->
  0 < size < 18446744073709551616 ->
  exists k1 k2 Q1, for_each (text ++ [10]) tty_receive_char k = Ret tt k1 /\
    tty_try_read_line true size k1 = Ret (Z.of_nat (length (fitting size text)), Some (fitting size text)) k2 /\
    (Z.of_nat (length text) < size -> fitting size text = text) /\
    tty_inv k2 Q1 cs (Editor [] [] lost) /\ tty_try_read_line true size k2 = Ret (- EAGAIN, None) k2.
Proof.
  intros I Ht Hlen Hs. destruct (for_each_receive (text ++ [10]) k Q cs _ I) as (k1 & Q1 & E1 & _ & I1 & _).
  assert (Ee : (editor_run (text ++ [10]) (Editor [] [] lost)).1 = Editor [] [text] lost).
  { rewrite editor_run_app, (editor_plain text (Editor [] [] lost) Ht ltac:(simpl; lia)). reflexivity. }
  rewrite Ee in I1. pose proof (tty_try_read_run k1 Q1 cs _ size I1 Hs) as Hr. simpl in Hr.
  destruct Hr as (k2 & E2 & I2). exists k1, k2, Q1. split_and!; [done|done| |done|].
  - intros Hfit. unfold fitting. apply take_ge. lia.
  - exact (tty_try_read_run k2 Q1 cs _ size I2 Hs).
Qed.
End theory.
