(* ===== verification/Irq.v ===== *)
(** * arch/x86/kernel/irq.c: the PIC, the PIT and IRQ dispatch *)

From S2P Require Import Prelude LinkedList PhysMem Switch KState Sched SchedCore WaitQueue Devices DevWait TrapVectors.

Definition PIC1_COMMAND : Z := 0x20.
Definition PIC1_DATA : Z := 0x21.
Definition PIC2_COMMAND : Z := 0xa0.
Definition PIC2_DATA : Z := 0xa1.
Definition PIC_EOI : Z := 0x20.
Definition ICW1_INIT : Z := 0x10.
Definition ICW1_ICW4 : Z := 0x01.
Definition ICW4_8086 : Z := 0x01.
Definition PIT_FREQUENCY : Z := 1193182.
Definition PIT_TARGET_HZ : Z := 100.
Definition PIT_COMMAND : Z := 0x43.
Definition PIT_CHANNEL0 : Z := 0x40.
Definition PIT_MODE_RATE_GENERATOR : Z := 0x36.
Definition IRQ_TIMER : Z := 0.
Definition IRQ_KEYBOARD : Z := 1.

Section irq.
Context {H : Type} `{KAlloc H} `{Statics}.
Abbreviation K := (M (kernel (memory H))).

Definition io_wait : K unit := outb 0x80 0.

Definition pic_remap : K unit :=
  outb PIC1_COMMAND (Z.lor ICW1_INIT ICW1_ICW4) ;;
  io_wait ;;
  outb PIC2_COMMAND (Z.lor ICW1_INIT ICW1_ICW4) ;;
  io_wait ;;
  outb PIC1_DATA X86_LEGACY_IRQ_VECTOR_BASE ;;
  io_wait ;;
  outb PIC2_DATA (X86_LEGACY_IRQ_VECTOR_BASE + 8) ;;
  io_wait ;;
  outb PIC1_DATA 4 ;;
  io_wait ;;
  outb PIC2_DATA 2 ;;
  io_wait ;;
  outb PIC1_DATA ICW4_8086 ;;
  io_wait ;;
  outb PIC2_DATA ICW4_8086 ;;
  io_wait.

Definition pic_mask_initial_irqs : K unit :=
  outb PIC1_DATA (wrap8 (4294967295 - Z.lor (Z.shiftl 1 IRQ_TIMER) (Z.shiftl 1 IRQ_KEYBOARD))) ;;
  outb PIC2_DATA 0xff.

Definition pic_send_eoi (irq : Z) : K unit :=
  when (bool_decide (8 <= irq)) (outb PIC2_COMMAND PIC_EOI) ;;
  outb PIC1_COMMAND PIC_EOI.

Definition pit_init : K unit :=
  let divisor := wrap16 (PIT_FREQUENCY / PIT_TARGET_HZ) in
  outb PIT_COMMAND PIT_MODE_RATE_GENERATOR ;;
  outb PIT_CHANNEL0 (wrap8 (Z.land divisor 0xff)) ;;
  outb PIT_CHANNEL0 (wrap8 (Z.shiftr divisor 8)).

Definition irq_register (irq : Z) (handler : option irq_handler) (data : Z) : K Z :=
  if bool_decide (X86_LEGACY_IRQ_VECTOR_COUNT <= irq) || bool_decide (handler = None) then mret (- EINVAL)
  else
    flags ← arch_irq_save;
    a ← deref (fun k => irq_actions (devs (kheap k)) !! Z.to_nat irq);
    if negb (bool_decide (ia_handler a = None)) then arch_irq_restore flags ;; mret (- EBUSY)
    else
      set_dev (fun d => d <| irq_actions ::= <[Z.to_nat irq := IrqAction handler data]> |>) ;;
      arch_irq_restore flags ;;
      mret 0.

Definition timer_irq_handler : K unit := timer_tick.

(** [run f irq data] is the call of the handler [f]. *)
Definition handle_irq (run : irq_handler -> Z -> Z -> K unit) (vector : Z) : K unit :=
  let irq := wrap64 (vector - X86_LEGACY_IRQ_VECTOR_BASE) in
  if bool_decide (irq < X86_LEGACY_IRQ_VECTOR_COUNT) then
    a ← deref (fun k => irq_actions (devs (kheap k)) !! Z.to_nat irq);
    match ia_handler a with
    | Some f => run f (wrap8 irq) (ia_data a) ;; pic_send_eoi (wrap8 irq)
    | None => pic_send_eoi (wrap8 irq)
    end
  else pic_send_eoi (wrap8 irq).

Definition arch_timer_init : K unit :=
  pic_remap ;;
  pic_mask_initial_irqs ;;
  r ← irq_register IRQ_TIMER (Some TIMER_IRQ_HANDLER) 0;
  if negb (bool_decide (r = 0)) then panic "timer irq registration failed"
  else
    pit_init ;;
    arch_irq_restore (Z.shiftl 1 9).
End irq.

Section theory.
Context {H : Type} `{KAlloc H} `{Statics}.
Implicit Types (k : kernel (memory H)).

Definition wrote (l : list (Z * Z)) k : kernel (memory H) := with_devs (fun d => d <| port_writes ::= (fun w => w ++ l) |>) k.

(** The acknowledgements of an IRQ line: the second controller first for its lines. *)
Definition eoi_writes (irq : Z) : list (Z * Z) := (if decide (8 <= irq) then [(0xa0, 0x20)] else []) ++ [(0x20, 0x20)].

Lemma pic_send_eoi_run irq k : pic_send_eoi irq k = Ret tt (wrote (eoi_writes irq) k).
Proof.
  unfold pic_send_eoi, outb, wrote, eoi_writes. destruct (decide (8 <= irq)).
  - rewrite bool_decide_eq_true_2 by done. dstep. f_equal. apply with_devs_ext. cbn. by rewrite <- app_assoc.
  - rewrite bool_decide_eq_false_2 by done. by dstep.
Qed.

(** Interrupts off and back to what they were, around a change of the drivers' data. *)
Lemma irq_section k f :
  (flags ← arch_irq_save; set_dev f ;; arch_irq_restore flags) k = Ret tt (with_devs f k).
Proof.
  unfold arch_irq_save, arch_irq_restore. mred. rewrite bind_set_dev. pose proof (restore_flags (rflags k)) as Hf.
  revert Hf. destruct (negb _); intros Hf; unfold when; mred; f_equal; destruct k; cbn in *; by rewrite Hf.
Qed.

Lemma irq_unchanged k : (flags ← arch_irq_save; arch_irq_restore flags) k = Ret tt k.
Proof.
  unfold arch_irq_save, arch_irq_restore. mred. pose proof (restore_flags (rflags k)) as Hf.
  revert Hf. destruct (negb _); intros Hf; unfold when; mred; f_equal; destruct k; cbn in *; by rewrite Hf.
Qed.

Definition action_at k (irq : Z) : option irq_action := irq_actions (devs (kheap k)) !! Z.to_nat irq.

Lemma irq_register_busy k irq f data a :
  0 <= irq < 16 -> action_at k irq = Some a -> ia_handler a <> None -> irq_register irq (Some f) data k = Ret (- EBUSY) k.
Proof.
  intros Hi Ha Hf. unfold irq_register, X86_LEGACY_IRQ_VECTOR_COUNT.
  rewrite (bool_decide_eq_false_2 (16 <= irq)), (bool_decide_eq_false_2 (Some f = None)) by (done || lia). cbn [orb].
  pose proof (irq_unchanged k) as Hs. unfold arch_irq_save in *. mred. mred in Hs.
  erewrite bind_deref by exact Ha. rewrite bool_decide_eq_false_2 by done. cbn [negb]. by mrun Hs.
Qed.

Lemma irq_register_free k irq f data a :
  0 <= irq < 16 -> action_at k irq = Some a -> ia_handler a = None ->
  irq_register irq (Some f) data k =
  Ret 0 (with_devs (fun d => d <| irq_actions ::= <[Z.to_nat irq := IrqAction (Some f) data]> |>) k).
Proof.
  intros Hi Ha Hf. unfold irq_register, X86_LEGACY_IRQ_VECTOR_COUNT.
  rewrite (bool_decide_eq_false_2 (16 <= irq)), (bool_decide_eq_false_2 (Some f = None)) by (done || lia). cbn [orb].
  pose proof (irq_section k (fun d => d <| irq_actions ::= <[Z.to_nat irq := IrqAction (Some f) data]> |>)) as Hs.
  unfold arch_irq_save in *. mred. mred in Hs.
  erewrite bind_deref by exact Ha. rewrite bool_decide_eq_true_2 by done. cbn [negb].
  rewrite <- bind_assoc. by mrun Hs.
Qed.

Lemma handle_irq_run run k irq a :
  0 <= irq < 16 -> action_at k irq = Some a ->
  handle_irq run (X86_LEGACY_IRQ_VECTOR_BASE + irq) k =
  match ia_handler a with Some f => run f irq (ia_data a) ;; pic_send_eoi irq | None => pic_send_eoi irq end k.
Proof.
  intros Hi Ha. unfold handle_irq, X86_LEGACY_IRQ_VECTOR_BASE, X86_FIRST_EXTERNAL_VECTOR, X86_LEGACY_IRQ_VECTOR_COUNT, wrap64, wrap8.
  replace (32 + irq - 32) with irq by lia. rewrite !(Z.mod_small irq) by lia.
  rewrite bool_decide_eq_true_2 by lia. erewrite bind_deref by exact Ha. by destruct (ia_handler a).
Qed.

(** [irq_register] and [handle_irq]: a line takes one handler.  Registering on a
    free line of 0 to 15 makes the line's vector call exactly that handler with its data,
    acknowledged after it returns on the controllers of the line; the other lines are
    unaffected; registering on a taken line is -EBUSY and changes nothing, and so is
    -EINVAL for a line above 15 or no handler. *)
Theorem irq_register_dispatch k irq f data :
  length (irq_actions (devs (kheap k))) = 16%nat -> 0 <= irq ->
  (16 <= irq -> forall h, irq_register irq h data k = Ret (- EINVAL) k) /\
  irq_register irq None data k = Ret (- EINVAL) k /\
  (forall a, irq < 16 -> action_at k irq = Some a ->
     if decide (ia_handler a = None)
     then exists k', irq_register irq (Some f) data k = Ret 0 k' /\
       (forall run, handle_irq run (X86_LEGACY_IRQ_VECTOR_BASE + irq) k' = (run f irq data ;; pic_send_eoi irq) k') /\
       (forall i, 0 <= i -> i <> irq -> action_at k' i = action_at k i) /\
       irq_register irq (Some f) data k' = Ret (- EBUSY) k'
     else irq_register irq (Some f) data k = Ret (- EBUSY) k).
Proof.
  intros Hlen Hi. split_and!.
  - intros Hge h. unfold irq_register, X86_LEGACY_IRQ_VECTOR_COUNT. by rewrite bool_decide_eq_true_2.
  - unfold irq_register. by rewrite orb_true_r.
  - intros a Hlt Ha. destruct (decide (ia_handler a = None)) as [Hn|Hn]; [|by apply (irq_register_busy k irq f data a)].
    set (k' := with_devs (fun d => d <| irq_actions ::= <[Z.to_nat irq := IrqAction (Some f) data]> |>) k).
    assert (Ha' : action_at k' irq = Some (IrqAction (Some f) data)).
    { unfold action_at, k'. simpl. apply list_lookup_insert_eq. lia. }
    exists k'. split_and!; [by apply (irq_register_free k irq f data a)| | |].
    + intros run. by rewrite (handle_irq_run run k' irq (IrqAction (Some f) data)).
    + intros i Hi0 Hne. unfold action_at, k'. simpl. apply list_lookup_insert_ne. lia.
    + by apply (irq_register_busy k' irq f data (IrqAction (Some f) data)).
Qed.
End theory.
