(* ===== verification/Ps2.v ===== *)
(** * drivers/input/keyboard/ps2.c: the PS/2 keyboard

    The interrupt puts raw bytes into a ring of 32 and queues work; the work decodes them
    into key events. *)

From S2P Require Import Prelude LinkedList Ring PhysMem Switch KState Sched SchedCore WaitQueue Devices DevWait Input Workqueue Keymap Irq.

Definition PS2_DATA_PORT : Z := 0x60.
Definition PS2_STATUS_PORT : Z := 0x64.
Definition PS2_STATUS_OUTPUT_FULL : Z := 0x01.
Definition PS2_KEYBOARD_IRQ : Z := 1.
Definition PS2_RAW_QUEUE_CAPACITY : Z := 32.
Definition PS2_SCANCODE_RELEASE : Z := 0x80.
Definition PS2_SCANCODE_EXTENDED : Z := 0xe0.
Definition PS2_SCANCODE_PAUSE : Z := 0xe1.

Section ps2.
Context {H : Type} `{KAlloc H} `{Statics}.
Abbreviation K := (M (kernel (memory H))).

Definition ps2 {A} (f : ps2_keyboard_t -> A) : K A := dev (fun d => f (kbd d)).
Definition set_ps2 (f : ps2_keyboard_t -> ps2_keyboard_t) : K unit := set_dev (fun d => d <| kbd ::= f |>).

(** [ps2_keyboard.lock] *)
Definition ps2_lock : lock_ref := StaticLock "ps2_keyboard".

(** The modifier bits after a key went down ([pressed]) or up. *)
Definition update_modifiers (key : Z) (pressed : bool) (m : Z) : Z :=
  let mask :=
    if bool_decide (key = INPUT_KEY_LEFTSHIFT) || bool_decide (key = INPUT_KEY_RIGHTSHIFT) then INPUT_MODIFIER_SHIFT
    else if bool_decide (key = INPUT_KEY_LEFTCTRL) || bool_decide (key = INPUT_KEY_RIGHTCTRL) then INPUT_MODIFIER_CTRL
    else if bool_decide (key = INPUT_KEY_LEFTALT) || bool_decide (key = INPUT_KEY_RIGHTALT) then INPUT_MODIFIER_ALT
    else 0 in
  if bool_decide (mask = 0) then
    if pressed && bool_decide (key = INPUT_KEY_CAPSLOCK) then Z.lxor m INPUT_MODIFIER_CAPSLOCK
    else if pressed && bool_decide (key = INPUT_KEY_NUMLOCK) then Z.lxor m INPUT_MODIFIER_NUMLOCK
    else if pressed && bool_decide (key = INPUT_KEY_SCROLLLOCK) then Z.lxor m INPUT_MODIFIER_SCROLLLOCK
    else m
  else if pressed then Z.lor m mask
  else Z.land m (4294967295 - mask).

Definition ps2_update_modifier (key : Z) (pressed : bool) : K unit :=
  set_ps2 (fun p => p <| ps_modifiers ::= update_modifiers key pressed |>).

(** [None] when the ring is empty. *)
Definition ps2_raw_pop : K (option Z) :=
  flags ← spin_lock_irqsave (Some ps2_lock) true;
  count ← ps2 ps_count;
  if bool_decide (count = 0) then spin_unlock_irqrestore (Some ps2_lock) flags ;; mret None
  else
    head ← ps2 ps_head;
    scancode ← slot (fun d => raw (kbd d)) head;
    set_ps2 (fun p => p <| ps_head := wrap32 (ps_head p + 1) mod PS2_RAW_QUEUE_CAPACITY |>) ;;
    set_ps2 (fun p => p <| ps_count := wrap32 (ps_count p - 1) |>) ;;
    spin_unlock_irqrestore (Some ps2_lock) flags ;;
    mret (Some scancode).

(** What one scancode does. *)
Definition ps2_decode (scancode : Z) : K unit :=
  let code := Z.land scancode PS2_SCANCODE_MASK in
  extended ← ps2 extended_pending;
  let pressed := bool_decide (Z.land scancode PS2_SCANCODE_RELEASE = 0) in
  pause ← ps2 pause_bytes;
  if negb (bool_decide (pause = 0)) then set_ps2 (fun p => p <| pause_bytes := wrap8 (pause_bytes p - 1) |>)
  else if bool_decide (scancode = PS2_SCANCODE_PAUSE) then set_ps2 (fun p => p <| pause_bytes := 5 |>)
  else if bool_decide (scancode = PS2_SCANCODE_EXTENDED) then set_ps2 (fun p => p <| extended_pending := 1 |>)
  else
    set_ps2 (fun p => p <| extended_pending := 0 |>) ;;
    let key := ps2_keyboard_keycode_from_set1 code extended in
    if bool_decide (key = INPUT_KEY_RESERVED) then mret tt
    else
      ps2_update_modifier key pressed ;;
      m ← ps2 ps_modifiers;
      _ ← input_report_key addr_ps2_input_dev (wrap16 key) (if pressed then 1 else 0) m;
      mret tt.

Definition work_round (_ : unit) : K (unit + unit) :=
  r ← ps2_raw_pop;
  match r with
  | None => mret (inr tt)
  | Some scancode => ps2_decode scancode ;; mret (inl tt)
  end.

(** [batch] bounds the bytes decoded in one call. *)
Definition ps2_keyboard_work (batch : nat) : K unit := loop batch work_round tt.

Definition ps2_keyboard_irq : K unit :=
  status ← inb PS2_STATUS_PORT;
  if bool_decide (Z.land status PS2_STATUS_OUTPUT_FULL = 0) then mret tt
  else
    scancode ← inb PS2_DATA_PORT;
    flags ← spin_lock_irqsave (Some ps2_lock) true;
    count ← ps2 ps_count;
    if bool_decide (count = PS2_RAW_QUEUE_CAPACITY) then
      set_ps2 (fun p => p <| ps_dropped := wrap64 (ps_dropped p + 1) |>) ;;
      spin_unlock_irqrestore (Some ps2_lock) flags
    else
      tail ← ps2 ps_tail;
      _ ← slot (fun d => raw (kbd d)) tail;
      set_ps2 (fun p => p <| raw ::= <[Z.to_nat tail := scancode]> |>) ;;
      set_ps2 (fun p => p <| ps_tail := wrap32 (ps_tail p + 1) mod PS2_RAW_QUEUE_CAPACITY |>) ;;
      set_ps2 (fun p => p <| ps_count := wrap32 (ps_count p + 1) |>) ;;
      spin_unlock_irqrestore (Some ps2_lock) flags ;;
      _ ← queue_work addr_ps2_work;
      mret tt.

Definition ps2_keyboard_init : K unit :=
  ready ← ps2 ps_initialized;
  if negb (bool_decide (ready = 0)) then mret tt
  else
    modify (fun k => k <| locks ::= <[ps2_lock := 0]> |>) ;;
    set_ps2 (fun p => p <| ps_head := 0 |>) ;;
    set_ps2 (fun p => p <| ps_tail := 0 |>) ;;
    set_ps2 (fun p => p <| ps_count := 0 |>) ;;
    set_ps2 (fun p => p <| ps_dropped := 0 |>) ;;
    set_ps2 (fun p => p <| extended_pending := 0 |>) ;;
    set_ps2 (fun p => p <| pause_bytes := 0 |>) ;;
    set_ps2 (fun p => p <| ps_modifiers := 0 |>) ;;
    work_init addr_ps2_work (Some PS2_KEYBOARD_WORK) 0 ;;
    r ← input_register_device addr_ps2_input_dev;
    if negb (bool_decide (r = 0)) then panic "keyboard input device registration failed"
    else
      r ← irq_register PS2_KEYBOARD_IRQ (Some PS2_KEYBOARD_IRQ_HANDLER) 0;
      if negb (bool_decide (r = 0)) then panic "keyboard irq registration failed"
      else set_ps2 (fun p => p <| ps_initialized := 1 |>).
End ps2.

(** ** The specification: a decoder of bytes *)

(** The modifiers, whether 0xe0 came before, and how many bytes of a Pause sequence are
    still to come. *)
Record decoder := Decoder { de_modifiers : Z; de_extended : bool; de_pause : Z }.

Record report := Report_ { re_key : Z; re_pressed : bool; re_modifiers : Z }.

Definition decode_byte (b : Z) (s : decoder) : decoder * list report :=
  if decide (de_pause s <> 0) then (Decoder (de_modifiers s) (de_extended s) (de_pause s - 1), [])
  else if decide (b = 0xe1) then (Decoder (de_modifiers s) (de_extended s) 5, [])
  else if decide (b = 0xe0) then (Decoder (de_modifiers s) true 0, [])
  else
    let key := ps2_keyboard_keycode_from_set1 (b mod 128) (if de_extended s then 1 else 0) in
    if decide (key = 0) then (Decoder (de_modifiers s) false 0, [])
    else
      let m := update_modifiers key (bool_decide (b < 128)) (de_modifiers s) in
      (Decoder m false 0, [Report_ key (bool_decide (b < 128)) m]).

Fixpoint decode_bytes (bs : list Z) (s : decoder) : decoder * list report :=
  match bs with
  | [] => (s, [])
  | b :: bs => let '(s1, r1) := decode_byte b s in let '(s2, r2) := decode_bytes bs s1 in (s2, r1 ++ r2)
  end.

(** The event core's queue after the events of [rs] came in; what does not fit is lost. *)
Fixpoint accept (q rs : list input_event) : list input_event :=
  match rs with
  | [] => q
  | e :: rs => accept (if decide (length q < 64)%nat then q ++ [e] else q) rs
  end.

Lemma accept_app q rs rs' : accept q (rs ++ rs') = accept (accept q rs) rs'.
Proof. revert q. induction rs as [|e rs IH]; intros q; simpl; [done|apply IH]. Qed.

Lemma accept_room q rs : (length q + length rs <= 64)%nat -> accept q rs = q ++ rs.
Proof.
  revert q. induction rs as [|e rs IH]; intros q Hlen; simpl; [by rewrite app_nil_r|]. simpl in Hlen.
  rewrite decide_True by lia. rewrite IH by (rewrite length_app; simpl; lia). by rewrite <- app_assoc.
Qed.

(** Every key code of the tables fits the event's 16 bits. *)
Lemma keycode_range code extended : 0 <= ps2_keyboard_keycode_from_set1 code extended < 256.
Proof.
  assert (Hd : forall l i, Forall (fun p : Z * Z => 0 <= p.2 < 256) l -> 0 <= designated l i < 256).
  { intros l i Hl. unfold designated. induction Hl as [|p l Hp Hl IH]; simpl; [lia|]. by case_bool_decide. }
  unfold ps2_keyboard_keycode_from_set1. destruct (negb _); apply Hd; apply (bool_decide_unpack _); vm_compute; exact Logic.I.
Qed.

(** The release bit and the rest of a scancode. *)
Lemma scancode_bits b : 0 <= b < 256 ->
  Z.land b PS2_SCANCODE_MASK = b mod 128 /\ (Z.land b PS2_SCANCODE_RELEASE = 0 <-> b < 128).
Proof.
  intros Hb. split; [apply (land_ones_mod b 7); lia|]. unfold PS2_SCANCODE_RELEASE. split.
  - intros E. apply (f_equal (fun z => Z.testbit z 7)) in E. rewrite Z.land_spec, Z.bits_0 in E.
    destruct (Z.lt_ge_cases b 128) as [|Hge]; [done|]. exfalso.
    assert (Ht : Z.testbit b 7 = true); [|by rewrite Ht in E].
    apply Z.testbit_true; [lia|]. change (2 ^ 7) with 128. div_lia.
  - intros Hlt. apply Z.bits_inj'. intros i Hi. rewrite Z.land_spec, Z.bits_0.
    change 128 with (2 ^ 7). rewrite Z.pow2_bits_eqb by lia. destruct (Z.eqb_spec 7 i) as [<-|]; [|apply andb_false_r].
    rewrite andb_true_r. apply Z.testbit_false; [lia|]. change (2 ^ 7) with 128. div_lia.
Qed.

Section theory.
Context {H : Type} `{KAlloc H} `{Statics}.
Implicit Types (k : kernel (memory H)) (Q : gmap Z (list Z)) (bs : list Z) (q : list input_event).

Definition kb k : ps2_keyboard_t := kbd (devs (kheap k)).

(** The keyboard and the input core: the raw ring holds [bs], the decoder is in state
    [s], the keyboard is a registered key device with number [n], and the event queue
    holds [q]. *)
Record kbd_inv k Q bs (s : decoder) (n : Z) q : Prop := {
  ki_input : input_inv k Q q;
  ki_ring : ring_rep 32 (raw (kb k)) (ps_head (kb k)) (ps_tail (kb k)) (ps_count (kb k)) bs;
  ki_bytes : Forall (fun b => 0 <= b < 256) bs;
  ki_decoder : ps_modifiers (kb k) = de_modifiers s /\ extended_pending (kb k) = (if de_extended s then 1 else 0) /\
    pause_bytes (kb k) = de_pause s /\ 0 <= de_pause s < 256;
  ki_device : exists x, input_devs (devs (kheap k)) !! addr_ps2_input_dev = Some x /\ dev_registered x <> 0 /\
    Z.land (capabilities x) INPUT_DEVICE_CAP_KEY <> 0 /\ dev_id x = n;
  ki_lock : locks k !! ps2_lock = Some 0
}.

(** The event a report becomes. *)
Definition to_event (n now : Z) (r : report) : input_event :=
  InputEvent INPUT_EVENT_KEY (re_key r) (if re_pressed r then 1 else 0) (re_modifiers r) n now.

Lemma dev_address : addr_ps2_input_dev <> 0.
Proof.
  pose proof static_objects as Hnd. apply NoDup_cons in Hnd as [Hn _]. intros E. apply Hn. rewrite E.
  do 5 right. left.
Qed.

(** The steps of the keyboard driver: among the drivers' data only its own and the input
    core's change. *)
Record kbd_step k Q k' Q' : Prop := {
  ks_drives : drives k Q k' Q';
  ks_devs : devs (kheap k') = (devs (kheap k)) <| kbd := kb k' |> <| inputq := iq k' |>
}.

Lemma kbd_step_refl k Q : wq_inv k Q -> kbd_step k Q k Q.
Proof. intros I. split; [by apply drives_refl|]. unfold kb, iq. by destruct (devs (kheap k)). Qed.

Lemma kbd_step_trans k1 Q1 k2 Q2 k3 Q3 : kbd_step k1 Q1 k2 Q2 -> kbd_step k2 Q2 k3 Q3 -> kbd_step k1 Q1 k3 Q3.
Proof. intros [D1 E1] [D2 E2]. split; [by eapply drives_trans|]. rewrite E2, E1. done. Qed.

Lemma kbd_step_with_devs f k Q :
  wq_inv k Q -> f (devs (kheap k)) = (devs (kheap k)) <| kbd := kbd (f (devs (kheap k))) |> <| inputq := inputq (f (devs (kheap k))) |> ->
  kbd_step k Q (with_devs f k) Q.
Proof. intros I E. split; [by apply drives_with_devs|exact E]. Qed.

Lemma kbd_inv_wq k Q bs s n q : kbd_inv k Q bs s n q -> wq_inv k Q.
Proof. intros I. apply I. Qed.

Lemma kbd_inv_decoder k Q bs s n q s' f :
  kbd_inv k Q bs s n q ->
  (forall p, raw (f p) = raw p /\ ps_head (f p) = ps_head p /\ ps_tail (f p) = ps_tail p /\ ps_count (f p) = ps_count p) ->
  (ps_modifiers (f (kb k)) = de_modifiers s' /\ extended_pending (f (kb k)) = (if de_extended s' then 1 else 0) /\
   pause_bytes (f (kb k)) = de_pause s' /\ 0 <= de_pause s' < 256) ->
  kbd_inv (with_devs (fun d => d <| kbd ::= f |>) k) Q bs s' n q.
Proof.
  intros [Ii Ir Ib Id Ix Il] Hf Hs'. destruct (Hf (kb k)) as (E1 & E2 & E3 & E4). split; try done.
  - destruct Ii. split; try done. by apply wq_inv_with_devs.
  - change (ring_rep 32 (raw (f (kb k))) (ps_head (f (kb k))) (ps_tail (f (kb k))) (ps_count (f (kb k))) bs).
    by rewrite E1, E2, E3, E4.
Qed.

Lemma report_key_run k Q bs s n q r :
  kbd_inv k Q bs s n q ->
  exists k' Q' res, input_report_key addr_ps2_input_dev (re_key r) (if re_pressed r then 1 else 0) (re_modifiers r) k = Ret res k' /\
    kbd_step k Q k' Q' /\ kbd_inv k' Q' bs s n (accept q [to_event n (tick_count k) r]) /\ tick_count k' = tick_count k.
Proof.
  intros [Ii Ir Ib Id (x & Hx & Hreg & Hcap & Hid) Il].
  unfold input_report_key. rewrite (bool_decide_eq_false_2 (addr_ps2_input_dev = 0)) by apply dev_address.
  unfold input_dev_at. erewrite bind_deref by exact Hx. rewrite !bool_decide_eq_false_2 by done. cbn [orb].
  unfold timer_ticks. mred. rewrite Hid. destruct (in_queue _ _ _ Ii) as [l Hl]. simpl.
  destruct (decide (length q < 64)%nat) as [Hlt|Hge].
  - destruct (input_report_run k Q q (to_event n (tick_count k) r) l Ii Hl Hlt) as (k' & E & P & I').
    exists k', (<[addr_input_wait := List.tl l]> Q), 0. split; [exact E|].
    assert (Ed : devs (kheap k') = (devs (kheap k)) <| inputq ::= pushed (to_event n (tick_count k) r) |>)
      by by rewrite (po_heap _ _ _ _ _ _ P).
    split; [split; [by eapply drives_posted; [apply Ii| |]|unfold kb, iq; by rewrite Ed]|]. split; [|by rewrite (po_frame _ _ _ _ _ _ P)].
    split; [done|unfold kb; by rewrite Ed|done|unfold kb; by rewrite Ed|rewrite Ed; eauto|by rewrite (po_frame _ _ _ _ _ _ P)].
  - assert (H64 : length q = 64%nat) by (destruct (in_ring _ _ _ Ii) as (_ & _ & _ & Hc & Hle & _); lia).
    eexists _, Q, _. split; [exact (input_report_full k Q q _ l Ii Hl H64)|].
    split; [by apply kbd_step_with_devs; [apply Ii|]|]. split; [|done].
    destruct Ii. split; try done; [|by exists x]. split; try done. by apply wq_inv_with_devs.
Qed.

Lemma decode_run b k Q bs s n q :
  kbd_inv k Q bs s n q -> 0 <= b < 256 ->
  exists k' Q', ps2_decode b k = Ret tt k' /\ tick_count k' = tick_count k /\ kbd_step k Q k' Q' /\
    kbd_inv k' Q' bs (decode_byte b s).1 n (accept q (to_event n (tick_count k) <$> (decode_byte b s).2)).
Proof.
  intros I Hb. pose proof (ki_decoder _ _ _ _ _ _ I) as (Hm & Hx & Hp & Hpr). pose proof (kbd_inv_wq _ _ _ _ _ _ I) as Iw.
  destruct (scancode_bits b Hb) as [Ec Ep]. unfold ps2_decode, ps2, set_ps2. rewrite !bind_dev. fold (kb k). rewrite Hp, Hx.
  unfold decode_byte. destruct (decide (de_pause s <> 0)) as [Hp0|Hp0].
  { rewrite (bool_decide_eq_false_2 (de_pause s = 0)) by done. eexists _, Q. split; [reflexivity|]. split; [done|]. split; [by apply kbd_step_with_devs|].
    apply (kbd_inv_decoder k Q bs s n q); [done|done|]. simpl. unfold kb in *. rewrite Hp. unfold wrap8.
    rewrite Z.mod_small by lia. split_and!; [done|done|done|lia|lia]. }
  assert (Hz : de_pause s = 0) by (destruct (decide (de_pause s = 0)); tauto).
  rewrite (bool_decide_eq_true_2 (de_pause s = 0)) by done. cbn [negb].
  unfold PS2_SCANCODE_PAUSE, PS2_SCANCODE_EXTENDED. destruct (decide (b = 0xe1)) as [->|He1].
  { eexists _, Q. split; [reflexivity|]. split; [done|]. split; [by apply kbd_step_with_devs|]. apply (kbd_inv_decoder k Q bs s n q); [done|done|].
    simpl. split_and!; [done|done|done|lia|lia]. }
  rewrite (bool_decide_eq_false_2 (b = 0xe1)) by done. destruct (decide (b = 0xe0)) as [->|He0].
  { eexists _, Q. split; [reflexivity|]. split; [done|]. split; [by apply kbd_step_with_devs|]. apply (kbd_inv_decoder k Q bs s n q); [done|done|].
    simpl. split_and!; [done|done|unfold kb in *; by rewrite Hp|lia|lia]. }
  rewrite (bool_decide_eq_false_2 (b = 0xe0)) by done. rewrite bind_set_dev, Ec.
  set (key := ps2_keyboard_keycode_from_set1 (b mod 128) (if de_extended s then 1 else 0)).
  set (k1 := with_devs (fun d => d <| kbd ::= (fun p => p <| extended_pending := 0 |>) |>) k).
  assert (T1 : kbd_step k Q k1 Q) by by apply kbd_step_with_devs.
  assert (I1 : kbd_inv k1 Q bs (Decoder (de_modifiers s) false 0) n q).
  { apply (kbd_inv_decoder k Q bs s n q); [done|done|]. simpl. split_and!; [done|done|unfold kb in *; by rewrite Hp|lia|lia]. }
  unfold INPUT_KEY_RESERVED. destruct (decide (key = 0)) as [Hk|Hk].
  { rewrite (bool_decide_eq_true_2 (key = 0)) by done. by exists k1, Q. }
  rewrite (bool_decide_eq_false_2 (key = 0)) by done.
  set (pressed := bool_decide (b < 128)). assert (Epr : bool_decide (Z.land b PS2_SCANCODE_RELEASE = 0) = pressed)
    by by apply bool_decide_ext. rewrite Epr. unfold ps2_update_modifier, set_ps2. rewrite bind_set_dev, bind_dev.
  set (m := update_modifiers key pressed (de_modifiers s)).
  set (k2 := with_devs (fun d => d <| kbd ::= (fun p => p <| ps_modifiers ::= update_modifiers key pressed |>) |>) k1).
  assert (Em : ps_modifiers (kb k2) = m) by exact (f_equal (update_modifiers key pressed) Hm).
  assert (I2 : kbd_inv k2 Q bs (Decoder m false 0) n q).
  { apply (kbd_inv_decoder k1 Q bs _ n q _ (fun p => p <| ps_modifiers ::= update_modifiers key pressed |>) I1); [done|].
    destruct (ki_decoder _ _ _ _ _ _ I1) as (Hm1 & Hx1 & Hp1 & _).
    split_and!; [exact Em|exact Hx1|exact Hp1|done|done]. }
  fold (kb k2). rewrite Em. pose proof (keycode_range (b mod 128) (if de_extended s then 1 else 0)) as Hkr. fold key in Hkr.
  assert (Ew : wrap16 key = key) by (unfold wrap16; apply Z.mod_small; lia). rewrite Ew.
  destruct (report_key_run k2 Q bs _ n q (Report_ key pressed m) I2) as (k3 & Q3 & res & E3 & T3 & I3 & Ht3).
  exists k3, Q3. split; [by mrun E3|]. split; [done|]. split; [|exact I3].
  apply (kbd_step_trans k Q k1 Q); [done|]. apply (kbd_step_trans k1 Q k2 Q); [|done].
  apply kbd_step_with_devs; [by eapply kbd_inv_wq|done].
Qed.

(** ** The raw ring *)

Definition raw_popped (p : ps2_keyboard_t) : ps2_keyboard_t :=
  p <| ps_head := (ps_head p + 1) mod 32 |> <| ps_count := ps_count p - 1 |>.

Definition raw_pushed (b : Z) (p : ps2_keyboard_t) : ps2_keyboard_t :=
  p <| raw ::= <[Z.to_nat (ps_tail p) := b]> |> <| ps_tail := (ps_tail p + 1) mod 32 |> <| ps_count := ps_count p + 1 |>.

Lemma kbd_inv_ring k Q bs s n q bs' f :
  kbd_inv k Q bs s n q ->
  (forall p, ps_modifiers (f p) = ps_modifiers p /\ extended_pending (f p) = extended_pending p /\ pause_bytes (f p) = pause_bytes p) ->
  ring_rep 32 (raw (f (kb k))) (ps_head (f (kb k))) (ps_tail (f (kb k))) (ps_count (f (kb k))) bs' ->
  Forall (fun b => 0 <= b < 256) bs' ->
  kbd_inv (with_devs (fun d => d <| kbd ::= f |>) k) Q bs' s n q.
Proof.
  intros [Ii Ir Ib Id Ix Il] Hf Hr Hb. destruct (Hf (kb k)) as (E1 & E2 & E3). split; try done.
  - destruct Ii. split; try done. by apply wq_inv_with_devs.
  - change (ps_modifiers (f (kb k)) = de_modifiers s /\ extended_pending (f (kb k)) = (if de_extended s then 1 else 0) /\
      pause_bytes (f (kb k)) = de_pause s /\ 0 <= de_pause s < 256). by rewrite E1, E2, E3.
Qed.

Lemma raw_pop_run k Q b bs s n q :
  kbd_inv k Q (b :: bs) s n q ->
  exists k', ps2_raw_pop k = Ret (Some b) k' /\ tick_count k' = tick_count k /\ kbd_step k Q k' Q /\ kbd_inv k' Q bs s n q.
Proof.
  intros I. pose proof (ki_ring _ _ _ _ _ _ I) as Ir. destruct (ring_rep_pop _ _ _ _ _ _ _ Ir) as [Hh Hr].
  pose proof Ir as (_ & Hhd & _ & Hc & Hcap & _). simpl length in Hc.
  destruct (wi_unlocked _ _ (in_wq _ _ _ (ki_input _ _ _ _ _ _ I))) as [Hd _].
  exists (with_devs (fun d => d <| kbd ::= raw_popped |>) k).
  split_and!; [|done|by apply kbd_step_with_devs; [by eapply kbd_inv_wq|]|].
  - unfold ps2_raw_pop, ps2, set_ps2. mrun (spin_lock_run k ps2_lock (ki_lock _ _ _ _ _ _ I)). rewrite bind_dev.
    change (kbd (devs (kheap (enter ps2_lock k)))) with (kb k). rewrite (bool_decide_eq_false_2 (ps_count (kb k) = 0)) by lia.
    rewrite bind_dev. unfold slot. erewrite bind_deref by exact Hh. dstep.
    match goal with |- context [with_devs ?f (enter _ _)] => set (f0 := f) end.
    rewrite (with_devs_ext f0 (fun d => d <| kbd ::= raw_popped |>)).
    { erewrite bind_run by (apply unlock_with_devs; [apply (ki_lock _ _ _ _ _ _ I)|exact Hd]). done. }
    unfold f0, raw_popped, wrap32, PS2_RAW_QUEUE_CAPACITY. simpl. fold (kb k).
    by rewrite (Z.mod_small (ps_head (kb k) + 1)), (Z.mod_small (ps_count (kb k) - 1)) by lia.
  - apply (kbd_inv_ring k Q (b :: bs)); [done|done|exact Hr|].
    pose proof (ki_bytes _ _ _ _ _ _ I) as Hb. by apply Forall_cons in Hb as [_ Hb].
Qed.

Lemma raw_pop_empty k Q s n q : kbd_inv k Q [] s n q -> ps2_raw_pop k = Ret None k.
Proof.
  intros I. pose proof (ki_ring _ _ _ _ _ _ I) as Ir. apply ring_rep_nil_count in Ir as [_ Hz].
  destruct (wi_unlocked _ _ (in_wq _ _ _ (ki_input _ _ _ _ _ _ I))) as [Hd _].
  unfold ps2_raw_pop, ps2. mrun (spin_lock_run k ps2_lock (ki_lock _ _ _ _ _ _ I)). rewrite bind_dev.
  change (kbd (devs (kheap (enter ps2_lock k)))) with (kb k). rewrite (bool_decide_eq_true_2 (ps_count (kb k) = 0)) by auto.
  by erewrite bind_run by (apply unlock_entered; [apply (ki_lock _ _ _ _ _ _ I)|exact Hd]).
Qed.

Lemma work_loop_run bs : forall fuel k Q s n q,
  kbd_inv k Q bs s n q -> (length bs < fuel)%nat ->
  exists k' Q', loop fuel work_round tt k = Ret tt k' /\ tick_count k' = tick_count k /\ kbd_step k Q k' Q' /\
    kbd_inv k' Q' [] (decode_bytes bs s).1 n (accept q (to_event n (tick_count k) <$> (decode_bytes bs s).2)).
Proof.
  induction bs as [|b bs IH]; intros fuel k Q s n q I Hf; (destruct fuel as [|fuel]; [simpl in Hf; lia|]); rewrite loop_S.
  - exists k, Q. split; [|split_and!; [done|by eapply kbd_step_refl, kbd_inv_wq|done]]. unfold work_round. rewrite bind_assoc. by mrun (raw_pop_empty k Q s n q I).
  - destruct (raw_pop_run k Q b bs s n q I) as (k1 & E1 & T1 & S1 & I1).
    assert (Hb : 0 <= b < 256) by (pose proof (ki_bytes _ _ _ _ _ _ I) as Hb; by apply Forall_cons in Hb as [? _]).
    destruct (decode_run b k1 Q bs s n q I1 Hb) as (k2 & Q2 & E2 & T2 & S2 & I2).
    assert (Estep : work_round tt k = Ret (inl tt) k2) by (unfold work_round; mrun E1; by mrun E2).
    mrun Estep. destruct (IH fuel k2 Q2 _ n _ I2) as (k3 & Q3 & E3 & T3 & S3 & I3); [simpl in Hf; lia|].
    exists k3, Q3. split; [done|]. split; [congruence|].
    split; [by apply (kbd_step_trans k Q k1 Q), (kbd_step_trans k1 Q k2 Q2)|]. simpl. destruct (decode_byte b s) as [s1 r1]. simpl in *.
    destruct (decode_bytes bs s1) as [s2 r2]. simpl in *. rewrite fmap_app, accept_app. by rewrite T2, T1 in I3.
Qed.

(** [ps2_keyboard_work] decodes everything the interrupt queued: it returns with
    the raw ring empty, and the events the decoder makes of the bytes are in the input
    queue, in order and stamped with the tick, as far as the queue has room. *)
Theorem ps2_work_decodes k Q bs s n q batch :
  kbd_inv k Q bs s n q -> (length bs < batch)%nat ->
  exists k' Q', ps2_keyboard_work batch k = Ret tt k' /\
    kbd_inv k' Q' [] (decode_bytes bs s).1 n (accept q (to_event n (tick_count k) <$> (decode_bytes bs s).2)) /\
    ((length q + length (decode_bytes bs s).2 <= 64)%nat ->
     accept q (to_event n (tick_count k) <$> (decode_bytes bs s).2) = q ++ (to_event n (tick_count k) <$> (decode_bytes bs s).2)).
Proof.
  intros I Hb. destruct (work_loop_run bs batch k Q s n q I Hb) as (k' & Q' & E & _ & _ & I').
  exists k', Q'. split_and!; [done|done|]. intros Hroom. apply accept_room. by rewrite length_fmap.
Qed.
End theory.

(** ** What a keyboard sends *)

(** A key of scancode set 1: its code, and whether it is among the extended ones. *)
Record key_move := KeyMove { mv_code : Z; mv_extended : bool; mv_down : bool }.

(** The bytes of one key movement: 0xe0 first for an extended key, and bit 7 set when
    the key goes up. *)
Definition wire (m : key_move) : list Z :=
  (if mv_extended m then [0xe0] else []) ++ [mv_code m + if mv_down m then 0 else 128].

(** The Pause key sends six bytes and nothing on release. *)
Definition pause_wire : list Z := [0xe1; 0x1d; 0x45; 0xe1; 0x9d; 0xc5].

Definition key_of (m : key_move) : Z := ps2_keyboard_keycode_from_set1 (mv_code m) (if mv_extended m then 1 else 0).

(** The keys that are held down, and the locks. *)
Record hands := Hands { held : gset Z; caps : bool; num : bool; scroll : bool }.

Definition move (h : hands) (m : key_move) : hands :=
  let key := key_of m in
  Hands (if mv_down m then {[key]} ∪ held h else held h ∖ {[key]})
    (xorb (caps h) (mv_down m && bool_decide (key = INPUT_KEY_CAPSLOCK)))
    (xorb (num h) (mv_down m && bool_decide (key = INPUT_KEY_NUMLOCK)))
    (xorb (scroll h) (mv_down m && bool_decide (key = INPUT_KEY_SCROLLLOCK))).

(** input.h: Shift, Ctrl or Alt is active while either of its keys is held; a press of a
    lock key flips its lock. *)
Definition either (a b : Z) (s : gset Z) : bool := bool_decide (a ∈ s \/ b ∈ s).
Definition bits (sh ct al ca nu sc : bool) : Z :=
  Z.b2z sh + 2 * Z.b2z ct + 4 * Z.b2z al + 8 * Z.b2z ca + 16 * Z.b2z nu + 32 * Z.b2z sc.
Definition modifier_bits (h : hands) : Z :=
  bits (either INPUT_KEY_LEFTSHIFT INPUT_KEY_RIGHTSHIFT (held h)) (either INPUT_KEY_LEFTCTRL INPUT_KEY_RIGHTCTRL (held h))
    (either INPUT_KEY_LEFTALT INPUT_KEY_RIGHTALT (held h)) (caps h) (num h) (scroll h).

(** Never both keys of one modifier. *)
Definition one_of (a b : Z) (s : gset Z) : Prop := ~ (a ∈ s /\ b ∈ s).
Definition one_each (h : hands) : Prop :=
  one_of INPUT_KEY_LEFTSHIFT INPUT_KEY_RIGHTSHIFT (held h) /\ one_of INPUT_KEY_LEFTCTRL INPUT_KEY_RIGHTCTRL (held h) /\
  one_of INPUT_KEY_LEFTALT INPUT_KEY_RIGHTALT (held h).

(** Movements of these hands: only a key that is held goes up, and it is not one of two
    keys of the same modifier held together. *)
Fixpoint movable (ms : list key_move) (h : hands) : Prop :=
  match ms with
  | [] => True
  | m :: ms => (mv_down m = false -> key_of m ∈ held h /\ one_each h) /\ movable ms (move h m)
  end.

(** The reports of a sequence of movements: each with the modifiers after it. *)
Fixpoint reports (ms : list key_move) (h : hands) : list report :=
  match ms with
  | [] => []
  | m :: ms => Report_ (key_of m) (mv_down m) (modifier_bits (move h m)) :: reports ms (move h m)
  end.

Definition hands_after (ms : list key_move) (h : hands) : hands := foldl move h ms.

(** The code's bit operations follow the hands. *)
Lemma either_in a b k s : k = a \/ k = b -> either a b ({[k]} ∪ s) = true.
Proof. intros Hk. apply bool_decide_eq_true_2. set_solver. Qed.

Lemma either_other a b k s : k <> a -> k <> b -> either a b ({[k]} ∪ s) = either a b s.
Proof. intros Ha Hb. apply bool_decide_ext. set_solver. Qed.

Lemma either_out a b k s : k = a \/ k = b -> k ∈ s -> one_of a b s -> either a b (s ∖ {[k]}) = false.
Proof. intros Hk Hin Ho. apply bool_decide_eq_false_2. unfold one_of in Ho. set_solver. Qed.

Lemma either_out_other a b k s : k <> a -> k <> b -> either a b (s ∖ {[k]}) = either a b s.
Proof. intros Ha Hb. apply bool_decide_ext. set_solver. Qed.

Ltac unfold_keys :=
  unfold INPUT_KEY_LEFTSHIFT, INPUT_KEY_RIGHTSHIFT, INPUT_KEY_LEFTCTRL, INPUT_KEY_RIGHTCTRL, INPUT_KEY_LEFTALT, INPUT_KEY_RIGHTALT,
    INPUT_KEY_CAPSLOCK, INPUT_KEY_NUMLOCK, INPUT_KEY_SCROLLLOCK in *.

Definition modifier_codes : list Z := [42; 54; 29; 97; 56; 100; 58; 69; 70].

Lemma update_other key pressed m : key ∉ modifier_codes -> update_modifiers key pressed m = m.
Proof.
  unfold modifier_codes. rewrite !not_elem_of_cons. intros (? & ? & ? & ? & ? & ? & ? & ? & ? & _).
  unfold update_modifiers. unfold_keys. rewrite !(bool_decide_eq_false_2 (key = _)) by done. cbn [orb].
  rewrite !andb_false_r. by destruct (bool_decide_reflect (0 = 0)).
Qed.

Lemma move_other h m : key_of m ∉ modifier_codes -> modifier_bits (move h m) = modifier_bits h.
Proof.
  unfold modifier_codes. rewrite !not_elem_of_cons. intros (? & ? & ? & ? & ? & ? & ? & ? & ? & _).
  unfold modifier_bits, move. unfold_keys. cbn [held caps num scroll].
  rewrite !(bool_decide_eq_false_2 (key_of m = _)), !andb_false_r, !xorb_false_r by done.
  destruct (mv_down m); [by rewrite !either_other|by rewrite !either_out_other].
Qed.

Lemma bits_update key (pressed : bool) sh ct al ca nu sc :
  key ∈ modifier_codes ->
  update_modifiers key pressed (bits sh ct al ca nu sc) =
  bits (if decide (key = 42 \/ key = 54) then pressed else sh) (if decide (key = 29 \/ key = 97) then pressed else ct)
    (if decide (key = 56 \/ key = 100) then pressed else al) (xorb ca (pressed && bool_decide (key = 58)))
    (xorb nu (pressed && bool_decide (key = 69))) (xorb sc (pressed && bool_decide (key = 70))).
Proof.
  intros Hk. unfold modifier_codes in Hk.
  repeat (apply elem_of_cons in Hk as [->|Hk]; [by destruct pressed, sh, ct, al, ca, nu, sc|]).
  by apply not_elem_of_nil in Hk.
Qed.

Lemma either_move (a b key : Z) (down : bool) s :
  (down = false -> key ∈ s /\ one_of a b s) ->
  either a b (if down then {[key]} ∪ s else s ∖ {[key]}) = if decide (key = a \/ key = b) then down else either a b s.
Proof.
  intros Hup. destruct (decide (key = a \/ key = b)) as [Hk|Hk], down.
  - by apply either_in.
  - destruct (Hup eq_refl). by apply either_out.
  - apply either_other; tauto.
  - apply either_out_other; tauto.
Qed.

Lemma update_modifiers_move h m :
  (mv_down m = false -> key_of m ∈ held h /\ one_each h) ->
  update_modifiers (key_of m) (mv_down m) (modifier_bits h) = modifier_bits (move h m).
Proof.
  intros Hup. destruct (decide (key_of m ∈ modifier_codes)) as [Hin|Hnin]; [|by rewrite update_other, move_other].
  unfold modifier_bits at 1. rewrite bits_update by done. unfold modifier_bits, move. cbn [held caps num scroll].
  by rewrite !either_move by (intros E; destruct (Hup E) as (? & ? & ? & ?); done).
Qed.

(** A key the tables know. *)
Definition known (m : key_move) : Prop := 0 <= mv_code m < 128 /\ key_of m <> 0.

Lemma unknown_codes : Forall (fun c => ps2_keyboard_keycode_from_set1 c 0 = 0 /\ ps2_keyboard_keycode_from_set1 c 1 = 0) [0x60; 0x61].
Proof. apply (bool_decide_unpack _). vm_compute. exact Logic.I. Qed.

(** The codes whose release would look like a prefix are not in the tables. *)
Lemma known_code m : known m -> mv_code m <> 0x60 /\ mv_code m <> 0x61.
Proof.
  intros [_ Hk]. pose proof unknown_codes as Hu. rewrite Forall_forall in Hu. unfold key_of in Hk.
  split; intros E; rewrite E in Hk.
  - destruct (Hu 0x60) as [E0 E1]; [left|]. by destruct (mv_extended m).
  - destruct (Hu 0x61) as [E0 E1]; [right; left|]. by destruct (mv_extended m).
Qed.

Lemma decode_bytes_app bs bs' s :
  decode_bytes (bs ++ bs') s =
  ((decode_bytes bs' (decode_bytes bs s).1).1, (decode_bytes bs s).2 ++ (decode_bytes bs' (decode_bytes bs s).1).2).
Proof.
  revert s. induction bs as [|b bs IH]; intros s; simpl; [by destruct (decode_bytes bs' s)|].
  destruct (decode_byte b s) as [s1 r1]. rewrite IH. destruct (decode_bytes bs s1) as [s2 r2]. simpl.
  by rewrite app_assoc.
Qed.

Lemma decode_wire m modifiers :
  known m ->
  decode_bytes (wire m) (Decoder modifiers false 0) =
  (Decoder (update_modifiers (key_of m) (mv_down m) modifiers) false 0,
   [Report_ (key_of m) (mv_down m) (update_modifiers (key_of m) (mv_down m) modifiers)]).
Proof.
  intros Hk. pose proof (known_code m Hk) as [H60 H61]. destruct Hk as [Hc Hk].
  assert (Hlast : forall x, x = mv_extended m ->
    decode_byte (mv_code m + if mv_down m then 0 else 128) (Decoder modifiers x 0) =
    (Decoder (update_modifiers (key_of m) (mv_down m) modifiers) false 0,
     [Report_ (key_of m) (mv_down m) (update_modifiers (key_of m) (mv_down m) modifiers)])).
  { intros x ->. unfold decode_byte. cbn [de_pause de_modifiers de_extended].
    rewrite decide_False by tauto. rewrite !decide_False by (destruct (mv_down m); lia).
    assert (Em : (mv_code m + if mv_down m then 0 else 128) mod 128 = mv_code m) by (destruct (mv_down m); div_lia).
    rewrite Em. fold (key_of m). rewrite decide_False by done.
    assert (Ed : bool_decide (mv_code m + (if mv_down m then 0 else 128) < 128) = mv_down m).
    { destruct (mv_down m); [apply bool_decide_eq_true_2; lia|apply bool_decide_eq_false_2; lia]. }
    by rewrite Ed. }
  unfold wire. destruct (mv_extended m) eqn:Ex; cbn [app decode_bytes].
  - assert (E0 : decode_byte 0xe0 (Decoder modifiers false 0) = (Decoder modifiers true 0, [])) by done.
    rewrite E0, (Hlast true) by done. done.
  - rewrite (Hlast false) by done. done.
Qed.

Lemma decode_moves ms : forall h,
  Forall known ms -> movable ms h ->
  decode_bytes (ms ≫= wire) (Decoder (modifier_bits h) false 0) =
  (Decoder (modifier_bits (hands_after ms h)) false 0, reports ms h).
Proof.
  induction ms as [|m ms IH]; intros h Hk Hm; [done|]. apply Forall_cons in Hk as [Hkm Hk]. destruct Hm as [Hup Hm].
  rewrite bind_cons, decode_bytes_app, decode_wire by done. cbn [fst snd].
  rewrite update_modifiers_move, IH by done. done.
Qed.

Lemma wire_bytes ms : Forall known ms -> Forall (fun b => 0 <= b < 256) (ms ≫= wire).
Proof.
  intros Hk. induction Hk as [|m ms [Hc _] Hk IH]; [done|]. rewrite bind_cons. apply Forall_app. split; [|done].
  unfold wire. apply Forall_app. split; [by destruct (mv_extended m); [apply Forall_singleton; lia|]|].
  apply Forall_singleton. destruct (mv_down m); lia.
Qed.

Section inverse.
Context {H : Type} `{KAlloc H} `{Statics}.
Implicit Types (k : kernel (memory H)) (Q : gmap Z (list Z)) (bs : list Z) (q : list input_event) (h : hands).

Lemma decode_all l : forall k Q bs s n q,
  kbd_inv k Q bs s n q -> Forall (fun b => 0 <= b < 256) l ->
  exists k' Q', for_each l ps2_decode k = Ret tt k' /\ tick_count k' = tick_count k /\
    kbd_inv k' Q' bs (decode_bytes l s).1 n (accept q (to_event n (tick_count k) <$> (decode_bytes l s).2)).
Proof.
  induction l as [|b l IH]; intros k Q bs s n q I Hb; cbn [for_each]; [by exists k, Q|].
  apply Forall_cons in Hb as [Hb Hl]. destruct (decode_run b k Q bs s n q I Hb) as (k1 & Q1 & E1 & T1 & _ & I1).
  destruct (IH k1 Q1 bs _ n _ I1 Hl) as (k2 & Q2 & E2 & T2 & I2). exists k2, Q2. split; [by mrun E1|]. split; [congruence|].
  simpl. destruct (decode_byte b s) as [s1 r1]. simpl in *. destruct (decode_bytes l s1) as [s2 r2]. simpl in *.
  rewrite fmap_app, accept_app. by rewrite T1 in I2.
Qed.

(** C38.  [ps2_decode] inverts what the keyboard sends.  For any movements of keys the
    tables know, in which only held keys go up and no key goes up while both keys of one
    modifier are held, decoding the bytes in turn puts exactly one event per movement into
    the input queue, in order, as far as it has room: with the key, whether it went down,
    the tick, and the modifiers of input.h, where Shift, Ctrl and Alt are active while one
    of their keys is held and a lock key flips its lock.  A Pause sequence gives nothing.
    With both keys of a modifier held the code departs from input.h:
    [shift_lost_while_held]. *)
Theorem decode_inverts_wire ms k Q bs h n q :
  kbd_inv k Q bs (Decoder (modifier_bits h) false 0) n q -> Forall known ms -> movable ms h ->
  (exists k' Q', for_each (ms ≫= wire) ps2_decode k = Ret tt k' /\
     kbd_inv k' Q' bs (Decoder (modifier_bits (hands_after ms h)) false 0) n
       (accept q (to_event n (tick_count k) <$> reports ms h))) /\
  exists k' Q', for_each pause_wire ps2_decode k = Ret tt k' /\ kbd_inv k' Q' bs (Decoder (modifier_bits h) false 0) n q.
Proof.
  intros I Hk Hm. split.
  - destruct (decode_all _ k Q bs _ n q I (wire_bytes ms Hk)) as (k' & Q' & E & _ & I').
    exists k', Q'. split; [done|]. by rewrite decode_moves in I'.
  - destruct (decode_all pause_wire k Q bs _ n q I) as (k' & Q' & E & _ & I'); [|by exists k', Q'].
    apply (bool_decide_unpack _). vm_compute. exact Logic.I.
Qed.
End inverse.

(** Both Shift keys down and one of them up again: the code takes Shift for off, though
    a Shift key is still held. *)
Definition two_shifts : list key_move := [KeyMove 0x2a false true; KeyMove 0x36 false true; KeyMove 0x2a false false].
Lemma shift_lost_while_held :
  (decode_bytes (two_shifts ≫= wire) (Decoder 0 false 0)).1 = Decoder 0 false 0 /\
  modifier_bits (hands_after two_shifts (Hands ∅ false false false)) = INPUT_MODIFIER_SHIFT.
Proof. split; vm_compute; reflexivity. Qed.
