(* ===== verification/Traps.v ===== *)
(** * arch/x86/kernel/traps.c and trap_policy.c: trap dispatch

    Every exception and interrupt enters [trap_dispatch] with a frame; what it prints before
    it stops the kernel is here too, with arch/x86/mm/fault.c.  [others] is what runs until
    the interrupted thread is switched to again. *)

From S2P Require Import Prelude LinkedList Ring PhysMem Switch KState Sched SchedCore SchedReap SchedYield SchedThread WaitQueue Devices DevWait Input Workqueue Printk Keymap LogLines TrapVectors Irq Ps2.

Definition X86_SELECTOR_RPL_MASK : Z := 0x03.
Definition X86_RING3_RPL : Z := 0x03.
Definition USER_DATA_SELECTOR : Z := 0x23.

Inductive trap_origin_t := X86_TRAP_FROM_KERNEL | X86_TRAP_FROM_USER.
Inductive trap_exit_reason := X86_TRAP_EXIT_IRQ | X86_TRAP_EXIT_SYSCALL | X86_TRAP_EXIT_USER_EXCEPTION.

(** The fields of [struct trap_frame] the dispatcher looks at, the frame's address, and what
    the CPU had put into CR2 when it built the frame. *)
Record trap_frame := TrapFrame {
  tf_vector : Z;
  tf_error_code : Z;
  tf_rip : Z;
  tf_cs : Z;
  tf_rflags : Z;
  tf_rsp : Z;
  tf_ss : Z;
  tf_address : Z;
  tf_cr2 : Z
}.

Definition x86_trap_origin_from_cs (cs : Z) : trap_origin_t :=
  if bool_decide (Z.land cs X86_SELECTOR_RPL_MASK = X86_RING3_RPL) then X86_TRAP_FROM_USER else X86_TRAP_FROM_KERNEL.

Definition trap_origin (frame : trap_frame) : trap_origin_t := x86_trap_origin_from_cs (tf_cs frame).

Definition x86_trap_origin_name (origin : trap_origin_t) : list Z :=
  match origin with X86_TRAP_FROM_USER => str "user" | X86_TRAP_FROM_KERNEL => str "kernel" end.

(** [rflags] is at offset 152 of the frame. *)
Definition interrupted_rsp (frame : trap_frame) (origin : trap_origin_t) : Z :=
  match origin with
  | X86_TRAP_FROM_USER => tf_rsp frame
  | X86_TRAP_FROM_KERNEL => wrap64 (tf_address frame + 152 + 8)
  end.

Definition PF_PRESENT : Z := Z.shiftl 1 0.
Definition PF_WRITE : Z := Z.shiftl 1 1.
Definition PF_USER : Z := Z.shiftl 1 2.
Definition PF_RESERVED : Z := Z.shiftl 1 3.
Definition PF_INSTRUCTION_FETCH : Z := Z.shiftl 1 4.

(** The row of the vector table, for an exception vector. *)
Definition exception_desc (vector : Z) : option exception_vector :=
  match x86_vector_class vector with
  | X86_VECTOR_EXCEPTION => find (fun r => bool_decide (xv_vector r = vector)) X86_EXCEPTION_VECTORS
  | _ => None
  end.

Section traps.
Context {H : Type} `{KAlloc H} `{Statics}.
Abbreviation K := (M (kernel (memory H))).

(** The handlers [irq_register] was called with. *)
Definition run_irq (f : irq_handler) (irq data : Z) : K unit :=
  match f with
  | TIMER_IRQ_HANDLER => timer_irq_handler
  | PS2_KEYBOARD_IRQ_HANDLER => ps2_keyboard_irq
  end.

Definition x86_trap_exit (others : K unit) (frame : trap_frame) (origin : trap_origin_t) (reason : trap_exit_reason) : K unit :=
  match reason with
  | X86_TRAP_EXIT_IRQ => sched_irq_exit others
  | X86_TRAP_EXIT_SYSCALL | X86_TRAP_EXIT_USER_EXCEPTION => mret tt
  end.

Definition x86_unhandled_user_exception {A} (others : K unit) (frame : trap_frame) (origin : trap_origin_t) (name : option string) : K A :=
  x86_trap_exit others frame origin X86_TRAP_EXIT_USER_EXCEPTION ;;
  pr_err (str "user exception: %s" ++ [10]) [VaStr (Some (match name with Some name => str name | None => str "unknown" end))] ;;
  pr_err (str "user exception policy is not implemented" ++ [10]) [] ;;
  panic "unhandled user CPU exception".

Definition x86_unhandled_kernel_exception {A} : K A := panic "unhandled CPU exception".

(** ** arch/x86/mm/fault.c *)

Definition log_fault_access (error_code : Z) : K unit :=
  pr_err (str "access=") [] ;;
  (if negb (bool_decide (Z.land error_code PF_INSTRUCTION_FETCH = 0)) then pr_err (str "execute") []
   else if negb (bool_decide (Z.land error_code PF_WRITE = 0)) then pr_err (str "write") []
   else pr_err (str "read") []) ;;
  pr_err (str " mode=%s") [VaStr (Some (if negb (bool_decide (Z.land error_code PF_USER = 0)) then str "user" else str "kernel"))] ;;
  pr_err (str " reason=%s")
    [VaStr (Some (if negb (bool_decide (Z.land error_code PF_PRESENT = 0)) then str "protection" else str "not-present"))] ;;
  (if negb (bool_decide (Z.land error_code PF_RESERVED = 0)) then pr_err (str " reserved-bit") [] else mret tt) ;;
  pr_err [10] [].

Definition handle_page_fault (frame : trap_frame) : K unit :=
  pr_err (str "page fault: address=0x%016llx error=0x%016llx" ++ [10]) [VaInt (tf_cr2 frame); VaInt (tf_error_code frame)] ;;
  log_fault_access (tf_error_code frame).

(** ** traps.c

    The handlers of the table; each returns non-zero when the exception was handled. *)
Definition default_exception : K Z := mret 0.

Definition double_fault : K Z :=
  pr_emerg (str "double fault: fatal exception" ++ [10]) [] ;;
  pr_emerg (str "double fault: ist=%u" ++ [10]) [VaInt X86_IST_DOUBLE_FAULT] ;;
  panic "double fault".

Definition general_protection (others : K unit) (frame : trap_frame) (origin : trap_origin_t) (desc : exception_vector) : K Z :=
  match origin with
  | X86_TRAP_FROM_USER => x86_unhandled_user_exception others frame origin (Some (xv_name desc))
  | X86_TRAP_FROM_KERNEL => mret tt
  end ;;
  pr_emerg (str "general protection: fatal exception" ++ [10]) [] ;;
  pr_emerg (str "general protection: error=0x%016llx" ++ [10]) [VaInt (tf_error_code frame)] ;;
  panic "general protection fault".

Definition invalid_opcode (others : K unit) (frame : trap_frame) (origin : trap_origin_t) (desc : exception_vector) : K Z :=
  match origin with
  | X86_TRAP_FROM_USER => x86_unhandled_user_exception others frame origin (Some (xv_name desc))
  | X86_TRAP_FROM_KERNEL => mret tt
  end ;;
  pr_emerg (str "invalid opcode: fatal exception" ++ [10]) [] ;;
  panic "invalid opcode".

Definition page_fault (frame : trap_frame) : K Z := handle_page_fault frame ;; mret 0.

(** [desc->handler(frame, origin, desc)] *)
Definition run_exception_handler (others : K unit) (frame : trap_frame) (origin : trap_origin_t) (desc : exception_vector) : K Z :=
  match xv_handler desc with
  | x86_handle_default_exception => default_exception
  | x86_handle_double_fault => double_fault
  | x86_handle_general_protection => general_protection others frame origin desc
  | x86_handle_invalid_opcode => invalid_opcode others frame origin desc
  | x86_handle_page_fault => page_fault frame
  end.

Definition print_exception_frame (frame : trap_frame) (desc : option exception_vector) : K unit :=
  let name := match desc with Some desc => str (xv_name desc) | None => str "unknown exception" end in
  let origin := trap_origin frame in
  pr_err (str "exception: %s" ++ [10]) [VaStr (Some name)] ;;
  pr_err (str "vector=%llu error=0x%016llx" ++ [10]) [VaInt (tf_vector frame); VaInt (tf_error_code frame)] ;;
  pr_err (str "rip=0x%016llx rsp=0x%016llx rflags=0x%016llx" ++ [10])
    [VaInt (tf_rip frame); VaInt (interrupted_rsp frame origin); VaInt (tf_rflags frame)] ;;
  pr_err (str "mode=%s") [VaStr (Some (x86_trap_origin_name origin))] ;;
  match origin with
  | X86_TRAP_FROM_USER => pr_err (str " ss=0x%016llx") [VaInt (tf_ss frame)]
  | X86_TRAP_FROM_KERNEL => mret tt
  end ;;
  pr_err [10] [].

Definition trap_dispatch (others : K unit) (frame : trap_frame) : K unit :=
  match x86_vector_class (tf_vector frame) with
  | X86_VECTOR_LEGACY_IRQ =>
      sched_irq_enter ;;
      handle_irq run_irq (tf_vector frame) ;;
      x86_trap_exit others frame (trap_origin frame) X86_TRAP_EXIT_IRQ
  | X86_VECTOR_SYSCALL =>
      pr_err (str "unexpected syscall vector=%llu" ++ [10]) [VaInt (tf_vector frame)] ;;
      x86_trap_exit others frame (trap_origin frame) X86_TRAP_EXIT_SYSCALL ;;
      panic "unhandled syscall vector"
  | X86_VECTOR_EXTERNAL_IRQ | X86_VECTOR_SYSTEM | X86_VECTOR_RESERVED =>
      pr_err (str "unexpected vector=%llu" ++ [10]) [VaInt (tf_vector frame)] ;;
      panic "unhandled CPU vector"
  | X86_VECTOR_EXCEPTION =>
      let desc := exception_desc (tf_vector frame) in
      let origin := trap_origin frame in
      print_exception_frame frame desc ;;
      handled ← match desc with
                | Some desc => run_exception_handler others frame origin desc
                | None => mret 0
                end;
      if negb (bool_decide (handled = 0)) then mret tt
      else
        match origin with
        | X86_TRAP_FROM_USER => x86_unhandled_user_exception others frame origin (xv_name <$> desc)
        | X86_TRAP_FROM_KERNEL => mret tt
        end ;;
        x86_unhandled_kernel_exception
  end.

(** The frames the boot-time checks build: [rip] is the address of the caller, [addr] that of
    its static frame, and CR2 has whatever it has. *)
Definition arch_test_double_fault (others : K unit) (rip addr cr2 : Z) : K unit :=
  trap_dispatch others (TrapFrame 8 0 rip KERNEL_CODE_SELECTOR (Z.shiftl 1 9) 0 0 addr cr2).

Definition arch_test_general_protection (others : K unit) (rip addr cr2 : Z) : K unit :=
  trap_dispatch others (TrapFrame 13 0 rip KERNEL_CODE_SELECTOR (Z.shiftl 1 9) 0 0 addr cr2).

Definition arch_test_user_invalid_opcode (others : K unit) (rip addr cr2 : Z) : K unit :=
  trap_dispatch others
    (TrapFrame 6 0 rip (Z.lor KERNEL_CODE_SELECTOR X86_RING3_RPL) (Z.shiftl 1 9) 0x400000 USER_DATA_SELECTOR addr cr2).
End traps.

(** ** Vectors *)

Lemma vector_class_spec v :
  0 <= v ->
  x86_vector_class v =
    if decide (v < 32) then X86_VECTOR_EXCEPTION
    else if decide (v < 48) then X86_VECTOR_LEGACY_IRQ
    else if decide (v = 0x80) then X86_VECTOR_SYSCALL
    else if decide (v < 0xec) then X86_VECTOR_EXTERNAL_IRQ
    else if decide (v < 256) then X86_VECTOR_SYSTEM
    else X86_VECTOR_RESERVED.
Proof.
  intros Hv. unfold x86_vector_class, x86_vector_in_range.
  change (wrap64 (X86_EXCEPTION_VECTOR_BASE + X86_EXCEPTION_VECTOR_COUNT)) with 32.
  change (wrap64 (X86_LEGACY_IRQ_VECTOR_BASE + X86_LEGACY_IRQ_VECTOR_COUNT)) with 48.
  unfold X86_EXCEPTION_VECTOR_BASE, X86_LEGACY_IRQ_VECTOR_BASE, X86_FIRST_EXTERNAL_VECTOR, X86_LEGACY_SYSCALL_VECTOR,
    X86_FIRST_SYSTEM_VECTOR, X86_VECTOR_COUNT.
  destruct (decide (v < 32)); [|destruct (decide (v < 48)); [|destruct (decide (v = 0x80));
    [|destruct (decide (v < 0xec)); [|destruct (decide (v < 256))]]]];
    repeat match goal with
    | |- context [bool_decide ?P] =>
        first [rewrite (bool_decide_eq_true_2 P) by lia | rewrite (bool_decide_eq_false_2 P) by lia]
    end; done.
Qed.

(** Every exception vector has its row. *)
Lemma exception_desc_some v : 0 <= v < 32 ->
  exists r, exception_desc v = Some r /\ xv_vector r = v /\
    xv_handler r = if decide (v = 6) then x86_handle_invalid_opcode else if decide (v = 8) then x86_handle_double_fault
      else if decide (v = 13) then x86_handle_general_protection else if decide (v = 14) then x86_handle_page_fault
      else x86_handle_default_exception.
Proof.
  intros Hv. unfold exception_desc. rewrite vector_class_spec, decide_True by lia.
  assert (Hin : v ∈ seqZ 0 32) by (apply elem_of_seqZ; lia). clear Hv. revert v Hin. apply Forall_forall.
  cbn [seqZ seq fmap list_fmap]. repeat constructor; eexists; (split; [reflexivity|]); done.
Qed.

Section theory.
Context {H : Type} `{KAllocSpec H} `{Statics}.
Implicit Types (k : kernel (memory H)).

(** ** Exceptions *)

(** The last message of a trap that is not an interrupt. *)
Definition fatal_message (frame : trap_frame) : string :=
  let v := tf_vector frame in
  let user := bool_decide (tf_cs frame mod 4 = 3) in
  if decide (v < 32) then
    if decide (v = 8) then "double fault"
    else if user then "unhandled user CPU exception"
    else if decide (v = 13) then "general protection fault"
    else if decide (v = 6) then "invalid opcode"
    else "unhandled CPU exception"
  else if decide (v = 0x80) then "unhandled syscall vector"
  else "unhandled CPU vector".

Lemma trap_origin_spec frame :
  trap_origin frame = if bool_decide (tf_cs frame mod 4 = 3) then X86_TRAP_FROM_USER else X86_TRAP_FROM_KERNEL.
Proof.
  unfold trap_origin, x86_trap_origin_from_cs, X86_SELECTOR_RPL_MASK, X86_RING3_RPL.
  assert (E : Z.land (tf_cs frame) 3 = tf_cs frame mod 4) by (apply (land_ones_mod _ 2); lia). by rewrite E.
Qed.

Definition from_user (frame : trap_frame) : bool := bool_decide (tf_cs frame mod 4 = 3).

(** The lines on the frame. *)
Definition frame_lines (frame : trap_frame) (name : string) : list line :=
  [(lit "exception: " ++ [Str; Plain 10], [VaStr (Some (str name))]);
   (lit "vector=" ++ [u64] ++ lit " error=0x" ++ [hex016; Plain 10], [VaInt (tf_vector frame); VaInt (tf_error_code frame)]);
   (lit "rip=0x" ++ [hex016] ++ lit " rsp=0x" ++ [hex016] ++ lit " rflags=0x" ++ [hex016; Plain 10],
    [VaInt (tf_rip frame); VaInt (if from_user frame then tf_rsp frame else wrap64 (tf_address frame + 160)); VaInt (tf_rflags frame)]);
   (lit "mode=" ++ [Str], [VaStr (Some (if from_user frame then str "user" else str "kernel"))])] ++
  (if from_user frame then [(lit " ss=0x" ++ [hex016], [VaInt (tf_ss frame)])] else []) ++
  [([Plain 10], [])].

(** The lines on a page fault: the five low bits of the error code are the present, write,
    user, reserved and fetch bits. *)
Definition fault_lines (frame : trap_frame) : list line :=
  let bit n := Z.testbit (tf_error_code frame) n in
  [(lit "page fault: address=0x" ++ [hex016] ++ lit " error=0x" ++ [hex016; Plain 10], [VaInt (tf_cr2 frame); VaInt (tf_error_code frame)]);
   (lit "access=", []);
   (if bit 4 then lit "execute" else if bit 1 then lit "write" else lit "read", []);
   (lit " mode=" ++ [Str], [VaStr (Some (if bit 2 then str "user" else str "kernel"))]);
   (lit " reason=" ++ [Str], [VaStr (Some (if bit 0 then str "protection" else str "not-present"))])] ++
  (if bit 3 then [(lit " reserved-bit", [])] else []) ++
  [([Plain 10], [])].

Definition user_lines (name : string) : list line :=
  [(lit "user exception: " ++ [Str; Plain 10], [VaStr (Some (str name))]);
   (lit "user exception policy is not implemented" ++ [Plain 10], [])].

(** Everything printed before the kernel stops; [name] is the name of the exception. *)
Definition trap_lines (frame : trap_frame) (name : string) : list line :=
  let v := tf_vector frame in
  if decide (v < 32) then
    frame_lines frame name ++
    (if decide (v = 8) then [(lit "double fault: fatal exception" ++ [Plain 10], []); (lit "double fault: ist=" ++ [u32; Plain 10], [VaInt 1])]
     else
       (if decide (v = 14) then fault_lines frame else []) ++
       (if from_user frame then user_lines name
        else if decide (v = 13) then [(lit "general protection: fatal exception" ++ [Plain 10], []);
          (lit "general protection: error=0x" ++ [hex016; Plain 10], [VaInt (tf_error_code frame)])]
        else if decide (v = 6) then [(lit "invalid opcode: fatal exception" ++ [Plain 10], [])] else []))
  else if decide (v = 0x80) then [(lit "unexpected syscall vector=" ++ [u64; Plain 10], [VaInt v])]
  else [(lit "unexpected vector=" ++ [u64; Plain 10], [VaInt v])].

Lemma bit_test e n : 0 <= n -> negb (bool_decide (Z.land e (Z.shiftl 1 n) = 0)) = Z.testbit e n.
Proof.
  intros Hn. assert (E : forall m, 0 <= m -> Z.testbit (Z.land e (Z.shiftl 1 n)) m = if decide (m = n) then Z.testbit e n else false).
  { intros m Hm. rewrite Z.land_spec, Z.shiftl_spec by done. destruct (decide (m = n)) as [->|Hne].
    - rewrite Z.sub_diag. by rewrite andb_true_r.
    - destruct (decide (m < n)); [rewrite (Z.testbit_neg_r 1) by lia; by rewrite andb_false_r|].
      rewrite (Z.bits_above_log2 1) by (try change (Z.log2 1) with 0; lia). by rewrite andb_false_r. }
  case_bool_decide as Hz; simpl.
  - rewrite Hz in E. specialize (E n Hn). rewrite decide_True, Z.bits_0 in E by done. done.
  - destruct (Z.testbit e n) eqn:Eb; [done|]. destruct Hz. apply Z.bits_inj_0. intros m. destruct (decide (0 <= m)) as [Hm|Hm].
    + rewrite E by done. by destruct (decide (m = n)).
    + apply Z.testbit_neg_r. lia.
Qed.

Lemma origin_from_user frame : trap_origin frame = if from_user frame then X86_TRAP_FROM_USER else X86_TRAP_FROM_KERNEL.
Proof. apply trap_origin_spec. Qed.

Lemma print_frame_tells frame r : tells (H := H) (print_exception_frame frame (Some r)) tt (frame_lines frame (xv_name r)).
Proof.
  unfold print_exception_frame, frame_lines, interrupted_rsp, x86_trap_origin_name. rewrite origin_from_user.
  replace (tf_address frame + 152 + 8) with (tf_address frame + 160) by lia.
  apply (tells_bind _ _ tt tt [_]); [log_line|]. apply (tells_bind _ _ tt tt [_]); [log_line|].
  destruct (from_user frame).
  - apply (tells_bind _ _ tt tt [_]); [log_line|]. apply (tells_bind _ _ tt tt [_]); [log_line|].
    apply (tells_bind _ _ tt tt [_]); log_line.
  - apply (tells_bind _ _ tt tt [_]); [log_line|]. apply (tells_bind _ _ tt tt [_]); [log_line|].
    apply (tells_bind _ _ tt tt []); [apply tells_ret|log_line].
Qed.

Lemma page_fault_tells frame : tells (H := H) (page_fault frame) 0 (fault_lines frame).
Proof.
  unfold page_fault, handle_page_fault, log_fault_access, fault_lines, PF_PRESENT, PF_WRITE, PF_USER, PF_RESERVED, PF_INSTRUCTION_FETCH.
  rewrite !bit_test by lia. match goal with |- tells _ _ ?l => rewrite <- (app_nil_r l) end.
  apply (tells_bind _ _ tt 0); [|apply tells_ret].
  apply (tells_bind _ _ tt tt [_]); [log_line|]. apply (tells_bind _ _ tt tt [_]); [log_line|].
  apply (tells_bind _ _ tt tt [_]); [destruct (Z.testbit _ 4); [log_line|destruct (Z.testbit _ 1); log_line]|].
  apply (tells_bind _ _ tt tt [_]); [destruct (Z.testbit _ 2); log_line|].
  apply (tells_bind _ _ tt tt [_]); [destruct (Z.testbit _ 0); log_line|].
  apply (tells_bind _ _ tt tt); [destruct (Z.testbit _ 3); [log_line|apply tells_ret]|log_line].
Qed.

Lemma user_exception_dies {A} others frame origin name :
  dies (H := H) (x86_unhandled_user_exception (A := A) others frame origin (Some name)) "unhandled user CPU exception" (user_lines name).
Proof.
  unfold x86_unhandled_user_exception, user_lines.
  apply (dies_after _ _ tt _ []); [apply tells_ret|]. apply (dies_after _ _ tt _ [_]); [log_line|].
  apply (dies_after _ _ tt _ [_]); [log_line|apply dies_panic].
Qed.

(** What is left when the handler has answered 0. *)
Lemma unhandled_dies others frame name :
  dies (H := H) (match trap_origin frame with
    | X86_TRAP_FROM_USER => x86_unhandled_user_exception others frame (trap_origin frame) (Some name)
    | X86_TRAP_FROM_KERNEL => mret tt
    end ;; x86_unhandled_kernel_exception (A := unit))
    (if from_user frame then "unhandled user CPU exception" else "unhandled CPU exception")
    (if from_user frame then user_lines name else []).
Proof.
  rewrite origin_from_user. destruct (from_user frame); [apply dies_bind, user_exception_dies|].
  apply (dies_after _ _ tt _ [] []); [apply tells_ret|apply dies_panic].
Qed.

Lemma exception_dies others frame r :
  tf_vector frame < 32 -> exception_desc (tf_vector frame) = Some r ->
  xv_handler r = (if decide (tf_vector frame = 6) then x86_handle_invalid_opcode else if decide (tf_vector frame = 8) then x86_handle_double_fault
      else if decide (tf_vector frame = 13) then x86_handle_general_protection else if decide (tf_vector frame = 14) then x86_handle_page_fault
      else x86_handle_default_exception) ->
  dies (H := H) (trap_dispatch others frame) (fatal_message frame) (trap_lines frame (xv_name r)).
Proof.
  intros Hx Er Eh. unfold trap_dispatch, fatal_message, trap_lines. rewrite !(decide_True (P := tf_vector frame < 32)) by done.
  fold (from_user frame).
  assert (Ec : x86_vector_class (tf_vector frame) = X86_VECTOR_EXCEPTION) by (unfold exception_desc in Er; by destruct (x86_vector_class _)).
  rewrite Ec, Er. cbv zeta. apply (dies_after _ _ tt); [apply print_frame_tells|]. unfold run_exception_handler. rewrite Eh. cbn [fmap option_fmap option_map].
  pose proof (unhandled_dies others frame (xv_name r)) as Un.
  destruct (decide (tf_vector frame = 6)) as [E6|_].
  { rewrite E6. simpl. apply dies_bind. unfold invalid_opcode. rewrite origin_from_user. destruct (from_user frame).
    - apply dies_bind, user_exception_dies.
    - apply (dies_after _ _ tt _ [] [_]); [apply tells_ret|]. apply (dies_after _ _ tt _ [_] []); [log_line|apply dies_panic]. }
  destruct (decide (tf_vector frame = 8)) as [_|_].
  { apply dies_bind. apply (dies_after _ _ tt _ [_] [_]); [log_line|]. apply (dies_after _ _ tt _ [_] []); [log_line|apply dies_panic]. }
  destruct (decide (tf_vector frame = 13)) as [E13|_].
  { rewrite E13. simpl. apply dies_bind. unfold general_protection. rewrite origin_from_user. destruct (from_user frame).
    - apply dies_bind, user_exception_dies.
    - apply (dies_after _ _ tt _ [] [_; _]); [apply tells_ret|]. apply (dies_after _ _ tt _ [_] [_]); [log_line|].
      apply (dies_after _ _ tt _ [_] []); [log_line|apply dies_panic]. }
  destruct (decide (tf_vector frame = 14)) as [_|_].
  - apply (dies_after _ _ 0); [apply page_fault_tells|]. exact Un.
  - apply (dies_after _ _ 0 _ []); [apply tells_ret|]. exact Un.
Qed.

Lemma refused_dies others frame name :
  ~ tf_vector frame < 32 -> ~ (32 <= tf_vector frame < 48) ->
  dies (H := H) (trap_dispatch others frame) (fatal_message frame) (trap_lines frame name).
Proof.
  intros Hx Hirq. unfold trap_dispatch, fatal_message, trap_lines. rewrite vector_class_spec by lia.
  rewrite !(decide_False (P := tf_vector frame < 32)), (decide_False (P := tf_vector frame < 48)) by lia.
  destruct (decide (tf_vector frame = 0x80)).
  - apply (dies_after _ _ tt _ [_] []); [log_line|]. apply (dies_after _ _ tt _ [] []); [apply tells_ret|apply dies_panic].
  - repeat case_decide; (apply (dies_after _ _ tt _ [_] []); [log_line|apply dies_panic]).
Qed.

(** C34. Only interrupts return: every other vector stops the kernel with the message of its
    policy, and all it changed until then is the log and the screens, which say what
    happened: the exception's name, the frame, for a page fault the address and the kind of
    access, and the policy.  A double fault is fatal from anywhere; any other exception of
    code with privilege level 3 is an unhandled user exception; a general protection fault
    and an invalid opcode of the kernel have their own messages; the system call gate and
    all other vectors are refused. *)
Theorem traps_are_fatal others frame k cs q :
  0 <= tf_vector frame -> ~ (32 <= tf_vector frame < 48) -> log_inv k cs q ->
  exists name text k', trap_dispatch others frame k = Panicked (fatal_message frame) k' /\
    (tf_vector frame < 32 -> exists r, r ∈ X86_EXCEPTION_VECTORS /\ xv_vector r = tf_vector frame /\ xv_name r = name) /\
    rendered (trap_lines frame name) text /\ emitted cs q text k k'.
Proof.
  intros Hv Hirq L. destruct (decide (tf_vector frame < 32)) as [Hx|Hx].
  - destruct (exception_desc_some (tf_vector frame)) as (r & Er & Ev & Eh); [lia|].
    destruct (exception_dies others frame r Hx Er Eh k cs q L) as (t & k' & E & R & M). exists (xv_name r), t, k'. split; [done|]. split; [|done].
    intros _. exists r. split; [|done]. unfold exception_desc in Er. destruct (x86_vector_class _); try done.
    apply find_some in Er as [Hin _]. by apply list_elem_of_In.
  - destruct (refused_dies others frame "" Hx Hirq k cs q L) as (t & k' & E & R & M). by exists "", t, k'.
Qed.

(** ** The timer *)

Lemma eoi_acknowledges irq : acknowledges (pic_send_eoi (H := H) irq).
Proof.
  intros k live Hok. exists (kheap (wrote (eoi_writes irq) k)). split; [|exact Hok].
  rewrite pic_send_eoi_run. by destruct k as [[]].
Qed.

Lemma timer_trap_is_interrupt others frame k data :
  tf_vector frame = 32 -> action_at k 0 = Some (IrqAction (Some TIMER_IRQ_HANDLER) data) ->
  trap_dispatch others frame k = timer_interrupt (pic_send_eoi 0) others k.
Proof.
  intros Hv Ha. unfold trap_dispatch, timer_interrupt. rewrite Hv.
  change (x86_vector_class 32) with X86_VECTOR_LEGACY_IRQ. cbv iota. unfold sched_irq_enter. mred.
  change 32 with (X86_LEGACY_IRQ_VECTOR_BASE + 0).
  unfold mbind at 1, M_bind at 1.
  rewrite (handle_irq_run run_irq _ 0 (IrqAction (Some TIMER_IRQ_HANDLER) data)) by (done || lia).
  cbn [ia_handler run_irq]. unfold timer_irq_handler.
  rewrite <- bind_assoc. reflexivity.
Qed.

(** A switch leaves the clock and the drivers' data alone. *)
Lemma schedule_keeps_clock : keeps (fun k => (tick_count k, devs (kheap k))) (schedule (H := memory H)).
Proof.
  intros k r k' E. enough (tick_count k' = tick_count k /\ devs (kheap k') = devs (kheap k)) as [-> ->] by done.
  split; revert k r k' E; [change (keeps tick_count (schedule (H := memory H)))|change (keeps (fun k => devs (kheap k)) (schedule (H := memory H)))];
    unfold schedule, sched_assert_can_switch, spinlock_held_count, sched_reap_dead_threads, thread_fuel, reap_loop, release_loop, release_thread,
      next_runnable_thread, find_ready_loop, thread_is_zombie, thread_is_dead, thread_is_ready, thread_is_running, thread_set_dead, thread_set_ready,
      thread_set_running, thread_set_state, thread_validate_state_transition, thread_is, set_thread, thread_at,
      spin_lock_irqsave, spin_unlock_irqrestore, arch_irq_save, arch_irq_restore.
  - unfold on_heap. keep_devs.
  - keep_devs.
Qed.

End theory.
