(* ===== verification/EntryStubs.v ===== *)
(** * arch/x86/kernel/exception_entry.S: from the interrupt to C and back

    The stubs of the vector tables and [exception_common] as lists of instructions, run on a
    model of the processor: its registers, its flags and the words of the stack.  [deliver]
    is what the processor itself does when it takes a vector, in long mode: it chooses a
    stack, aligns it, and pushes SS, RSP, RFLAGS, CS, RIP and, for the
    vectors of the architecture's list [pushes_error_code], an error code.  The compiled [trap_dispatch] is a parameter that obeys the calling convention. *)

From S2P Require Import Prelude TrapVectors Traps.

Inductive reg := RAX | RBX | RCX | RDX | RSI | RDI | RBP | RSP | R8 | R9 | R10 | R11 | R12 | R13 | R14 | R15.

#[export] Instance reg_eq_dec : EqDecision reg.
Proof. solve_decision. Defined.

Record processor := Processor {
  gpr : reg -> Z;
  pc : Z;
  cs_selector : Z;
  flags_register : Z;
  ss_selector : Z;
  words : gmap Z Z
}.
#[export] Instance eta_processor : Eta processor := fun s =>
  Processor (gpr s) (pc s) (cs_selector s) (flags_register s) (ss_selector s) (words s).

Abbreviation P := (M processor).

Definition set_gpr (r : reg) (v : Z) (s : processor) : processor :=
  s <| gpr ::= (fun g q => if decide (q = r) then v else g q) |>.

Definition push1 (w : Z) (s : processor) : processor :=
  let sp := wrap64 (gpr s RSP - 8) in (set_gpr RSP sp s) <| words ::= <[sp := w]> |>.

Definition pushw (w : Z) : P unit := modify (push1 w).

Definition popw : P Z :=
  w ← deref (fun s => words s !! gpr s RSP);
  modify (fun s => set_gpr RSP (wrap64 (gpr s RSP + 8)) s) ;;
  mret w.

(** ** The processor takes a vector *)

Definition FLAGS_IF : Z := 0x200.
Definition FLAGS_DF : Z := 0x400.

(** The stack: the gate's own, that of ring 0 when the privilege level changes, or the
    present one. *)
Definition chosen_stack (d : descriptors) (e : idt_entry) (s : processor) : Z :=
  if decide (ist e <> 0) then default 0 (tss_ist (tss d) !! Z.to_nat (ist e - 1))
  else match x86_trap_origin_from_cs (cs_selector s) with
       | X86_TRAP_FROM_USER => rsp0 (tss d)
       | X86_TRAP_FROM_KERNEL => gpr s RSP
       end.

(** The exceptions for which the processor pushes an error code: #DF, #TS, #NP, #SS, #GP,
    #PF, #AC, #CP, #VC and #SX.  This is the architecture's list, not the kernel's table. *)
Definition pushes_error_code (vector : Z) : bool := bool_decide (vector ∈ [8; 10; 11; 12; 13; 14; 17; 21; 29; 30]).

(** The word pushed last, when [code] is the error code of the event. *)
Definition error_word (vector code : Z) : option Z := if pushes_error_code vector then Some code else None.

(** The SS the processor loads when the privilege level changes is not tracked: nothing reads
    it before the return restores the interrupted one. *)
Definition deliver (d : descriptors) (vector : Z) (error : option Z) : P unit :=
  e ← deref (fun _ => idt d !! Z.to_nat vector);
  if gate_present e then
    s ← gets id;
    modify (set_gpr RSP (chosen_stack d e s - chosen_stack d e s mod 16)) ;;
    pushw (ss_selector s) ;;
    pushw (gpr s RSP) ;;
    pushw (flags_register s) ;;
    pushw (cs_selector s) ;;
    pushw (pc s) ;;
    match error with Some code => pushw code | None => mret tt end ;;
    modify (fun s => s <| cs_selector := selector e |> <| pc := gate_offset e |>) ;;
    when (bool_decide (gate_kind e = X86_IDT_INTERRUPT_GATE)) (modify (fun s => s <| flags_register ::= (fun f => Z.ldiff f FLAGS_IF) |>))
  else (fun _ => Fault).

(** ** The code *)

Inductive instr :=
| PUSHQ_IMM (v : Z)
| PUSHQ (r : reg)
| CLD
| MOVQ (src dst : reg)
| CALL_TRAP_DISPATCH
| ADDQ (v : Z) (r : reg)
| IRETQ.

(** What follows the [jmp] of every stub. *)
Definition exception_common : list instr :=
  [CLD; PUSHQ R15; PUSHQ R14; PUSHQ R13; PUSHQ R12; PUSHQ R11; PUSHQ R10; PUSHQ R9; PUSHQ R8; PUSHQ RBP; PUSHQ RDI;
   PUSHQ RSI; PUSHQ RDX; PUSHQ RCX; PUSHQ RBX; PUSHQ RAX;
   MOVQ RSP RDI; CALL_TRAP_DISPATCH;
   ADDQ 120 RSP; ADDQ 16 RSP; IRETQ].

Definition EXCEPTION_NO_ERROR (vector : Z) : list instr := [PUSHQ_IMM 0; PUSHQ_IMM vector] ++ exception_common.
Definition EXCEPTION_ERROR (vector : Z) : list instr := [PUSHQ_IMM vector] ++ exception_common.
Definition IRQ (vector : Z) : list instr := [PUSHQ_IMM 0; PUSHQ_IMM vector] ++ exception_common.

Definition EMIT_EXCEPTION_STUB (r : exception_vector) : list instr :=
  if decide (xv_has_error r = 0) then EXCEPTION_NO_ERROR (xv_vector r) else EXCEPTION_ERROR (xv_vector r).
Definition EMIT_IRQ_STUB (r : irq_vector) : list instr := IRQ (iv_vector r).

(** The code at a symbol. *)
Definition stub_code (symbol : string) : option (list instr) :=
  match find (fun r => bool_decide (xv_entry r = symbol)) X86_EXCEPTION_VECTORS with
  | Some r => Some (EMIT_EXCEPTION_STUB r)
  | None => EMIT_IRQ_STUB <$> find (fun r => bool_decide (iv_entry r = symbol)) X86_IRQ_VECTORS
  end.

(** [callee] is the call of [trap_dispatch] up to its return. *)
Section execution.
Context (callee : processor -> processor).

Definition exec (i : instr) : P unit :=
  match i with
  | PUSHQ_IMM v => pushw v
  | PUSHQ r => s ← gets id; pushw (gpr s r)
  | CLD => modify (fun s => s <| flags_register ::= (fun f => Z.ldiff f FLAGS_DF) |>)
  | MOVQ src dst => modify (fun s => set_gpr dst (gpr s src) s)
  | CALL_TRAP_DISPATCH => modify callee
  | ADDQ v r => modify (fun s => set_gpr r (wrap64 (gpr s r + v)) s)
  | IRETQ =>
      rip ← popw; cs ← popw; rflags ← popw; rsp ← popw; ss ← popw;
      modify (fun s => (set_gpr RSP rsp s) <| pc := rip |> <| cs_selector := cs |> <| flags_register := rflags |> <| ss_selector := ss |>)
  end.

Definition run_code (l : list instr) : P unit := for_each l exec.

(** A vector from the processor's reaction to the return: the gate leads to the stub whose
    address it has. *)
Definition interrupt (d : descriptors) (vector : Z) (error : option Z) (symbol : string) : P unit :=
  deliver d vector error ;;
  code ← deref (fun _ => stub_code symbol);
  run_code code.
End execution.

(** ** The frame as C reads it *)

Definition frame_at (m : gmap Z Z) (a cr2 : Z) : option trap_frame :=
  match m !! (a + 120), m !! (a + 128), m !! (a + 136), m !! (a + 144), m !! (a + 152), m !! (a + 160), m !! (a + 168) with
  | Some vector, Some error_code, Some rip, Some cs, Some rflags, Some rsp, Some ss =>
      Some (TrapFrame vector error_code rip cs rflags rsp ss a cr2)
  | _, _, _, _, _, _, _ => None
  end.

(** [struct trap_frame] starts with these. *)
Definition frame_regs : list reg := [RAX; RBX; RCX; RDX; RSI; RDI; RBP; R8; R9; R10; R11; R12; R13; R14; R15].

Section theory.
Implicit Types (s : processor) (ws : list Z) (a top : Z).

Lemma gpr_set_eq r v s : gpr (set_gpr r v s) r = v.
Proof. unfold set_gpr. cbn -[decide]. by rewrite decide_True. Qed.

Lemma gpr_set_ne r q v s : q <> r -> gpr (set_gpr r v s) q = gpr s q.
Proof. intros Hq. unfold set_gpr. cbn -[decide]. by rewrite decide_False. Qed.

Lemma words_set_gpr r v s : words (set_gpr r v s) = words s.
Proof. done. Qed.

Lemma flags_set_gpr r v s : flags_register (set_gpr r v s) = flags_register s.
Proof. done. Qed.

Lemma push1_ne w s r : r <> RSP -> gpr (push1 w s) r = gpr s r.
Proof. apply gpr_set_ne. Qed.

Lemma push1_rsp w s : 8 <= gpr s RSP < 18446744073709551616 ->
  gpr (push1 w s) RSP = gpr s RSP - 8 /\ words (push1 w s) = <[gpr s RSP - 8 := w]> (words s).
Proof.
  intros Hs. assert (E : wrap64 (gpr s RSP - 8) = gpr s RSP - 8) by (apply wrap64_id; unfold in64; lia). unfold push1. rewrite E.
  split; [|done]. exact (gpr_set_eq RSP (gpr s RSP - 8) s).
Qed.

(** ** Pushing words *)

Definition pushed ws s : processor := foldl (fun s w => push1 w s) s ws.

Lemma pushed_gpr ws : forall s r, r <> RSP -> gpr (pushed ws s) r = gpr s r.
Proof. induction ws as [|w ws IH]; intros s r Hr; [done|]. etransitivity; [apply (IH (push1 w s) r Hr)|by apply push1_ne]. Qed.

Lemma pushed_rest ws : forall s,
  pc (pushed ws s) = pc s /\ cs_selector (pushed ws s) = cs_selector s /\ flags_register (pushed ws s) = flags_register s /\
  ss_selector (pushed ws s) = ss_selector s.
Proof. induction ws as [|w ws IH]; intros s; [done|]. simpl. destruct (IH (push1 w s)) as (-> & -> & -> & ->). done. Qed.

Lemma pushed_rsp ws : forall s,
  8 * Z.of_nat (length ws) <= gpr s RSP < 18446744073709551616 -> gpr (pushed ws s) RSP = gpr s RSP - 8 * Z.of_nat (length ws).
Proof.
  induction ws as [|w ws IH]; intros s Hs; simpl length in *; [simpl; lia|]. destruct (push1_rsp w s) as [E1 _]; [lia|].
  change (pushed (w :: ws) s) with (pushed ws (push1 w s)). rewrite IH; rewrite E1; lia.
Qed.

(** The [i]-th word pushed is the [i + 1]-th below the old stack pointer. *)
Lemma pushed_words ws : forall s,
  8 * Z.of_nat (length ws) <= gpr s RSP < 18446744073709551616 ->
  (forall i w, ws !! i = Some w -> words (pushed ws s) !! (gpr s RSP - 8 * Z.of_nat (S i)) = Some w) /\
  (forall x, ~ (gpr s RSP - 8 * Z.of_nat (length ws) <= x < gpr s RSP) -> words (pushed ws s) !! x = words s !! x).
Proof.
  induction ws as [|w ws IH]; intros s Hs; [done|]. simpl length in *.
  destruct (push1_rsp w s) as [E1 E2]; [lia|]. change (pushed (w :: ws) s) with (pushed ws (push1 w s)).
  destruct (IH (push1 w s)) as [Hin Hout]; [rewrite E1; lia|]. rewrite E1 in Hin, Hout.
  split.
  - intros [|i] v Hv.
    + simpl in Hv. injection Hv as ->. rewrite Hout, E2 by lia. replace (gpr s RSP - 8 * Z.of_nat 1) with (gpr s RSP - 8) by lia. apply lookup_insert_eq.
    + simpl in Hv. rewrite <- (Hin i v Hv). f_equal. lia.
  - intros x Hx. rewrite Hout, E2 by lia. apply lookup_insert_ne. lia.
Qed.

Lemma pushed_app l1 l2 s : pushed (l1 ++ l2) s = pushed l2 (pushed l1 s).
Proof. apply foldl_app. Qed.

(** Saving a list of registers. *)
Lemma push_regs callee l : forall s,
  RSP ∉ l -> run_code callee (PUSHQ <$> l) s = Ret tt (pushed (gpr s <$> l) s).
Proof.
  induction l as [|r l IH]; intros s Hl; [done|]. apply not_elem_of_cons in Hl as [Hr Hl].
  unfold run_code. cbn [fmap list_fmap for_each exec]. rewrite bind_assoc, bind_gets. unfold pushw. rewrite bind_modify.
  etransitivity; [apply (IH _ Hl)|]. unfold id.
  assert (E : gpr (push1 (gpr s r) s) <$> l = gpr s <$> l); [|by rewrite E].
  apply list_fmap_ext. intros i q Hq. apply list_elem_of_lookup_2 in Hq. apply push1_ne. by intros ->.
Qed.

Lemma run_app callee l1 l2 s : run_code callee (l1 ++ l2) s = (run_code callee l1 ;; run_code callee l2) s.
Proof.
  revert s. induction l1 as [|i l1 IH]; intros s; [done|]. unfold run_code in *. cbn [app for_each].
  rewrite bind_assoc. apply bind_ext. intros [] s' _. apply IH.
Qed.

(** What the processor pushes. *)
Definition hardware_words s (error : option Z) : list Z :=
  [ss_selector s; gpr s RSP; flags_register s; cs_selector s; pc s] ++ option_list error.

Lemma delivery_run d v error e s :
  idt d !! Z.to_nat v = Some e -> gate_present e = true ->
  let top := chosen_stack d e s - chosen_stack d e s mod 16 in
  exists s1, deliver d v error s = Ret tt s1 /\ gpr s1 = gpr (pushed (hardware_words s error) (set_gpr RSP top s)) /\
    words s1 = words (pushed (hardware_words s error) (set_gpr RSP top s)) /\ pc s1 = gate_offset e /\ cs_selector s1 = selector e.
Proof.
  intros He Hp top. unfold deliver. erewrite (bind_deref (fun _ => idt d !! Z.to_nat v)) by exact He. rewrite Hp, bind_gets, bind_modify.
  unfold pushw. rewrite !bind_modify. unfold id. fold top. generalize (set_gpr RSP top s). intros s0.
  assert (Hfin : forall p, exists s1, (u ← modify (fun s => s <| cs_selector := selector e |> <| pc := gate_offset e |>);
      when (bool_decide (gate_kind e = X86_IDT_INTERRUPT_GATE)) (modify (fun s => s <| flags_register ::= (fun f => Z.ldiff f FLAGS_IF) |>))) p = Ret tt s1 /\
    gpr s1 = gpr p /\ words s1 = words p /\ pc s1 = gate_offset e /\ cs_selector s1 = selector e).
  { intros p. rewrite bind_modify. destruct (bool_decide _); eexists; (split; [reflexivity|]); done. }
  destruct error as [code|]; [rewrite bind_modify|rewrite bind_ret].
  - destruct (Hfin (pushed (hardware_words s (Some code)) s0)) as (s1 & E & R). by exists s1.
  - destruct (Hfin (pushed (hardware_words s None) s0)) as (s1 & E & R). by exists s1.
Qed.

(** ** The stubs *)

(** A row of the tables: its vector, its symbol, and whether the processor pushes a code. *)
Definition vector_row (v : Z) (symbol : string) (has_error : bool) (i : Z) : Prop :=
  (exists r, r ∈ X86_EXCEPTION_VECTORS /\ xv_vector r = v /\ xv_entry r = symbol /\ has_error = negb (bool_decide (xv_has_error r = 0)) /\ xv_ist r = i) \/
  (exists r, r ∈ X86_IRQ_VECTORS /\ iv_vector r = v /\ iv_entry r = symbol /\ has_error = false /\ iv_ist r = i).

Definition stub_prefix (v : Z) (has_error : bool) : list instr := if has_error then [PUSHQ_IMM v] else [PUSHQ_IMM 0; PUSHQ_IMM v].

Lemma stub_code_row v symbol h i : vector_row v symbol h i -> stub_code symbol = Some (stub_prefix v h ++ exception_common).
Proof.
  assert (Hx : Forall (fun r => stub_code (xv_entry r) =
    Some (stub_prefix (xv_vector r) (negb (bool_decide (xv_has_error r = 0))) ++ exception_common)) X86_EXCEPTION_VECTORS) by by repeat constructor.
  assert (Hi : Forall (fun r => stub_code (iv_entry r) = Some (stub_prefix (iv_vector r) false ++ exception_common)) X86_IRQ_VECTORS)
    by by repeat constructor.
  rewrite Forall_forall in Hx. rewrite Forall_forall in Hi.
  intros [(r & Hr & <- & <- & -> & _)|(r & Hr & <- & <- & -> & _)]; [by apply Hx|by apply Hi].
Qed.

(** The kernel's table agrees with the architecture. *)
Lemma row_error v symbol h i : vector_row v symbol h i -> h = pushes_error_code v.
Proof.
  assert (Hx : Forall (fun r => negb (bool_decide (xv_has_error r = 0)) = pushes_error_code (xv_vector r)) X86_EXCEPTION_VECTORS) by by repeat constructor.
  assert (Hi : Forall (fun r => false = pushes_error_code (iv_vector r)) X86_IRQ_VECTORS) by by repeat constructor.
  rewrite Forall_forall in Hx. rewrite Forall_forall in Hi.
  intros [(r & Hr & <- & _ & -> & _)|(r & Hr & <- & _ & -> & _)]; [by apply Hx|by apply Hi].
Qed.

Lemma row_error_word v symbol h i code : vector_row v symbol h i -> h = bool_decide (is_Some (error_word v code)).
Proof. intros ->%row_error. unfold error_word. by destruct (pushes_error_code v). Qed.

(** The seven words above the registers. *)
Definition entry_words s (error : option Z) (v : Z) : list Z :=
  [ss_selector s; gpr s RSP; flags_register s; cs_selector s; pc s; default 0 error; v].

Lemma prefix_run callee v error s s1 :
  run_code callee (stub_prefix v (bool_decide (is_Some error))) s1 =
  Ret tt (pushed (drop (5 + length (option_list error)) (entry_words s error v)) s1).
Proof. destruct error as [code|]; [rewrite bool_decide_eq_true_2 by by eexists|rewrite bool_decide_eq_false_2 by by intros [? ?]]; done. Qed.

Definition saved_regs : list reg := reverse frame_regs.

Lemma common_split : exception_common = [CLD] ++ (PUSHQ <$> saved_regs) ++ [MOVQ RSP RDI; CALL_TRAP_DISPATCH] ++ [ADDQ 120 RSP; ADDQ 16 RSP; IRETQ].
Proof. reflexivity. Qed.

(** The state in which C code is called: everything is pushed, RDI points to it. *)
Record at_call s error v top s2 : Prop := {
  ac_words : words s2 = words (pushed (entry_words s error v ++ (gpr s <$> saved_regs)) (set_gpr RSP top s));
  ac_rsp : gpr s2 RSP = top - 176;
  ac_rdi : gpr s2 RDI = top - 176;
  ac_regs : forall r, r <> RSP -> r <> RDI -> gpr s2 r = gpr s r;
  ac_flag : Z.testbit (flags_register s2) 10 = false
}.

Lemma gpr_pushed_ext ws s t : gpr s = gpr t -> gpr (pushed ws s) = gpr (pushed ws t).
Proof.
  revert s t. induction ws as [|w ws IH]; intros s t E; [done|]. apply (IH (push1 w s) (push1 w t)). unfold push1. cbn -[decide wrap64]. by rewrite E.
Qed.

Lemma words_pushed_ext ws s t : gpr s = gpr t -> words s = words t -> words (pushed ws s) = words (pushed ws t).
Proof.
  revert s t. induction ws as [|w ws IH]; intros s t E F; [done|]. apply (IH (push1 w s) (push1 w t)); unfold push1; cbn -[decide wrap64]; by rewrite E, ?F.
Qed.

Lemma cld_clears s : Z.testbit (flags_register (s <| flags_register ::= (fun f => Z.ldiff f FLAGS_DF) |>)) 10 = false.
Proof. cbn [flags_register upd]. rewrite Z.ldiff_spec. by rewrite andb_false_r. Qed.

Lemma words_before_prefix s error v :
  hardware_words s error ++ drop (5 + length (option_list error)) (entry_words s error v) = entry_words s error v.
Proof. by destruct error. Qed.

Lemma entry_run d v symbol h error s e :
  vector_row v symbol h (ist e) -> h = bool_decide (is_Some error) -> idt d !! Z.to_nat v = Some e -> gate_present e = true ->
  let top := chosen_stack d e s - chosen_stack d e s mod 16 in
  176 <= top < 18446744073709551616 ->
  exists s2, at_call s error v top s2 /\
    forall callee, interrupt callee d v error symbol s = run_code callee [ADDQ 120 RSP; ADDQ 16 RSP; IRETQ] (callee s2).
Proof.
  intros Hrow -> He Hp top Htop. destruct (delivery_run d v error e s He Hp) as (s1 & E1 & G1 & W1 & _). fold top in G1, W1.
  set (s0 := set_gpr RSP top s) in *. set (ew := entry_words s error v).
  set (p1 := pushed (drop (5 + length (option_list error)) ew) s1).
  set (p2 := p1 <| flags_register ::= (fun f => Z.ldiff f FLAGS_DF) |>).
  assert (Gp : gpr p2 = gpr (pushed ew s0)).
  { change (gpr p2) with (gpr p1). unfold p1. rewrite (gpr_pushed_ext _ s1 _ G1), <- pushed_app. unfold ew. by rewrite words_before_prefix. }
  assert (Wp : words p2 = words (pushed ew s0)).
  { change (words p2) with (words p1). unfold p1. rewrite (words_pushed_ext _ s1 _ G1 W1), <- pushed_app. unfold ew. by rewrite words_before_prefix. }
  assert (Hsaved : RSP ∉ saved_regs) by (apply (bool_decide_unpack _); vm_compute; exact Logic.I).
  assert (Er : gpr p2 <$> saved_regs = gpr s <$> saved_regs).
  { apply list_fmap_ext. intros i r Hr%list_elem_of_lookup_2. assert (r <> RSP) by by intros ->.
    rewrite Gp, pushed_gpr by done. by apply gpr_set_ne. }
  set (p3 := pushed (gpr s <$> saved_regs) p2).
  assert (R3 : gpr p3 RSP = top - 176).
  { unfold p3. rewrite (gpr_pushed_ext _ _ _ Gp), <- pushed_app, pushed_rsp.
    - unfold s0. rewrite gpr_set_eq. change (length (ew ++ (gpr s <$> saved_regs))) with 22%nat. lia.
    - unfold s0. rewrite gpr_set_eq. change (length (ew ++ (gpr s <$> saved_regs))) with 22%nat. lia. }
  exists (set_gpr RDI (gpr p3 RSP) p3). split.
  - split.
    + rewrite words_set_gpr. fold ew s0. rewrite pushed_app. by apply words_pushed_ext.
    + rewrite gpr_set_ne by done. exact R3.
    + rewrite gpr_set_eq. exact R3.
    + intros r H1 H2. rewrite gpr_set_ne by done. unfold p3. rewrite pushed_gpr, Gp, pushed_gpr by done. by apply gpr_set_ne.
    + rewrite flags_set_gpr. unfold p3. destruct (pushed_rest (gpr s <$> saved_regs) p2) as (_ & _ & -> & _).
      apply cld_clears.
  - intros callee. unfold interrupt. mrun E1. erewrite (bind_deref (fun _ => stub_code symbol)) by exact (stub_code_row _ _ _ _ Hrow).
    rewrite run_app. mrun (prefix_run callee v error s s1). fold ew. fold p1. rewrite common_split, run_app.
    erewrite bind_run by reflexivity. fold p2. rewrite run_app.
    erewrite bind_run by (rewrite (push_regs callee saved_regs p2 Hsaved), Er; reflexivity). fold p3. rewrite run_app. reflexivity.
Qed.

(** ** The frame *)

Lemma at_call_word s error v top s2 i w :
  at_call s error v top s2 -> 176 <= top < 18446744073709551616 ->
  (entry_words s error v ++ (gpr s <$> saved_regs)) !! i = Some w -> words s2 !! (top - 8 * Z.of_nat (S i)) = Some w.
Proof.
  intros A Ht Hi. rewrite (ac_words _ _ _ _ _ A).
  destruct (pushed_words (entry_words s error v ++ (gpr s <$> saved_regs)) (set_gpr RSP top s)) as [Hin _].
  - rewrite gpr_set_eq. change (length (entry_words s error v ++ (gpr s <$> saved_regs))) with 22%nat. lia.
  - specialize (Hin i w Hi). by rewrite gpr_set_eq in Hin.
Qed.

Lemma at_call_frame s error v top s2 cr2 :
  at_call s error v top s2 -> 176 <= top < 18446744073709551616 ->
  frame_at (words s2) (top - 176) cr2 =
    Some (TrapFrame v (default 0 error) (pc s) (cs_selector s) (flags_register s) (gpr s RSP) (ss_selector s) (top - 176) cr2).
Proof.
  intros A Ht. pose proof (fun i w => at_call_word s error v top s2 i w A Ht) as Hw. unfold frame_at.
  replace (top - 176 + 120) with (top - 8 * Z.of_nat 7) by lia. rewrite (Hw 6%nat v eq_refl).
  replace (top - 176 + 128) with (top - 8 * Z.of_nat 6) by lia. rewrite (Hw 5%nat _ eq_refl).
  replace (top - 176 + 136) with (top - 8 * Z.of_nat 5) by lia. rewrite (Hw 4%nat _ eq_refl).
  replace (top - 176 + 144) with (top - 8 * Z.of_nat 4) by lia. rewrite (Hw 3%nat _ eq_refl).
  replace (top - 176 + 152) with (top - 8 * Z.of_nat 3) by lia. rewrite (Hw 2%nat _ eq_refl).
  replace (top - 176 + 160) with (top - 8 * Z.of_nat 2) by lia. rewrite (Hw 1%nat _ eq_refl).
  replace (top - 176 + 168) with (top - 8 * Z.of_nat 1) by lia. by rewrite (Hw 0%nat _ eq_refl).
Qed.

Lemma at_call_regs s error v top s2 i r :
  at_call s error v top s2 -> 176 <= top < 18446744073709551616 ->
  frame_regs !! i = Some r -> words s2 !! (top - 176 + 8 * Z.of_nat i) = Some (gpr s r).
Proof.
  intros A Ht Hi. assert (Hlt : (i < 15)%nat) by (apply lookup_lt_Some in Hi; exact Hi).
  replace (top - 176 + 8 * Z.of_nat i) with (top - 8 * Z.of_nat (S (7 + (14 - i)))) by lia.
  apply (at_call_word s error v top s2 (7 + (14 - i)) _ A Ht). rewrite lookup_app_r by (simpl; lia).
  change (length (entry_words s error v)) with 7%nat. replace (7 + (14 - i) - 7)%nat with (14 - i)%nat by lia.
  rewrite list_lookup_fmap. unfold saved_regs. rewrite reverse_lookup by (simpl; lia). simpl length. replace (15 - S (14 - i))%nat with i by lia.
  by rewrite Hi.
Qed.

(** ** The way back *)

Definition callee_saved : list reg := [RBX; RBP; R12; R13; R14; R15].
Definition scratch : list reg := [RAX; RCX; RDX; RSI; RDI; R8; R9; R10; R11].

Lemma callee_saved_ne r : r ∈ callee_saved -> r <> RSP /\ r ∉ scratch.
Proof. revert r. apply Forall_forall. apply (bool_decide_unpack _). vm_compute. exact Logic.I. Qed.

Lemma scratch_ne r : r ∈ scratch -> r <> RSP.
Proof. revert r. apply Forall_forall. apply (bool_decide_unpack _). vm_compute. exact Logic.I. Qed.

(** The calling convention, for a call with the stack pointer at [a]: the registers the
    callee has to keep, and everything from the frame up. *)
Record abi (callee : processor -> processor) a s2 : Prop := {
  abi_regs : forall r, r ∈ callee_saved -> gpr (callee s2) r = gpr s2 r;
  abi_rsp : gpr (callee s2) RSP = gpr s2 RSP;
  abi_words : forall x, a <= x -> words (callee s2) !! x = words s2 !! x
}.

Lemma popw_run s w :
  words s !! gpr s RSP = Some w -> gpr s RSP + 8 < 18446744073709551616 -> 0 <= gpr s RSP ->
  popw s = Ret w (set_gpr RSP (gpr s RSP + 8) s).
Proof.
  intros Hw H1 H2. unfold popw. rewrite (bind_deref (fun s => words s !! gpr s RSP) _ s w Hw), bind_modify.
  by rewrite wrap64_id by (unfold in64; lia).
Qed.

Lemma exit_run callee s3 a rip cs rflags rsp ss :
  gpr s3 RSP = a -> 0 <= a -> a + 176 < 18446744073709551616 ->
  words s3 !! (a + 136) = Some rip -> words s3 !! (a + 144) = Some cs -> words s3 !! (a + 152) = Some rflags ->
  words s3 !! (a + 160) = Some rsp -> words s3 !! (a + 168) = Some ss ->
  exists s', run_code callee [ADDQ 120 RSP; ADDQ 16 RSP; IRETQ] s3 = Ret tt s' /\
    pc s' = rip /\ cs_selector s' = cs /\ flags_register s' = rflags /\ gpr s' RSP = rsp /\ ss_selector s' = ss /\
    (forall r, r <> RSP -> gpr s' r = gpr s3 r) /\ words s' = words s3.
Proof.
  intros Ea H0 H1 W1 W2 W3 W4 W5. unfold run_code. cbn [for_each exec]. rewrite !bind_modify.
  rewrite Ea, (wrap64_id (a + 120)), gpr_set_eq, (wrap64_id (a + 120 + 16)) by (unfold in64; lia). replace (a + 120 + 16) with (a + 136) by lia.
  set (q := set_gpr RSP (a + 136) (set_gpr RSP (a + 120) s3)).
  assert (Eq : gpr q RSP = a + 136) by apply gpr_set_eq. assert (Wq : words q = words s3) by done.
  assert (Rq : forall r, r <> RSP -> gpr q r = gpr s3 r) by (intros r Hr; unfold q; by rewrite !gpr_set_ne). clearbody q.
  assert (Hpop : forall p x w, gpr p RSP = x -> words p = words s3 -> words s3 !! x = Some w -> a <= x -> x <= a + 168 ->
    exists p', popw p = Ret w p' /\ gpr p' RSP = x + 8 /\ words p' = words s3 /\ forall r, r <> RSP -> gpr p' r = gpr p r).
  { intros p x w <- Wx Hx H2 H3. exists (set_gpr RSP (gpr p RSP + 8) p). split; [apply popw_run; [by rewrite Wx|lia|lia]|].
    split; [apply gpr_set_eq|]. split; [done|]. intros r Hr. by apply gpr_set_ne. }
  destruct (Hpop q (a + 136) rip Eq Wq W1) as (q1 & E1 & S1 & V1 & R1); [lia..|].
  destruct (Hpop q1 (a + 144) cs) as (q2 & E2 & S2 & V2 & R2); [rewrite S1; lia|done|done|lia..|].
  destruct (Hpop q2 (a + 152) rflags) as (q3 & E3 & S3 & V3 & R3); [rewrite S2; lia|done|done|lia..|].
  destruct (Hpop q3 (a + 160) rsp) as (q4 & E4 & S4 & V4 & R4); [rewrite S3; lia|done|done|lia..|].
  destruct (Hpop q4 (a + 168) ss) as (q5 & E5 & S5 & V5 & R5); [rewrite S4; lia|done|done|lia..|].
  rewrite !bind_assoc. mrun E1. rewrite !bind_assoc. mrun E2. rewrite !bind_assoc. mrun E3. rewrite !bind_assoc. mrun E4.
  rewrite !bind_assoc. mrun E5. rewrite bind_modify, mret_run. eexists. split; [reflexivity|].
  do 3 (split; [done|]). split; [exact (gpr_set_eq RSP rsp q5)|]. split; [done|]. split; [|exact V5].
  intros r Hr. etransitivity; [exact (gpr_set_ne RSP r rsp q5 Hr)|]. by rewrite R5, R4, R3, R2, R1, Rq.
Qed.

(** Every row leads through its gate to its own stub. *)
Lemma row_gate at_ d v symbol h i :
  traps_installed at_ d -> vector_row v symbol h i ->
  exists e, idt d !! Z.to_nat v = Some e /\ gate_present e = true /\ gate_offset e = stub at_ symbol /\ ist e = i.
Proof.
  intros (Hx & Hi & _) [(r & Hr & <- & <- & _ & <-)|(r & Hr & <- & <- & _ & <-)];
    [destruct (Hx r Hr) as (e & He & [])|destruct (Hi r Hr) as (e & He & [])]; by exists e.
Qed.

(** C35. From the interrupt to C and back.  With the tables as [arch_traps_init] leaves them,
    every vector of the tables reaches [trap_dispatch] through its own stub with the same
    frame layout, although the processor pushes an error code for ten of them only (the
    architecture's list [pushes_error_code]): RDI points to a frame
    of [struct trap_frame] with the vector, the error code or 0, the interrupted RIP, CS,
    RFLAGS, RSP and SS and the fifteen registers in their fields; the stack is aligned as
    the calling convention wants, the direction flag is clear, and no word outside the frame
    is touched.  When the C code returns, execution goes on where it was interrupted, with
    the interrupted stack and flags and every register the C code must keep; the nine
    scratch registers are as the C code left them. *)
Theorem interrupt_round_trip at_ d v symbol h i code s cr2 :
  traps_installed at_ d -> vector_row v symbol h i ->
  (forall e, idt d !! Z.to_nat v = Some e -> 192 <= chosen_stack d e s < 18446744073709551616) ->
  exists e s2, idt d !! Z.to_nat v = Some e /\ gate_offset e = stub at_ symbol /\
    let a := chosen_stack d e s - chosen_stack d e s mod 16 - 176 in
    gpr s2 RDI = a /\ gpr s2 RSP = a /\ a mod 16 = 0 /\ Z.testbit (flags_register s2) 10 = false /\
    frame_at (words s2) a cr2 =
      Some (TrapFrame v (if pushes_error_code v then code else 0) (pc s) (cs_selector s) (flags_register s) (gpr s RSP) (ss_selector s) a cr2) /\
    (forall n r, frame_regs !! n = Some r -> words s2 !! (a + 8 * Z.of_nat n) = Some (gpr s r)) /\
    (forall x, ~ (a <= x < a + 176) -> words s2 !! x = words s !! x) /\
    forall callee, abi callee a s2 ->
      exists s', interrupt callee d v (error_word v code) symbol s = Ret tt s' /\
        pc s' = pc s /\ cs_selector s' = cs_selector s /\ flags_register s' = flags_register s /\
        gpr s' RSP = gpr s RSP /\ ss_selector s' = ss_selector s /\
        (forall r, r ∈ callee_saved -> gpr s' r = gpr s r) /\ (forall r, r ∈ scratch -> gpr s' r = gpr (callee s2) r).
Proof.
  intros Ht Hrow Hst. destruct (row_gate at_ d v symbol h i Ht Hrow) as (e & He & Hp & Ho & <-). specialize (Hst e He).
  pose proof (row_error_word v symbol h _ code Hrow) as Herr.
  assert (Ed : default 0 (error_word v code) = if pushes_error_code v then code else 0) by (unfold error_word; by destruct (pushes_error_code v)).
  rewrite <- Ed. set (error := error_word v code) in *.
  pose proof (Z.mod_pos_bound (chosen_stack d e s) 16 ltac:(lia)) as Hm.
  destruct (entry_run d v symbol h error s e Hrow Herr He Hp) as (s2 & A & Hrun); [lia|].
  set (top := chosen_stack d e s - chosen_stack d e s mod 16) in *. assert (Htop : 176 <= top < 18446744073709551616) by lia.
  exists e, s2. do 2 (split; [done|]). intros a. split; [apply A|]. split; [apply A|].
  split; [unfold a, top; clear; div_lia|]. split; [apply A|]. split; [by apply (at_call_frame s error v top)|].
  split; [by intros n r; apply (at_call_regs s error v top)|]. split.
  - intros x Hx. rewrite (ac_words _ _ _ _ _ A).
    destruct (pushed_words (entry_words s error v ++ (gpr s <$> saved_regs)) (set_gpr RSP top s)) as [_ Hout];
      rewrite gpr_set_eq in *; change (length (entry_words s error v ++ (gpr s <$> saved_regs))) with 22%nat in *; [lia|].
    rewrite Hout; [done|]. unfold a in Hx. lia.
  - intros callee [Br Bs Bw]. pose proof (fun j w Hj => at_call_word s error v top s2 j w A Htop Hj) as Hw.
    destruct (exit_run callee (callee s2) a (pc s) (cs_selector s) (flags_register s) (gpr s RSP) (ss_selector s))
      as (s' & E & R1 & R2 & R3 & R4 & R5 & R6 & _); unfold a; rewrite ?Bw by (unfold a; lia); [rewrite Bs; apply A|lia|lia|..].
    { by rewrite <- (Hw 4%nat _ eq_refl); f_equal; lia. }
    { by rewrite <- (Hw 3%nat _ eq_refl); f_equal; lia. }
    { by rewrite <- (Hw 2%nat _ eq_refl); f_equal; lia. }
    { by rewrite <- (Hw 1%nat _ eq_refl); f_equal; lia. }
    { by rewrite <- (Hw 0%nat _ eq_refl); f_equal; lia. }
    exists s'. split; [rewrite Hrun; exact E|]. do 5 (split; [done|]). split.
    + intros r Hr. destruct (callee_saved_ne r Hr) as [H1 H2]. rewrite R6, Br by done. apply A; [done|]. intros ->. apply H2. set_solver.
    + intros r Hr. by apply R6, scratch_ne.
Qed.

(** RDI carries the frame's address to C, so even a [trap_dispatch] that does nothing loses
    the interrupted RDI: the saved copy is dropped by [addq $120, %rsp], not popped. *)
Lemma interrupted_rdi_lost at_ d v symbol h i code s :
  traps_installed at_ d -> vector_row v symbol h i ->
  (forall e, idt d !! Z.to_nat v = Some e -> 192 <= chosen_stack d e s < 18446744073709551616) ->
  exists a s', interrupt (fun s => s) d v (error_word v code) symbol s = Ret tt s' /\ gpr s' RDI = a /\ a mod 16 = 0.
Proof.
  intros Ht Hrow Hst. destruct (row_gate at_ d v symbol h i Ht Hrow) as (e & He & Hp & _ & <-). specialize (Hst e He).
  pose proof (row_error_word v symbol h _ code Hrow) as Herr. set (error := error_word v code) in *.
  pose proof (Z.mod_pos_bound (chosen_stack d e s) 16 ltac:(lia)) as Hm.
  destruct (entry_run d v symbol h error s e Hrow Herr He Hp) as (s2 & A & Hrun); [lia|].
  set (top := chosen_stack d e s - chosen_stack d e s mod 16) in *. assert (Htop : 176 <= top < 18446744073709551616) by lia.
  pose proof (fun j w Hj => at_call_word s error v top s2 j w A Htop Hj) as Hw.
  destruct (exit_run (fun s => s) s2 (top - 176) (pc s) (cs_selector s) (flags_register s) (gpr s RSP) (ss_selector s))
    as (s' & E & _ & _ & _ & _ & _ & R6 & _); [apply A|lia|lia|..].
  { by rewrite <- (Hw 4%nat _ eq_refl); f_equal; lia. }
  { by rewrite <- (Hw 3%nat _ eq_refl); f_equal; lia. }
  { by rewrite <- (Hw 2%nat _ eq_refl); f_equal; lia. }
  { by rewrite <- (Hw 1%nat _ eq_refl); f_equal; lia. }
  { by rewrite <- (Hw 0%nat _ eq_refl); f_equal; lia. }
  exists (top - 176), s'. split; [rewrite Hrun; exact E|]. split; [rewrite R6 by done; apply A|]. unfold top. clear. div_lia.
Qed.

(** What [print_exception_frame] shows as the kernel's stack pointer is the address of the
    slot in which the processor did push it, 16 to 31 bytes below its value. *)
Lemma kernel_rsp_misreported d e s error v s2 cr2 frame :
  ist e = 0 -> x86_trap_origin_from_cs (cs_selector s) = X86_TRAP_FROM_KERNEL -> 192 <= gpr s RSP < 18446744073709551616 ->
  at_call s error v (chosen_stack d e s - chosen_stack d e s mod 16) s2 ->
  frame_at (words s2) (gpr s2 RDI) cr2 = Some frame ->
  tf_rsp frame = gpr s RSP /\ 16 <= gpr s RSP - interrupted_rsp frame X86_TRAP_FROM_KERNEL < 32.
Proof.
  intros Hi Ho Hs A Hf. assert (Ec : chosen_stack d e s = gpr s RSP) by (unfold chosen_stack; rewrite decide_False by tauto; by rewrite Ho).
  rewrite Ec in A. pose proof (Z.mod_pos_bound (gpr s RSP) 16 ltac:(lia)) as Hm. rewrite (ac_rdi _ _ _ _ _ A) in Hf.
  rewrite (at_call_frame _ _ _ _ _ _ A) in Hf by lia. injection Hf as <-. split; [done|]. simpl. rewrite wrap64_id by (unfold in64; lia). lia.
Qed.
End theory.

(** ** A timer interrupt on a concrete machine *)

Definition running : processor :=
  Processor (fun r => if decide (r = RSP) then 0xffffffff80040128 else 7) 0xffffffff80001000 8 0x202 16 ∅.

(** C code that uses its scratch registers. *)
Definition busy_callee (s : processor) : processor := set_gpr RAX 0 (set_gpr R11 99 s).

Lemma busy_abi a s2 : abi busy_callee a s2.
Proof.
  split; [|done|done]. intros r [_ Hr]%callee_saved_ne. unfold busy_callee. rewrite !gpr_set_ne; [done|..]; intros ->; apply Hr; set_solver.
Qed.

Definition page_fault_row : exception_vector :=
  ExceptionVector 14 "exception_14" 1 X86_IDT_INTERRUPT_GATE X86_IDT_DPL0 X86_IST_NONE "page fault" x86_handle_page_fault.

Lemma page_fault_in : page_fault_row ∈ X86_EXCEPTION_VECTORS.
Proof. by apply (list_elem_of_lookup_2 _ 14). Qed.

(** A page fault, which has an error code. *)
Lemma interrupt_round_trip_witness :
  exists d s', arch_traps_init demo_layout demo_descriptors = Ret tt d /\
    interrupt busy_callee d 14 (Some 2) "exception_14" running = Ret tt s' /\ pc s' = pc running /\ gpr s' RSP = gpr running RSP /\ gpr s' RBX = 7.
Proof.
  destruct (arch_traps_init_run demo_layout demo_descriptors) as (d & E & Hd); [reflexivity| |done|reflexivity|done|].
  { intros s. unfold in64. cbn [stub demo_layout]. pose proof (Z.mod_pos_bound (Z.of_nat (String.length s)) 64). lia. }
  exists d. destruct (interrupt_round_trip demo_layout d 14 "exception_14" true 0 2 running 0) as (e & s2 & _ & _ & Hrt).
  - exact Hd.
  - left. exists page_fault_row. split; [apply page_fault_in|]. done.
  - intros e He. destruct (proj1 Hd page_fault_row page_fault_in) as (e' & He' & Hen). change (idt d !! Z.to_nat 14 = Some e') in He'.
    rewrite He in He'. injection He' as ->. unfold chosen_stack. rewrite (en_ist _ _ _ _ _ Hen). vm_compute. split; done.
  - destruct Hrt as (_ & _ & _ & _ & _ & _ & _ & Hret). destruct (Hret busy_callee (busy_abi _ _)) as (s' & Es & R1 & _ & _ & R4 & _ & R6 & _).
    exists s'. split; [exact E|]. split; [exact Es|]. split; [exact R1|]. split; [exact R4|]. apply R6. left.
Defined.
