(* ===== verification/Typing.v ===== *)
(** * From the keyboard to the line editor

    kernel/console/input_console.c, and what the drivers do together: a key interrupt puts
    bytes into the keyboard's ring and queues its work, the worker thread decodes them into
    events, the input-console thread turns events into characters for the tty. *)

From S2P Require Import Prelude LinkedList Ring PhysMem Switch KState Sched SchedCore WaitQueue Devices DevWait Input Workqueue Keymap Tty TrapVectors Irq Ps2 Traps.

Section console.
Context {H : Type} `{KAlloc H} `{Statics}.
Abbreviation K := (M (kernel (memory H))).

Definition input_console_deliver_key (event : input_event) : K unit :=
  if negb (bool_decide (ev_type event = INPUT_EVENT_KEY)) || bool_decide (ev_value event = 0) then mret tt
  else
    match tty_key_event_to_keysym (ev_code event) (ev_modifiers event) true with
    | None => mret tt
    | Some sym => tty_receive_keysym (Some sym)
    end.

(** One round of the endless loop of [input_console_thread]. *)
Definition input_console_thread (rounds : nat) (others : K unit) : K unit :=
  '(r, event) ← input_read_event rounds others true;
  if negb (bool_decide (r = 0)) then panic "input console read failed"
  else event ← deref (fun _ => event); input_console_deliver_key event.

Definition input_console_init : K unit :=
  tty_init ;;
  t ← kernel_thread_create (Some "input-console"%string) entry_input_console_thread 0;
  if bool_decide (t = 0) then panic "input console thread creation failed" else mret tt.

(** The functions [work_init] was called with. *)
Definition run_work (batch : nat) (f : work_func) (work : Z) : K unit :=
  match f with
  | PS2_KEYBOARD_WORK => ps2_keyboard_work batch
  | WORKQUEUE_SELFTEST_ENTRY => workqueue_selftest_entry
  end.
End console.

(** ** What is typed *)

(** The characters of a key that goes down under the given modifiers. *)
Definition key_text (code modifiers : Z) : list Z :=
  match tty_key_event_to_keysym code modifiers true with
  | None => []
  | Some sym =>
      match tty_keysym_function_string (Some sym) with
      | Some text => text
      | None => tty_keysym_to_utf8 (Some sym) true 4
      end
  end.

Definition typed_text (rs : list report) : list Z :=
  rs ≫= (fun r => if re_pressed r then key_text (re_key r) (re_modifiers r) else []).

Section theory.
Context {H : Type} `{KAlloc H} `{Statics}.
Implicit Types (k : kernel (memory H)) (Q : gmap Z (list Z)) (bs ws cs : list Z) (q : list input_event) (e : editor) (s : decoder).

(** The keyboard, the input core, the work queue and the tty together. *)
Record desk k Q bs s n q ws cs e : Prop := {
  de_kbd : kbd_inv k Q bs s n q;
  de_work : work_inv k Q ws;
  de_tty : tty_inv k Q cs e;
  de_item : exists x, works (devs (kheap k)) !! addr_ps2_work = Some x /\ func x = Some PS2_KEYBOARD_WORK;
  de_irq : exists data, action_at k 1 = Some (IrqAction (Some PS2_KEYBOARD_IRQ_HANDLER) data)
}.

(** Something else happened to the kernel, such as a context switch, that kept the
    keyboard's lock and the wait queues in order. *)
Record carried k Q k' Q' : Prop := {
  ca_wq : wq_inv k' Q';
  ca_dom : forall a, is_Some (Q !! a) -> is_Some (Q' !! a);
  ca_locks : locks k' !! ps2_lock = locks k !! ps2_lock
}.

Lemma drives_carried k Q k' Q' : drives k Q k' Q' -> carried k Q k' Q'.
Proof. intros D. split; [apply D|apply D|by rewrite (drives_locks k Q k' Q')]. Qed.

Lemma input_inv_carried k Q k' Q' q : input_inv k Q q -> carried k Q k' Q' -> iq k' = iq k -> input_inv k' Q' q.
Proof. intros [Iw Iq Ir Irdy] [W D _] E. split; [done|by apply D|by rewrite E|by rewrite E]. Qed.

Lemma kbd_inv_carried k Q k' Q' bs s n q :
  kbd_inv k Q bs s n q -> carried k Q k' Q' -> iq k' = iq k -> kb k' = kb k ->
  input_devs (devs (kheap k')) = input_devs (devs (kheap k)) -> kbd_inv k' Q' bs s n q.
Proof.
  intros [Ii Ir Ib Id Ix Il] C Ei Ek Ed.
  split; [by apply (input_inv_carried k Q)|by rewrite Ek|done|by rewrite Ek|by rewrite Ed|by rewrite (ca_locks _ _ _ _ C)].
Qed.

Lemma work_rep_same d d' ws : work_rep d ws -> works d' = works d -> sysworkq d' = sysworkq d -> work_rep d' ws.
Proof.
  intros [R1 R2 R3 R4] Ew Eq. assert (En : wknext d' = wknext d) by (unfold wknext; by rewrite Ew).
  split; rewrite ?En, ?Ew, ?Eq; done.
Qed.

Lemma work_inv_carried k Q k' Q' ws :
  work_inv k Q ws -> carried k Q k' Q' -> works (devs (kheap k')) = works (devs (kheap k)) ->
  sysworkq (devs (kheap k')) = sysworkq (devs (kheap k)) -> work_inv k' Q' ws.
Proof. intros [Iw Iq R Irdy] [W D _] Ew Eq. split; [done|by apply D|by eapply work_rep_same|by rewrite Eq]. Qed.

Lemma tty_inv_carried k Q k' Q' cs e :
  tty_inv k Q cs e -> carried k Q k' Q' -> td k' = td k -> consoles (devs (kheap k')) = consoles (devs (kheap k)) ->
  console_list (devs (kheap k')) = console_list (devs (kheap k)) -> tty_inv k' Q' cs e.
Proof.
  intros [] [W D _] Et Ec El. split; rewrite ?Et; try done; [by apply D|].
  unfold console_chain, cnext in *. by rewrite Ec, El.
Qed.

Lemma desk_carried k Q k' Q' bs s n q ws cs e :
  desk k Q bs s n q ws cs e -> carried k Q k' Q' -> devs (kheap k') = devs (kheap k) -> desk k' Q' bs s n q ws cs e.
Proof.
  intros [Ik Iw It Ix Ii] C E.
  split; [apply (kbd_inv_carried k Q)|apply (work_inv_carried k Q)|apply (tty_inv_carried k Q)|by rewrite E|unfold action_at in *; by rewrite E];
    try done; unfold iq, kb, td; by rewrite E.
Qed.

(** ** The interrupt *)

(** The ports deliver the bytes [l]: the status port says the output buffer is full, the
    data port gives the byte. *)
Definition on_wire k (l : list Z) : Prop :=
  exists sts rest, port_reads (devs (kheap k)) !! PS2_STATUS_PORT = Some sts /\ (length l <= length sts)%nat /\
    Forall (fun st => Z.land st PS2_STATUS_OUTPUT_FULL <> 0) sts /\
    port_reads (devs (kheap k)) !! PS2_DATA_PORT = Some (l ++ rest).

Definition received (b : Z) sts rest (d : devices) : devices :=
  d <| port_reads ::= (fun m => <[PS2_DATA_PORT := rest]> (<[PS2_STATUS_PORT := sts]> m)) |> <| kbd ::= raw_pushed b |>.

Lemma inb_run k port v rest :
  port_reads (devs (kheap k)) !! port = Some (v :: rest) ->
  inb port k = Ret v (with_devs (fun d => d <| port_reads ::= <[port := rest]> |>) k).
Proof. intros E. unfold inb. by rewrite bind_dev, E. Qed.

Lemma queue_ps2_run k Q ws :
  work_inv k Q ws -> (exists x, works (devs (kheap k)) !! addr_ps2_work = Some x /\ func x = Some PS2_KEYBOARD_WORK) ->
  ws = [] \/ ws = [addr_ps2_work] ->
  exists r k' Q', queue_work addr_ps2_work k = Ret r k' /\ drives k Q k' Q' /\ work_inv k' Q' [addr_ps2_work] /\
    (exists x, works (devs (kheap k')) !! addr_ps2_work = Some x /\ func x = Some PS2_KEYBOARD_WORK) /\
    devs (kheap k') = (devs (kheap k)) <| works := works (devs (kheap k')) |> <| sysworkq := sysworkq (devs (kheap k')) |>.
Proof.
  intros I (x & Hx & Hf) Hws. destruct (wo_queue _ _ _ I) as [l Hl]. destruct Hws as [->| ->].
  - assert (Hp : pending x = 0).
    { destruct (decide (pending x = 0)) as [|Hp]; [done|]. by apply (wr_pending _ _ (wo_rep _ _ _ I) _ x Hx), elem_of_nil in Hp. }
    destruct (queue_work_run k Q [] addr_ps2_work x l I Hl Hx ltac:(congruence) Hp) as (k' & E & P & I').
    assert (Ed : devs (kheap k') = enqueued addr_ps2_work (devs (kheap k))) by by rewrite (po_heap _ _ _ _ _ _ P).
    eexists _, k', _. split; [exact E|]. split; [by eapply drives_posted; [apply I| |]|]. split; [done|]. split.
    + rewrite Ed, (enqueued_self _ _ x Hx); [by eexists|].
      destruct (wr_queue _ _ (wo_rep _ _ _ I)) as [_ ->]. simpl. intros E0.
      pose proof (wr_null _ _ (wo_rep _ _ _ I)) as Hn. rewrite E0 in Hn. congruence.
    + rewrite Ed. unfold enqueued. by destruct (decide _).
  - eexists _, k, Q. split.
    { apply (queue_work_busy k Q [addr_ps2_work] _ x l I Hl Hx); [congruence|].
      apply (wr_pending _ _ (wo_rep _ _ _ I) _ x Hx). left. }
    split; [apply drives_refl, I|]. split; [done|]. split; [by exists x|]. by destruct (devs (kheap k)).
Qed.

Lemma received_inv k Q b sts rest bs s n q ws cs e :
  desk k Q bs s n q ws cs e -> 0 <= b < 256 -> (length bs < 32)%nat ->
  desk (with_devs (received b sts rest) k) Q (bs ++ [b]) s n q ws cs e.
Proof.
  intros [Ik Iw It Ix Ii] Hb Hlen. pose proof (drives_with_devs (received b sts rest) k Q (wo_wq _ _ _ Iw)) as D.
  split; [|by apply (work_inv_carried k Q); [|apply drives_carried| |]|by apply (tty_inv_carried k Q); [|apply drives_carried| | |]|done|done].
  assert (I1 : kbd_inv (with_devs (fun d => d <| kbd ::= raw_pushed b |>) k) Q (bs ++ [b]) s n q).
  { apply (kbd_inv_ring k Q bs); [done|done| |].
    - apply ring_rep_push; [apply Ik|]. destruct (ki_ring _ _ _ _ _ _ Ik) as (_ & _ & _ & -> & _). lia.
    - apply Forall_app. split; [apply Ik|by apply Forall_singleton]. }
  apply (kbd_inv_carried _ Q _ _ _ _ _ _ I1); [|done|done|done]. split; [apply D|done|done].
Qed.

Lemma keyboard_irq_run k Q b l bs s n q ws cs e :
  desk k Q bs s n q ws cs e -> on_wire k (b :: l) -> 0 <= b < 256 -> (length bs < 32)%nat ->
  ws = [] \/ ws = [addr_ps2_work] ->
  exists k' Q', ps2_keyboard_irq k = Ret tt k' /\ drives k Q k' Q' /\ on_wire k' l /\
    desk k' Q' (bs ++ [b]) s n q [addr_ps2_work] cs e /\ shown (devs (kheap k')) = shown (devs (kheap k)).
Proof.
  intros D (sts & rest & Hs & Hlen & Hfull & Hd) Hb Hroom Hws. destruct sts as [|st sts]; [simpl in Hlen; lia|].
  apply Forall_cons in Hfull as [Hst Hfull]. simpl in Hlen.
  set (k1 := with_devs (received b sts (l ++ rest)) k).
  pose proof (received_inv k Q b sts (l ++ rest) bs s n q ws cs e D Hb Hroom) as D1. fold k1 in D1.
  destruct (queue_ps2_run k1 Q ws (de_work _ _ _ _ _ _ _ _ _ D1) (de_item _ _ _ _ _ _ _ _ _ D1) Hws)
    as (r & k2 & Q2 & E2 & S2 & W2 & X2 & Ed2).
  exists k2, Q2. split_and!.
  - pose proof (ki_ring _ _ _ _ _ _ (de_kbd _ _ _ _ _ _ _ _ _ D)) as Ir. pose proof (ring_rep_tail _ _ _ _ _ _ Ir) as Ht.
    pose proof Ir as (Hbuf & _ & _ & Hc & _).
    destruct (lookup_lt_is_Some_2 (raw (kb k)) (Z.to_nat (ps_tail (kb k)))) as [old Hold]; [lia|].
    unfold ps2_keyboard_irq. mrun (inb_run k _ _ _ Hs). rewrite bool_decide_eq_false_2 by done.
    erewrite bind_run by (apply inb_run; simpl; rewrite lookup_insert_ne by done; exact Hd). rewrite with_devs_comp.
    match goal with |- context [with_devs ?f k] => set (f0 := f); set (k0 := with_devs f0 k) end.
    assert (Hl0 : locks k0 !! ps2_lock = Some 0) by apply (ki_lock _ _ _ _ _ _ (de_kbd _ _ _ _ _ _ _ _ _ D)).
    assert (Hd0 : 0 <= spinlock_depth k0) by apply (wi_unlocked _ _ (wo_wq _ _ _ (de_work _ _ _ _ _ _ _ _ _ D))).
    mrun (spin_lock_run k0 ps2_lock Hl0). unfold ps2, set_ps2. rewrite bind_dev.
    change (kbd (devs (kheap (enter ps2_lock k0)))) with (kb k).
    rewrite (bool_decide_eq_false_2 (ps_count (kb k) = PS2_RAW_QUEUE_CAPACITY)) by (unfold PS2_RAW_QUEUE_CAPACITY; lia).
    rewrite bind_dev. unfold slot. erewrite bind_deref by exact Hold. dstep.
    erewrite bind_run by (apply unlock_with_devs; [exact Hl0|exact Hd0]).
    unfold k0. rewrite with_devs_comp.
    match goal with |- context [with_devs ?f k] => rewrite (with_devs_ext f (received b sts (l ++ rest))) end; [by mrun E2|].
    unfold f0, received, raw_pushed, wrap32, PS2_RAW_QUEUE_CAPACITY. simpl. fold (kb k).
    by rewrite (Z.mod_small (ps_tail (kb k) + 1)), (Z.mod_small (ps_count (kb k) + 1)) by lia.
  - eapply drives_trans; [|exact S2]. apply drives_with_devs, (de_work _ _ _ _ _ _ _ _ _ D).
  - exists sts, rest. rewrite Ed2. unfold k1, received. simpl. rewrite lookup_insert_ne, !lookup_insert_eq by done.
    split_and!; [done|lia|done|done].
  - destruct D1 as [Ik Iw It Ix Ii]. pose proof (drives_carried _ _ _ _ S2) as C2.
    split; [apply (kbd_inv_carried k1 Q)|done|apply (tty_inv_carried k1 Q)|done|unfold action_at in *; by rewrite Ed2];
      try done; unfold iq, kb, td; by rewrite Ed2.
  - by rewrite Ed2.
Qed.

(** The keyboard's interrupt, from the trap on. *)
Lemma key_trap_run k Q b l bs s n q ws cs e frame others :
  desk k Q bs s n q ws cs e -> on_wire k (b :: l) -> 0 <= b < 256 -> (length bs < 32)%nat ->
  ws = [] \/ ws = [addr_ps2_work] -> tf_vector frame = X86_LEGACY_IRQ_VECTOR_BASE + 1 ->
  irq_depth k = 0 -> need_resched k = false ->
  exists k' Q', trap_dispatch others frame k = Ret tt k' /\ drives k Q k' Q' /\ on_wire k' l /\
    desk k' Q' (bs ++ [b]) s n q [addr_ps2_work] cs e /\ shown (devs (kheap k')) = shown (devs (kheap k)).
Proof.
  intros D Hw Hb Hroom Hws Hv Hirq Hres. set (ke := k <| irq_depth ::= Z.add 1 |>).
  assert (Ce : carried k Q ke Q).
  { split; [by apply (wq_inv_same k); [apply (de_work _ _ _ _ _ _ _ _ _ D)|..]|done|done]. }
  pose proof (desk_carried k Q ke Q _ _ _ _ _ _ _ D Ce eq_refl) as De.
  destruct (keyboard_irq_run ke Q b l bs s n q ws cs e De Hw Hb Hroom Hws) as (k1 & Q1 & E1 & S1 & W1 & D1 & Sh1).
  set (k2 := wrote (eoi_writes 1) k1). set (k' := k2 <| irq_depth ::= (fun d => d - 1) |>).
  assert (Ek : k' = k <| kheap := kheap k' |> <| threads := threads k' |> <| queues := queues k' |>).
  { unfold k', k2, wrote, with_devs. rewrite (dr_frame _ _ _ _ S1). unfold ke. destruct k. cbn in *. by rewrite Hirq. }
  assert (C1 : carried k1 Q1 k' Q1).
  { split; [|done|done]. apply (wq_inv_same k1); try done. apply S1. }
  exists k', Q1. split_and!.
  - unfold trap_dispatch. rewrite Hv. change (x86_vector_class _) with X86_VECTOR_LEGACY_IRQ. cbv iota.
    unfold sched_irq_enter. rewrite bind_modify. fold ke. destruct (de_irq _ _ _ _ _ _ _ _ _ De) as [data Ha].
    erewrite bind_run.
    2:{ rewrite (handle_irq_run run_irq ke 1 _ ltac:(lia) Ha). cbn [ia_handler run_irq]. mrun E1. apply pic_send_eoi_run. }
    fold k2. unfold x86_trap_exit, sched_irq_exit. rewrite !bind_gets.
    assert (Hd1 : irq_depth k2 = 1) by (unfold k2, wrote; simpl; rewrite (dr_frame _ _ _ _ S1); simpl; lia).
    assert (Hn1 : need_resched k2 = false) by (unfold k2, wrote; simpl; rewrite (dr_frame _ _ _ _ S1); done).
    rewrite Hd1, (bool_decide_eq_false_2 (1 <= 0)) by lia. rewrite bind_modify, bind_gets. fold k'.
    change (irq_depth k') with (irq_depth k2 - 1). rewrite Hd1. rewrite (bool_decide_eq_true_2 (1 - 1 = 0)) by done. cbn [negb].
    rewrite !bind_gets. change (need_resched k') with (need_resched k2). by rewrite Hn1.
  - split; [apply C1|apply S1|apply S1| |exact Ek].
    unfold k', k2, wrote. simpl. by rewrite (dr_heap _ _ _ _ S1).
  - exact W1.
  - destruct D1 as [Ik Iw It Ix Ii].
    split; [by apply (kbd_inv_carried k1 Q1)|by apply (work_inv_carried k1 Q1)|by apply (tty_inv_carried k1 Q1)|done|done].
  - exact Sh1.
Qed.

(** All the bytes of a burst, one interrupt each. *)
Lemma burst_run bs0 : forall k Q bs s n q ws cs e frame others,
  desk k Q bs s n q ws cs e -> on_wire k bs0 -> Forall (fun b => 0 <= b < 256) bs0 -> (length bs + length bs0 <= 32)%nat ->
  ws = [] \/ ws = [addr_ps2_work] -> bs0 <> [] -> tf_vector frame = X86_LEGACY_IRQ_VECTOR_BASE + 1 ->
  irq_depth k = 0 -> need_resched k = false ->
  exists k' Q', for_each bs0 (fun _ => trap_dispatch others frame) k = Ret tt k' /\ drives k Q k' Q' /\
    desk k' Q' (bs ++ bs0) s n q [addr_ps2_work] cs e /\ shown (devs (kheap k')) = shown (devs (kheap k)).
Proof.
  induction bs0 as [|b bs0 IH]; intros k Q bs s n q ws cs e frame others D Hw Hb Hlen Hws Hne Hv Hirq Hres; [done|].
  apply Forall_cons in Hb as [Hb Hbs]. simpl in Hlen.
  destruct (key_trap_run k Q b bs0 bs s n q ws cs e frame others D Hw Hb ltac:(lia) Hws Hv Hirq Hres)
    as (k1 & Q1 & E1 & S1 & W1 & D1 & Sh1). cbn [for_each].
  destruct (decide (bs0 = [])) as [->|Hne0].
  - exists k1, Q1. by mrun E1.
  - destruct (IH k1 Q1 (bs ++ [b]) s n q [addr_ps2_work] cs e frame others D1 W1 Hbs) as (k2 & Q2 & E2 & S2 & D2 & Sh2);
      [rewrite length_app; simpl; lia|by right|done|done|by rewrite (dr_frame _ _ _ _ S1)|by rewrite (dr_frame _ _ _ _ S1)|].
    exists k2, Q2. rewrite <- app_assoc in D2. split_and!; [by mrun E1|by eapply drives_trans|done|congruence].
Qed.

(** ** The kernel's own work functions *)

(** What they need of the rest of the kernel: a keyboard in order, whatever it has sent. *)
Definition keyboard_ok Q k : Prop := exists bs s n q, kbd_inv k Q bs s n q.

Lemma raw_fits k Q bs s n q : kbd_inv k Q bs s n q -> (length bs < 33)%nat.
Proof. intros I. destruct (ki_ring _ _ _ _ _ _ I) as (_ & _ & _ & ? & ? & _). lia. Qed.

(** A ring of 32 bytes is empty after at most 33 rounds. *)
Lemma run_work_well_behaved : well_behaved (run_work 33) keyboard_ok.
Proof.
  split.
  - intros f w k Q ws I (bs & s & n & q & Ik). destruct f.
    + destruct (work_loop_run bs 33 k Q s n q Ik (raw_fits _ _ _ _ _ _ Ik)) as (k' & Q' & E & _ & [D Ed] & Ik').
      exists k', Q'. split; [exact E|]. split; [|by eexists _, _, _, _].
      by apply (work_inv_carried k Q); [|apply drives_carried|rewrite Ed|rewrite Ed].
    + destruct I as [Iw Iq R Irdy]. eexists _, Q. split; [reflexivity|]. split.
      * split; [by apply wq_inv_with_devs|done| |done]. destruct R. by split.
      * exists bs, s, n, q. apply (kbd_inv_carried k Q); [done| |done..]. by apply drives_carried, drives_with_devs.
  - intros w n k Q Iw (bs & s & m & q & Ik). exists bs, s, m, q.
    apply (kbd_inv_carried k Q); [done| |done..]. by apply drives_carried, drives_with_devs.
Qed.

(** ** The worker thread *)

Lemma worker_run k Q bs s n q cs e t x m w batch others :
  desk k Q bs s n q [addr_ps2_work] cs e -> may_block k t x -> (length bs < batch)%nat ->
  (length q + length (decode_bytes bs s).2 <= 64)%nat ->
  exists k' Q', workqueue_round (run_work batch) (S m) (S (S w)) others k = Ret tt k' /\ drives k Q k' Q' /\
    desk k' Q' [] (decode_bytes bs s).1 n (q ++ (to_event n (tick_count k) <$> (decode_bytes bs s).2)) [] cs e /\
    shown (devs (kheap k')) = shown (devs (kheap k)).
Proof.
  intros [Ik Iw It (y & Hy & Hf) Ii] Hb Hbatch Hroom. destruct (wo_queue _ _ _ Iw) as [l Hl].
  destruct (workqueue_pop_run k Q addr_ps2_work [] Iw) as (y' & Hy' & Epop & Iw1). assert (y' = y) as -> by congruence.
  set (k1 := with_devs (dequeued_work addr_ps2_work (wk_next y)) k) in *.
  pose proof (drives_with_devs (dequeued_work addr_ps2_work (wk_next y)) k Q (wo_wq _ _ _ Iw)) as S1. fold k1 in S1.
  assert (Hw0 : addr_ps2_work <> 0) by (intros E0; rewrite E0 in Hy; by rewrite (wr_null _ _ (wo_rep _ _ _ Iw)) in Hy).
  assert (Hx1 : works (devs (kheap k1)) !! addr_ps2_work = Some (y <| wk_next := 0 |> <| pending := 0 |>)).
  { unfold k1. simpl. by rewrite lookup_alter_eq, Hy. }
  assert (Ik1 : kbd_inv k1 Q bs s n q) by by apply (kbd_inv_carried k Q); [|apply drives_carried| | |].
  destruct (work_loop_run bs batch k1 Q s n q Ik1 Hbatch) as (k2 & Q2 & E2 & _ & S2 & Ik2).
  rewrite accept_room in Ik2 by by rewrite length_fmap. destruct S2 as [S2 Ed2].
  assert (Iw2 : work_inv k2 Q2 []) by (apply (work_inv_carried k1 Q); [done|by apply drives_carried|by rewrite Ed2|by rewrite Ed2]).
  exists k2, Q2. split_and!.
  - unfold workqueue_round.
    assert (Hc : work_waiting (devs (kheap k)) <> 0).
    { destruct (wr_queue _ _ (wo_rep _ _ _ Iw)) as [(E & Hw & _) _]. unfold work_waiting. by rewrite E, bool_decide_eq_false_2. }
    mrun (wait_dev_now k Q addr_wq_wait l t x work_waiting m others (wo_wq _ _ _ Iw) Hl Hb Hc). rewrite bool_decide_eq_true_2 by done.
    cbn [negb]. rewrite loop_S.
    assert (Estep : drain_loop (run_work batch) tt k = Ret (inl tt) k2).
    { unfold drain_loop. mrun Epop. rewrite bool_decide_eq_false_2 by done. mrun (work_at_run _ _ k1 Hx1). simpl func.
      erewrite bind_deref by exact Hf. cbn [run_work]. unfold ps2_keyboard_work. by mrun E2. }
    mrun Estep. rewrite loop_S. unfold drain_loop. rewrite bind_assoc. by mrun (workqueue_pop_empty k2 Q2 Iw2).
  - by eapply drives_trans.
  - split; [exact Ik2|done| |rewrite Ed2; by eexists|unfold action_at in *; by rewrite Ed2].
    apply (tty_inv_carried k Q); [done|by apply drives_carried; eapply drives_trans|..]; unfold td; by rewrite Ed2.
  - by rewrite Ed2.
Qed.

(** ** The input-console thread *)

Definition event_text (ev : input_event) : list Z :=
  if decide (ev_type ev = INPUT_EVENT_KEY /\ ev_value ev <> 0) then key_text (ev_code ev) (ev_modifiers ev) else [].

Lemma event_text_report n now r : event_text (to_event n now r) = if re_pressed r then key_text (re_key r) (re_modifiers r) else [].
Proof. unfold event_text, to_event. simpl. destruct (re_pressed r); [by rewrite decide_True|rewrite decide_False by naive_solver; done]. Qed.

Lemma deliver_run ev k Q cs e :
  tty_inv k Q cs e ->
  exists k' Q', input_console_deliver_key ev k = Ret tt k' /\ tty_step k Q k' Q' /\
    tty_inv k' Q' cs (editor_run (event_text ev) e).1 /\
    (forall c, shows cs c -> screen (devs (kheap k')) c = screen (devs (kheap k)) c ++ (editor_run (event_text ev) e).2).
Proof.
  intros I. destruct (for_each_receive (event_text ev) k Q cs e I) as (k' & Q' & E & R).
  exists k', Q'. split; [|done]. rewrite <- E. unfold input_console_deliver_key, event_text, key_text.
  destruct (decide (ev_type ev = INPUT_EVENT_KEY /\ ev_value ev <> 0)) as [[Ht Hv]|Hn].
  - rewrite (bool_decide_eq_true_2 (ev_type ev = _)), (bool_decide_eq_false_2 (ev_value ev = 0)) by done. cbn [negb orb].
    destruct (tty_key_event_to_keysym _ _ _) as [sym|]; [|done]. unfold tty_receive_keysym. by destruct (tty_keysym_function_string _).
  - rewrite <- bool_decide_not, <- bool_decide_or, bool_decide_eq_true_2; [done|].
    destruct (decide (ev_type ev = INPUT_EVENT_KEY)), (decide (ev_value ev = 0)); tauto.
Qed.

Lemma console_round_run ev k Q bs s n q ws cs e t x m others :
  desk k Q bs s n (ev :: q) ws cs e -> may_block k t x ->
  exists k' Q', input_console_thread (S m) others k = Ret tt k' /\ drives k Q k' Q' /\
    desk k' Q' bs s n q ws cs (editor_run (event_text ev) e).1 /\
    (forall c, shows cs c -> screen (devs (kheap k')) c = screen (devs (kheap k)) c ++ (editor_run (event_text ev) e).2).
Proof.
  intros [Ik Iw It Ix Ii] Hb. pose proof (ki_input _ _ _ _ _ _ Ik) as In.
  set (k1 := with_devs (fun d => d <| inputq ::= popped |>) k).
  pose proof (drives_with_devs (fun d => d <| inputq ::= popped |>) k Q (wo_wq _ _ _ Iw)) as S1. fold k1 in S1.
  assert (It1 : tty_inv k1 Q cs e) by by apply (tty_inv_carried k Q); [|apply drives_carried| | |].
  destruct (deliver_run ev k1 Q cs e It1) as (k2 & Q2 & E2 & [S2 Ed2] & It2 & Sc2).
  assert (S12 : drives k Q k2 Q2) by by eapply drives_trans.
  exists k2, Q2. split_and!.
  - unfold input_console_thread. mrun (input_read_now k Q ev q t x m others In Hb). simpl. by erewrite bind_deref by done.
  - done.
  - split; [|by apply (work_inv_carried k Q); [|apply drives_carried|rewrite Ed2|rewrite Ed2]|done|by rewrite Ed2|unfold action_at in *; by rewrite Ed2].
    destruct Ik as [Ik1 Ik2 Ik3 Ik4 Ik5 Ik6]. split; [|unfold kb; by rewrite Ed2|done|unfold kb; by rewrite Ed2|by rewrite Ed2|].
    + apply (input_inv_carried k1 Q); [by apply (popped_inv k Q q ev)|by apply drives_carried|unfold iq; by rewrite Ed2].
    + by rewrite (drives_locks _ _ _ _ S12).
  - exact Sc2.
Qed.

Lemma console_rounds_run q : forall k Q bs s n ws cs e t x m others,
  desk k Q bs s n q ws cs e -> may_block k t x ->
  exists k' Q', for_each q (fun _ => input_console_thread (S m) others) k = Ret tt k' /\ drives k Q k' Q' /\
    desk k' Q' bs s n [] ws cs (editor_run (q ≫= event_text) e).1 /\
    (forall c, shows cs c -> screen (devs (kheap k')) c = screen (devs (kheap k)) c ++ (editor_run (q ≫= event_text) e).2).
Proof.
  induction q as [|ev q IH]; intros k Q bs s n ws cs e t x m others D Hb; cbn [for_each].
  - exists k, Q. split_and!; [done|apply drives_refl, (de_work _ _ _ _ _ _ _ _ _ D)|done|]. intros c _. by rewrite app_nil_r.
  - destruct (console_round_run ev k Q bs s n q ws cs e t x m others D Hb) as (k1 & Q1 & E1 & S1 & D1 & Sc1).
    destruct (IH k1 Q1 bs s n ws cs _ t x m others D1 (drives_may_block _ _ _ _ _ _ S1 Hb)) as (k2 & Q2 & E2 & S2 & D2 & Sc2).
    exists k2, Q2. rewrite bind_cons, editor_run_app. simpl. split_and!; [by mrun E1|by eapply drives_trans|done|].
    intros c Hs. by rewrite (Sc2 c Hs), (Sc1 c Hs), app_assoc.
Qed.

(** ** The whole way *)

Lemma reports_length ms : forall h, length (reports ms h) = length ms.
Proof. induction ms as [|m ms IH]; intros h; simpl; [done|]. by rewrite IH. Qed.

Lemma wire_length ms : (length ms <= length (ms ≫= wire))%nat.
Proof.
  induction ms as [|m ms IH]; [done|]. rewrite bind_cons, length_app. unfold wire at 1. rewrite length_app. simpl. lia.
Qed.

Lemma for_each_length {S A B} (l : list A) : forall (l' : list B) (c : M S unit) st,
  length l = length l' -> for_each l (fun _ => c) st = for_each l' (fun _ => c) st.
Proof.
  induction l as [|a l IH]; intros [|b l'] c st E; [done|done|done|]. simpl in *. apply bind_ext. intros [] st' _. apply IH. lia.
Qed.

Lemma typed_events n now rs : (to_event n now <$> rs) ≫= event_text = typed_text rs.
Proof.
  induction rs as [|r rs IH]; [done|]. unfold typed_text in *. by rewrite fmap_cons, !bind_cons, event_text_report, IH.
Qed.

(** A context switch: other threads ran, but no driver. *)
Record handover k Q k' Q' : Prop := {
  ho_carried : carried k Q k' Q';
  ho_devs : devs (kheap k') = devs (kheap k)
}.

(** C10. From the keyboard to the line: a burst of movements of known keys, at most 32 bytes
    (the keyboard's ring; more would be lost), in which only held keys go up and no key goes
    up while both keys of one modifier are held, arrives as one keyboard interrupt per byte;
    a round of the worker thread decodes them, and one round of the input-console thread
    per movement edits them, each thread running when it is handed the processor.  Then
    every queue on the way is empty again, the keyboard's modifiers are those of the hands
    after the movements, and the line editor has received exactly the characters of the
    keys that went down, under the modifiers that were active then, in order; every console
    shows their echo. *)
Theorem keys_reach_editor ms k Q h n cs e frame others :
  desk k Q [] (Decoder (modifier_bits h) false 0) n [] [] cs e ->
  Forall known ms -> movable ms h -> ms <> [] -> (length (ms ≫= wire) <= 32)%nat -> on_wire k (ms ≫= wire) ->
  tf_vector frame = X86_LEGACY_IRQ_VECTOR_BASE + 1 -> irq_depth k = 0 -> need_resched k = false ->
  exists k1 Q1, for_each (ms ≫= wire) (fun _ => trap_dispatch others frame) k = Ret tt k1 /\ drives k Q k1 Q1 /\
  forall k2 Q2 t2 x2, handover k1 Q1 k2 Q2 -> may_block k2 t2 x2 ->
  exists k3 Q3, workqueue_round (run_work 33) 1 2 others k2 = Ret tt k3 /\ drives k2 Q2 k3 Q3 /\
  forall k4 Q4 t4 x4, handover k3 Q3 k4 Q4 -> may_block k4 t4 x4 ->
  exists k5 Q5, for_each ms (fun _ => input_console_thread 1 others) k4 = Ret tt k5 /\
    desk k5 Q5 [] (Decoder (modifier_bits (hands_after ms h)) false 0) n [] [] cs (editor_run (typed_text (reports ms h)) e).1 /\
    forall c, shows cs c -> screen (devs (kheap k5)) c =
      screen (devs (kheap k)) c ++ (editor_run (typed_text (reports ms h)) e).2.
Proof.
  intros D Hk Hm Hne Hlen Hw Hv Hirq Hres. pose proof (decode_moves ms h Hk Hm) as Edec.
  assert (Hbs : ms ≫= wire <> []).
  { intros E. pose proof (wire_length ms) as Hl. rewrite E in Hl. destruct ms; [done|simpl in Hl; lia]. }
  destruct (burst_run (ms ≫= wire) k Q [] _ n [] [] cs e frame others D Hw (wire_bytes ms Hk) Hlen ltac:(by left) Hbs Hv Hirq Hres)
    as (k1 & Q1 & E1 & S1 & D1 & Sh1). simpl in D1. exists k1, Q1. split; [done|]. split; [done|]. intros k2 Q2 t2 x2 [C2 Ed2] Hb2.
  pose proof (desk_carried _ _ _ _ _ _ _ _ _ _ _ D1 C2 Ed2) as D2.
  destruct (worker_run k2 Q2 (ms ≫= wire) _ n [] cs e t2 x2 0 0 33 others D2 Hb2 ltac:(lia)) as (k3 & Q3 & E3 & S3 & D3 & Sh3).
  { rewrite Edec. simpl. rewrite reports_length. pose proof (wire_length ms). lia. }
  rewrite Edec in D3. simpl in D3. exists k3, Q3. split; [done|]. split; [done|]. intros k4 Q4 t4 x4 [C4 Ed4] Hb4.
  pose proof (desk_carried _ _ _ _ _ _ _ _ _ _ _ D3 C4 Ed4) as D4.
  destruct (console_rounds_run _ k4 Q4 _ _ n _ cs e t4 x4 0 others D4 Hb4) as (k5 & Q5 & E5 & _ & D5 & Sc5).
  rewrite typed_events in D5, Sc5. exists k5, Q5. split_and!; [|done|].
  - rewrite <- E5. apply for_each_length. by rewrite length_fmap, reports_length.
  - intros c Hs. rewrite (Sc5 c Hs). f_equal. unfold screen. by rewrite Ed4, Sh3, Ed2, Sh1.
Qed.
End theory.
