(* ===== verification/Kdb.v ===== *)
(** * kernel/debug/kdb.c: the debugger shell

    A thread that reads lines from the tty and answers a few commands on the consoles. *)

From S2P Require Import Prelude LinkedList Ring PhysMem Switch KState Sched SchedCore WaitQueue Devices Printk DevWait Input Keymap Tty Typing.

Definition KDB_LINE_LENGTH : Z := 128.
Definition KDB_PROMPT : list Z := str "tianole> ".

(** The string in a buffer: its bytes before the first NUL. *)
Fixpoint c_string (l : list Z) : list Z :=
  match l with
  | [] => []
  | c :: l => if bool_decide (c = 0) then [] else c :: c_string l
  end.

(** Strings are their bytes before the NUL. *)
Fixpoint kdb_streq (l r : list Z) : bool :=
  match l, r with
  | x :: l, y :: r => if bool_decide (x = y) then kdb_streq l r else false
  | [], [] => true
  | _, _ => false
  end.

Fixpoint kdb_starts_with (text prefix : list Z) : bool :=
  match prefix with
  | [] => true
  | y :: prefix =>
      match text with
      | x :: text => if bool_decide (x = y) then kdb_starts_with text prefix else false
      | [] => false
      end
  end.

Fixpoint kdb_skip_spaces (line : list Z) : list Z :=
  match line with
  | c :: rest => if bool_decide (c = 32) || bool_decide (c = 9) then kdb_skip_spaces rest else line
  | [] => []
  end.

(** [while (value != 0)] storing to [digits[20]]; [None] past its end. *)
Fixpoint kdb_digit_loop (fuel : nat) (value : Z) (digits : list Z) : option (list Z) :=
  match fuel with
  | O => None
  | S fuel =>
      if bool_decide (value = 0) then Some digits
      else if bool_decide (length digits < 20)%nat then kdb_digit_loop fuel (value / 10) (digits ++ [48 + value mod 10])
      else None
  end.

Section kdb.
Context {H : Type} `{KAlloc H} `{Statics}.
Abbreviation K := (M (kernel (memory H))).

Definition say (text : list Z) : K unit := tty_write_string (Some text).

Definition kdb_print_help : K unit :=
  say (str "commands:" ++ [10]) ;;
  say (str "  help        show this help" ++ [10]) ;;
  say (str "  ticks       show timer ticks" ++ [10]) ;;
  say (str "  drops       show input and line drops" ++ [10]) ;;
  say (str "  keys        show the most recent input event" ++ [10]) ;;
  say (str "  echo TEXT   print TEXT" ++ [10]).

(** The argument is converted to [unsigned long long]. *)
Definition kdb_print_u64_decimal (arg : Z) : K unit :=
  let value := wrap64 arg in
  if bool_decide (value = 0) then say (str "0")
  else
    digits ← deref (fun _ => kdb_digit_loop 65 value []);
    for_each (reverse digits) (fun digit => tty_write [digit]).

Definition kdb_print_escaped_bytes (bytes : list Z) : K unit :=
  for_each bytes (fun ch =>
    if bool_decide (ch = 27) then say (str "\e")
    else if bool_decide (ch = 10) then say (str "\n")
    else if bool_decide (ch = 9) then say (str "\t")
    else if bool_decide (ch = 8) then say (str "\b")
    else tty_write [ch]).

Definition kdb_print_ticks : K unit :=
  say (str "ticks=") ;;
  t ← timer_ticks;
  kdb_print_u64_decimal t ;;
  say [10].

Definition kdb_print_drops : K unit :=
  say (str "input_drops=") ;;
  n ← input_dropped_events;
  kdb_print_u64_decimal n ;;
  say (str " line_drops=") ;;
  n ← tty_dropped_lines;
  kdb_print_u64_decimal n ;;
  say [10].

Definition kdb_print_keys : K unit :=
  '(r, event) ← input_last_event true;
  if negb (bool_decide (r = 0)) then say (str "no input event" ++ [10])
  else
    event ← deref (fun _ => event);
    say (str "key code=") ;;
    kdb_print_u64_decimal (ev_code event) ;;
    say (str " value=") ;;
    kdb_print_u64_decimal (ev_value event) ;;
    say (str " modifiers=") ;;
    kdb_print_u64_decimal (ev_modifiers event) ;;
    match tty_key_event_to_keysym (ev_code event) (ev_modifiers event) true with
    | None => mret tt
    | Some sym =>
        say (str " keysym=") ;;
        kdb_print_u64_decimal (sym_value sym) ;;
        let bytes := tty_keysym_to_utf8 (Some sym) true 4 in
        if negb (bool_decide (bytes = [])) then say (str " utf8=") ;; tty_write bytes
        else
          match tty_keysym_function_string (Some sym) with
          | None => mret tt
          | Some function => say (str " func=") ;; kdb_print_escaped_bytes function
          end
    end ;;
    say [10].

Definition kdb_run_command (line : list Z) : K unit :=
  let command := kdb_skip_spaces line in
  let unknown := say (str "unknown command: ") ;; say command ;; say [10] in
  match command with
  | [] => mret tt
  | _ =>
      if kdb_streq command (str "help") then kdb_print_help
      else if kdb_streq command (str "ticks") then kdb_print_ticks
      else if kdb_streq command (str "drops") then kdb_print_drops
      else if kdb_streq command (str "keys") then kdb_print_keys
      else if kdb_starts_with command (str "echo") then
        let text := drop 4 command in
        match text with
        | [] => say (kdb_skip_spaces text) ;; say [10]
        | c :: _ =>
            if negb (bool_decide (c = 32)) && negb (bool_decide (c = 9)) then unknown
            else say (kdb_skip_spaces text) ;; say [10]
        end
      else unknown
  end.

(** What [kdb_thread] does before its loop, and one round of the loop. *)
Definition kdb_thread_start : K unit :=
  say (str "early kdb ready" ++ [10]) ;;
  say KDB_PROMPT.

Definition kdb_thread (rounds : nat) (others : K unit) : K unit :=
  '(ret, line) ← tty_read_line rounds others true KDB_LINE_LENGTH;
  if bool_decide (ret < 0) then panic "kdb read failed"
  else
    line ← deref (fun _ => line);
    kdb_run_command (c_string line) ;;
    say KDB_PROMPT.

Definition kdb_init : K unit :=
  t ← kernel_thread_create (Some "kdb"%string) entry_kdb_thread 0;
  if bool_decide (t = 0) then panic "kdb thread creation failed" else mret tt.
End kdb.

(** ** What the shell answers *)

Inductive command :=
| Nothing
| Help
| Ticks
| Drops
| Keys
| Echo (text : list Z)
| Unknown (line : list Z).

Definition spaces : list Z := [32; 9].

(** A line, its leading blanks left out. *)
Definition parse_command (line : list Z) : command :=
  if decide (line = []) then Nothing
  else if decide (line = str "help") then Help
  else if decide (line = str "ticks") then Ticks
  else if decide (line = str "drops") then Drops
  else if decide (line = str "keys") then Keys
  else if decide (take 4 line = str "echo" /\ Forall (fun c => c ∈ spaces) (take 1 (drop 4 line)))
    then Echo (kdb_skip_spaces (drop 4 line))
  else Unknown line.

(** What the commands report. *)
Record status := Status {
  st_ticks : Z;
  st_input_drops : Z;
  st_line_drops : Z;
  st_last : option input_event
}.

Definition decimal (v : Z) (text : list Z) : Prop := exists ds, numeral 10 v ds /\ text = (fun d => 48 + d) <$> ds.

Definition escape (ch : Z) : list Z :=
  if decide (ch = 27) then str "\e" else if decide (ch = 10) then str "\n"
  else if decide (ch = 9) then str "\t" else if decide (ch = 8) then str "\b" else [ch].

(** The symbol of a key event and the bytes it types. *)
Inductive keysym_reply (ev : input_event) : list Z -> Prop :=
| keysym_none : tty_key_event_to_keysym (ev_code ev) (ev_modifiers ev) true = None -> keysym_reply ev []
| keysym_char sym t :
    tty_key_event_to_keysym (ev_code ev) (ev_modifiers ev) true = Some sym -> decimal (wrap64 (sym_value sym)) t ->
    tty_keysym_to_utf8 (Some sym) true 4 <> [] ->
    keysym_reply ev (str " keysym=" ++ t ++ str " utf8=" ++ tty_keysym_to_utf8 (Some sym) true 4)
| keysym_function sym t f :
    tty_key_event_to_keysym (ev_code ev) (ev_modifiers ev) true = Some sym -> decimal (wrap64 (sym_value sym)) t ->
    tty_keysym_to_utf8 (Some sym) true 4 = [] -> tty_keysym_function_string (Some sym) = Some f ->
    keysym_reply ev (str " keysym=" ++ t ++ str " func=" ++ (f ≫= escape))
| keysym_bare sym t :
    tty_key_event_to_keysym (ev_code ev) (ev_modifiers ev) true = Some sym -> decimal (wrap64 (sym_value sym)) t ->
    tty_keysym_to_utf8 (Some sym) true 4 = [] -> tty_keysym_function_string (Some sym) = None ->
    keysym_reply ev (str " keysym=" ++ t).

Definition help_text : list Z :=
  (str "commands:" ++ [10]) ++ (str "  help        show this help" ++ [10]) ++
  (str "  ticks       show timer ticks" ++ [10]) ++ (str "  drops       show input and line drops" ++ [10]) ++
  (str "  keys        show the most recent input event" ++ [10]) ++ (str "  echo TEXT   print TEXT" ++ [10]).

Inductive reply (s : status) : command -> list Z -> Prop :=
| reply_nothing : reply s Nothing []
| reply_help : reply s Help help_text
| reply_ticks t : decimal (wrap64 (st_ticks s)) t -> reply s Ticks (str "ticks=" ++ t ++ [10])
| reply_drops t u : decimal (wrap64 (st_input_drops s)) t -> decimal (wrap64 (st_line_drops s)) u ->
    reply s Drops (str "input_drops=" ++ t ++ str " line_drops=" ++ u ++ [10])
| reply_no_key : st_last s = None -> reply s Keys (str "no input event" ++ [10])
| reply_key ev c v m sym : st_last s = Some ev ->
    decimal (wrap64 (ev_code ev)) c -> decimal (wrap64 (ev_value ev)) v -> decimal (wrap64 (ev_modifiers ev)) m ->
    keysym_reply ev sym ->
    reply s Keys (str "key code=" ++ c ++ str " value=" ++ v ++ str " modifiers=" ++ m ++ sym ++ [10])
| reply_echo text : reply s (Echo text) (text ++ [10])
| reply_unknown line : reply s (Unknown line) (str "unknown command: " ++ line ++ [10]).

Section theory.
Context {H : Type} `{KAlloc H} `{Statics}.
Implicit Types (k : kernel (memory H)) (Q : gmap Z (list Z)) (cs : list Z) (e : editor).

Lemma kdb_streq_spec l r : kdb_streq l r = bool_decide (l = r).
Proof.
  revert r. induction l as [|x l IH]; intros [|y r]; simpl; [done|done|done|].
  rewrite IH. destruct (decide (x = y)) as [->|Hne].
  - rewrite (bool_decide_eq_true_2 (y = y)) by done. apply bool_decide_ext. split; congruence.
  - rewrite (bool_decide_eq_false_2 (x = y)), bool_decide_eq_false_2 by congruence. done.
Qed.

Lemma kdb_starts_with_spec text prefix :
  kdb_starts_with text prefix = bool_decide (take (length prefix) text = prefix).
Proof.
  revert text. induction prefix as [|y prefix IH]; intros text; simpl; [by destruct text|].
  destruct text as [|x text]; simpl; [done|]. rewrite IH. destruct (decide (x = y)) as [->|Hne].
  - rewrite (bool_decide_eq_true_2 (y = y)) by done. apply bool_decide_ext. split; congruence.
  - rewrite (bool_decide_eq_false_2 (x = y)), bool_decide_eq_false_2 by congruence. done.
Qed.

(** ** Printing *)

(** [m] does nothing but show [out] on the consoles. *)
Definition prints cs (m : M (kernel (memory H)) unit) (out : list Z) : Prop :=
  forall k, console_chain (devs (kheap k)) cs -> m k = Ret tt (echoed cs (crlf out) k).

Lemma echoed_app cs a b k : echoed cs b (echoed cs a k) = echoed cs (a ++ b) k.
Proof. unfold echoed. rewrite with_devs_comp. apply with_devs_ext. cbn. by rewrite bind_app, <- app_assoc. Qed.

Lemma echoed_nil cs k : echoed cs [] k = k.
Proof. apply with_devs_id. destruct (devs (kheap k)). cbn. by rewrite app_nil_r. Qed.

Lemma prints_ret cs : prints cs (mret tt) [].
Proof. intros k _. by rewrite echoed_nil. Qed.

Lemma prints_write cs text : prints cs (tty_write text) text.
Proof. intros k Hc. by rewrite (tty_write_run text k cs Hc). Qed.

Lemma prints_say cs text : prints cs (say text) text.
Proof. apply prints_write. Qed.

Lemma prints_seq cs m1 m2 a b : prints cs m1 a -> prints cs m2 b -> prints cs (m1 ;; m2) (a ++ b).
Proof.
  intros P1 P2 k Hc. rewrite (bind_run _ _ _ _ _ (P1 k Hc)), (P2 (echoed cs (crlf a) k)) by done.
  by rewrite echoed_app, <- crlf_app.
Qed.

Lemma prints_then {A} cs m out (c : unit -> M (kernel (memory H)) A) k :
  prints cs m out -> console_chain (devs (kheap k)) cs -> (x ← m; c x) k = c tt (echoed cs (crlf out) k).
Proof. intros P Hc. exact (bind_run _ _ _ _ _ (P k Hc)). Qed.

Lemma prints_each {A} cs (l : list A) (body : A -> M (kernel (memory H)) unit) (f : A -> list Z) :
  (forall x, prints cs (body x) (f x)) -> prints cs (for_each l body) (l ≫= f).
Proof.
  intros Hb. induction l as [|x l IH]; [apply prints_ret|]. rewrite bind_cons. by apply prints_seq.
Qed.

(** The shell's digit array is as large as printk's needs to be. *)
Lemma digit_loop_grows fuel v base acc ds : digit_loop fuel v base acc = Some ds -> (length acc <= length ds)%nat.
Proof.
  revert v acc. induction fuel as [|fuel IH]; intros v acc; [done|]. cbn [digit_loop].
  case_bool_decide; [intros [= <-]; done|]. case_bool_decide; [|done]. intros E%IH.
  rewrite length_app in E. simpl in E. lia.
Qed.

Lemma kdb_digit_loop_digits fuel v acc ds : digit_loop fuel v 10 acc = Some ds -> (length ds <= 20)%nat ->
  kdb_digit_loop fuel v ((fun d => 48 + d) <$> acc) = Some ((fun d => 48 + d) <$> ds).
Proof.
  revert v acc. induction fuel as [|fuel IH]; intros v acc; [done|]. cbn [digit_loop kdb_digit_loop].
  destruct (decide (v = 0)) as [->|Hv].
  - rewrite !(bool_decide_eq_true_2 (0 = 0)) by done. by intros [= ->].
  - rewrite !(bool_decide_eq_false_2 (v = 0)) by done.
    case_bool_decide as H32; [|done]. intros E Hl. pose proof (digit_loop_grows _ _ _ _ _ E) as Hg.
    rewrite length_app in Hg. simpl in Hg.
    rewrite bool_decide_eq_true_2 by (rewrite length_fmap; lia). rewrite <- (IH _ _ E Hl). by rewrite fmap_app.
Qed.

Lemma kdb_print_decimal cs v : exists t, decimal (wrap64 v) t /\ prints cs (kdb_print_u64_decimal v) t.
Proof.
  pose proof (wrap64_in v) as Hin. unfold kdb_print_u64_decimal.
  destruct (digits_of_10 (wrap64 v) Hin) as (ds & Eds & Hlen & Hnum).
  exists ((fun d => 48 + d) <$> reverse ds). split; [by exists (reverse ds)|]. unfold digits_of in Eds.
  case_bool_decide as Hz; [injection Eds as <-; exact (prints_say cs (str "0"))|].
  pose proof (kdb_digit_loop_digits _ _ _ _ Eds ltac:(lia)) as Ek. rewrite fmap_nil in Ek. intros k Hc.
  erewrite (bind_deref (fun _ => kdb_digit_loop 65 (wrap64 v) [])) by exact Ek. rewrite <- fmap_reverse.
  rewrite (prints_each cs _ _ (fun d => [d]) (fun d => prints_write cs [d]) k Hc).
  assert (Es : forall l : list Z, l ≫= (fun d => [d]) = l)
    by (induction l as [|x l IH]; [done|by rewrite bind_cons, IH]).
  by rewrite Es.
Qed.

Lemma prints_escaped cs bytes : prints cs (kdb_print_escaped_bytes bytes) (bytes ≫= escape).
Proof.
  apply prints_each. intros ch. unfold escape.
  repeat (case_bool_decide; [rewrite decide_True by done; apply prints_say|rewrite decide_False by done]).
  apply prints_write.
Qed.

Lemma prints_help cs : prints cs kdb_print_help help_text.
Proof.
  unfold kdb_print_help, help_text. do 5 (apply prints_seq; [apply prints_say|]). apply prints_say.
Qed.

(** ** Commands *)

(** What there is to report. *)
Definition status_of k : status :=
  Status (tick_count k) (iq_dropped (iq k)) (tl_dropped (td k))
    (if bool_decide (iq_has_last (iq k) = 0) then None else Some (iq_last (iq k))).

Lemma input_inv_echoed k Q q cs out : input_inv k Q q -> input_inv (echoed cs out k) Q q.
Proof. intros []. split; try done. by apply wq_inv_with_devs. Qed.

Lemma input_dropped_run k Q q : input_inv k Q q -> input_dropped_events k = Ret (iq_dropped (iq k)) k.
Proof.
  intros I. unfold input_dropped_events, inq. dstep. change (inputq (devs (kheap k))) with (iq k).
  rewrite (bool_decide_eq_false_2 (iq_initialized (iq k) = 0)) by apply I. destruct (in_queue _ _ _ I) as [l Hl].
  rewrite (bind_wait_lock k Q _ l) by (done || apply I). dstep.
  by rewrite (bind_wait_unlock_id k Q _ l) by (done || apply I).
Qed.

Lemma input_last_run k Q q : input_inv k Q q ->
  input_last_event true k =
  Ret (if bool_decide (iq_has_last (iq k) = 0) then (- EAGAIN, None) else (0, Some (iq_last (iq k)))) k.
Proof.
  intros I. unfold input_last_event, inq. dstep. change (inputq (devs (kheap k))) with (iq k).
  rewrite (bool_decide_eq_false_2 (iq_initialized (iq k) = 0)) by apply I. cbn [orb negb]. destruct (in_queue _ _ _ I) as [l Hl].
  rewrite (bind_wait_lock k Q _ l) by (done || apply I). dstep.
  change (inputq (devs (kheap (enter (QueueLock addr_input_wait) k)))) with (iq k).
  case_bool_decide; dstep; by rewrite (bind_wait_unlock_id k Q _ l) by (done || apply I).
Qed.

Lemma tty_dropped_run k Q cs e : tty_inv k Q cs e -> tty_dropped_lines k = Ret (tl_dropped (td k)) k.
Proof.
  intros I. unfold tty_dropped_lines, tt_. dstep. change (tty (devs (kheap k))) with (td k).
  rewrite (bool_decide_eq_false_2 (tty_ready (td k) = 0)) by apply I. destruct (ti_queue _ _ _ _ I) as [l Hl].
  rewrite (bind_wait_lock k Q _ l) by (done || apply I). dstep.
  by rewrite (bind_wait_unlock_id k Q _ l) by (done || apply I).
Qed.

Lemma kdb_keysym_prints cs ev :
  exists t, keysym_reply ev t /\
    prints cs (match tty_key_event_to_keysym (ev_code ev) (ev_modifiers ev) true with
      | None => mret tt
      | Some sym =>
          say (str " keysym=") ;;
          kdb_print_u64_decimal (sym_value sym) ;;
          let bytes := tty_keysym_to_utf8 (Some sym) true 4 in
          if negb (bool_decide (bytes = [])) then say (str " utf8=") ;; tty_write bytes
          else
            match tty_keysym_function_string (Some sym) with
            | None => mret tt
            | Some function => say (str " func=") ;; kdb_print_escaped_bytes function
            end
      end) t.
Proof.
  destruct (tty_key_event_to_keysym _ _ _) as [sym|] eqn:Es; [|exists []; split; [by constructor|apply prints_ret]].
  destruct (kdb_print_decimal cs (sym_value sym)) as (t & Ht & Pt).
  destruct (decide (tty_keysym_to_utf8 (Some sym) true 4 = [])) as [Hu|Hu].
  - destruct (tty_keysym_function_string (Some sym)) as [f|] eqn:Ef.
    + eexists. split; [by eapply keysym_function|]. cbv zeta. rewrite bool_decide_eq_true_2 by done. cbn [negb].
      apply prints_seq; [apply prints_say|]. apply prints_seq; [done|]. apply prints_seq; [apply prints_say|apply prints_escaped].
    + exists (str " keysym=" ++ t ++ []). split; [rewrite app_nil_r; by eapply keysym_bare|]. cbv zeta.
      rewrite bool_decide_eq_true_2 by done. cbn [negb].
      apply prints_seq; [apply prints_say|]. apply prints_seq; [done|apply prints_ret].
  - eexists. split; [by eapply keysym_char|]. cbv zeta. rewrite bool_decide_eq_false_2 by done. cbn [negb].
    apply prints_seq; [apply prints_say|]. apply prints_seq; [done|]. apply prints_seq; [apply prints_say|apply prints_write].
Qed.

Lemma kdb_keys_run k Q q cs :
  input_inv k Q q -> console_chain (devs (kheap k)) cs ->
  exists out, reply (status_of k) Keys out /\ kdb_print_keys k = Ret tt (echoed cs (crlf out) k).
Proof.
  intros I Hc. unfold kdb_print_keys. mrun (input_last_run k Q q I).
  destruct (bool_decide (iq_has_last (iq k) = 0)) eqn:Eh.
  - rewrite bool_decide_eq_false_2 by done. cbn [negb]. eexists. split; [|by apply prints_say].
    apply reply_no_key. unfold status_of. by rewrite Eh.
  - rewrite bool_decide_eq_true_2 by done. cbn [negb]. set (ev := iq_last (iq k)).
    destruct (kdb_print_decimal cs (ev_code ev)) as (c & Hcd & Pc).
    destruct (kdb_print_decimal cs (ev_value ev)) as (v & Hv & Pv).
    destruct (kdb_print_decimal cs (ev_modifiers ev)) as (m & Hm & Pm).
    destruct (kdb_keysym_prints cs ev) as (t & Ht & Pt).
    eexists. split; [apply (reply_key _ ev c v m t); try done; unfold status_of; by rewrite Eh|].
    erewrite (bind_deref (fun _ => Some ev)) by reflexivity. revert k I Hc Eh ev Hcd Pc Hv Pv Hm Pm Ht Pt. intros.
    match goal with |- ?m k = _ => enough (P : prints cs m _) by by apply P end.
    do 2 (apply prints_seq; [apply prints_say|]; apply prints_seq; [done|]).
    apply prints_seq; [apply prints_say|]. apply prints_seq; [done|]. apply prints_seq; [exact Pt|apply prints_say].
Qed.

Lemma kdb_command_run line k Q q cs e :
  input_inv k Q q -> tty_inv k Q cs e ->
  exists out, reply (status_of k) (parse_command (kdb_skip_spaces line)) out /\
    kdb_run_command line k = Ret tt (echoed cs (crlf out) k).
Proof.
  intros Ii It. pose proof (ti_consoles _ _ _ _ It) as Hc. unfold kdb_run_command, parse_command.
  set (w := kdb_skip_spaces line). rewrite !kdb_streq_spec, kdb_starts_with_spec.
  assert (Hunknown : prints cs (say (str "unknown command: ") ;; say w ;; say [10]) (str "unknown command: " ++ w ++ [10]))
    by (do 2 (apply prints_seq; [apply prints_say|]); apply prints_say).
  destruct (decide (w = [])) as [->|Hw]; [exists []; split; [constructor|by rewrite echoed_nil]|].
  assert (Hm : forall A (a b : A), match w with [] => a | _ => b end = b) by (by destruct w). rewrite Hm.
  case_bool_decide; [rewrite decide_True by done|rewrite decide_False by done].
  { eexists. split; [constructor|by apply prints_help]. }
  case_bool_decide; [rewrite decide_True by done|rewrite decide_False by done].
  { destruct (kdb_print_decimal cs (tick_count k)) as (t & Ht & Pt).
    eexists. split; [by apply reply_ticks|]. unfold kdb_print_ticks, timer_ticks.
    rewrite (prints_then cs _ _ _ _ (prints_say cs _)), bind_gets by done.
    rewrite (prints_then cs _ _ _ _ Pt), (prints_say cs [10]) by done. by rewrite !echoed_app, !crlf_app, <- ?app_assoc. }
  case_bool_decide; [rewrite decide_True by done|rewrite decide_False by done].
  { destruct (kdb_print_decimal cs (iq_dropped (iq k))) as (t & Ht & Pt).
    destruct (kdb_print_decimal cs (tl_dropped (td k))) as (u & Hu & Pu).
    eexists. split; [by apply reply_drops|]. unfold kdb_print_drops.
    rewrite (prints_then cs _ _ _ _ (prints_say cs _)) by done.
    rewrite (bind_run _ _ _ _ _ (input_dropped_run _ Q q (input_inv_echoed _ _ _ _ _ Ii))).
    rewrite (prints_then cs _ _ _ _ Pt), (prints_then cs _ _ _ _ (prints_say cs _)), !echoed_app by done.
    rewrite (bind_run _ _ _ _ _ (tty_dropped_run _ Q cs e (echoed_inv _ _ _ _ _ It))).
    rewrite (prints_then cs _ _ _ _ Pu), (prints_say cs [10]) by done. by rewrite !echoed_app, !crlf_app, <- ?app_assoc. }
  case_bool_decide; [rewrite decide_True by done|rewrite decide_False by done].
  { exact (kdb_keys_run k Q q cs Ii Hc). }
  change (length (str "echo")) with 4%nat. case_bool_decide as He.
  - destruct (drop 4 w) as [|c text] eqn:Et.
    + rewrite decide_True by done. eexists. split; [constructor|].
      apply (prints_seq cs _ _ _ _ (prints_say cs _) (prints_say cs [10]) k Hc).
    + destruct (decide (c ∈ spaces)) as [Hin|Hin].
      * rewrite decide_True by (split; [done|]; exact (Forall_cons_2 _ c [] Hin (Forall_nil_2 _))). eexists. split; [constructor|].
         assert (Hb : negb (bool_decide (c = 32)) && negb (bool_decide (c = 9)) = false).
         { unfold spaces in Hin. apply andb_false_iff. rewrite !negb_false_iff, !bool_decide_eq_true. set_solver. }
         rewrite Hb. apply (prints_seq cs _ _ _ _ (prints_say cs _) (prints_say cs [10]) k Hc).
      * rewrite decide_False by (intros [_ Hf]; by apply Forall_cons in Hf as [? _]). eexists. split; [constructor|].
         assert (Hb : negb (bool_decide (c = 32)) && negb (bool_decide (c = 9)) = true).
         { unfold spaces in Hin. apply andb_true_iff. rewrite !negb_true_iff, !bool_decide_eq_false. set_solver. }
         rewrite Hb. by apply Hunknown.
  - rewrite decide_False by (by intros [? _]). eexists. split; [constructor|]. by apply Hunknown.
Qed.

(** ** The thread *)

Lemma popped_status k : status_of (with_devs (fun d => d <| tty ::= line_popped |>) k) = status_of k.
Proof. reflexivity. Qed.

(** What a round leaves behind when the line [line] was read in the state [k]. *)
Definition answered k Q q cs e (line : list Z) (lines : list (list Z)) k' : Prop :=
  exists out, reply (status_of k) (parse_command (kdb_skip_spaces (c_string line))) out /\
    tty_inv k' Q cs (e <| ed_lines := lines |>) /\ input_inv k' Q q /\
    forall c, shows cs c -> screen (devs (kheap k')) c = screen (devs (kheap k)) c ++ crlf (out ++ KDB_PROMPT).

Lemma kdb_round_run k n others k3 Q3 q cs e line lines :
  tty_ready (td k) <> 0 -> tty_inv k3 Q3 cs e -> input_inv k3 Q3 q -> ed_lines e = line :: lines ->
  wait_queue_wait n others addr_tty_wait (Some tty_has_line) k = Ret 0 k3 ->
  exists k', kdb_thread n others k = Ret tt k' /\ answered k3 Q3 q cs e line lines k'.
Proof.
  intros Hr I3 Ii3 El Ew. unfold kdb_thread.
  set (k4 := with_devs (fun d => d <| tty ::= line_popped |>) k3).
  change KDB_LINE_LENGTH with TTY_LINE_LENGTH. mrun (tty_read_after k n others k3 Q3 cs e line lines Hr I3 El Ew). fold k4.
  rewrite bool_decide_eq_false_2 by lia. erewrite (bind_deref (fun _ => Some line)) by reflexivity.
  pose proof (line_popped_inv k3 Q3 cs e line lines I3 El) as I4. fold k4 in I4.
  assert (Ii4 : input_inv k4 Q3 q) by (destruct Ii3; split; try done; by apply wq_inv_with_devs).
  destruct (kdb_command_run (c_string line) k4 Q3 q cs _ Ii4 I4) as (out & Hout & Ec).
  rewrite (bind_run _ _ _ _ _ Ec), (prints_say cs KDB_PROMPT) by apply (ti_consoles _ _ _ _ I4). rewrite echoed_app, <- crlf_app.
  eexists. split; [reflexivity|]. exists out. split_and!; [done|by apply echoed_inv|by apply input_inv_echoed|].
  intros c Hs. by rewrite (echoed_screen k4 cs) by (done || apply I4).
Qed.

(** C23. The shell answers.  A round of [kdb_thread] that finds a completed line takes it
    and shows the answer to the command it holds, and the prompt, on every console: the
    help text, the tick counter, the counts of lost events and lines, the last key event
    with its symbol and bytes, the text of an echo, or a complaint.  With no line it
    leaves its thread WAITING on the tty's queue, and answers the first line there is
    when it runs again. *)
Theorem kdb_answers k Q q cs e t x :
  tty_inv k Q cs e -> input_inv k Q q -> may_block k t x ->
  match ed_lines e with
  | line :: lines => forall n others, exists k', kdb_thread (S n) others k = Ret tt k' /\ answered k Q q cs e line lines k'
  | [] => exists k1 l, Q !! addr_tty_wait = Some l /\ registered k Q addr_tty_wait l t THREAD_WAITING 0 k1 /\
      forall others k2 Q2 e2 q2 line lines, sched_yield others k1 = Ret tt k2 ->
        tty_inv k2 Q2 cs e2 -> input_inv k2 Q2 q2 -> ed_lines e2 = line :: lines ->
        current_thread k2 = t -> is_Some (threads k2 !! t) ->
        exists l3, (t ∉ l3) /\ forall n, exists k', kdb_thread (S (S n)) others k = Ret tt k' /\
          answered k2 (<[addr_tty_wait := l3]> Q2) q2 cs e2 line lines k'
  end.
Proof.
  intros It Ii Hb. destruct (ti_queue _ _ _ _ It) as [l Hl]. destruct (ed_lines e) as [|line lines] eqn:El.
  - destruct (wait_dev_later k Q addr_tty_wait l t x line_waiting (ti_wq _ _ _ _ It) Hl Hb
      (proj2 (line_waiting_zero k Q cs e It) El)) as (k1 & R & Hlater).
    exists k1, l. split_and!; [done|done|]. intros others k2 Q2 e2 q2 line lines Ey I2 Ii2 El2 Hcur Hx2.
    destruct (ti_queue _ _ _ _ I2) as [l2 Hl2].
    destruct (Hlater others k2 Q2 l2 Ey (ti_wq _ _ _ _ I2) Hl2 Hcur Hx2) as (k3 & l3 & W3 & Hn & Ek3 & Hret).
    { rewrite (line_waiting_zero k2 Q2 cs e2 I2), El2. done. }
    assert (C : carried k2 Q2 k3 (<[addr_tty_wait := l3]> Q2)).
    { split; [done| |by rewrite Ek3]. intros a Ha. destruct (decide (a = addr_tty_wait)) as [->|];
        [rewrite lookup_insert_eq; by eexists|by rewrite lookup_insert_ne]. }
    assert (I3 : tty_inv k3 (<[addr_tty_wait := l3]> Q2) cs e2)
      by (apply (tty_inv_carried k2 Q2); try done; unfold td; by rewrite Ek3).
    assert (Ii3 : input_inv k3 (<[addr_tty_wait := l3]> Q2) q2)
      by (apply (input_inv_carried k2 Q2); try done; unfold iq; by rewrite Ek3).
    exists l3. split; [done|]. intros n.
    destruct (kdb_round_run k _ others k3 _ q2 cs e2 line lines (ti_ready _ _ _ _ It) I3 Ii3 El2 (Hret n)) as (k' & E & out & Ho & It' & Ii' & Hs).
    exists k'. split; [done|]. exists out. assert (Est : status_of k3 = status_of k2) by (unfold status_of, iq, td; by rewrite Ek3).
    rewrite <- Est. split_and!; [done|done|done|]. intros c Hsh. rewrite (Hs c Hsh). by rewrite Ek3.
  - intros n others. apply (kdb_round_run k (S n) others k Q q cs e line lines (ti_ready _ _ _ _ It) It Ii El).
    apply (wait_dev_now k Q _ l t x line_waiting n others (ti_wq _ _ _ _ It) Hl Hb).
    rewrite (line_waiting_zero k Q cs e It), El. done.
Qed.
End theory.
