(* ===== verification/DriverBoot.v ===== *)
(** * Starting the drivers

    kernel/selftest/input.c, and the part of [kernel_main] between the scheduler's
    start-up and the first switch: the work queue, the input core with its selftest, the
    keyboard, the timer, the worker thread, the input console and the debugger shell. *)

From S2P Require Import Prelude LinkedList Ring PhysMem Switch KState Sched SchedCore SchedReap SchedYield SchedThread WaitQueue SchedBoot Devices DevWait Input Workqueue Keymap Tty TrapVectors Irq Ps2 Typing Kdb.

Section selftest.
Context {H : Type} `{KAlloc H} `{Statics}.
Abbreviation K := (M (kernel (memory H))).

Definition input_assert_unicode (code modifiers expected : Z) : K unit :=
  match tty_key_event_to_keysym code modifiers true with
  | Some sym =>
      if negb (bool_decide (sym_type sym = TTY_KEYSYM_UNICODE)) || negb (bool_decide (sym_value sym = expected))
      then panic "input keymap selftest failed" else mret tt
  | None => panic "input keymap selftest failed"
  end.

Definition input_assert_no_char (code : Z) : K unit :=
  match tty_key_event_to_keysym code 0 true with
  | Some _ => panic "input non-character keymap selftest failed"
  | None => mret tt
  end.

(** The loop over both texts and the test after it; [expected] without its NUL. *)
Fixpoint compare_texts (text expected : list Z) (content length : string) : K unit :=
  match text, expected with
  | c :: text, e :: expected =>
      if negb (bool_decide (c = e)) then panic content else compare_texts text expected content length
  | [], [] => mret tt
  | _, _ => panic length
  end.

Definition input_assert_function (code expected : Z) (expected_string : list Z) : K unit :=
  match tty_key_event_to_keysym code 0 true with
  | None => panic "input function keymap selftest failed"
  | Some sym =>
      if negb (bool_decide (sym_type sym = TTY_KEYSYM_FUNCTION)) || negb (bool_decide (sym_value sym = expected))
      then panic "input function keymap selftest failed"
      else
        match tty_keysym_function_string (Some sym) with
        | None => panic "input function string selftest failed"
        | Some function =>
            compare_texts function expected_string "input function string content selftest failed"
              "input function string length selftest failed"
        end
  end.

Definition input_assert_utf8 (codepoint : Z) (expected : list Z) : K unit :=
  compare_texts (tty_keysym_to_utf8 (Some (Keysym TTY_KEYSYM_UNICODE codepoint)) true 4) expected
    "input utf8 selftest failed" "input utf8 length selftest failed".

Definition input_assert_set1 (code extended expected : Z) : K unit :=
  if negb (bool_decide (ps2_keyboard_keycode_from_set1 code extended = expected))
  then panic "ps2 set1 keycode selftest failed" else mret tt.

(** The event the selftest reports. *)
Definition selftest_event : input_event := InputEvent INPUT_EVENT_KEY INPUT_KEY_A 1 0 99 0.

Definition input_assert_last_event : K unit :=
  '(r, _) ← input_last_event true;
  (if negb (bool_decide (r = - EAGAIN)) then panic "input last-event empty selftest failed" else mret tt) ;;
  r ← input_report_event (Some selftest_event);
  (if negb (bool_decide (r = 0)) then panic "input last-event selftest failed"
   else
     '(r, last) ← input_last_event true;
     if negb (bool_decide (r = 0)) then panic "input last-event selftest failed"
     else
       last ← deref (fun _ => last);
       if negb (bool_decide (ev_code last = INPUT_KEY_A)) || negb (bool_decide (ev_modifiers last = 0))
       then panic "input last-event selftest failed" else mret tt) ;;
  '(r, _) ← input_try_read_event true;
  if negb (bool_decide (r = 0)) then panic "input last-event drain selftest failed" else mret tt.

Definition input_selftest : K unit :=
  input_assert_unicode INPUT_KEY_A 0 (chr "a") ;;
  input_assert_unicode INPUT_KEY_A INPUT_MODIFIER_SHIFT (chr "A") ;;
  input_assert_unicode INPUT_KEY_A INPUT_MODIFIER_CAPSLOCK (chr "A") ;;
  input_assert_unicode INPUT_KEY_A (Z.lor INPUT_MODIFIER_SHIFT INPUT_MODIFIER_CAPSLOCK) (chr "a") ;;
  input_assert_unicode INPUT_KEY_1 0 (chr "1") ;;
  input_assert_unicode INPUT_KEY_1 INPUT_MODIFIER_SHIFT (chr "!") ;;
  input_assert_unicode INPUT_KEY_MINUS 0 (chr "-") ;;
  input_assert_unicode INPUT_KEY_MINUS INPUT_MODIFIER_SHIFT (chr "_") ;;
  input_assert_unicode INPUT_KEY_TAB 0 9 ;;
  input_assert_unicode INPUT_KEY_ENTER 0 10 ;;
  input_assert_utf8 0x00e9 [0xc3; 0xa9] ;;
  input_assert_function INPUT_KEY_F1 TTY_FUNC_F1 (27 :: str "[[A") ;;
  input_assert_function INPUT_KEY_UP TTY_FUNC_UP (27 :: str "[A") ;;
  input_assert_function INPUT_KEY_DELETE TTY_FUNC_DELETE (27 :: str "[3~") ;;
  input_assert_no_char INPUT_KEY_LEFTCTRL ;;
  input_assert_set1 0x1e 0 INPUT_KEY_A ;;
  input_assert_set1 0x3b 0 INPUT_KEY_F1 ;;
  input_assert_set1 0x48 1 INPUT_KEY_UP ;;
  input_assert_set1 0x1d 1 INPUT_KEY_RIGHTCTRL ;;
  input_assert_set1 0x7f 0 INPUT_KEY_RESERVED ;;
  input_assert_last_event.
End selftest.

Section theory.
Context {H : Type} `{KAllocSpec H} `{Statics}.
Implicit Types (k : kernel (memory H)) (Q : gmap Z (list Z)) (live : gmap Z Z) (rq cs : list Z) (d : devices).

(** ** Nobody waits *)

Record calm k Q : Prop := {
  cm_wq : wq_inv k Q;
  cm_empty : forall q l, Q !! q = Some l -> l = []
}.

Lemma calm_thread k Q t x : calm k Q -> threads k !! t = Some x -> wait_queue x = 0 /\ wait_next x = 0.
Proof.
  intros [[W _ _] E] Hx. destruct (wt_thread _ _ W t x Hx) as [?|[l Hl]]; [done|].
  exfalso. pose proof (E _ _ Hl) as ->. assert (Ht : t ∈ ([] : list Z)) by (apply (wt_member _ _ W _ _ t Hl); by exists x).
  by apply not_elem_of_nil in Ht.
Qed.

Lemma calm_intro k Q :
  (forall q l, Q !! q = Some l -> l = [] /\ q <> 0 /\ queues k !! q = Some (WaitQueue 0 0) /\ locks k !! QueueLock q = Some 0) ->
  (forall t x, threads k !! t = Some x -> wait_queue x = 0 /\ wait_next x = 0) ->
  threads k !! 0 = None -> 0 <= spinlock_depth k -> calm k Q.
Proof.
  intros HQ Ht Hn Hd. split; [|by intros q l (? & _)%HQ]. split.
  - split; [|..|done].
    + intros q l (-> & Hq & Hw & _)%HQ. split; [done|]. exists (WaitQueue 0 0). split; [done|]. apply queue_rep_empty.
    + intros q l t (-> & Hq & _)%HQ. split; [by intros ?%not_elem_of_nil|]. intros (x & Hx & E). by destruct (Ht t x Hx) as [E0 _]; congruence.
    + intros t x Hx. left. by apply (Ht t).
  - split; [done|]. by intros q [l (_ & _ & _ & ?)%HQ].
  - intros q l t x (-> & _)%HQ Hin. by apply not_elem_of_nil in Hin.
Qed.

Lemma calm_elim k Q q l : calm k Q -> Q !! q = Some l ->
  l = [] /\ q <> 0 /\ queues k !! q = Some (WaitQueue 0 0) /\ locks k !! QueueLock q = Some 0.
Proof.
  intros [[W [_ U] _] E] Hl. pose proof (E _ _ Hl) as ->. destruct (wt_queue _ _ W _ _ Hl) as (Hq & [h t] & Hw & Hr).
  split_and!; [done|done| |by apply U; eexists]. destruct Hr as [Hr Ht]. simpl in *. subst. by rewrite Hw.
Qed.

(** A start-up step: it changes the drivers' data, sets up locks and queues, and may turn
    interrupts on. *)
Record settled k Q k' Q' : Prop := {
  se_calm : calm k' Q';
  se_frame : k' = k <| kheap := Memory (heap_part (kheap k)) (devs (kheap k')) |> <| locks := locks k' |>
                    <| queues := queues k' |> <| rflags := rflags k' |>;
  se_lock : locks k' !! SchedulerLock = locks k !! SchedulerLock;
  se_dom : forall a, is_Some (Q !! a) -> is_Some (Q' !! a)
}.

Lemma settled_trans k Q k1 Q1 k2 Q2 : settled k Q k1 Q1 -> settled k1 Q1 k2 Q2 -> settled k Q k2 Q2.
Proof.
  intros [_ F1 L1 D1] [C2 F2 L2 D2]. split; [done| |congruence|auto]. rewrite F2. simpl. rewrite F1. simpl. done.
Qed.

Lemma settled_devs f k Q : calm k Q -> settled k Q (with_devs f k) Q.
Proof. intros [W E]. split; [split; [by apply wq_inv_with_devs|done]|by destruct k as [[]]|done|done]. Qed.

(** [wait_queue_init] adds an empty queue. *)
Definition opened (a : Z) k : kernel (memory H) :=
  k <| locks ::= <[QueueLock a := 0]> |> <| queues ::= <[a := WaitQueue 0 0]> |>.

Lemma queue_init_run {B} a (c : unit -> M (kernel (memory H)) B) k :
  a <> 0 -> (u ← wait_queue_init a; c u) k = c tt (opened a k).
Proof. intros Ha. unfold wait_queue_init. rewrite bool_decide_eq_false_2 by done. by rewrite bind_assoc, !bind_modify. Qed.

Lemma opened_settled a k Q : calm k Q -> a <> 0 -> settled k Q (opened a k) (<[a := []]> Q).
Proof.
  intros C Ha. split.
  - pose proof C as [[W [Hd _] _] _]. apply calm_intro; [|by intros t x; apply (calm_thread k Q)|apply W|done].
    intros q l Hl. simpl. destruct (decide (q = a)) as [->|Hq].
    + rewrite lookup_insert_eq in Hl. injection Hl as <-. by rewrite !lookup_insert_eq.
    + rewrite lookup_insert_ne in Hl by done. rewrite !lookup_insert_ne by congruence. by apply (calm_elim k Q).
  - by destruct k as [[]].
  - simpl. by rewrite lookup_insert_ne.
  - intros q [l Hl]. destruct (decide (q = a)) as [->|Hq]; [rewrite lookup_insert_eq|rewrite lookup_insert_ne by done]; by eexists.
Qed.

Lemma settled_booting live rq k Q k' Q' room : settled k Q k' Q' -> booting live rq k room -> booting live rq k' room.
Proof.
  intros [Cm F L _] [I C S Hc Hr Hf].
  assert (Hm : mem_ok live (kheap k')) by (rewrite F; apply (si_mem _ _ _ I)).
  destruct (heap_inv live rq k (kheap k') I C Hm) as [I1 C1].
  destruct (sched_env live rq (k <| kheap := kheap k' |>) k' I1 C1) as [I2 C2]; try (rewrite F; done).
  - rewrite L. apply I.
  - rewrite F. apply I.
  - split; try done; [unfold can_switch in *; by rewrite F|by rewrite F|rewrite F; exact Hr|unfold fresh; by rewrite F].
Qed.

Lemma settled_carried k Q k' Q' : settled k Q k' Q' -> locks k' !! ps2_lock = locks k !! ps2_lock -> carried k Q k' Q'.
Proof. intros [C _ _ D] L. split; [apply C|done|done]. Qed.

(** ** Threads *)

(** Computations that leave the drivers' data alone. *)
Abbreviation keeps_devs := (keeps (fun k : kernel (memory H) => devs (kheap k))).

Lemma set_thread_keeps t f : keeps_devs (set_thread t f).
Proof. unfold set_thread, thread_at. keep_devs. Qed.

Lemma lock_keeps l b : keeps_devs (spin_lock_irqsave l b).
Proof. unfold spin_lock_irqsave, arch_irq_save, arch_irq_restore. keep_devs. Qed.

Lemma unlock_keeps l f : keeps_devs (spin_unlock_irqrestore l f).
Proof. unfold spin_unlock_irqrestore, arch_irq_restore. keep_devs. Qed.

Lemma create_keeps nm ent a : keeps_devs (kernel_thread_create nm ent a).
Proof.
  unfold kernel_thread_create, enqueue_thread, thread_init_ready.
  repeat first [ apply set_thread_keeps | apply lock_keeps | apply unlock_keeps | apply keeps_alloc | apply keeps_free | progress unfold on_machine | keep_step ].
Qed.

(** A thread is created and nobody waits: it joins the run queue. *)
Lemma thread_joins live rq k Q room nm ent a :
  ~ alloc_fails (H := memory H) ->
  booting live rq k (room + 25000) -> calm k Q -> ent <> 0 -> 0 <= room ->
  exists t k' live', kernel_thread_create nm ent a k = Ret t k' /\ t <> 0 /\ booting live' (rq ++ [t]) k' room /\
    calm k' Q /\ devs (kheap k') = devs (kheap k) /\ locks k' = locks k /\ rflags k' = rflags k /\
    idle_thread k' = idle_thread k /\ is_in THREAD_READY k' t = true /\
    (forall u, u ∈ rq -> is_in THREAD_READY k u = true -> is_in THREAD_READY k' u = true).
Proof.
  intros Sure [I C S Hc Hroom Hfr] Cm He Hr.
  destruct (kernel_thread_create_run live rq k nm ent a I C He) as (t & k' & E & Ec & Hr' & F & T); [lia|].
  destruct T as [(_ & _ & _ & _ & Hf)|(live' & base & Ht & Hin & _ & Hk & I' & C' & Hx & _ & _ & _ & _ & _ & Hno)]; [done|].
  assert (S' : can_switch k') by by apply (created_can_switch k).
  exists t, k', live'. split_and!; try done.
  - split; try done; [by rewrite Ec|lia|by eapply fresh_created].
  - apply calm_intro.
    + intros q l Hl. destruct (calm_elim k Q q l Cm Hl) as (-> & Hq & Hw & Hlk). by rewrite F.
    + intros y z Hy. destruct (decide (y = t)) as [->|Hyt]; [rewrite Hx in Hy; by injection Hy as <-|].
      destruct (threads k !! y) as [z0|] eqn:E0; [|by rewrite (Hno y Hyt E0) in Hy].
      destruct (Hk y z0 Hyt E0) as (z' & Hz' & Es). rewrite Hz' in Hy. injection Hy as <-. rewrite Es. simpl.
      by apply (calm_thread k Q y).
    + apply I'.
    + apply I'.
  - by apply (create_keeps nm ent a k t).
  - by rewrite F.
  - by rewrite F.
  - by rewrite F.
  - unfold is_in. by rewrite Hx.
  - intros u Hu Hs. unfold is_in in *. destruct (threads k !! u) as [z|] eqn:Ez; [|done].
    destruct (Hk u z) as (z' & -> & Es); [by intros ->|done|]. by rewrite Es.
Qed.

(** ** The drivers' data before anything ran *)

Definition cold_tty d : Prop :=
  tty_ready (tty d) = 0 /\ Forall (fun l => length l = 128%nat) (tl_lines (tty d)) /\ length (tl_lines (tty d)) = 8%nat /\
  length (tl_lengths (tty d)) = 8%nat /\ Forall (fun n => 0 <= n < 128) (tl_lengths (tty d)) /\ length (edit_line (tty d)) = 128%nat.

Record cold d cs : Prop := {
  co_input : iq_initialized (inputq d) = 0 /\ length (iq_events (inputq d)) = 64%nat /\ length (iq_devices (inputq d)) = 16%nat;
  co_workq : wq_initialized (sysworkq d) = 0;
  co_works : works d !! 0 = None /\ forall w x, works d !! w = Some x -> pending x = 0;
  co_items : is_Some (works d !! addr_selftest_work) /\ is_Some (works d !! addr_ps2_work);
  co_tty : cold_tty d;
  co_kbd : ps_initialized (kbd d) = 0 /\ length (raw (kbd d)) = 32%nat;
  co_device : exists x, input_devs d !! addr_ps2_input_dev = Some x /\ dev_name x <> None /\ dev_registered x = 0 /\
    Z.land (capabilities x) INPUT_DEVICE_CAP_KEY <> 0;
  co_irq : irq_actions d = replicate 16 (IrqAction None 0);
  co_consoles : console_chain d cs
}.

Lemma static_apart :
  addr_input_wait <> 0 /\ addr_tty_wait <> 0 /\ addr_wq_wait <> 0 /\ addr_ps2_work <> 0 /\ addr_selftest_work <> 0 /\
  addr_ps2_work <> addr_selftest_work.
Proof.
  pose proof static_objects as N. repeat (apply NoDup_cons in N as [? N]). set_solver.
Qed.

(** ** The work queue *)

Lemma work_init_run w x f a k :
  w <> 0 -> works (devs (kheap k)) !! w = Some x ->
  work_init w f a k = Ret tt (with_devs (fun d => d <| works ::= <[w := WorkStruct f a 0 0]> |>) k).
Proof.
  intros Hw Hx. unfold work_init. rewrite bool_decide_eq_false_2 by done.
  do 3 (erewrite bind_run by (eapply set_work_run; simpl; rewrite ?lookup_alter_eq, Hx; reflexivity)).
  erewrite set_work_run by (simpl; rewrite ?lookup_alter_eq, Hx; reflexivity).
  f_equal. rewrite !with_devs_comp. apply with_devs_ext. simpl. f_equal. apply map_eq. intros v.
  destruct (decide (v = w)) as [->|Hv]; [by rewrite !lookup_alter_eq, lookup_insert_eq, Hx|by rewrite !lookup_alter_ne, lookup_insert_ne].
Qed.

(** No item is pending. *)
Lemma work_rep_idle d :
  wq_head (sysworkq d) = 0 -> wq_tail (sysworkq d) = 0 -> works d !! 0 = None ->
  (forall w x, works d !! w = Some x -> pending x = 0) -> work_rep d [].
Proof.
  intros Hh Ht Hn Hp. split; [rewrite Hh, Ht; apply queue_rep_empty| |done|].
  - intros w x Hx. split; [by rewrite (Hp w x Hx)|by intros ?%not_elem_of_nil].
  - by intros w x ?%not_elem_of_nil.
Qed.

Lemma workqueue_init_run k Q cs :
  calm k Q -> cold (devs (kheap k)) cs ->
  exists k', workqueue_init k = Ret tt k' /\ settled k Q k' (<[addr_wq_wait := []]> Q) /\
    work_inv k' (<[addr_wq_wait := []]> Q) [] /\ started (sysworkq (devs (kheap k'))) = 0 /\
    works (devs (kheap k')) !! addr_selftest_work = Some (WorkStruct (Some WORKQUEUE_SELFTEST_ENTRY) 0 0 0) /\
    is_Some (works (devs (kheap k')) !! addr_ps2_work) /\
    devs (kheap k') = (devs (kheap k)) <| sysworkq := sysworkq (devs (kheap k')) |> <| works := works (devs (kheap k')) |>.
Proof.
  intros C Hcold. destruct static_apart as (_ & _ & Hw & _ & Hs & Hne). destruct (co_items _ _ Hcold) as [[x Hx] [y Hy]].
  destruct (co_works _ _ Hcold) as [Hnull Hpend].
  unfold workqueue_init, wq, set_wq. rewrite bind_dev, (bool_decide_eq_true_2 (_ = 0)) by apply Hcold. cbn [negb].
  rewrite queue_init_run by done. dstep. erewrite work_init_run; [|done|exact Hx].
  rewrite with_devs_comp. match goal with |- context [with_devs ?g (opened _ k)] => set (f := g) end.
  pose proof (opened_settled addr_wq_wait k Q C Hw) as S1.
  pose proof (settled_devs f _ _ (se_calm _ _ _ _ S1)) as S2.
  eexists. split; [reflexivity|]. split_and!; [by eapply settled_trans| |done|apply lookup_insert_eq| |].
  - split; [apply S2|rewrite lookup_insert_eq; by eexists| |done]. apply work_rep_idle; [done|done| |].
    + simpl. rewrite lookup_insert_ne by done. exact Hnull.
    + simpl. intros w z. destruct (decide (w = addr_selftest_work)) as [->|Hn]; [rewrite lookup_insert_eq; by intros [= <-]|].
      rewrite lookup_insert_ne by done. apply Hpend.
  - simpl. rewrite lookup_insert_ne by done. by eexists.
  - by destruct k as [[? []]].
Qed.

(** ** The input core *)

Lemma input_init_run k Q cs :
  calm k Q -> iq_initialized (iq k) = 0 -> length (iq_events (iq k)) = 64%nat ->
  exists k', input_init k = Ret tt k' /\ settled k Q k' (<[addr_input_wait := []]> Q) /\
    input_inv k' (<[addr_input_wait := []]> Q) [] /\ locks k' !! ps2_lock = locks k !! ps2_lock /\
    iq_has_last (iq k') = 0 /\ iq_device_count (iq k') = 0 /\ iq_next_device_id (iq k') = 1 /\ iq_devices (iq k') = iq_devices (iq k) /\
    devs (kheap k') = (devs (kheap k)) <| inputq := inputq (devs (kheap k')) |>.
Proof.
  intros C Hz Hl. destruct static_apart as (Hw & _).
  unfold input_init, inq, set_inq. rewrite bind_dev, (bool_decide_eq_true_2 (_ = 0)) by exact Hz. cbn [negb].
  rewrite queue_init_run by done. dstep. match goal with |- context [with_devs ?g (opened _ k)] => set (f := g) end.
  pose proof (opened_settled addr_input_wait k Q C Hw) as S1.
  pose proof (settled_devs f _ _ (se_calm _ _ _ _ S1)) as S2.
  eexists. split; [reflexivity|]. split_and!; try done; [by eapply settled_trans| |].
  - split; [apply S2|rewrite lookup_insert_eq; by eexists| |done]. apply ring_rep_empty; [done|]. simpl. unfold iq in Hl. by rewrite Hl.
  - simpl. by rewrite lookup_insert_ne.
Qed.

(** A wake-up that finds nobody. *)
Lemma posted_settled k Q q f k' : calm k Q -> Q !! q = Some [] -> posted k Q q [] f k' -> settled k Q k' Q /\ locks k' = locks k /\ rflags k' = rflags k.
Proof.
  intros C Hq [Hh W Ht F]. simpl in W. rewrite (insert_id Q) in W by done.
  assert (Et : threads k' = threads k) by by apply map_eq.
  split; [|split; by rewrite F]. split; [split; [done|apply C]| |by rewrite F|done].
  rewrite F, Et, Hh. by destruct k as [[]].
Qed.

Lemma assert_unicode_run code m e k :
  tty_key_event_to_keysym code m true = Some (Keysym TTY_KEYSYM_UNICODE e) -> input_assert_unicode code m e k = Ret tt k.
Proof. intros E. unfold input_assert_unicode. rewrite E. simpl sym_type. simpl sym_value. by rewrite !bool_decide_eq_true_2. Qed.

Lemma compare_texts_same text a b k : compare_texts text text a b k = Ret tt k.
Proof. induction text as [|c text IH]; [done|]. simpl. by rewrite bool_decide_eq_true_2. Qed.

Lemma assert_function_run code e text k :
  tty_key_event_to_keysym code 0 true = Some (Keysym TTY_KEYSYM_FUNCTION e) ->
  tty_keysym_function_string (Some (Keysym TTY_KEYSYM_FUNCTION e)) = Some text ->
  input_assert_function code e text k = Ret tt k.
Proof.
  intros E1 E2. unfold input_assert_function. rewrite E1. simpl sym_type. simpl sym_value.
  rewrite !bool_decide_eq_true_2 by done. cbn [negb orb]. rewrite E2. apply compare_texts_same.
Qed.

Lemma assert_set1_run code ext e k :
  ps2_keyboard_keycode_from_set1 code ext = e -> input_assert_set1 code ext e k = Ret tt k.
Proof. intros E. unfold input_assert_set1. by rewrite E, bool_decide_eq_true_2. Qed.

Lemma selftest_keymap k : input_selftest k = input_assert_last_event k.
Proof.
  unfold input_selftest.
  do 10 (erewrite bind_run by (apply assert_unicode_run; vm_compute; reflexivity)).
  erewrite bind_run by apply compare_texts_same.
  do 3 (erewrite bind_run by (apply assert_function_run; vm_compute; reflexivity)).
  erewrite (bind_run (input_assert_no_char _)) by reflexivity.
  do 5 (erewrite bind_run by (apply assert_set1_run; vm_compute; reflexivity)).
  done.
Qed.

Lemma input_selftest_run k Q :
  calm k Q -> input_inv k Q [] -> iq_has_last (iq k) = 0 ->
  exists k', input_selftest k = Ret tt k' /\ settled k Q k' Q /\ input_inv k' Q [] /\ locks k' = locks k /\
    iq_device_count (iq k') = iq_device_count (iq k) /\ iq_next_device_id (iq k') = iq_next_device_id (iq k) /\
    iq_devices (iq k') = iq_devices (iq k) /\
    devs (kheap k') = (devs (kheap k)) <| inputq := inputq (devs (kheap k')) |>.
Proof.
  intros C I Hl. rewrite selftest_keymap. unfold input_assert_last_event.
  destruct (in_queue _ _ _ I) as [l Hq]. pose proof (cm_empty _ _ C _ _ Hq) as ->.
  mrun (input_last_run k Q [] I). rewrite bool_decide_eq_true_2 by done. cbv beta iota.
  rewrite bool_decide_eq_true_2 by done. cbn [negb]. rewrite bind_ret.
  destruct (input_report_run k Q [] selftest_event [] I Hq) as (k1 & E1 & P1 & I1); [simpl; lia|].
  rewrite (insert_id Q) in I1 by done. mrun E1. rewrite bool_decide_eq_true_2 by done. cbn [negb].
  destruct (posted_settled k Q _ _ k1 C Hq P1) as (S1 & L1 & _). pose proof (po_heap _ _ _ _ _ _ P1) as Hh1.
  assert (Eq1 : iq k1 = pushed selftest_event (iq k)) by (unfold iq; by rewrite Hh1).
  rewrite bind_assoc. mrun (input_last_run k1 Q _ I1). rewrite Eq1. simpl iq_has_last. rewrite bool_decide_eq_false_2 by done.
  cbv beta iota. rewrite bool_decide_eq_true_2 by done. cbn [negb]. rewrite bind_assoc.
  erewrite (bind_deref (fun _ => Some _)) by reflexivity. simpl iq_last. rewrite !bool_decide_eq_true_2 by done. cbn [negb orb].
  rewrite bind_ret. pose proof (input_try_read_run k1 Q _ I1) as Ht. simpl app in Ht. destruct Ht as (k2 & E2 & I2 & Ek2).
  mrun E2. cbv beta iota. rewrite bool_decide_eq_true_2 by done. cbn [negb].
  exists k2. split; [reflexivity|].
  assert (S2 : settled k Q k2 Q) by (rewrite Ek2; eapply settled_trans; [exact S1|apply settled_devs, S1]).
  split; [done|]. split; [done|]. rewrite Ek2. unfold iq. simpl. rewrite Hh1, L1. simpl. by destruct (devs (kheap k)).
Qed.

(** ** The keyboard *)

Definition registered_dev (a : Z) (x : input_dev) (d : devices) : devices :=
  d <| inputq ::= (fun q => q <| iq_next_device_id := wrap32 (iq_next_device_id q + 1) |> <| iq_devices ::= <[0%nat := a]> |>
                              <| iq_device_count := 1 |>) |>
    <| input_devs ::= <[a := x <| dev_id := iq_next_device_id (inputq d) |> <| dev_registered := 1 |>]> |>.

Lemma register_device_run k Q q a x :
  input_inv k Q q -> a <> 0 -> input_devs (devs (kheap k)) !! a = Some x -> dev_name x <> None -> dev_registered x = 0 ->
  iq_device_count (iq k) = 0 -> length (iq_devices (iq k)) = 16%nat ->
  input_register_device a k = Ret 0 (with_devs (registered_dev a x) k).
Proof.
  intros I Ha Hx Hn Hr Hc Hlen. destruct (in_queue _ _ _ I) as [l Hl]. unfold iq in *.
  unfold input_register_device, inq, set_inq. rewrite bind_dev.
  rewrite (bool_decide_eq_false_2 (iq_initialized _ = 0)), (bool_decide_eq_false_2 (a = 0)) by (done || apply I). cbn [orb].
  unfold input_dev_at. erewrite bind_deref by exact Hx. rewrite (bool_decide_eq_false_2 (dev_name x = None)), Hr by done. cbn [orb].
  rewrite bool_decide_eq_true_2 by done. cbn [negb]. rewrite (bind_wait_lock k Q _ l) by (done || apply I).
  rewrite bind_dev. change (devs (kheap (enter (QueueLock addr_input_wait) k))) with (devs (kheap k)).
  rewrite Hc, bool_decide_eq_false_2 by done. rewrite bind_dev, bind_set_dev. unfold set_input_dev, input_dev_at. rewrite bind_assoc.
  erewrite bind_deref by (simpl; exact Hx). rewrite bind_set_dev, with_devs_comp, bind_assoc.
  erewrite bind_deref by (simpl; apply lookup_insert_eq). rewrite bind_set_dev, with_devs_comp. unfold slot.
  destruct (lookup_lt_is_Some_2 (iq_devices (inputq (devs (kheap k)))) 0) as [v Hv]; [lia|].
  erewrite bind_deref by (simpl; exact Hv). dstep. rewrite (bind_wait_unlock k Q _ l) by (done || apply I).
  rewrite mret_run. f_equal. apply with_devs_ext. unfold registered_dev. simpl. rewrite insert_insert_eq, Hc.
  by destruct (devs (kheap k)) as [[] ? ? ? ? ? ? ? ? ? ? ? ?].
Qed.

Lemma settled_static l v k Q : l <> SchedulerLock -> (forall q, l <> QueueLock q) -> calm k Q ->
  settled k Q (k <| locks ::= <[l := v]> |>) Q.
Proof.
  intros Hs Hq C. split; [|by destruct k as [[]]|simpl; by rewrite lookup_insert_ne|done].
  pose proof C as [[W [Hd _] _] _]. apply calm_intro; [|by intros t x; apply (calm_thread k Q)|apply W|done].
  intros q w Hw. simpl. rewrite lookup_insert_ne by done. by apply (calm_elim k Q).
Qed.

(** What [ps2_keyboard_init] needs: the input core works and has no device, the keyboard's
    data is as the program starts with it and its interrupt is free. *)
Record kbd_cold k Q : Prop := {
  kc_calm : calm k Q;
  kc_input : input_inv k Q [];
  kc_devices : iq_device_count (iq k) = 0 /\ iq_next_device_id (iq k) = 1 /\ length (iq_devices (iq k)) = 16%nat;
  kc_kbd : ps_initialized (kb k) = 0 /\ length (raw (kb k)) = 32%nat;
  kc_item : is_Some (works (devs (kheap k)) !! addr_ps2_work);
  kc_device : exists x, input_devs (devs (kheap k)) !! addr_ps2_input_dev = Some x /\ dev_name x <> None /\ dev_registered x = 0 /\
    Z.land (capabilities x) INPUT_DEVICE_CAP_KEY <> 0;
  kc_irq : irq_actions (devs (kheap k)) = replicate 16 (IrqAction None 0)
}.

Lemma ps2_keyboard_init_run k Q :
  kbd_cold k Q ->
  exists k', ps2_keyboard_init k = Ret tt k' /\ settled k Q k' Q /\ kbd_inv k' Q [] (Decoder 0 false 0) 1 [] /\
    irq_actions (devs (kheap k')) = <[1%nat := IrqAction (Some PS2_KEYBOARD_IRQ_HANDLER) 0]> (replicate 16 (IrqAction None 0)) /\
    devs (kheap k') = (devs (kheap k)) <| inputq := inputq (devs (kheap k')) |> <| input_devs := input_devs (devs (kheap k')) |>
      <| kbd := kbd (devs (kheap k')) |> <| works ::= <[addr_ps2_work := WorkStruct (Some PS2_KEYBOARD_WORK) 0 0 0]> |>
      <| irq_actions := irq_actions (devs (kheap k')) |>.
Proof.
  intros [C I (Dc & Di & Dl) (Ki & Kl) [w Hw] (x & Hx & Hn & Hr & Hcap) Hirq]. destruct static_apart as (_ & _ & _ & Hp & _ & _).
  unfold ps2_keyboard_init, ps2, set_ps2. rewrite bind_dev, (bool_decide_eq_true_2 (ps_initialized _ = 0)) by exact Ki. cbn [negb].
  rewrite bind_modify. set (k0 := k <| locks ::= <[ps2_lock := 0]> |>).
  assert (S0 : settled k Q k0 Q) by (by apply settled_static).
  assert (I0 : input_inv k0 Q []) by (destruct I; split; try done; apply S0).
  dstep. match goal with |- context [with_devs ?g k0] => set (f := g) end.
  assert (I1 : input_inv (with_devs f k0) Q []) by (destruct I0; split; try done; by apply wq_inv_with_devs).
  mrun (work_init_run addr_ps2_work w (Some PS2_KEYBOARD_WORK) 0 (with_devs f k0) Hp Hw). rewrite with_devs_comp.
  match goal with |- context [with_devs ?g k0] => set (f1 := g) end.
  assert (I2 : input_inv (with_devs f1 k0) Q []) by (destruct I0; split; try done; by apply wq_inv_with_devs).
  mrun (register_device_run (with_devs f1 k0) Q [] addr_ps2_input_dev x I2 dev_address Hx Hn Hr Dc Dl).
  rewrite bool_decide_eq_true_2 by done. cbn [negb]. rewrite with_devs_comp.
  match goal with |- context [with_devs ?g k0] => set (f2 := g) end.
  erewrite (bind_run (irq_register _ _ _)) by (apply irq_register_free with (a := IrqAction None 0); [done|unfold action_at; simpl; by rewrite Hirq|done]).
  rewrite bool_decide_eq_true_2 by done. cbn [negb]. dstep.
  match goal with |- context [with_devs ?g k0] => set (f3 := g) end.
  pose proof (settled_trans _ _ _ _ _ _ S0 (settled_devs f3 k0 Q (se_calm _ _ _ _ S0))) as S3.
  eexists. split; [reflexivity|]. split; [exact S3|]. split_and!.
  - destruct I as [_ Iq Ir Irdy]. split.
    + split; [apply S3|done|exact Ir|exact Irdy].
    + apply ring_rep_empty; [done|]. simpl. unfold kb in Kl. by rewrite Kl.
    + constructor.
    + done.
    + eexists. split; [apply lookup_insert_eq|]. split; [done|]. split; [exact Hcap|]. simpl. exact Di.
    + simpl. apply lookup_insert_eq.
  - simpl. by rewrite Hirq.
  - simpl. by destruct (devs (kheap k)).
Qed.

(** ** The timer *)

Lemma arch_timer_init_run k Q :
  calm k Q -> action_at k 0 = Some (IrqAction None 0) ->
  exists k', arch_timer_init k = Ret tt k' /\ settled k Q k' Q /\ locks k' = locks k /\ irqs_on k' = true /\
    devs (kheap k') = (devs (kheap k)) <| port_writes := port_writes (devs (kheap k')) |>
      <| irq_actions ::= <[0%nat := IrqAction (Some TIMER_IRQ_HANDLER) 0]> |>.
Proof.
  intros C Ha. unfold arch_timer_init, pic_remap, pic_mask_initial_irqs, pit_init, io_wait, outb. dstep.
  match goal with |- context [with_devs ?g k] => set (f := g) end.
  erewrite (bind_run (irq_register _ _ _)) by (apply irq_register_free with (a := IrqAction None 0); [done|exact Ha|done]).
  rewrite bool_decide_eq_true_2 by done. cbn [negb]. rewrite with_devs_comp. dstep.
  match goal with |- context [with_devs ?g k] => set (f1 := g) end.
  unfold arch_irq_restore, when. cbn [negb]. rewrite bool_decide_eq_false_2 by done. cbn [negb]. rewrite modify_run.
  set (k' := (with_devs f1 k) <| rflags ::= (fun x => Z.lor x RFLAGS_IF) |>).
  exists k'. pose proof (settled_devs f1 k Q C) as S1. split; [done|]. split_and!.
  - destruct S1 as [[W E] F L D]. split; [split; [by apply (wq_inv_same (with_devs f1 k))|done]| |done|done].
    unfold k'. by destruct k as [[]].
  - done.
  - unfold irqs_on, k'. simpl. rewrite bool_decide_eq_false_2; [done|]. intros E.
    apply (f_equal (fun z => Z.testbit z 9)) in E. rewrite Z.land_spec, Z.lor_spec, Z.bits_0 in E.
    change (Z.testbit RFLAGS_IF 9) with true in E. by rewrite orb_true_r in E.
  - by destruct k as [[? []]].
Qed.

(** ** The worker, the console and the shell *)

Lemma tty_init_run k Q cs :
  calm k Q -> cold_tty (devs (kheap k)) -> console_chain (devs (kheap k)) cs ->
  exists k', tty_init k = Ret tt k' /\ settled k Q k' (<[addr_tty_wait := []]> Q) /\ locks k' !! ps2_lock = locks k !! ps2_lock /\ rflags k' = rflags k /\
    tty_inv k' (<[addr_tty_wait := []]> Q) cs (Editor [] [] 0) /\
    devs (kheap k') = (devs (kheap k)) <| tty := tty (devs (kheap k')) |>.
Proof.
  intros C (T1 & T2 & T3 & T4 & T5 & T6) Hc. destruct static_apart as (_ & Hw & _).
  unfold tty_init, tt_, set_tty. rewrite bind_dev, (bool_decide_eq_true_2 (_ = 0)) by exact T1. cbn [negb].
  rewrite queue_init_run by done. dstep. match goal with |- context [with_devs ?g (opened _ k)] => set (f := g) end.
  pose proof (opened_settled addr_tty_wait k Q C Hw) as S1.
  pose proof (settled_devs f _ _ (se_calm _ _ _ _ S1)) as S2.
  eexists. split; [reflexivity|]. split_and!; [by eapply settled_trans| |done| |].
  - simpl. by rewrite lookup_insert_ne.
  - split; [apply S2|rewrite lookup_insert_eq; by eexists| |done|by split_and!; [|simpl; lia..|]|done|done|exact Hc].
    apply ring_rep_empty; [done|]. rewrite (tty_slots_length _ 8); done.
  - by destruct k as [[? []]].
Qed.

(** ** All together *)

(** The drivers are set up; their threads are missing. *)
Record wired k Q cs : Prop := {
  wd_calm : calm k Q;
  wd_kbd : kbd_inv k Q [] (Decoder 0 false 0) 1 [];
  wd_work : work_inv k Q [];
  wd_started : started (sysworkq (devs (kheap k))) = 0;
  wd_selftest : works (devs (kheap k)) !! addr_selftest_work = Some (WorkStruct (Some WORKQUEUE_SELFTEST_ENTRY) 0 0 0);
  wd_item : works (devs (kheap k)) !! addr_ps2_work = Some (WorkStruct (Some PS2_KEYBOARD_WORK) 0 0 0);
  wd_timer : action_at k 0 = Some (IrqAction (Some TIMER_IRQ_HANDLER) 0);
  wd_irq : action_at k 1 = Some (IrqAction (Some PS2_KEYBOARD_IRQ_HANDLER) 0);
  wd_on : irqs_on k = true;
  wd_tty : cold_tty (devs (kheap k));
  wd_consoles : console_chain (devs (kheap k)) cs
}.

Lemma drivers_wired k Q cs :
  calm k Q -> cold (devs (kheap k)) cs ->
  exists k1 k2 k3 k4 k5 Q', workqueue_init k = Ret tt k1 /\ input_init k1 = Ret tt k2 /\ input_selftest k2 = Ret tt k3 /\
    ps2_keyboard_init k3 = Ret tt k4 /\ arch_timer_init k4 = Ret tt k5 /\ settled k Q k5 Q' /\ wired k5 Q' cs.
Proof.
  intros C Hcold. destruct static_apart as (_ & _ & _ & Hp0 & _ & Hne).
  destruct (workqueue_init_run k Q cs C Hcold) as (k1 & E1 & S1 & W1 & Hst & Hit & Hps & D1).
  destruct (co_input _ _ Hcold) as (Ii & Il & Id).
  destruct (input_init_run k1 _ cs (se_calm _ _ _ _ S1)) as (k2 & E2 & S2 & I2 & L2 & Hlast & Hdc & Hdi & Hdv & D2);
    [unfold iq; by rewrite D1|unfold iq; by rewrite D1|].
  destruct (input_selftest_run k2 _ (se_calm _ _ _ _ S2) I2 Hlast) as (k3 & E3 & S3 & I3 & L3 & Hdc3 & Hdi3 & Hdv3 & D3).
  set (Q2 := <[addr_input_wait := []]> (<[addr_wq_wait := []]> Q)) in *.
  assert (D13 : devs (kheap k3) = (devs (kheap k)) <| sysworkq := sysworkq (devs (kheap k1)) |> <| works := works (devs (kheap k1)) |>
    <| inputq := inputq (devs (kheap k3)) |>).
  { rewrite D3. simpl. rewrite D2. simpl. rewrite D1. by destruct (devs (kheap k)). }
  assert (Kc : kbd_cold k3 Q2).
  { split; [apply S3|exact I3| | | | |].
    - rewrite Hdc3, Hdi3, Hdv3, Hdc, Hdi, Hdv. unfold iq. rewrite D1. by split_and!.
    - unfold kb. rewrite D13. apply (co_kbd _ _ Hcold).
    - rewrite D13. exact Hps.
    - rewrite D13. apply (co_device _ _ Hcold).
    - rewrite D13. apply (co_irq _ _ Hcold). }
  destruct (ps2_keyboard_init_run k3 Q2 Kc) as (k4 & E4 & S4 & I4 & Hirq4 & D4).
  destruct (arch_timer_init_run k4 Q2 (se_calm _ _ _ _ S4)) as (k5 & E5 & S5 & L5 & On5 & D5); [unfold action_at; by rewrite Hirq4|].
  exists k1, k2, k3, k4, k5, Q2. do 5 (split; [assumption|]). split.
  { exact (settled_trans _ _ _ _ _ _ S1 (settled_trans _ _ _ _ _ _ S2 (settled_trans _ _ _ _ _ _ S3 (settled_trans _ _ _ _ _ _ S4 S5)))). }
  pose proof (settled_carried _ _ _ _ S5 (f_equal (lookup ps2_lock) L5)) as C5.
  destruct W1 as [_ [l1 Hq1] [[Hh Ht] Rp Rn _] Wr]. simpl in Hh, Ht.
  assert (Ew : works (devs (kheap k5)) = <[addr_ps2_work := WorkStruct (Some PS2_KEYBOARD_WORK) 0 0 0]> (works (devs (kheap k1))))
    by (rewrite D5; simpl; rewrite D4; simpl; by rewrite D13).
  assert (Eq : sysworkq (devs (kheap k5)) = sysworkq (devs (kheap k1))) by (rewrite D5; simpl; rewrite D4; simpl; by rewrite D13).
  assert (Ea : irq_actions (devs (kheap k5)) = <[0%nat := IrqAction (Some TIMER_IRQ_HANDLER) 0]> (irq_actions (devs (kheap k4))))
    by by rewrite D5.
  split; [apply S5| | |by rewrite Eq| | | | |done| |].
  - apply (kbd_inv_carried k4 Q2); [done|done|..]; unfold iq, kb; by rewrite D5.
  - split; [apply S5|apply S5, S4, S3, S2; rewrite lookup_insert_eq; by eexists| |by rewrite Eq].
    apply work_rep_idle; [by rewrite Eq|by rewrite Eq|by rewrite Ew, lookup_insert_ne|].
    rewrite Ew. intros w x. destruct (decide (w = addr_ps2_work)) as [->|Hw]; [rewrite lookup_insert_eq; by intros [= <-]|].
    rewrite lookup_insert_ne by done. intros Hx. destruct (decide (pending x = 0)) as [|Hp]; [done|].
    by apply (Rp w x Hx), not_elem_of_nil in Hp.
  - by rewrite Ew, lookup_insert_ne.
  - by rewrite Ew, lookup_insert_eq.
  - unfold action_at. by rewrite Ea, Hirq4.
  - unfold action_at. by rewrite Ea, Hirq4.
  - unfold cold_tty. rewrite D5. simpl. rewrite D4. simpl. rewrite D13. apply (co_tty _ _ Hcold).
  - pose proof (co_consoles _ _ Hcold) as Hc. unfold console_chain, cnext in *. rewrite D5. simpl. rewrite D4. simpl. by rewrite D13.
Qed.

Lemma calm_devs f k Q : calm k Q -> calm (with_devs f k) Q.
Proof. intros C. apply (se_calm _ _ _ _ (settled_devs f k Q C)). Qed.

(** [desk] and the invariants of its parts when a thread was created. *)
Lemma created_carried k Q k' : calm k' Q -> locks k' = locks k -> carried k Q k' Q.
Proof. intros C L. split; [apply C|done|by rewrite L]. Qed.

Lemma workqueue_start_run live rq k Q cs room :
  ~ alloc_fails (H := memory H) ->
  wired k Q cs -> booting live rq k (room + 25000) -> 0 <= room ->
  exists t k' live', workqueue_start k = Ret 0 k' /\ booting live' (rq ++ [t]) k' room /\ calm k' Q /\
    kbd_inv k' Q [] (Decoder 0 false 0) 1 [] /\ work_inv k' Q [addr_selftest_work] /\ rflags k' = rflags k /\
    idle_thread k' = idle_thread k /\ is_in THREAD_READY k' t = true /\
    (forall u, u ∈ rq -> is_in THREAD_READY k u = true -> is_in THREAD_READY k' u = true) /\
    is_Some (works (devs (kheap k')) !! addr_ps2_work) /\
    (forall x, works (devs (kheap k')) !! addr_ps2_work = Some x -> func x = Some PS2_KEYBOARD_WORK) /\
    devs (kheap k') = (devs (kheap k)) <| sysworkq := sysworkq (devs (kheap k')) |> <| works := works (devs (kheap k')) |>.
Proof.
  intros Sure Wd B Hr. destruct Wd as [C Ik Iw Hs Hit Hps _ _ _ _ _]. destruct static_apart as (_ & _ & _ & _ & Hs0 & Hne).
  pose proof static_entries as He. rewrite Forall_forall in He.
  destruct (thread_joins live rq k Q room (Some "workqueue"%string) entry_workqueue_thread 0 Sure B C) as
    (t & k1 & live1 & E1 & Ht & B1 & C1 & D1 & L1 & F1 & Id1 & R1 & K1); [apply He; set_solver|done|].
  unfold workqueue_start, wq, set_wq. rewrite bind_dev, (bool_decide_eq_false_2 (wq_initialized _ = 0)) by apply Iw.
  rewrite bind_dev, Hs, (bool_decide_eq_true_2 (0 = 0)) by done. cbn [negb]. mrun E1.
  rewrite (bool_decide_eq_false_2 (t = 0)) by done. rewrite bind_set_dev.
  set (k2 := with_devs (fun d => d <| sysworkq ::= (fun q => q <| started := 1 |>) |>) k1).
  assert (C2 : calm k2 Q) by by apply calm_devs.
  pose proof (created_carried k Q k1 C1 L1) as Ca.
  assert (Iw1 : work_inv k1 Q []) by (apply (work_inv_carried k Q); [done|done|by rewrite D1|by rewrite D1]).
  assert (Iw2 : work_inv k2 Q []).
  { destruct Iw1 as [_ Iq [Rq Rp Rn Rf] Ir]. split; [apply C2|done|by split|done]. }
  destruct (wo_queue _ _ _ Iw) as [l Hl]. pose proof (cm_empty _ _ C _ _ Hl) as ->.
  assert (Hit2 : works (devs (kheap k2)) !! addr_selftest_work = Some (WorkStruct (Some WORKQUEUE_SELFTEST_ENTRY) 0 0 0)) by (simpl; by rewrite D1).
  destruct (queue_work_run k2 Q [] addr_selftest_work _ [] Iw2 Hl Hit2) as (k3 & E3 & P3 & W3); [done|done|].
  rewrite (insert_id Q) in W3 by done. destruct (posted_settled k2 Q _ _ k3 C2 Hl P3) as (S3 & L3 & F3).
  assert (S13 : settled k1 Q k3 Q) by (eapply settled_trans; [apply settled_devs; exact C1|exact S3]).
  assert (Hd3 : devs (kheap k3) = enqueued addr_selftest_work (devs (kheap k2))) by (by rewrite (po_heap _ _ _ _ _ _ P3)).
  assert (Ht0 : wq_tail (sysworkq (devs (kheap k2))) = 0) by apply (wr_queue _ _ (wo_rep _ _ _ Iw2)).
  unfold enqueued in Hd3. rewrite decide_True in Hd3 by exact Ht0.
  assert (Df : devs (kheap k3) = (devs (kheap k)) <| sysworkq := sysworkq (devs (kheap k3)) |> <| works := works (devs (kheap k3)) |>).
  { rewrite Hd3. simpl. rewrite D1. by destruct (devs (kheap k)). }
  assert (Hp3 : works (devs (kheap k3)) !! addr_ps2_work = works (devs (kheap k)) !! addr_ps2_work).
  { rewrite Hd3. simpl. rewrite lookup_alter_ne by done. by rewrite D1. }
  exists t, k3, live1. split_and!; try done.
  - by apply (settled_booting live1 (rq ++ [t]) k1 Q k3 Q).
  - apply S3.
  - assert (Ck : carried k Q k3 Q) by (apply created_carried; [apply S3|rewrite L3; exact L1]).
    apply (kbd_inv_carried k Q); [done|done|..]; unfold iq, kb; by rewrite Df.
  - rewrite F3. exact F1.
  - rewrite (se_frame _ _ _ _ S13). exact Id1.
  - rewrite (se_frame _ _ _ _ S13). exact R1.
  - intros u Hu Hsu. rewrite (se_frame _ _ _ _ S13). exact (K1 u Hu Hsu).
  - rewrite Hp3, Hps. by eexists.
  - rewrite Hp3, Hps. by intros x [= <-].
Qed.

Lemma drivers_started live rq k Q cs room :
  ~ alloc_fails (H := memory H) ->
  wired k Q cs -> booting live rq k (room + 75000) -> 0 <= room ->
  exists w c s k1 k2 k3 live' Q', workqueue_start k = Ret 0 k1 /\ input_console_init k1 = Ret tt k2 /\ kdb_init k2 = Ret tt k3 /\
    booting live' (rq ++ [w; c; s]) k3 room /\ calm k3 Q' /\
    desk k3 Q' [] (Decoder 0 false 0) 1 [] [addr_selftest_work] cs (Editor [] [] 0) /\
    action_at k3 0 = Some (IrqAction (Some TIMER_IRQ_HANDLER) 0) /\ irqs_on k3 = true /\ idle_thread k3 = idle_thread k /\
    (forall u, u ∈ rq -> is_in THREAD_READY k u = true -> is_in THREAD_READY k3 u = true) /\
    is_in THREAD_READY k3 w = true /\ is_in THREAD_READY k3 c = true /\ is_in THREAD_READY k3 s = true.
Proof.
  intros Sure Wd B Hr. pose proof static_entries as He. rewrite Forall_forall in He.
  destruct (workqueue_start_run live rq k Q cs (room + 50000) Sure Wd) as
    (w & k1 & live1 & E1 & B1 & C1 & Ik1 & Iw1 & Fl1 & Id1 & R1 & K1 & [x Hx] & Hf & D1);
    [by replace (room + 50000 + 25000) with (room + 75000) by lia|lia|].
  destruct Wd as [C _ _ _ _ _ Ht Hi Hon Htty Hcs].
  destruct (tty_init_run k1 Q cs C1) as (k2 & E2 & S2 & L2 & Fl2 & It2 & D2);
    [unfold cold_tty; by rewrite D1|unfold console_chain, cnext in *; by rewrite D1|].
  set (Q2 := <[addr_tty_wait := []]> Q) in *.
  pose proof (settled_booting live1 (rq ++ [w]) k1 Q k2 Q2 _ S2 B1) as B2.
  destruct (thread_joins live1 (rq ++ [w]) k2 Q2 (room + 25000) (Some "input-console"%string) entry_input_console_thread 0 Sure) as
    (c & k3 & live3 & E3 & Hc & B3 & C3 & D3 & L3 & F3 & Id3 & R3 & K3);
    [by replace (room + 25000 + 25000) with (room + 50000) by lia|apply S2|apply He; set_solver|lia|].
  destruct (thread_joins live3 ((rq ++ [w]) ++ [c]) k3 Q2 room (Some "kdb"%string) entry_kdb_thread 0 Sure B3 C3) as
    (s & k4 & live4 & E4 & Hs & B4 & C4 & D4 & L4 & F4 & Id4 & R4 & K4); [apply He; set_solver|lia|].
  exists w, c, s, k1, k3, k4, live4, Q2. split; [done|]. split; [|split; [|split; [|split; [done|]]]].
  - unfold input_console_init. mrun E2. mrun E3. by rewrite bool_decide_eq_false_2.
  - unfold kdb_init. mrun E4. by rewrite bool_decide_eq_false_2.
  - by rewrite <- !app_assoc in B4.
  - assert (Ca : carried k1 Q k4 Q2) by (split; [apply C4|apply S2|by rewrite L4, L3]).
    assert (Da : devs (kheap k4) = (devs (kheap k1)) <| tty := tty (devs (kheap k2)) |>) by (by rewrite D4, D3, D2).
    assert (Cb : carried k2 Q2 k4 Q2) by (split; [apply C4|done|by rewrite L4, L3]).
    assert (Db : devs (kheap k4) = devs (kheap k2)) by by rewrite D4, D3.
    split; [|split_and!].
    + split.
      * apply (kbd_inv_carried k1 Q); [done|done|..]; unfold iq, kb; by rewrite Da.
      * apply (work_inv_carried k1 Q); [done|done|..]; by rewrite Da.
      * apply (tty_inv_carried k2 Q2); [done|done|..]; unfold td; by rewrite Db.
      * exists x. rewrite Da. simpl. by split; [|apply Hf].
      * exists 0. unfold action_at in *. rewrite Da. simpl. by rewrite D1.
    + unfold action_at in *. rewrite Da. simpl. by rewrite D1.
    + unfold irqs_on in *. by rewrite F4, F3, Fl2, Fl1.
    + by rewrite Id4, Id3, (se_frame _ _ _ _ S2).
    + intros u Hu Hsu. apply K4; [set_solver|]. apply K3; [set_solver|]. rewrite (se_frame _ _ _ _ S2). by apply K1.
    + apply K4; [set_solver|]. apply K3; [set_solver|]. by rewrite (se_frame _ _ _ _ S2).
    + apply K4; [set_solver|done].
    + done.
Qed.
End theory.
