(* ===== verification/EarlyLog.v ===== *)
(** * kernel/early_log.c and arch/x86/kernel/early_log.c: output before printk

    Three backends show the early log and are the first consoles: the QEMU debug port, the
    serial line and the framebuffer.  Both sides are here: the backends' drivers, and the
    text and number printing on top of them. *)

From S2P Require Import Prelude LinkedList PhysMem Switch KState Sched SchedCore WaitQueue Devices Printk Fbcon Keymap Kdb.

Definition X86_QEMU_DEBUG_PORT : Z := 0xe9.
Definition X86_COM1_BASE : Z := 0x3f8.
Definition X86_COM_DATA : Z := 0.
Definition X86_COM_INTERRUPT_ENABLE : Z := 1.
Definition X86_COM_FIFO_CONTROL : Z := 2.
Definition X86_COM_LINE_CONTROL : Z := 3.
Definition X86_COM_MODEM_CONTROL : Z := 4.
Definition X86_COM_LINE_STATUS : Z := 5.
Definition X86_COM_LCR_DLAB : Z := 0x80.
Definition X86_COM_LCR_8N1 : Z := 0x03.
Definition X86_COM_LSR_THRE : Z := 0x20.

(** The addresses of the three console objects. *)
Class EarlyStatics := {
  debug_console : Z;
  serial_console : Z;
  screen_boot_console : Z;
  early_objects : NoDup [0; debug_console; serial_console; screen_boot_console]
}.

(** The kernel, the framebuffer console's statics and the two flags. *)
Record elog (H : Type) := Elog {
  lk : kernel (memory H);
  lfb : fbcon;
  x86_early_consoles_registered : Z;
  early_log_ready : Z
}.
Arguments Elog {H} _ _ _ _.
Arguments lk {H} _.
Arguments lfb {H} _.
Arguments x86_early_consoles_registered {H} _.
Arguments early_log_ready {H} _.
#[export] Instance eta_elog {H} : Eta (elog H) := fun s =>
  Elog (lk s) (lfb s) (x86_early_consoles_registered s) (early_log_ready s).

Section early.
Context {H : Type} `{KAlloc H} `{EarlyStatics}.
Abbreviation K := (M (kernel (memory H))).
Abbreviation E := (M (elog H)).

Definition on_kernel {A} (m : K A) : E A := zoom lk (fun k s => s <| lk := k |>) m.
Definition on_screen {A} (m : M fbcon A) : E A := zoom lfb (fun f s => s <| lfb := f |>) m.

(** ** The backends *)

Definition debug_port_putc (ch : Z) : K unit := outb X86_QEMU_DEBUG_PORT (wrap8 ch).

(** [for (timeout = 0; timeout < 100000; timeout++)], left when the transmitter is ready. *)
Definition serial_wait (timeout : Z) : K (Z + unit) :=
  if bool_decide (100000 <= timeout) then mret (inr tt)
  else
    status ← inb (X86_COM1_BASE + X86_COM_LINE_STATUS);
    if negb (bool_decide (Z.land status X86_COM_LSR_THRE = 0)) then mret (inr tt) else mret (inl (timeout + 1)).

Definition serial_putc (ch : Z) : K unit :=
  loop (Z.to_nat 100001) serial_wait 0 ;;
  outb (X86_COM1_BASE + X86_COM_DATA) (wrap8 ch).

Definition debug_console_write (text : list Z) : E unit := for_each text (fun ch => on_kernel (debug_port_putc ch)).
Definition serial_console_write (text : list Z) : E unit := for_each text (fun ch => on_kernel (serial_putc ch)).
Definition screen_console_write (text : list Z) : E unit := for_each text (fun ch => on_screen (screen_console_putc ch)).

Definition register_x86_early_consoles : E unit :=
  registered ← gets x86_early_consoles_registered;
  if negb (bool_decide (registered = 0)) then mret tt
  else
    _ ← on_kernel (register_console debug_console);
    _ ← on_kernel (register_console serial_console);
    _ ← on_kernel (register_console screen_boot_console);
    modify (fun s => s <| x86_early_consoles_registered := 1 |>).

Definition arch_early_log_init (boot_info : option boot_info_t) : E unit :=
  on_kernel (outb (X86_COM1_BASE + X86_COM_INTERRUPT_ENABLE) 0x00) ;;
  on_kernel (outb (X86_COM1_BASE + X86_COM_LINE_CONTROL) X86_COM_LCR_DLAB) ;;
  on_kernel (outb (X86_COM1_BASE + X86_COM_DATA) 0x03) ;;
  on_kernel (outb (X86_COM1_BASE + X86_COM_INTERRUPT_ENABLE) 0x00) ;;
  on_kernel (outb (X86_COM1_BASE + X86_COM_LINE_CONTROL) X86_COM_LCR_8N1) ;;
  on_kernel (outb (X86_COM1_BASE + X86_COM_FIFO_CONTROL) 0xc7) ;;
  on_kernel (outb (X86_COM1_BASE + X86_COM_MODEM_CONTROL) 0x0b) ;;
  on_screen (screen_console_init boot_info) ;;
  register_x86_early_consoles.

Definition arch_early_log_putc (ch : Z) : E unit :=
  on_kernel (debug_port_putc ch) ;;
  on_kernel (serial_putc ch) ;;
  on_screen (screen_console_putc ch).

(** ** The text interface *)

Definition early_log_init (boot_info : option boot_info_t) : E unit :=
  ready ← gets early_log_ready;
  if negb (bool_decide (ready = 0)) then mret tt
  else
    arch_early_log_init boot_info ;;
    modify (fun s => s <| early_log_ready := 1 |>).

Definition early_log_putc (ch : Z) : E unit :=
  ready ← gets early_log_ready;
  when (bool_decide (ready = 0)) (early_log_init None) ;;
  arch_early_log_putc ch.

Definition early_log_puts (text : option (list Z)) : E unit :=
  match text with
  | None => mret tt
  | Some text =>
      for_each text (fun ch =>
        when (bool_decide (ch = 10)) (early_log_putc 13) ;;
        early_log_putc ch)
  end.

Definition early_log_hex_digit (digit : Z) : E unit :=
  if bool_decide (digit < 10) then early_log_putc (48 + digit) else early_log_putc (97 + digit - 10).

(** [for (shift = 60; shift >= 0; shift -= 4)] *)
Definition early_log_u64_hex (value : Z) : E unit :=
  early_log_puts (Some (str "0x")) ;;
  for_each ((fun i => 60 - 4 * i) <$> seqZ 0 16) (fun shift =>
    early_log_hex_digit (wrap8 (Z.land (Z.shiftr value shift) 0x0f))).

(** The digit loop is that of [kdb_print_u64_decimal], with the same array of twenty. *)
Definition early_log_u64_decimal (value : Z) : E unit :=
  if bool_decide (value = 0) then early_log_putc 48
  else
    digits ← deref (fun _ => kdb_digit_loop 65 value []);
    for_each (reverse digits) early_log_putc.
End early.

Section theory.
Context {H : Type} `{KAlloc H} `{EarlyStatics}.
Implicit Types (k : kernel (memory H)) (s : elog H) (t : option terminal) (text : list Z).

(** The bytes written to a port so far. *)
Definition sent k (port : Z) : list Z := snd <$> filter (fun w => w.1 = port) (port_writes (devs (kheap k))).

(** From [k] to [k'] nothing but port accesses happened. *)
Definition ports_only k k' : Prop :=
  k' = with_devs (fun d => d <| port_writes := port_writes (devs (kheap k')) |> <| port_reads := port_reads (devs (kheap k')) |>) k.

Lemma ports_only_refl k : ports_only k k.
Proof. unfold ports_only. symmetry. apply with_devs_id. by destruct (devs (kheap k)). Qed.

Lemma ports_only_trans k k1 k2 : ports_only k k1 -> ports_only k1 k2 -> ports_only k k2.
Proof. unfold ports_only. intros E1 E2. rewrite E2, E1. by destruct k as [[]]. Qed.

Lemma outb_ports p v k :
  exists k', outb p v k = Ret tt k' /\ ports_only k k' /\
    forall q, sent k' q = sent k q ++ (if decide (p = q) then [v] else []).
Proof.
  eexists. split; [reflexivity|]. split; [by destruct k as [[? []]]|]. intros q. unfold sent. simpl.
  rewrite filter_app, fmap_app. f_equal. rewrite filter_cons, filter_nil. cbn [fst]. by destruct (decide (p = q)).
Qed.

Lemma inb_ports p k : exists v k', inb p k = Ret v k' /\ ports_only k k' /\ forall q, sent k' q = sent k q.
Proof.
  unfold inb. rewrite bind_dev. destruct (default [] (port_reads (devs (kheap k)) !! p)) as [|v rest].
  - exists 0xff, k. split; [done|]. split; [apply ports_only_refl|done].
  - exists v. eexists. split; [reflexivity|]. split; [by destruct k as [[? []]]|done].
Qed.

(** The serial line: whatever its status port answers, the byte is sent. *)
Lemma serial_wait_step timeout k :
  timeout < 100000 ->
  exists r k', serial_wait timeout k = Ret r k' /\ (r = inr tt \/ r = inl (timeout + 1)) /\ ports_only k k' /\
    forall q, sent k' q = sent k q.
Proof.
  intros Ht. unfold serial_wait. rewrite bool_decide_eq_false_2 by lia.
  destruct (inb_ports (X86_COM1_BASE + X86_COM_LINE_STATUS) k) as (v & k1 & E1 & P1 & S1). mrun E1.
  destruct (negb _); eexists _, k1; (split; [reflexivity|]); auto.
Qed.

Lemma serial_wait_run n : forall timeout fuel k,
  timeout = 100000 - Z.of_nat n -> (n < fuel)%nat ->
  exists k', loop fuel serial_wait timeout k = Ret tt k' /\ ports_only k k' /\ forall q, sent k' q = sent k q.
Proof.
  induction n as [|n IH]; intros timeout fuel k Ht Hf; (destruct fuel as [|fuel]; [lia|]); rewrite loop_S.
  - erewrite bind_run by (unfold serial_wait; rewrite bool_decide_eq_true_2 by lia; reflexivity).
    exists k. split; [done|]. split; [apply ports_only_refl|done].
  - destruct (serial_wait_step timeout k) as (r & k1 & E1 & [->| ->] & P1 & S1); [lia| |]; mrun E1; [by exists k1|].
    destruct (IH (timeout + 1) fuel k1) as (k2 & E2 & P2 & S2); [lia|lia|]. exists k2. split; [done|].
    split; [by eapply ports_only_trans|]. intros q. by rewrite S2, S1.
Qed.

Lemma serial_putc_run ch k :
  exists k', serial_putc ch k = Ret tt k' /\ ports_only k k' /\
    forall q, sent k' q = sent k q ++ (if decide (X86_COM1_BASE = q) then [wrap8 ch] else []).
Proof.
  unfold serial_putc. destruct (serial_wait_run (Z.to_nat 100000) 0 (Z.to_nat 100001) k) as (k1 & E1 & P1 & S1); [lia|lia|].
  mrun E1. destruct (outb_ports (X86_COM1_BASE + X86_COM_DATA) (wrap8 ch) k1) as (k2 & E2 & P2 & S2).
  exists k2. split; [done|]. split; [by eapply ports_only_trans|]. intros q. by rewrite S2, S1.
Qed.

(** The screen shows the terminal [t], or nothing when it is not in use. *)
Definition panel (f : fbcon) t : Prop :=
  match t with
  | Some t => screen_ok f /\ Fbcon.shows f t
  | None => fb_base (fbcon_info f) = 0 \/ rows f = 0 \/ columns f = 0
  end.

Definition fed (f : fbcon) t text : option terminal := (fun g => foldl (term_putc (columns f) (rows f)) g text) <$> t.

Lemma panel_putc f t ch :
  panel f t -> exists f', screen_console_putc ch f = Ret tt f' /\ panel f' (fed f t [ch]) /\ columns f' = columns f /\ rows f' = rows f.
Proof.
  destruct t as [t|]; simpl.
  - intros [Hok Hsh]. destruct (fbcon_putc_shows f t ch Hok Hsh) as (f' & E & Hok' & Hsh' & Hev).
    exists f'. split; [done|]. split; [by split|]. by destruct Hev.
  - intros Hoff. exists f. split; [|done]. unfold screen_console_putc, fbcon_putc. mred.
    destruct Hoff as [->|[->| ->]]; by rewrite ?(bool_decide_eq_true_2 (0 = 0)), ?orb_true_r by done.
Qed.

(** The log is up, and the screen shows [t]. *)
Record logging s t : Prop := { lo_ready : early_log_ready s <> 0; lo_panel : panel (lfb s) t }.

(** From [s] to [s'] the bytes of [text] went to all three backends, and nothing else
    happened. *)
Record logged text s s' : Prop := {
  ld_debug : sent (lk s') X86_QEMU_DEBUG_PORT = sent (lk s) X86_QEMU_DEBUG_PORT ++ text;
  ld_serial : sent (lk s') X86_COM1_BASE = sent (lk s) X86_COM1_BASE ++ text;
  ld_kernel : ports_only (lk s) (lk s');
  ld_size : columns (lfb s') = columns (lfb s) /\ rows (lfb s') = rows (lfb s);
  ld_screen : forall t, logging s t -> logging s' (fed (lfb s) t text)
}.

Lemma logged_nil s : logged [] s s.
Proof. split; [by rewrite app_nil_r..|apply ports_only_refl|done|]. intros [t|]; done. Qed.

Lemma logged_app l1 l2 s s1 s2 : logged l1 s s1 -> logged l2 s1 s2 -> logged (l1 ++ l2) s s2.
Proof.
  intros [A1 B1 C1 [D1 D1'] F1] [A2 B2 C2 [D2 D2'] F2]. split.
  - by rewrite A2, A1, app_assoc.
  - by rewrite B2, B1, app_assoc.
  - by eapply ports_only_trans.
  - split; congruence.
  - intros t Ht. pose proof (F2 _ (F1 t Ht)) as Hf. unfold fed in *. rewrite D1, D1' in Hf.
    destruct t as [t|]; [|done]. simpl in *. by rewrite foldl_app.
Qed.

Definition is_char (ch : Z) : Prop := 0 <= ch < 256.

Lemma early_log_putc_run ch s t : logging s t -> is_char ch -> exists s', early_log_putc ch s = Ret tt s' /\ logged [ch] s s'.
Proof.
  intros [Hr Hp] Hch. unfold early_log_putc. rewrite bind_gets, bool_decide_eq_false_2 by done. rewrite bind_when_false.
  unfold arch_early_log_putc.
  assert (Hw : wrap8 ch = ch) by (apply Z.mod_small; exact Hch).
  destruct (outb_ports X86_QEMU_DEBUG_PORT (wrap8 ch) (lk s)) as (k1 & E1 & P1 & S1).
  erewrite bind_run by (apply zoom_run; exact E1). cbv beta.
  destruct (serial_putc_run ch k1) as (k2 & E2 & P2 & S2).
  erewrite bind_run by (apply zoom_run; exact E2). cbv beta.
  destruct (panel_putc (lfb s) t ch Hp) as (f' & E3 & Hp' & Hc & Hrw).
  eexists. split; [apply zoom_run; exact E3|]. rewrite Hw in *. split; simpl.
  - by rewrite S2, S1, app_nil_r.
  - rewrite S2, S1. simpl. by rewrite app_nil_r.
  - by eapply ports_only_trans.
  - done.
  - intros t' [_ Hp2]. split; [done|]. simpl. destruct (panel_putc (lfb s) t' ch Hp2) as (f2 & E4 & Hp3 & _).
    rewrite E3 in E4. by injection E4 as <-.
Qed.

(** ** Texts and numbers *)

Definition logs (m : M (elog H) unit) text : Prop :=
  forall s t, logging s t -> exists s', m s = Ret tt s' /\ logged text s s'.

Lemma logs_ret : logs (mret tt) [].
Proof. intros s t _. exists s. split; [done|apply logged_nil]. Qed.

Lemma logs_seq m n l1 l2 : logs m l1 -> logs n l2 -> logs (m ;; n) (l1 ++ l2).
Proof.
  intros Hm Hn s t Hs. destruct (Hm s t Hs) as (s1 & E1 & L1).
  destruct (Hn s1 _ (ld_screen _ _ _ L1 t Hs)) as (s2 & E2 & L2). exists s2. mrun E1. split; [done|by eapply logged_app].
Qed.

Lemma logs_putc ch : is_char ch -> logs (early_log_putc ch) [ch].
Proof. intros Hc s t Hs. by apply (early_log_putc_run ch s t). Qed.

Lemma logs_each {A} (l : list A) f (g : A -> list Z) : (forall a, a ∈ l -> logs (f a) (g a)) -> logs (for_each l f) (l ≫= g).
Proof.
  induction l as [|a l IH]; intros Hf; [apply logs_ret|]. rewrite bind_cons. cbn [for_each].
  apply logs_seq; [apply Hf; left|]. apply IH. intros b Hb. apply Hf. by right.
Qed.

Lemma logs_puts text : Forall is_char text -> logs (early_log_puts (Some text)) (crlf text).
Proof.
  intros Hc. rewrite Forall_forall in Hc. apply logs_each. intros ch Hin. unfold line_end. destruct (decide (ch = 10)) as [->|Hne].
  - rewrite bool_decide_eq_true_2 by done. change [13; 10] with ([13] ++ [10]). apply logs_seq; apply logs_putc; done.
  - rewrite bool_decide_eq_false_2 by done. change [ch] with ([] ++ [ch]). apply logs_seq; [apply logs_ret|by apply logs_putc, Hc].
Qed.

(** The sixteen hexadecimal digits of a value. *)
Definition hex_char (d : Z) : Z := if decide (d < 10) then 48 + d else 87 + d.
Definition hex16 (v : Z) : list Z := (fun i => hex_char (v / 16 ^ (15 - i) mod 16)) <$> seqZ 0 16.

Lemma logs_hex v : logs (early_log_u64_hex v) (str "0x" ++ hex16 v).
Proof.
  apply logs_seq; [apply (logs_puts (str "0x")); by repeat constructor|].
  assert (Es : hex16 v = ((fun i => 60 - 4 * i) <$> seqZ 0 16) ≫= (fun shift => [hex_char (Z.shiftr v shift mod 16)])).
  { unfold hex16. change (seqZ 0 16) with [0;1;2;3;4;5;6;7;8;9;10;11;12;13;14;15]. cbn [fmap list_fmap mbind list_bind app].
    rewrite !Z.shiftr_div_pow2 by lia. reflexivity. }
  rewrite Es. apply logs_each. intros shift _. unfold early_log_hex_digit, hex_char.
  assert (Ed : wrap8 (Z.land (Z.shiftr v shift) 15) = Z.shiftr v shift mod 16).
  { change 15 with (2 ^ 4 - 1). rewrite land_ones_mod by lia. apply Z.mod_small. change (2 ^ 4) with 16. div_lia. }
  rewrite Ed. pose proof (Z.mod_pos_bound (Z.shiftr v shift) 16 ltac:(lia)) as Hb.
  destruct (decide (Z.shiftr v shift mod 16 < 10)) as [Hd|Hd].
  - rewrite bool_decide_eq_true_2 by done. apply logs_putc. unfold is_char. lia.
  - rewrite bool_decide_eq_false_2 by done. replace (97 + _ - 10) with (87 + Z.shiftr v shift mod 16) by lia.
    apply logs_putc. unfold is_char. lia.
Qed.

Lemma logs_decimal v : in64 v -> exists text, decimal v text /\ logs (early_log_u64_decimal v) text.
Proof.
  intros Hv. unfold early_log_u64_decimal. destruct (digits_of_10 v Hv) as (ds & Eds & Hlen & Hnum).
  exists ((fun d => 48 + d) <$> reverse ds). split; [by exists (reverse ds)|]. unfold digits_of in Eds.
  case_bool_decide as Hz; [injection Eds as <-; by apply logs_putc|].
  pose proof (kdb_digit_loop_digits _ _ _ _ Eds ltac:(lia)) as Ek. rewrite fmap_nil in Ek. intros s t Hs.
  erewrite (bind_deref (fun _ => kdb_digit_loop 65 v [])) by exact Ek. rewrite <- fmap_reverse.
  assert (Es : forall l : list Z, l ≫= (fun d => [d]) = l) by (induction l as [|x l IH]; [done|by rewrite bind_cons, IH]).
  pose proof (logs_each ((fun d => 48 + d) <$> reverse ds) early_log_putc (fun d => [d])) as L. rewrite Es in L.
  refine (L _ s t Hs). intros ch Hin. apply logs_putc.
  apply list_elem_of_fmap in Hin as (d & -> & Hd). destruct Hnum as [Hf _]. rewrite Forall_forall in Hf. specialize (Hf d Hd). unfold is_char. lia.
Qed.

(** ** Bringing the log up *)

Definition ported s s' : Prop := ports_only (lk s) (lk s') /\ s' = s <| lk := lk s' |>.

Lemma ported_refl s : ported s s.
Proof. split; [apply ports_only_refl|by destruct s]. Qed.

Lemma ported_trans s s1 s2 : ported s s1 -> ported s1 s2 -> ported s s2.
Proof. intros [P1 F1] [P2 F2]. split; [by eapply ports_only_trans|]. rewrite F2. simpl. rewrite F1. by destruct s. Qed.

(** A port write, then the rest [c]. *)
Lemma bind_out p v s :
  exists s1, (forall A (c : unit -> M (elog H) A), (u ← on_kernel (outb p v); c u) s = c tt s1) /\ ported s s1.
Proof.
  destruct (outb_ports p v (lk s)) as (k1 & E1 & P1 & _). exists (s <| lk := k1 |>). split; [|done].
  intros A c. by erewrite bind_run by (apply zoom_run; exact E1).
Qed.

Ltac port_write p :=
  match goal with |- context [(on_kernel (outb ?a ?v) ≫= _) ?s] =>
    let s1 := fresh "s" in let E := fresh "E" in let P := fresh "P" in
    destruct (bind_out a v s) as (s1 & E & P); rewrite E; clear E;
    apply (ported_trans _ _ _ p) in P; clear p; rename P into p
  end.

(** The three console objects are there, with their callbacks, and none is registered. *)
Record consoles_cold d : Prop := {
  cc_none : console_list d = 0;
  cc_write : forall c, c ∈ [debug_console; serial_console; screen_boot_console] -> exists x, consoles d !! c = Some x /\ has_write x = true
}.

Definition early_consoles : list Z := [screen_boot_console; serial_console; debug_console].

Lemma register_next c cs s :
  console_chain (devs (kheap (lk s))) cs -> c ∉ cs -> c <> 0 ->
  (exists x, consoles (devs (kheap (lk s))) !! c = Some x /\ has_write x = true) ->
  exists k', on_kernel (register_console c) s = Ret 0 (s <| lk := k' |>) /\ console_chain (devs (kheap k')) (c :: cs) /\
    k' = with_devs (fun d => d <| consoles := consoles (devs (kheap k')) |> <| console_list := console_list (devs (kheap k')) |>) (lk s) /\
    (forall y, has_write <$> consoles (devs (kheap k')) !! y = has_write <$> consoles (devs (kheap (lk s))) !! y).
Proof.
  intros Hc Hn Hc0 (x & Hx & Hw). destruct (register_console_run c x (lk s) cs Hc Hc0 Hx Hw) as (k' & E & C & F & W).
  rewrite decide_False in C by done. exists k'. split_and!; [|done|done|done]. apply (zoom_run lk (fun k s => s <| lk := k |>)). exact E.
Qed.

Lemma keeps_write k k' c :
  (forall y, has_write <$> consoles (devs (kheap k')) !! y = has_write <$> consoles (devs (kheap k)) !! y) ->
  (exists x, consoles (devs (kheap k)) !! c = Some x /\ has_write x = true) ->
  exists x, consoles (devs (kheap k')) !! c = Some x /\ has_write x = true.
Proof.
  intros E (x & Hx & Hw). specialize (E c). rewrite Hx in E. simpl in E. apply fmap_Some in E as (x' & Hx' & Ew).
  exists x'. split; [done|congruence].
Qed.

Lemma register_early_run s :
  x86_early_consoles_registered s = 0 -> consoles_cold (devs (kheap (lk s))) ->
  exists k', register_x86_early_consoles s = Ret tt (s <| lk := k' |> <| x86_early_consoles_registered := 1 |>) /\
    console_chain (devs (kheap k')) early_consoles /\
    k' = with_devs (fun d => d <| consoles := consoles (devs (kheap k')) |> <| console_list := console_list (devs (kheap k')) |>) (lk s).
Proof.
  intros Hr [Hn Hw]. pose proof early_objects as Nd. apply NoDup_cons in Nd as [N0 Nd]. apply NoDup_cons in Nd as [N1 Nd].
  apply NoDup_cons in Nd as [N2 _]. unfold register_x86_early_consoles. rewrite bind_gets, Hr, bool_decide_eq_true_2 by done. cbn [negb].
  destruct (register_next debug_console [] s) as (k1 & E1 & C1 & F1 & W1);
    [unfold console_chain; by rewrite Hn|by apply not_elem_of_nil|set_solver|apply Hw; set_solver|]. mrun E1.
  destruct (register_next serial_console [debug_console] (s <| lk := k1 |>)) as (k2 & E2 & C2 & F2 & W2);
    [exact C1|set_solver|set_solver|by apply (keeps_write (lk s) k1 _ W1), Hw; set_solver|]. mrun E2.
  destruct (register_next screen_boot_console [serial_console; debug_console] (s <| lk := k1 |> <| lk := k2 |>)) as (k3 & E3 & C3 & F3 & W3);
    [exact C2|set_solver|set_solver|by apply (keeps_write k1 k2 _ W2), (keeps_write (lk s) k1 _ W1), Hw; set_solver|]. mrun E3.
  exists k3. split; [done|]. split; [exact C3|]. rewrite F3. simpl. rewrite F2. simpl. rewrite F1. by destruct (lk s) as [[]].
Qed.

Lemma early_log_init_run b s f t :
  early_log_ready s = 0 -> x86_early_consoles_registered s = 0 -> consoles_cold (devs (kheap (lk s))) ->
  screen_console_init b (lfb s) = Ret tt f -> panel f t ->
  exists s', early_log_init b s = Ret tt s' /\ logging s' t /\ lfb s' = f /\ console_chain (devs (kheap (lk s'))) early_consoles /\
    lk s' = with_devs (fun d => d <| port_writes := port_writes (devs (kheap (lk s'))) |> <| port_reads := port_reads (devs (kheap (lk s'))) |>
      <| consoles := consoles (devs (kheap (lk s'))) |> <| console_list := console_list (devs (kheap (lk s'))) |>) (lk s).
Proof.
  intros Hr Hreg Hcold Ef Hp.
  unfold early_log_init. rewrite bind_gets, Hr, bool_decide_eq_true_2 by done. cbn [negb].
  unfold arch_early_log_init. pose proof (ported_refl s) as P.
  do 7 (rewrite bind_assoc; port_write P). rewrite bind_assoc. match type of P with ported _ ?q => rename q into r end.
  destruct P as [P F]. erewrite bind_run by (apply zoom_run; rewrite F; exact Ef).
  destruct (register_early_run (r <| lfb := f |>)) as (k2 & E2 & C2 & F2); [by rewrite F|simpl; rewrite P; by destruct Hcold|].
  mrun E2. eexists. split; [reflexivity|]. split_and!; [by split|done|exact C2|].
  simpl. change (lk (r <| lfb := f |>)) with (lk r) in F2.
  assert (Ew : port_writes (devs (kheap k2)) = port_writes (devs (kheap (lk r)))) by by rewrite F2.
  assert (Er : port_reads (devs (kheap k2)) = port_reads (devs (kheap (lk r)))) by by rewrite F2.
  rewrite Ew, Er. etransitivity; [exact F2|]. etransitivity; [exact (f_equal (with_devs _) P)|]. rewrite with_devs_comp. by apply with_devs_ext.
Qed.

(** C28. The early log: on a machine whose console objects are as the linker put them and
    with a usable framebuffer, [early_log_init] registers the three consoles and clears the
    screen.  A text, a value in hexadecimal and in decimal then go, with CR LF line ends,
    byte for byte to the debug port, to the serial line whatever its status port answers,
    and to the screen, which shows what a terminal would. *)
Theorem early_log_shows b text value s :
  early_log_ready s = 0 -> x86_early_consoles_registered s = 0 -> consoles_cold (devs (kheap (lk s))) ->
  mode_ok (boot_mode b) (vram (lfb s)) -> CELL_WIDTH <= framebuffer_width b -> CELL_HEIGHT <= framebuffer_height b ->
  framebuffer_pixel_format b <= FBCON_PIXEL_FORMAT_BGR -> Forall is_char text -> in64 value ->
  exists s1 s2 num, early_log_init (Some b) s = Ret tt s1 /\ console_chain (devs (kheap (lk s1))) early_consoles /\
    (early_log_puts (Some text) ;; early_log_u64_hex value ;; early_log_u64_decimal value) s1 = Ret tt s2 /\
    decimal value num /\
    let output := crlf text ++ (str "0x" ++ hex16 value) ++ num in
    sent (lk s2) X86_QEMU_DEBUG_PORT = sent (lk s1) X86_QEMU_DEBUG_PORT ++ output /\
    sent (lk s2) X86_COM1_BASE = sent (lk s1) X86_COM1_BASE ++ output /\
    Fbcon.shows (lfb s2) (foldl (term_putc (framebuffer_width b / CELL_WIDTH) (framebuffer_height b / CELL_HEIGHT)) blank_terminal output).
Proof.
  intros Hr Hreg Hcold Hm Hw Hh Hf Htext Hv.
  destruct (screen_console_init_run b (lfb s) Hm Hw Hh Hf) as (f & Ef & Hok & Ei & Hsh).
  destruct (early_log_init_run (Some b) s f (Some blank_terminal) Hr Hreg Hcold Ef) as (s1 & E1 & L1 & Efb & C1 & _); [by split|].
  destruct (logs_decimal value Hv) as (num & Hnum & Ld).
  destruct (logs_seq _ _ _ _ (logs_puts text Htext) (logs_seq _ _ _ _ (logs_hex value) Ld) s1 _ L1) as (s2 & E2 & [D S _ _ P]).
  exists s1, s2, num. do 4 (split; [done|]). split; [exact D|]. split; [exact S|].
  destruct (P _ L1) as [_ [_ Hs]]. rewrite Efb, (screen_columns f Hok), (screen_rows f Hok), Ei in Hs. exact Hs.
Qed.
End theory.
