(* ===== verification/BootReport.v ===== *)
(** * kernel/boot_report.c: what the kernel says about its start

    The report reads the handoff structure and the firmware's memory map and prints four
    lines.  It runs on the whole kernel: the map is in RAM, the lines go through printk. *)

From S2P Require Import Prelude LinkedList PhysMem BootLoader PageAlloc Heap MmInit Switch KState Sched SchedCore WaitQueue Devices Printk Keymap LogLines Tty Kdb.

Section report.
Context `{KAlloc (heap_state mm)}.
Abbreviation K := (M (kernel (memory (heap_state mm)))).

(** An access to RAM. *)
Definition on_ram {A} (m : M mm A) : K A := on_heap (on_heap_part (on_pages m)).

(** One round of the walk over the map: [offset], [descriptors] and [conventional_pages]. *)
Definition summary_loop (boot_info : boot_info_t) (v : Z * Z * Z) : K (Z * Z * Z + Z * Z) :=
  let '(offset, descriptors, conventional_pages) := v in
  if bool_decide (wrap64 (offset + sizeof_boot_memory_descriptor) <= memory_map_size boot_info) then
    let descriptor := wrap64 (memory_map boot_info + offset) in
    type ← on_ram (load32 descriptor);
    conventional_pages ←
      (if bool_decide (type = BOOT_MEMORY_TYPE_CONVENTIONAL)
       then number_of_pages ← on_ram (load64 (descriptor + 24)); mret (wrap64 (conventional_pages + number_of_pages))
       else mret conventional_pages);
    mret (inl (wrap64 (offset + memory_descriptor_size boot_info), wrap64 (descriptors + 1), conventional_pages))
  else mret (inr (descriptors, conventional_pages)).

Definition log_memory_map_summary (boot_info : option boot_info_t) : K unit :=
  match boot_info with
  | None => pr_warn (str "memory map metadata missing" ++ [10]) []
  | Some b =>
      if bool_decide (memory_map b = 0) || bool_decide (memory_descriptor_size b = 0)
      then pr_warn (str "memory map metadata missing" ++ [10]) []
      else
        '(descriptors, conventional_pages) ← loop (init_fuel b) (summary_loop b) (0, 0, 0);
        pr_info (str "memory map descriptors=%llu" ++ [10]) [VaInt descriptors] ;;
        pr_info (str "conventional memory pages=%llu" ++ [10]) [VaInt conventional_pages]
  end.

Definition kernel_report_boot_state (boot_info : option boot_info_t) : K unit :=
  match boot_info with
  | Some b =>
      (if bool_decide (version b = BOOT_INFO_VERSION) then pr_info (str "boot_info.version ok" ++ [10]) []
       else pr_warn (str "boot_info.version invalid" ++ [10]) []) ;;
      (if bool_decide (Z.land (boot_flags b) BOOT_FLAG_SERVICES_ACTIVE = 0) then pr_info (str "boot services exited" ++ [10]) []
       else pr_warn (str "boot services still active" ++ [10]) [])
  | None =>
      pr_warn (str "boot_info.version invalid" ++ [10]) [] ;;
      pr_warn (str "boot services still active" ++ [10]) []
  end ;;
  log_memory_map_summary boot_info.
End report.

Section theory.
Context `{KAlloc (heap_state mm)}.
Implicit Types (k : kernel (memory (heap_state mm))) (cs q text : list Z).

Definition ram_of k : gmap Z Z := ram (pages (heap_part (kheap k))).

Lemma on_ram_run {A} (m : M mm A) a k :
  m (pages (heap_part (kheap k))) = Ret a (pages (heap_part (kheap k))) -> on_ram m k = Ret a k.
Proof.
  intros E. unfold on_ram, on_heap, on_heap_part, on_pages, zoom. rewrite E. by destruct k as [[[]]].
Qed.

(** The pages of the conventional regions among the first [n] descriptors. *)
Fixpoint region_total (bi : boot_info_t) (m : gmap Z Z) (n : nat) : Z :=
  match n with
  | O => 0
  | S n => region_total bi m n + (if decide (wrap32 (word m (desc_addr bi n)) = BOOT_MEMORY_TYPE_CONVENTIONAL)
                                  then word m (desc_addr bi n + 24) else 0)
  end.

Lemma summary_round L R bi k n d p :
  map_ok L bi R (ram_of k) -> (n < desc_count bi)%nat -> d = wrap64 (Z.of_nat n) -> p = wrap64 (region_total bi (ram_of k) n) ->
  summary_loop bi (Z.of_nat n * memory_descriptor_size bi, d, p) k =
  Ret (inl (Z.of_nat (S n) * memory_descriptor_size bi, wrap64 (Z.of_nat (S n)), wrap64 (region_total bi (ram_of k) (S n)))) k.
Proof.
  intros Hm Hn -> ->. destruct (desc_addr_range L bi R _ n Hm Hn) as (B1 & B2 & B3). destruct Hm as [_ _ M3 M4 M5 M6 _ _ _].
  unfold desc_addr in B1, B2. unfold summary_loop, sizeof_boot_memory_descriptor.
  rewrite (wrap64_id (_ + 40)) by (unfold in64; lia). rewrite bool_decide_eq_true_2 by lia.
  rewrite (wrap64_id (memory_map bi + _)) by (unfold in64; lia). fold (desc_addr bi n). unfold ram_of in *.
  erewrite bind_run by (apply on_ram_run, load32_run; exact B3). cbn [region_total].
  rewrite (wrap64_id (_ + memory_descriptor_size bi)) by (unfold in64; lia).
  assert (Ed : wrap64 (wrap64 (Z.of_nat n) + 1) = wrap64 (Z.of_nat (S n))).
  { unfold wrap64. rewrite Zplus_mod_idemp_l. f_equal. lia. }
  assert (Eo : Z.of_nat n * memory_descriptor_size bi + memory_descriptor_size bi = Z.of_nat (S n) * memory_descriptor_size bi) by lia.
  rewrite Ed, Eo. case_bool_decide as Ht; [rewrite decide_True by done|rewrite decide_False, Z.add_0_r by done].
  - rewrite bind_assoc. erewrite bind_run by (apply on_ram_run, load64_run; clear -B3; div_lia).
    rewrite bind_ret, mret_run. do 2 f_equal. f_equal. unfold wrap64. by rewrite Zplus_mod_idemp_l.
  - by rewrite bind_ret.
Qed.

Lemma summary_end L R bi k d p :
  map_ok L bi R (ram_of k) -> summary_loop bi (Z.of_nat (desc_count bi) * memory_descriptor_size bi, d, p) k = Ret (inr (d, p)) k.
Proof.
  intros [_ _ M3 M4 M5 M6 _ _ _]. unfold summary_loop, sizeof_boot_memory_descriptor.
  assert (Hd : memory_map_size bi - 40 < Z.of_nat (desc_count bi) * memory_descriptor_size bi <= memory_map_size bi + memory_descriptor_size bi).
  { unfold desc_count. rewrite Z2Nat.id by (apply Z.div_pos; lia).
    pose proof (Z.div_mod (memory_map_size bi - 40 + memory_descriptor_size bi) (memory_descriptor_size bi)).
    pose proof (Z.mod_pos_bound (memory_map_size bi - 40 + memory_descriptor_size bi) (memory_descriptor_size bi)). nia. }
  rewrite wrap64_id by (unfold in64; lia). by rewrite bool_decide_eq_false_2 by lia.
Qed.

Lemma summary_walk L R bi k : map_ok L bi R (ram_of k) -> forall n j fuel,
  (j + n = desc_count bi)%nat -> (n < fuel)%nat ->
  loop fuel (summary_loop bi) (Z.of_nat j * memory_descriptor_size bi, wrap64 (Z.of_nat j), wrap64 (region_total bi (ram_of k) j)) k =
  Ret (wrap64 (Z.of_nat (desc_count bi)), wrap64 (region_total bi (ram_of k) (desc_count bi))) k.
Proof.
  intros Hm. induction n as [|n IH]; intros j fuel Hj Hf; (destruct fuel as [|fuel]; [lia|]); rewrite loop_S.
  - replace j with (desc_count bi) by lia. by erewrite bind_run by (eapply summary_end; exact Hm).
  - mrun (summary_round L R bi k j _ _ Hm ltac:(lia) eq_refl eq_refl). cbv beta iota. apply IH; lia.
Qed.

(** ** The lines *)

Lemma renders_plain text rest args t :
  renders (((Plain : Z -> directive) <$> text) ++ rest) args t -> exists t', t = text ++ t' /\ renders rest args t'.
Proof.
  revert t. induction text as [|c text IH]; intros t Hr; [by exists t|]. simpl in Hr. inversion Hr; subst.
  match goal with Hx : renders _ _ ?u |- _ => destruct (IH u Hx) as (t' & -> & Ht') end. by exists t'.
Qed.

Lemma unparse_plain text : unparse ((Plain : Z -> directive) <$> text) = text.
Proof. induction text as [|c text IH]; [done|]. simpl. by rewrite <- IH at 2. Qed.

Lemma plain_ok text : Forall (fun c => c <> 37) text -> Forall well_formed ((Plain : Z -> directive) <$> text).
Proof. intros Hf. apply Forall_fmap. by eapply Forall_impl. Qed.

Lemma plain_fit text rest args : args_fit rest args -> args_fit (((Plain : Z -> directive) <$> text) ++ rest) args.
Proof. intros Hf. induction text as [|c text IH]; [done|exact IH]. Qed.

Lemma line_run level text k cs q :
  log_inv k cs q -> Forall (fun c => c <> 37) text ->
  exists k', (_ ← printk_level level (Some text) []; mret tt) k = Ret tt k' /\ emitted cs q text k k'.
Proof.
  intros L Hf. destruct (printk_run ((Plain : Z -> directive) <$> text) [] k cs q L (plain_ok text Hf)) as (t & k' & Hr & E & Em).
  { rewrite <- (app_nil_r (_ <$> _)). by apply plain_fit. }
  rewrite unparse_plain in E. rewrite <- (app_nil_r (_ <$> _)) in Hr. apply renders_plain in Hr as (t' & -> & Ht').
  inversion Ht'; subst. rewrite app_nil_r in *. exists k'. split; [|done]. unfold printk_level. unfold printk in E. by mrun E.
Qed.

Lemma number_line_run level pre z k cs q :
  log_inv k cs q -> Forall (fun c => c <> 37) pre -> in64 z ->
  exists num k', (_ ← printk_level level (Some (pre ++ str "%llu" ++ [10])) [VaInt z]; mret tt) k = Ret tt k' /\
    decimal z num /\ emitted cs q (pre ++ num ++ [10]) k k'.
Proof.
  intros L Hf Hz.
  destruct (printk_run (((Plain : Z -> directive) <$> pre) ++ [Unsigned false false [] 2; Plain 10]) [VaInt z] k cs q L)
    as (t & k' & Hr & E & Em).
  { apply Forall_app. split; [by apply plain_ok|]. by repeat constructor. }
  { by apply plain_fit. }
  assert (Eu : unparse (((Plain : Z -> directive) <$> pre) ++ [Unsigned false false [] 2; Plain 10]) = pre ++ str "%llu" ++ [10]).
  { unfold unparse. rewrite bind_app. f_equal. apply unparse_plain. }
  rewrite Eu in E. apply renders_plain in Hr as (t' & -> & Ht').
  inversion Ht' as [| | | | | | | |hx zr wd lg z0 num ds args t0 Hnum Hrest|]; subst. inversion Hrest as [|c ds' args' u Hu| | | | | | | |]; subst.
  inversion Hu; subst. rewrite app_nil_r in *. cbn [length replicate app] in Em. change (2 ^ int_bits 2) with 18446744073709551616 in Hnum.
  rewrite Z.mod_small in Hnum by exact Hz.
  assert (Eg : glyphs num = (fun d => 48 + d) <$> num).
  { destruct Hnum as [Hd _]. unfold glyphs. apply list_fmap_ext. intros i d Hi. unfold alphabet. rewrite bool_decide_eq_true_2; [done|].
    rewrite Forall_forall in Hd. apply list_elem_of_lookup_2 in Hi. specialize (Hd d Hi). lia. }
  exists (glyphs num), k'. split; [unfold printk_level; unfold printk in E; by mrun E|]. split; [exists num; by split|].
  replace (Z.to_nat (wrap32 (positional 10 []) - Z.of_nat (length num))) with 0%nat in Em by (change (wrap32 (positional 10 [])) with 0; lia). exact Em.
Qed.

(** The lines on the version and the flags. *)
Definition version_line (b : boot_info_t) : list Z :=
  str (if decide (version b = BOOT_INFO_VERSION) then "boot_info.version ok" else "boot_info.version invalid") ++ [10].
Definition services_line (b : boot_info_t) : list Z :=
  str (if decide (Z.land (boot_flags b) BOOT_FLAG_SERVICES_ACTIVE = 0) then "boot services exited" else "boot services still active") ++ [10].

Lemma report_run L R bi k cs q :
  map_ok L bi R (ram_of k) -> memory_map bi <> 0 -> log_inv k cs q ->
  exists k' nd np, kernel_report_boot_state (Some bi) k = Ret tt k' /\
    decimal (wrap64 (Z.of_nat (desc_count bi))) nd /\ decimal (wrap64 (region_total bi (ram_of k) (desc_count bi))) np /\
    emitted cs q (version_line bi ++ services_line bi ++ (str "memory map descriptors=" ++ nd ++ [10]) ++
      (str "conventional memory pages=" ++ np ++ [10])) k k'.
Proof.
  intros Hm H0 Lg. unfold kernel_report_boot_state. rewrite bind_assoc.
  assert (V : exists k1, (if bool_decide (version bi = BOOT_INFO_VERSION) then pr_info (str "boot_info.version ok" ++ [10]) []
       else pr_warn (str "boot_info.version invalid" ++ [10]) []) k = Ret tt k1 /\ emitted cs q (version_line bi) k k1).
  { unfold version_line. destruct (decide (version bi = BOOT_INFO_VERSION));
      [rewrite bool_decide_eq_true_2 by done|rewrite bool_decide_eq_false_2 by done]; apply line_run; try done; by repeat constructor. }
  destruct V as (k1 & E1 & M1). mrun E1. pose proof (em_log _ _ _ _ _ M1) as L1.
  assert (V : exists k2, (if bool_decide (Z.land (boot_flags bi) BOOT_FLAG_SERVICES_ACTIVE = 0) then pr_info (str "boot services exited" ++ [10]) []
       else pr_warn (str "boot services still active" ++ [10]) []) k1 = Ret tt k2 /\ emitted cs (keep (q ++ version_line bi)) (services_line bi) k1 k2).
  { unfold services_line. destruct (decide (Z.land (boot_flags bi) BOOT_FLAG_SERVICES_ACTIVE = 0));
      [rewrite bool_decide_eq_true_2 by done|rewrite bool_decide_eq_false_2 by done]; apply line_run; try done; by repeat constructor. }
  destruct V as (k2 & E2 & M2). mrun E2. pose proof (em_log _ _ _ _ _ M2) as L2.
  assert (Er : ram_of k2 = ram_of k).
  { destruct (em_frame _ _ _ _ _ M2) as (r2 & s2 & ->), (em_frame _ _ _ _ _ M1) as (r1 & s1 & ->). done. }
  assert (Hd : memory_descriptor_size bi <> 0) by (pose proof (map_desc _ _ _ _ Hm); lia).
  unfold log_memory_map_summary. rewrite !bool_decide_eq_false_2 by done. cbn [orb].
  assert (Hfuel : (desc_count bi < init_fuel bi)%nat).
  { destruct Hm as [_ _ _ M4 M5 _ _ _ _]. unfold init_fuel, desc_count.
    assert ((memory_map_size bi - 40 + memory_descriptor_size bi) / memory_descriptor_size bi < memory_map_size bi + 1); [|lia].
    apply Z.div_lt_upper_bound; nia. }
  rewrite <- Er in Hm |- *. pose proof (summary_walk L R bi k2 Hm (desc_count bi) 0 (init_fuel bi) ltac:(lia) Hfuel) as Ew.
  erewrite bind_run by exact Ew. cbv beta iota.
  destruct (number_line_run LOGLEVEL_INFO (str "memory map descriptors=") (wrap64 (Z.of_nat (desc_count bi))) k2 cs _ L2) as (nd & k3 & E3 & D3 & M3);
    [by repeat constructor|apply wrap64_in|].
  destruct (number_line_run LOGLEVEL_INFO (str "conventional memory pages=") (wrap64 (region_total bi (ram_of k2) (desc_count bi))) k3 cs _
    (em_log _ _ _ _ _ M3)) as (np & k4 & E4 & D4 & M4); [by repeat constructor|apply wrap64_in|].
  exists k4, nd, np. split; [|split; [exact D3|split; [exact D4|]]].
  - erewrite bind_run by exact E3. exact E4.
  - eapply emitted_app; [exact M1|]. eapply emitted_app; [exact M2|]. eapply emitted_app; [exact M3|exact M4].
Qed.

(** A missing map. *)
Lemma missing_report_run k cs q :
  log_inv k cs q ->
  exists k', kernel_report_boot_state None k = Ret tt k' /\
    emitted cs q ((str "boot_info.version invalid" ++ [10]) ++ (str "boot services still active" ++ [10]) ++
      (str "memory map metadata missing" ++ [10])) k k'.
Proof.
  intros L. unfold kernel_report_boot_state. rewrite bind_assoc.
  destruct (line_run LOGLEVEL_WARN (str "boot_info.version invalid" ++ [10]) k cs q L) as (k1 & E1 & M1); [by repeat constructor|].
  destruct (line_run LOGLEVEL_WARN (str "boot services still active" ++ [10]) k1 cs _ (em_log _ _ _ _ _ M1)) as (k2 & E2 & M2); [by repeat constructor|].
  destruct (line_run LOGLEVEL_WARN (str "memory map metadata missing" ++ [10]) k2 cs _ (em_log _ _ _ _ _ M2)) as (k3 & E3 & M3); [by repeat constructor|].
  exists k3. split; [|eapply emitted_app; [exact M1|eapply emitted_app; [exact M2|exact M3]]].
  erewrite bind_run by exact E1. erewrite bind_run by exact E2. exact E3.
Qed.

(** C29. The boot report reaches every console: whether the handoff structure's version and
    flags are as they should be, and, however the firmware's descriptors are laid out, their
    number and the pages of all conventional regions together, in decimal.  Without a
    handoff structure it says so instead. *)
Theorem boot_report_tells L R bi k cs q :
  map_ok L bi R (ram_of k) -> memory_map bi <> 0 -> log_inv k cs q ->
  (exists k' nd np, kernel_report_boot_state (Some bi) k = Ret tt k' /\
    decimal (wrap64 (Z.of_nat (desc_count bi))) nd /\ decimal (wrap64 (region_total bi (ram_of k) (desc_count bi))) np /\
    forall c, c ∈ cs -> screen (devs (kheap k')) c = screen (devs (kheap k)) c ++
      crlf (version_line bi ++ services_line bi ++ (str "memory map descriptors=" ++ nd ++ [10]) ++
        (str "conventional memory pages=" ++ np ++ [10]))) /\
  (exists k', kernel_report_boot_state None k = Ret tt k' /\
    forall c, c ∈ cs -> screen (devs (kheap k')) c = screen (devs (kheap k)) c ++
      crlf ((str "boot_info.version invalid" ++ [10]) ++ (str "boot services still active" ++ [10]) ++
        (str "memory map metadata missing" ++ [10]))).
Proof.
  intros Hm H0 Lg. split.
  - destruct (report_run L R bi k cs q Hm H0 Lg) as (k' & nd & np & E & D1 & D2 & [_ Hs _]). exists k', nd, np.
    do 3 (split; [assumption|]). intros c Hc. apply Hs. by left.
  - destruct (missing_report_run k cs q Lg) as (k' & E & [_ Hs _]). exists k'. split; [done|]. intros c Hc. apply Hs. by left.
Qed.
End theory.
