(* ===== verification/KernelMain.v ===== *)
(** * kernel/main.c: the kernel's start

    [kernel_main] brings every component up, in the order of the source, and leaves the boot
    context for good.  Here the components meet: the page tables and the heap are the memory
    of the scheduler, whose threads are those the drivers create, and the selftests of all of
    them run on the state the earlier steps left. *)

From S2P Require Import Prelude LinkedList Ring PhysMem PageTableBoot PageAlloc PageTable Heap MmInit Switch KState Sched SchedCore SchedReap SchedYield SchedThread KHeap Vfs Ramfs WaitQueue SchedSystem SchedBoot SchedRun TrapVectors Devices Printk Fbcon DevWait Input Workqueue Keymap LogLines Tty Irq Ps2 Traps Typing Kdb DriverBoot EarlyLog BootReport.

(** Everything the kernel owns: the kernel proper with the early log's statics, the
    descriptor tables and the file system. *)
Record system := System {
  sy_log : elog (heap_state mm);
  sy_traps : descriptors;
  sy_vfs : vfs ramfs
}.
#[export] Instance eta_system : Eta system := fun s => System (sy_log s) (sy_traps s) (sy_vfs s).

Definition k_of (s : system) : kernel (memory (heap_state mm)) := lk (sy_log s).
Definition put_k (k : kernel (memory (heap_state mm))) (s : system) : system := s <| sy_log ::= (fun l => l <| lk := k |>) |>.

Definition on_log {A} (m : M (elog (heap_state mm)) A) : M system A := zoom sy_log (fun l s => s <| sy_log := l |>) m.
Definition on_k {A} (m : M (kernel (memory (heap_state mm))) A) : M system A := zoom k_of put_k m.
Definition on_traps {A} (m : M descriptors A) : M system A := zoom sy_traps (fun d s => s <| sy_traps := d |>) m.
Definition on_vfs {A} (m : M (vfs ramfs) A) : M system A := zoom sy_vfs (fun v s => s <| sy_vfs := v |>) m.

Section main.
Context `{Statics} `{EarlyStatics} `{SchedStatics}.
Abbreviation K := (M (kernel (memory (heap_state mm)))).

(** [put] stores the demonstration's condition flag and [others] is what the other threads
    do until this one runs again, as in [sched_start].  The test blocks are compiled in only
    with their make variables set. *)
Definition kernel_main (L : PhysMem.layout) (at_ : TrapVectors.layout) (boot_info : option boot_info_t)
    (put : Z -> K unit) (others : K unit) : M system unit :=
  on_log (early_log_init boot_info) ;;
  on_k printk_init ;;
  on_k (pr_info (str "kernel_main entered" ++ [10]) []) ;;
  on_traps (arch_traps_init at_) ;;
  on_k (kernel_report_boot_state boot_info) ;;
  on_k (on_heap (on_heap_part (mm_init L boot_info))) ;;
  on_k (sched_init others) ;;
  on_k workqueue_init ;;
  on_k input_init ;;
  on_k input_selftest ;;
  on_vfs vfs_init ;;
  on_vfs ramfs_init ;;
  on_vfs vfs_selftest ;;
  on_k ps2_keyboard_init ;;
  on_k arch_timer_init ;;
  r ← on_k workqueue_start;
  (if negb (bool_decide (r = 0)) then panic "workqueue start failed" else mret tt) ;;
  on_k input_console_init ;;
  on_k kdb_init ;;
  on_k (sched_start put others).
End main.

Section theory.
Context `{Statics} `{EarlyStatics} `{SchedStatics}.
#[local] Existing Instance paged_kalloc_spec.
Implicit Types (sys : system) (k : kernel (memory (heap_state mm))) (bi : boot_info_t) (R : list Z).

Lemma paged_never_fails : ~ alloc_fails (H := memory (heap_state mm)).
Proof.
  intros (live & [h d] & n & h' & Hok & Hn & Hr & E). destruct (kmalloc_paged live h n Hok Hn Hr) as (p & h1 & E1 & Hp & _).
  cbn in E. unfold on_heap_part, zoom in E. cbn [heap_part] in E. rewrite E1 in E. by injection E as ? _.
Qed.

(** What the boot loader leaves and the linker put in place. *)
Record handed_over L at_ bi R sys : Prop := {
  ho_log : early_log_ready (sy_log sys) = 0 /\ x86_early_consoles_registered (sy_log sys) = 0;
  ho_consoles : consoles_cold (devs (kheap (k_of sys)));
  ho_screen : mode_ok (boot_mode bi) (vram (lfb (sy_log sys))) /\ CELL_WIDTH <= framebuffer_width bi /\
    CELL_HEIGHT <= framebuffer_height bi /\ framebuffer_pixel_format bi <= FBCON_PIXEL_FORMAT_BGR;
  ho_printk : printk_ready (printk_ring (devs (kheap (k_of sys)))) = 0 /\
    length (pk_buffer (printk_ring (devs (kheap (k_of sys))))) = Z.to_nat 4096;
  ho_tables : idt (sy_traps sys) = replicate 256 idt_absent /\ length (tss_ist (tss (sy_traps sys))) = 7%nat;
  ho_stubs : (forall s, in64 (stub at_ s)) /\ in64 (addr_tss at_) /\ in64 (double_fault_stack at_ + DOUBLE_FAULT_STACK_SIZE);
  ho_memory : boot_ready L bi R (heap_part (kheap (k_of sys)));
  ho_enough : (400 <= length (usable_pages L bi R (ram_of (k_of sys)) 0 (desc_count bi)))%nat;
  ho_drivers : cold (devs (kheap (k_of sys))) [];
  ho_sched : scheduler_ready (k_of sys) = false /\ threads (k_of sys) = ∅ /\ current_thread (k_of sys) = 0 /\
    locks (k_of sys) !! SchedulerLock = Some 0 /\ can_switch (k_of sys);
  ho_stack : rsp (regs (mach (k_of sys))) <= HEAP_BASE \/ 18446744073709547520 <= rsp (regs (mach (k_of sys))) - 56;
  ho_fs : sy_vfs sys = unmounted
}.

(** ** The log *)

(** The drivers' data are still cold when only the log, its ports and its consoles changed. *)
Lemma cold_log d d' cs cs' :
  cold d cs ->
  d' = d <| port_writes := port_writes d' |> <| port_reads := port_reads d' |> <| consoles := consoles d' |>
         <| console_list := console_list d' |> <| shown := shown d' |> <| printk_ring := printk_ring d' |> ->
  console_chain d' cs' -> cold d' cs'.
Proof. intros [C1 C2 C3 C4 C5 C6 C7 C8 _] E C. split; [..|exact C]; unfold cold_tty; rewrite E; assumption. Qed.

Lemma printk_init_run k cs :
  console_chain (devs (kheap k)) cs -> printk_ready (printk_ring (devs (kheap k))) = 0 ->
  length (pk_buffer (printk_ring (devs (kheap k)))) = Z.to_nat 4096 ->
  exists k', printk_init k = Ret tt k' /\ log_inv k' cs [] /\ exists r, k' = with_devs (fun d => d <| printk_ring := r |>) k.
Proof.
  intros C Hr Hl. unfold printk_init, pk, set_pk. rewrite bind_dev, Hr, (bool_decide_eq_true_2 (0 = 0)) by done. cbn [negb].
  rewrite !bind_set_dev. eexists. split; [reflexivity|]. split.
  - split; [exact C|done|]. exists 0. simpl. apply ring_rep_empty; [lia|by rewrite Hl].
  - eexists. destruct k as [[? []]]. reflexivity.
Qed.

(** From [k] to [k'] only the drivers' data changed. *)
Definition same_but_devs k k' : Prop := k' = with_devs (fun _ => devs (kheap k')) k.

Lemma same_but_devs_with f k : same_but_devs k (with_devs f k).
Proof. by destruct k as [[]]. Qed.

Lemma same_but_devs_trans k k1 k2 : same_but_devs k k1 -> same_but_devs k1 k2 -> same_but_devs k k2.
Proof. unfold same_but_devs. intros E1 E2. rewrite E2, E1. by destruct k as [[]]. Qed.

Lemma log_phase L at_ bi R sys :
  handed_over L at_ bi R sys ->
  exists l1 k2 k3 k4, early_log_init (Some bi) (sy_log sys) = Ret tt l1 /\ printk_init (lk l1) = Ret tt k2 /\
    pr_info (str "kernel_main entered" ++ [10]) [] k2 = Ret tt k3 /\ kernel_report_boot_state (Some bi) k3 = Ret tt k4 /\
    same_but_devs (k_of sys) k4 /\ cold (devs (kheap k4)) early_consoles.
Proof.
  intros Ho. destruct (ho_log _ _ _ _ _ Ho) as [Hr Hreg]. destruct (ho_screen _ _ _ _ _ Ho) as (Hm & Hw & Hh & Hf).
  destruct (ho_printk _ _ _ _ _ Ho) as [Hp Hl]. unfold k_of in *.
  destruct (screen_console_init_run bi (lfb (sy_log sys)) Hm Hw Hh Hf) as (f & Ef & Hok & _ & Hsh).
  destruct (early_log_init_run (Some bi) (sy_log sys) f (Some blank_terminal) Hr Hreg (ho_consoles _ _ _ _ _ Ho) Ef)
    as (l1 & E1 & _ & _ & C1 & F1); [by split|].
  destruct (printk_init_run (lk l1) early_consoles C1) as (k2 & E2 & L2 & r2 & F2); [by rewrite F1|by rewrite F1|].
  destruct (line_run LOGLEVEL_INFO (str "kernel_main entered" ++ [10]) k2 early_consoles [] L2) as (k3 & E3 & M3); [by repeat constructor|].
  destruct (em_frame _ _ _ _ _ M3) as (r3 & s3 & F3).
  assert (Hram : ram_of k3 = ram_of (lk (sy_log sys))) by (unfold ram_of; rewrite F3, F2, F1; done).
  destruct (report_run L R bi k3 early_consoles _ ltac:(rewrite Hram; apply (ho_memory _ _ _ _ _ Ho)) (boot_map_addr _ _ _ _ (ho_memory _ _ _ _ _ Ho))
    (em_log _ _ _ _ _ M3)) as (k4 & nd & np & E4 & _ & _ & M4).
  destruct (em_frame _ _ _ _ _ M4) as (r4 & s4 & F4). exists l1, k2, k3, k4. do 4 (split; [assumption|]). split.
  - apply (same_but_devs_trans _ (lk l1)); [rewrite F1; apply same_but_devs_with|].
    apply (same_but_devs_trans _ k2); [rewrite F2; apply same_but_devs_with|].
    apply (same_but_devs_trans _ k3); [rewrite F3; apply same_but_devs_with|rewrite F4; apply same_but_devs_with].
  - apply (cold_log (devs (kheap (lk (sy_log sys)))) _ []); [apply Ho| |apply (em_log _ _ _ _ _ M4)].
    assert (D4 : devs (kheap k4) = (devs (kheap (lk l1))) <| printk_ring := r4 |> <| shown := s4 |>) by by rewrite F4, F3, F2.
    pose proof (f_equal (fun k => devs (kheap k)) F1) as D1. simpl in D1. rewrite D4. simpl. clear -D1.
    destruct (devs (kheap (lk l1))), (devs (kheap (lk (sy_log sys)))). simpl in *. by injection D1 as -> -> -> -> -> -> -> ->.
Qed.

(** ** Memory and the scheduler *)

Lemma memory_phase L at_ bi R sys k :
  handed_over L at_ bi R sys -> same_but_devs (k_of sys) k ->
  exists k', on_heap (on_heap_part (mm_init L (Some bi))) k = Ret tt k' /\ devs (kheap k') = devs (kheap k) /\
    before_sched ∅ k' /\ 375000 <= mem_room (kheap k').
Proof.
  intros Ho F. assert (Eh : heap_part (kheap k) = heap_part (kheap (k_of sys))) by by rewrite F.
  destruct (mm_init_run L bi R _ (ho_memory _ _ _ _ _ Ho)) as (h & E & I & _ & Hav & U). rewrite <- Eh in E.
  exists (k <| kheap := Memory h (devs (kheap k)) |>). split; [|split; [done|]].
  - unfold on_heap, on_heap_part, zoom. rewrite E. by destruct k as [[]].
  - assert (Hroom : 375000 <= paged_room h).
    { unfold paged_room, heap_room. pose proof (rep_end _ _ (inv_rep _ _ I)) as Ee. unfold span, HEAP_BASE in *. simpl in Ee.
      pose proof (ho_enough _ _ _ _ _ Ho) as He. unfold ram_of in He. lia. }
    split; [|exact Hroom]. destruct (ho_sched _ _ _ _ _ Ho) as (S1 & S2 & S3 & S4 & S5). pose proof (ho_stack _ _ _ _ _ Ho) as S6.
    rewrite F. split; try done; [|change (50000 <= paged_room h); lia|].
    + split; [|done]. exists [(4064, true)]. split; [done|]. intros q n. simpl. rewrite lookup_empty. split; [done|by intros ?%not_elem_of_nil].
    + unfold cpu_stack_ok. simpl. by rewrite S2, lookup_empty.
Qed.

Lemma sched_phase k others :
  before_sched ∅ k -> 375000 <= mem_room (kheap k) ->
  exists k' live t1 t2, sched_init others k = Ret tt k' /\ booting live [t1; t2] k' 325000 /\ calm k' ∅ /\
    devs (kheap k') = devs (kheap k) /\ is_in THREAD_READY k' t1 = true /\ is_in THREAD_READY k' t2 = true /\ idle_thread k' = 0.
Proof.
  intros B Hr. destruct (sched_init_run ∅ k others B) as [(k' & live & t1 & t2 & E & I & C & S & Hc & R1 & R2 & Hi & Hr' & _ & Hw & k1 & k2 & E1 & E2 & F)|[Hf _]];
    [|by destruct (paged_never_fails Hf)].
  exists k', live, t1, t2. split; [done|]. split; [split; try done; lia|]. split; [|split; [|done]].
  - apply calm_intro; [done|intros t x Hx; apply (Hw t x Hx)|apply I|apply I].
  - rewrite F. simpl. rewrite (create_keeps _ _ _ _ _ _ E2). by rewrite (create_keeps _ _ _ _ _ _ E1).
Qed.

(** ** All of it *)

(** A step on the kernel proper, then the rest [c]. *)
Lemma bind_on_k {A B} (m : M (kernel (memory (heap_state mm))) A) (c : A -> M system B) sys a k :
  m (k_of sys) = Ret a k -> (x ← on_k m; c x) sys = c a (put_k k sys).
Proof. intros E. by erewrite bind_run by (apply (zoom_run k_of put_k); exact E). Qed.

Lemma bind_on_vfs {B} (m : M (vfs ramfs) unit) (c : unit -> M system B) sys v :
  m (sy_vfs sys) = Ret tt v -> (x ← on_vfs m; c x) sys = c tt (sys <| sy_vfs := v |>).
Proof. intros E. by erewrite bind_run by (apply (zoom_run sy_vfs (fun v s => s <| sy_vfs := v |>)); exact E). Qed.

(** The state in which [kernel_main] calls [sched_start]: traps, files and drivers are in
    place and five threads are queued, the two of the scheduler's selftest, the worker, the
    input console and the debugger shell. *)
Record brought_up at_ sys : Prop := {
  bu_traps : traps_installed at_ (sy_traps sys);
  bu_files : fs_ok (sy_vfs sys) ramfs_tree /\ vfs_ready (sy_vfs sys) = true /\ vfs_root (sy_vfs sys) = ramfs_root;
  bu_threads : exists live rq, length rq = 5%nat /\ booting live rq (k_of sys) 250000 /\
    forall t, t ∈ rq -> is_in THREAD_READY (k_of sys) t = true;
  bu_desk : exists Q, desk (k_of sys) Q [] (Decoder 0 false 0) 1 [] [addr_selftest_work] early_consoles (Editor [] [] 0) /\ calm (k_of sys) Q;
  bu_timer : action_at (k_of sys) 0 = Some (IrqAction (Some TIMER_IRQ_HANDLER) 0) /\ irqs_on (k_of sys) = true
}.

Lemma kernel_main_run L at_ bi R sys put others :
  handed_over L at_ bi R sys ->
  exists sys', kernel_main L at_ (Some bi) put others sys = on_k (sched_start put others) sys' /\ brought_up at_ sys'.
Proof.
  intros Ho. destruct (log_phase L at_ bi R sys Ho) as (l1 & k2 & k3 & k4 & E1 & E2 & E3 & E4 & F4 & C4).
  destruct (ho_tables _ _ _ _ _ Ho) as [T1 T2]. destruct (ho_stubs _ _ _ _ _ Ho) as (T3 & T4 & T5).
  destruct (arch_traps_init_run at_ (sy_traps sys) T1 T3 T4 T2 T5) as (d' & Et & Ht).
  destruct (memory_phase L at_ bi R sys k4 Ho F4) as (k5 & E5 & D5 & B5 & R5).
  destruct (sched_phase k5 others B5 R5) as (k6 & live6 & t1 & t2 & E6 & B6 & C6 & D6 & Y1 & Y2 & _).
  destruct (drivers_wired k6 ∅ early_consoles C6) as (k7 & k8 & k9 & k10 & k11 & Q11 & E7 & E8 & E9 & E10 & E11 & S11 & W11);
    [by rewrite D6, D5|].
  pose proof (settled_booting live6 [t1; t2] k6 ∅ k11 Q11 _ S11 B6) as B11.
  destruct (drivers_started live6 [t1; t2] k11 Q11 early_consoles 250000 paged_never_fails W11 B11 ltac:(lia))
    as (w & c & s & k12 & k13 & k14 & live & Q & E12 & E13 & E14 & B14 & C14 & Dk & Ha & Hon & _ & Hk & Yw & Yc & Ys).
  destruct ramfs_boot_run as (v1 & V1 & V2 & V3 & _ & Hfs & Hrd & Hrt).
  eexists. split.
  - unfold kernel_main. erewrite bind_run by (apply (zoom_run sy_log (fun l s => s <| sy_log := l |>)); exact E1).
    erewrite bind_on_k by exact E2. erewrite bind_on_k by exact E3.
    erewrite bind_run by (apply (zoom_run sy_traps (fun d s => s <| sy_traps := d |>)); exact Et).
    erewrite bind_on_k by exact E4. erewrite bind_on_k by exact E5. erewrite bind_on_k by exact E6. erewrite bind_on_k by exact E7.
    erewrite bind_on_k by exact E8. erewrite bind_on_k by exact E9.
    erewrite bind_on_vfs by (simpl; rewrite (ho_fs _ _ _ _ _ Ho); exact V1). erewrite bind_on_vfs by exact V2. erewrite bind_on_vfs by exact V3.
    erewrite bind_on_k by exact E10. erewrite bind_on_k by exact E11. erewrite bind_on_k by exact E12.
    rewrite (bool_decide_eq_true_2 (0 = 0)) by done. cbn [negb]. rewrite bind_ret.
    erewrite bind_on_k by exact E13. erewrite bind_on_k by exact E14. reflexivity.
  - split; [exact Ht|exact (conj Hfs (conj Hrd Hrt))| |exists Q; exact (conj Dk C14)|exact (conj Ha Hon)]. clear V1 V2 V3 Hfs Hrd Hrt.
    exists live, [t1; t2; w; c; s]. split; [done|]. split; [exact B14|].
    assert (Hold : forall u, u ∈ [t1; t2] -> is_in THREAD_READY k14 u = true).
    { intros u Hu. apply Hk; [done|]. rewrite (se_frame _ _ _ _ S11). apply elem_of_cons in Hu as [->|[->|?%not_elem_of_nil]%elem_of_cons]; done. }
    intros u Hu. change (u ∈ [t1; t2] ++ [w; c; s]) in Hu. apply elem_of_app in Hu as [Hu|Hu]; [by apply Hold|].
    repeat (apply elem_of_cons in Hu as [->|Hu]; [done|]). by apply not_elem_of_nil in Hu.
Qed.

(** C2. The kernel starts.  On a machine as the boot loader hands it over, with a
    framebuffer and four hundred usable page frames, [kernel_main] gets through every
    initialisation and every selftest of every component without a panic, a fault or an
    endless loop, and calls [sched_start] with the gates installed, the file system mounted,
    the keyboard, work queue, line editor and timer wired to their interrupts and their
    threads READY.  The first switch then leaves the boot context for a READY thread that
    is not the idle one; only if something switched back would [kernel_main] go on, to a
    panic. *)
Theorem kernel_main_boots L at_ bi R sys put others :
  handed_over L at_ bi R sys -> stores put ->
  exists sys', kernel_main L at_ (Some bi) put others sys = on_k (sched_start put others) sys' /\ brought_up at_ sys' /\
    exists k1 live1 rq idle nxt k2 live2, booting live1 rq k1 0 /\ length rq = 15%nat /\ idle_thread k1 = idle /\
      schedule k1 = Ret (Some (0, nxt)) k2 /\ nxt ∈ rq /\ nxt <> idle /\ is_in THREAD_READY k1 nxt = true /\
      current_thread k2 = nxt /\ is_in THREAD_RUNNING k2 nxt = true /\
      (exists x, threads k1 !! nxt = Some x /\ saved_context (stacks (mach k1)) (stack_pointer x) (regs (mach k2))) /\
      sched_inv live2 (survivors k1 rq) k2 /\
      kernel_main L at_ (Some bi) put others sys = on_k (others ;; panic "scheduler returned to boot context") (put_k k2 sys').
Proof.
  intros Ho Hput. destruct (kernel_main_run L at_ bi R sys put others Ho) as (sys' & E & Bu). exists sys'. do 2 (split; [assumption|]).
  destruct (bu_threads _ _ Bu) as (live & rq & Hlen & B & _).
  destruct (sched_start_run live rq (k_of sys') put others B Hput) as
    [[Hf _]|(idle & ts & k1 & live1 & nxt & k2 & live2 & B1 & Hi & Hts & _ & _ & Es & Hin & Hne & Hr & Hc & Hrun & Hx & I2 & E2)];
    [by destruct (paged_never_fails Hf)|].
  exists k1, live1, (rq ++ idle :: ts), idle, nxt, k2, live2. do 3 (split; [first [assumption|by rewrite length_app, Hlen; simpl; rewrite Hts]|]).
  split; [exact Es|]. split; [set_solver|]. do 6 (split; [assumption|]). rewrite E. unfold on_k, zoom. rewrite E2. done.
Qed.

(** The queues of the drivers, which [Q] maps, and those of the demonstration threads. *)
Definition system_queues (Q : gmap Z (list Z)) : gset Z := dom Q ∪ (list_to_set demo_queues ∖ {[0]}).

(** C4. The whole kernel, from [kernel_main] on: it hands over with the first thread RUNNING,
    in a state in which the invariant of the running system holds for the queues of the
    drivers and of the demonstration threads.  From there every state that the transition
    system of [SchedSystem] reaches is safe.  Its actions are the scheduler's part of what
    follows: marks, yields, returns from waits with and without a deadline, wakeups, by
    threads or by the handlers of the devices, creations, exits and timer interrupts in
    between.  Its limits are part of the claim: [sched_yield] and [kernel_thread_create] are
    one action each, and no queue is woken while a thread whose deadline has passed is still
    on it.  The demonstration threads can do that ([WaitTimeout.timed_out_waiter_panics_wakeup]):
    the claim is not that the kernel never panics. *)
Theorem kernel_main_leads_to_safety L at_ bi R sys put others :
  handed_over L at_ bi R sys -> stores put ->
  exists sys' k0 Q, kernel_main L at_ (Some bi) put others sys = on_k (others ;; panic "scheduler returned to boot context") (put_k k0 sys') /\
    brought_up at_ sys' /\ calm (k_of sys') Q /\ system_ok (system_queues Q) k0 /\
    is_in THREAD_RUNNING k0 (current_thread k0) = true /\
    forall k', rtc (step (pic_send_eoi 0) (system_queues Q)) k0 k' -> safe (pic_send_eoi 0) (system_queues Q) k'.
Proof.
  intros Ho Hput. destruct (kernel_main_run L at_ bi R sys put others Ho) as (sys' & E & Bu).
  destruct (bu_threads _ _ Bu) as (live & rq & _ & B & _). destruct (bu_desk _ _ Bu) as (Q & _ & Cm).
  destruct (started_ok live rq (k_of sys') put others (system_queues Q) paged_never_fails B Hput) as (k0 & E0 & Ok & Hrun).
  { intros q [Hq|[Hq Hn]%elem_of_difference]%elem_of_union.
    - apply elem_of_dom in Hq as [l Hl]. destruct (calm_elim _ _ _ _ Cm Hl) as (_ & Hq0 & Hv). auto.
    - split; [set_solver|left]. by apply elem_of_list_to_set in Hq. }
  exists sys', k0, Q. split; [|split; [exact Bu|split; [exact Cm|split; [exact Ok|split; [exact Hrun|]]]]].
  - rewrite E. unfold on_k, zoom. rewrite E0. done.
  - intros k' Hs. apply (reachable_safe _ _ k0 k' (eoi_acknowledges 0) Ok Hs).
Qed.
End theory.
