(* ===== verification/DevWitness.v ===== *)
(** * The drivers on a concrete kernel

    The kernel of two workers with the drivers initialised: no one sleeps on their
    queues, [worker_a] runs and [worker_b] is ready. *)

From S2P Require Import Prelude LinkedList Ring PhysMem Switch KState Sched SchedCore SchedReap SchedYield SchedThread SchedWitness WaitQueue Devices Printk DevWait Input Workqueue Keymap LogLines Tty TrapVectors Irq Ps2 Traps Typing Kdb.

#[export] Program Instance demo_statics : Statics := {|
  addr_input_wait := 256;
  addr_tty_wait := 512;
  addr_wq_wait := 768;
  addr_ps2_work := 1024;
  addr_selftest_work := 1280;
  addr_ps2_input_dev := 1536;
  entry_workqueue_thread := 4660;
  entry_input_console_thread := 4661;
  entry_kdb_thread := 4662
|}.
Next Obligation. repeat constructor; done. Qed.
Next Obligation. apply (bool_decide_unpack _). vm_compute. exact Logic.I. Qed.

Definition no_event : input_event := InputEvent 0 0 0 0 0 0.

Definition demo_devices : devices :=
  Devices (InputQueue (replicate 64 no_event) 0 0 0 0 no_event (replicate 16 0) 1 2 0 1)
    {[ 1536 := InputDev (Some "ps2-keyboard"%string) INPUT_BUS_I8042 INPUT_DEVICE_CAP_KEY 1 1 ]}
    (Tty (replicate 8 (replicate 128 0)) (replicate 8 0) 0 0 0 0 (replicate 128 0) 0 1)
    (Ps2Keyboard (replicate 32 0) 0 0 0 0 0 0 0 1)
    {[ 1024 := WorkStruct (Some PS2_KEYBOARD_WORK) 0 0 0; 1280 := WorkStruct (Some WORKQUEUE_SELFTEST_ENTRY) 0 0 0 ]}
    (Workqueue 0 0 1 1 0)
    (IrqAction (Some TIMER_IRQ_HANDLER) 0 :: IrqAction (Some PS2_KEYBOARD_IRQ_HANDLER) 0 :: replicate 14 (IrqAction None 0))
    [] ∅ {[ 2048 := Console true 0 ]} 2048 [] (PrintkRing (replicate 4096 0) 0 0 0 1).

Definition boxed : kernel (memory arena) :=
  Kernel (Memory (Arena two_live 1048576) demo_devices) (Machine two_cpu two_stacks)
    {[ worker_a := thread_a; worker_b := thread_b ]}
    {[ 256 := WaitQueue 0 0; 512 := WaitQueue 0 0; 768 := WaitQueue 0 0 ]}
    {[ SchedulerLock := 0; QueueLock 256 := 0; QueueLock 512 := 0; QueueLock 768 := 0; ps2_lock := 0 ]} 514 0
    worker_a worker_b worker_a 0 3 true false false 0 0 41.

Definition no_waiters : gmap Z (list Z) := {[ 256 := []; 512 := []; 768 := [] ]}.

Lemma no_waiters_lookup q l : no_waiters !! q = Some l -> (q = 256 \/ q = 512 \/ q = 768) /\ l = [].
Proof.
  unfold no_waiters. intros Hq. apply lookup_insert_Some in Hq as [[<- <-]|[_ Hq]]; [tauto|].
  apply lookup_insert_Some in Hq as [[<- <-]|[_ Hq]]; [tauto|]. apply lookup_singleton_Some in Hq as [<- <-]. tauto.
Qed.

Lemma boxed_thread t x : threads boxed !! t = Some x -> (t = worker_a /\ x = thread_a) \/ (t = worker_b /\ x = thread_b).
Proof.
  simpl. intros Hx. apply lookup_insert_Some in Hx as [[<- <-]|[_ Hx]]; [by left|].
  apply lookup_singleton_Some in Hx as [<- <-]. by right.
Qed.

Lemma boxed_wq_inv : wq_inv boxed no_waiters.
Proof.
  split; [split|split|].
  - intros q l [Hq ->]%no_waiters_lookup. split; [lia|]. exists (WaitQueue 0 0).
    by destruct Hq as [->|[->| ->]].
  - intros q l t [Hq ->]%no_waiters_lookup. split; [by intros ?%elem_of_nil|].
    intros (x & Hx & E). apply boxed_thread in Hx as [[_ ->]|[_ ->]]; simpl in E; lia.
  - intros t x Hx. left. by apply boxed_thread in Hx as [[_ ->]|[_ ->]].
  - done.
  - done.
  - intros q [l [Hq _]%no_waiters_lookup]. by destruct Hq as [->|[->| ->]].
  - intros q l t x [_ ->]%no_waiters_lookup Hin. by apply elem_of_nil in Hin.
Qed.

Lemma boxed_may_block : may_block boxed worker_a thread_a.
Proof. by split. Qed.

Lemma boxed_input_inv : input_inv boxed no_waiters [].
Proof. split; [exact boxed_wq_inv|by eexists|by apply ring_rep_empty|done]. Qed.

Lemma input_refines_fifo_witness :
  exists k' Q', input_run [Report no_event; TryRead; TryRead] boxed =
    Ret [(0, None); (0, Some no_event); (- EAGAIN, None)] k' /\ input_inv k' Q' [].
Proof. exact (input_refines_fifo [Report no_event; TryRead; TryRead] boxed no_waiters [] boxed_input_inv). Defined.

Lemma input_read_blocks_witness :
  exists k1, registered boxed no_waiters addr_input_wait [] worker_a THREAD_WAITING 0 k1.
Proof.
  destruct (input_read_blocks boxed no_waiters [] worker_a thread_a boxed_input_inv boxed_may_block)
    as (k1 & l & Hl & R & _).
  exists k1. assert (l = []) as -> by (apply no_waiters_lookup in Hl; tauto). exact R.
Defined.

Lemma boxed_work_inv : work_inv boxed no_waiters [].
Proof.
  split; [exact boxed_wq_inv|by eexists| |done].
  split; [done| |done|by intros w x ?%elem_of_nil].
  intros w x Hx. split; [|by intros ?%elem_of_nil]. simpl in Hx.
  apply lookup_insert_Some in Hx as [[<- <-]|[_ Hx]]; [done|]. by apply lookup_singleton_Some in Hx as [<- <-].
Qed.

Lemma queue_work_once_witness :
  exists k' Q', queue_work 1024 boxed = Ret 0 k' /\ work_inv k' Q' [1024] /\ queue_work 1024 k' = Ret (- EBUSY) k'.
Proof.
  destruct (queue_work_once boxed no_waiters [] 1024 boxed_work_inv) as (k' & Q' & E & I & _ & B).
  - by intros ?%elem_of_nil.
  - exists k', Q'. exact (conj E (conj I B)).
Defined.

Lemma boxed_tty_inv : tty_inv boxed no_waiters [2048] (Editor [] [] 0).
Proof.
  split.
  - exact boxed_wq_inv.
  - by eexists.
  - by apply ring_rep_empty.
  - split_and!; [apply (bool_decide_unpack _); vm_compute; exact Logic.I|done|done|apply (bool_decide_unpack _); vm_compute; exact Logic.I].
  - cbn. split_and!; [done|done|lia|done].
  - done.
  - done.
  - repeat split; [done|]. by exists 0.
Qed.

Lemma tty_refines_editor_witness :
  exists k' Q', for_each (str "lx" ++ [8] ++ str "s" ++ [10]) tty_receive_char boxed = Ret tt k' /\
    tty_inv k' Q' [2048] (Editor [] [str "ls"] 0) /\
    screen (devs (kheap k')) 2048 = str "lx" ++ [8] ++ str "s" ++ [13; 10].
Proof.
  destruct (tty_refines_editor (str "lx" ++ [8] ++ str "s" ++ [10]) boxed no_waiters [2048] (Editor [] [] 0) boxed_tty_inv)
    as (k' & Q' & E & I & S).
  exists k', Q'. split; [exact E|]. split; [exact I|]. apply (S 2048). left. left.
Defined.

Lemma typed_line_is_read_witness :
  exists k1 k2, for_each (str "help" ++ [10]) tty_receive_char boxed = Ret tt k1 /\
    tty_try_read_line true 64 k1 = Ret (4, Some (str "help")) k2.
Proof.
  destruct (typed_line_is_read (str "help") boxed no_waiters [2048] 0 64) as (k1 & k2 & Q1 & E1 & E2 & _).
  - exact boxed_tty_inv.
  - apply (bool_decide_unpack _). vm_compute. exact Logic.I.
  - simpl. lia.
  - lia.
  - exists k1, k2. exact (conj E1 E2).
Defined.

(** The bytes of "Shift down, A down" are in the raw ring. *)
Definition typed : kernel (memory arena) :=
  with_devs (fun d => d <| kbd ::= (fun p => raw_pushed 0x1e (raw_pushed 0x2a p)) |>) boxed.

Lemma typed_kbd_inv : kbd_inv typed no_waiters [0x2a; 0x1e] (Decoder 0 false 0) 1 [].
Proof.
  split.
  - pose proof boxed_input_inv as []. split; try done. by apply wq_inv_with_devs.
  - apply (ring_rep_push 32 _ 0 1 1 [0x2a] 0x1e); [|done].
    apply (ring_rep_push 32 (replicate 32 0) 0 0 0 [] 0x2a); [|done]. by apply ring_rep_empty.
  - apply (bool_decide_unpack _). vm_compute. exact Logic.I.
  - simpl. split_and!; [done|done|done|lia|lia].
  - by eexists.
  - done.
Qed.

(** Both work items are queued, with the two bytes in the ring. *)
Definition busy : kernel (memory arena) := with_devs (enqueued 1280) (with_devs (enqueued 1024) typed).

Lemma busy_work_inv : work_inv busy no_waiters [1024; 1280].
Proof.
  pose proof boxed_work_inv as [Iw Iq R Irdy]. split; [unfold busy, typed; do 3 apply wq_inv_with_devs; exact Iw|done| |done].
  apply (enqueued_rep _ [1024] 1280 (WorkStruct (Some WORKQUEUE_SELFTEST_ENTRY) 0 0 0)); [|done..].
  apply (enqueued_rep _ [] 1024 (WorkStruct (Some PS2_KEYBOARD_WORK) 0 0 0)); [|done..].
  by apply (work_rep_same _ _ _ R).
Qed.

Lemma busy_keyboard_ok : keyboard_ok no_waiters busy.
Proof.
  exists [0x2a; 0x1e], (Decoder 0 false 0), 1, [].
  apply (kbd_inv_carried typed no_waiters _ no_waiters); [exact typed_kbd_inv| |done..].
  split; [|done|done]. unfold busy, typed. do 3 apply wq_inv_with_devs. exact boxed_wq_inv.
Qed.

Lemma workqueue_runs_in_order_witness :
  exists k' Q', workqueue_round (run_work 33) 1 3 (mret tt) busy = Ret tt k' /\ ran (run_work 33) [1024; 1280] busy k' /\
    work_inv k' Q' [] /\ keyboard_ok Q' k'.
Proof.
  apply (workqueue_runs_in_order (run_work 33) keyboard_ok busy no_waiters [1024; 1280] worker_a thread_a 0 3 (mret tt)).
  - exact busy_work_inv.
  - discriminate.
  - by split.
  - exact run_work_well_behaved.
  - exact busy_keyboard_ok.
  - simpl. lia.
Defined.

Lemma ps2_work_decodes_witness :
  exists k' Q', ps2_keyboard_work 3 typed = Ret tt k' /\
    kbd_inv k' Q' [] (Decoder 1 false 0) 1
      [InputEvent 1 INPUT_KEY_LEFTSHIFT 1 1 1 41; InputEvent 1 INPUT_KEY_A 1 1 1 41].
Proof.
  destruct (ps2_work_decodes typed no_waiters [0x2a; 0x1e] (Decoder 0 false 0) 1 [] 3) as (k' & Q' & E & I & _).
  - exact typed_kbd_inv.
  - simpl. lia.
  - exists k', Q'. exact (conj E I).
Defined.

Lemma irq_register_dispatch_witness :
  exists k', irq_register 4 (Some TIMER_IRQ_HANDLER) 7 boxed = Ret 0 k' /\
    irq_register 4 (Some TIMER_IRQ_HANDLER) 7 k' = Ret (- EBUSY) k'.
Proof.
  destruct (irq_register_dispatch boxed 4 TIMER_IRQ_HANDLER 7) as (_ & _ & Hr).
  - reflexivity.
  - lia.
  - destruct (Hr (IrqAction None 0)) as (k' & E & _ & _ & B); [lia|reflexivity|].
    exists k'. exact (conj E B).
Defined.

Lemma boxed_sched_inv : sched_inv two_live two_queue boxed.
Proof.
  split.
  - repeat (split; try done). exists worker_b. split; [done|]. repeat (split; try done). by exists 0.
  - done.
  - right. by left.
  - by left.
  - done.
  - done.
  - apply two_arena.
  - apply (bool_decide_unpack _). vm_compute. exact Logic.I.
  - intros a Ha. assert (Hin : a ∈ [65536; 4096; 131072; 8192]) by exact Ha.
    repeat (apply elem_of_cons in Hin as [->|Hin]; [vm_compute; by eexists|]). by apply not_elem_of_nil in Hin.
  - intros t x Hin. repeat (apply elem_of_cons in Hin as [->|Hin]; [intros [= <-]; by split|]).
    by apply not_elem_of_nil in Hin.
Qed.

Lemma boxed_ctx_inv : ctx_inv two_live two_queue boxed.
Proof.
  split.
  - intros t x Hin. repeat (apply elem_of_cons in Hin as [->|Hin]; [intros [= <-]; by exists 16384|]).
    by apply not_elem_of_nil in Hin.
  - intros t x Hin Hne. apply elem_of_cons in Hin as [->|Hin]; [done|].
    apply elem_of_cons in Hin as [->|Hin]; [|by apply not_elem_of_nil in Hin].
    intros [= <-]. exists (Cpu 147448 (Word 0) (Word 0) (Word 0) (Word 0) (Word 0) (Word 0) (Code "thread_trampoline")).
    split; [vm_compute; repeat split|vm_compute; done].
  - vm_compute. done.
Qed.


Lemma boxed_log_inv : log_inv boxed [2048] [].
Proof. split; [|done|exists 0; by apply ring_rep_empty]. split; [done|]. split; [done|]. by exists 0. Qed.

Lemma traps_are_fatal_witness :
  exists name text k', trap_dispatch (mret tt) (TrapFrame 14 2 4660 8 2 0 0 8192 57005) boxed = Panicked "unhandled CPU exception" k' /\
    rendered (trap_lines (TrapFrame 14 2 4660 8 2 0 0 8192 57005) name) text /\ emitted [2048] [] text boxed k'.
Proof.
  destruct (traps_are_fatal (mret tt) (TrapFrame 14 2 4660 8 2 0 0 8192 57005) boxed [2048] []) as (name & text & k' & E & _ & R & M).
  - cbn. lia.
  - cbn. lia.
  - exact boxed_log_inv.
  - exists name, text, k'. split; [exact E|]. split; [exact R|exact M].
Defined.

(** [printk("n=%05lx\n", 4660)] writes the eight bytes "n=01234" and a newline. *)
Lemma printk_renders_witness :
  exists k', printk (Some (unparse [Plain 110; Plain 61; Unsigned true true [5] 1; Plain 10])) [VaInt 4660] boxed = Ret 8 k' /\
    emitted [2048] [] [110; 61; 48; 49; 50; 51; 52; 10] boxed k'.
Proof.
  destruct (printk_renders [Plain 110; Plain 61; Unsigned true true [5] 1; Plain 10] [VaInt 4660] boxed [2048] [] boxed_log_inv)
    as [_ Hall].
  - repeat constructor; simpl; lia.
  - done.
  - done.
  - apply (Hall [110; 61; 48; 49; 50; 51; 52; 10]); [|done].
    apply (rn_plain 110 _ _ [61; 48; 49; 50; 51; 52; 10]), (rn_plain 61 _ _ [48; 49; 50; 51; 52; 10]).
    apply (rn_unsigned true true [5] 1 4660 [1; 2; 3; 4] [Plain 10] [] [10]); [|by repeat constructor].
    split; [repeat constructor; lia|]. split; [reflexivity|]. right. by eexists 1, _.
Defined.

(** The bytes that call shows: "n=01234" and CR LF. *)
Example printk_shows :
  match printk (Some (unparse [Plain 110; Plain 61; Unsigned true true [5] 1; Plain 10])) [VaInt 4660] boxed with
  | Ret n k => n = 8 /\ screen (devs (kheap k)) 2048 = [110; 61; 48; 49; 50; 51; 52; 13; 10]
  | _ => False
  end.
Proof. vm_compute. split; reflexivity. Qed.

(** Shift and A down and up, then Enter, on its way from the keyboard. *)
Definition shift_a_enter : list key_move :=
  [KeyMove 0x2a false true; KeyMove 0x1e false true; KeyMove 0x1e false false; KeyMove 0x2a false false;
   KeyMove 0x1c false true; KeyMove 0x1c false false].

Definition keyed : kernel (memory arena) :=
  with_devs (fun d => d <| port_reads := {[ 0x64 := replicate 6 1; 0x60 := shift_a_enter ≫= wire ]} |>) boxed.

Lemma keyed_desk : desk keyed no_waiters [] (Decoder 0 false 0) 1 [] [] [2048] (Editor [] [] 0).
Proof.
  pose proof (wq_inv_with_devs (fun d => d <| port_reads := {[ 0x64 := replicate 6 1; 0x60 := shift_a_enter ≫= wire ]} |>)
    boxed no_waiters boxed_wq_inv) as W. fold keyed in W.
  split; [split| |split| |].
  - destruct boxed_input_inv. by split.
  - by apply ring_rep_empty.
  - done.
  - done.
  - eexists. split; [reflexivity|done].
  - done.
  - destruct boxed_work_inv as [_ Wq Wr Wd]. split; [done|done|by apply (work_rep_same _ _ _ Wr)|done].
  - done.
  - by eexists.
  - apply boxed_tty_inv.
  - apply boxed_tty_inv.
  - apply boxed_tty_inv.
  - done.
  - done.
  - apply boxed_tty_inv.
  - eexists. split; reflexivity.
  - eexists. reflexivity.
Qed.

(** Nothing is held, before and after. *)
Definition no_hands : hands := Hands ∅ false false false.

Lemma no_hands_bits : modifier_bits no_hands = 0 /\ modifier_bits (hands_after shift_a_enter no_hands) = 0.
Proof. split; apply (bool_decide_unpack _); vm_compute; exact Logic.I. Qed.

Lemma keyed_desk_hands : desk keyed no_waiters [] (Decoder (modifier_bits no_hands) false 0) 1 [] [] [2048] (Editor [] [] 0).
Proof. rewrite (proj1 no_hands_bits). exact keyed_desk. Qed.

Lemma shift_a_enter_movable : movable shift_a_enter no_hands.
Proof.
  unfold shift_a_enter. cbn [movable]. unfold one_each, one_of.
  split_and!; try exact Logic.I; intros E; try discriminate E; clear E; split_and!; apply (bool_decide_unpack _); vm_compute; exact Logic.I.
Qed.

Lemma shift_a_enter_events :
  accept [] (to_event 1 (tick_count keyed) <$> reports shift_a_enter no_hands) =
  [InputEvent 1 INPUT_KEY_LEFTSHIFT 1 1 1 41; InputEvent 1 INPUT_KEY_A 1 1 1 41; InputEvent 1 INPUT_KEY_A 0 1 1 41;
   InputEvent 1 INPUT_KEY_LEFTSHIFT 0 0 1 41; InputEvent 1 INPUT_KEY_ENTER 1 0 1 41; InputEvent 1 INPUT_KEY_ENTER 0 0 1 41].
Proof. vm_compute. reflexivity. Qed.

(** The bytes of Shift, A and Enter decode to their six events. *)
Lemma decode_inverts_wire_witness :
  exists k' Q', for_each (shift_a_enter ≫= wire) ps2_decode keyed = Ret tt k' /\
    kbd_inv k' Q' [] (Decoder 0 false 0) 1
      [InputEvent 1 INPUT_KEY_LEFTSHIFT 1 1 1 41; InputEvent 1 INPUT_KEY_A 1 1 1 41; InputEvent 1 INPUT_KEY_A 0 1 1 41;
       InputEvent 1 INPUT_KEY_LEFTSHIFT 0 0 1 41; InputEvent 1 INPUT_KEY_ENTER 1 0 1 41; InputEvent 1 INPUT_KEY_ENTER 0 0 1 41].
Proof.
  destruct (decode_inverts_wire shift_a_enter keyed no_waiters [] no_hands 1 []) as [(k' & Q' & E & I) _].
  - apply keyed_desk_hands.
  - repeat constructor; vm_compute; discriminate.
  - exact shift_a_enter_movable.
  - exists k', Q'. split; [exact E|]. rewrite (proj2 no_hands_bits), shift_a_enter_events in I. exact I.
Defined.

Lemma handover_here k Q k' Q' : drives (H := arena) k Q k' Q' -> handover k' Q' k' Q'.
Proof. intros D. split; [|done]. split; [apply D|done|done]. Qed.

Lemma keys_reach_editor_witness :
  exists k1 k3 k5 Q5, for_each (shift_a_enter ≫= wire) (fun _ => trap_dispatch (mret tt) (TrapFrame 33 0 0 8 0 0 0 0 0)) keyed = Ret tt k1 /\
    workqueue_round (run_work 33) 1 2 (mret tt) k1 = Ret tt k3 /\
    for_each shift_a_enter (fun _ => input_console_thread 1 (mret tt)) k3 = Ret tt k5 /\
    desk k5 Q5 [] (Decoder 0 false 0) 1 [] [] [2048] (Editor [] [[65]] 0) /\ screen (devs (kheap k5)) 2048 = [65; 13; 10].
Proof.
  destruct (keys_reach_editor shift_a_enter keyed no_waiters no_hands 1 [2048] (Editor [] [] 0) (TrapFrame 33 0 0 8 0 0 0 0 0) (mret tt) keyed_desk_hands)
    as (k1 & Q1 & E1 & S1 & Hw).
  - repeat constructor; vm_compute; discriminate.
  - exact shift_a_enter_movable.
  - done.
  - vm_compute. lia.
  - exists (replicate 6 1), []. split_and!; [reflexivity|vm_compute; lia| |reflexivity].
    repeat constructor; vm_compute; discriminate.
  - done.
  - done.
  - done.
  - pose proof (drives_may_block _ _ _ _ worker_a thread_a S1 ltac:(by split)) as Hb1.
    destruct (Hw k1 Q1 worker_a thread_a (handover_here _ _ _ _ S1) Hb1) as (k3 & Q3 & E3 & S3 & Hc).
    destruct (Hc k3 Q3 worker_a thread_a (handover_here _ _ _ _ S3) (drives_may_block _ _ _ _ _ _ S3 Hb1)) as (k5 & Q5 & E5 & D5 & Sc5).
    exists k1, k3, k5, Q5. split; [exact E1|]. split; [exact E3|]. split; [exact E5|].
    rewrite (proj2 no_hands_bits) in D5. split; [exact D5|].
    apply (Sc5 2048). left. left.
Defined.

(** "keys" typed at the shell, before any key event was seen. *)
Lemma kdb_answers_witness :
  exists k1 k' out, for_each (str " keys" ++ [10]) tty_receive_char boxed = Ret tt k1 /\
    kdb_thread 1 (mret tt) k1 = Ret tt k' /\ reply (status_of k1) Keys out /\
    screen (devs (kheap k')) 2048 = screen (devs (kheap k1)) 2048 ++ crlf (out ++ KDB_PROMPT).
Proof.
  destruct (for_each_receive (str " keys" ++ [10]) boxed no_waiters [2048] _ boxed_tty_inv) as (k1 & Q1 & E1 & [D1 Ed1] & I1 & _).
  assert (Ii1 : input_inv k1 Q1 []).
  { apply (input_inv_carried boxed no_waiters k1 Q1 [] boxed_input_inv (drives_carried _ _ _ _ D1)). unfold iq. by rewrite Ed1. }
  pose proof (kdb_answers k1 Q1 [] [2048] _ worker_a thread_a I1 Ii1 (drives_may_block _ _ _ _ _ _ D1 boxed_may_block)) as Ha.
  destruct (Ha 0%nat (mret tt)) as (k' & E' & out & Hr & _ & _ & Hs).
  exists k1, k', out. split; [exact E1|]. split; [exact E'|]. split; [exact Hr|]. apply (Hs 2048). left. left.
Defined.
