(* ===== verification/MainWitness.v ===== *)
(** * The whole kernel on a concrete machine

    The machine at the loader's jump: one conventional region of 512 pages at two megabytes,
    the firmware's empty page table at 0x8000, the kernel image from one megabyte, a small
    framebuffer, and every static as the linker put it. *)

From S2P Require Import Prelude LinkedList Ring PhysMem PageTableBoot PageAlloc PageTable Heap MmInit Switch KState Sched SchedCore SchedReap SchedYield SchedThread KHeap Vfs Ramfs WaitQueue SchedSystem SchedBoot BootWitness TrapVectors Devices Printk Fbcon DevWait Input Workqueue Keymap Tty Irq Ps2 Typing Kdb DriverBoot EarlyLog BootReport KernelMain DevWitness.

#[export] Program Instance demo_early_statics : EarlyStatics := {|
  debug_console := 3328;
  serial_console := 3584;
  screen_boot_console := 3840
|}.
Next Obligation. apply (bool_decide_unpack _). vm_compute. exact Logic.I. Qed.

Definition power_map : boot_info_t := BootInfo 2 0 24576 48 0 48 1 0 65536 2048 13 20 16 1.

Definition power_mm : mm := Mm (list_to_map [(24576, 7); (24584, 2097152); (24600, 512)]) 32768 [] [] false false 0 0.
Definition power_heap : heap_state mm := HeapState power_mm ∅ ∅ 0 0 HEAP_BASE false.

Definition cold_devices : devices :=
  Devices (InputQueue (replicate 64 no_event) 0 0 0 0 no_event (replicate 16 0) 0 0 0 0)
    {[ 1536 := InputDev (Some "ps2-keyboard"%string) INPUT_BUS_I8042 INPUT_DEVICE_CAP_KEY 0 0 ]}
    (Tty (replicate 8 (replicate 128 0)) (replicate 8 0) 0 0 0 0 (replicate 128 0) 0 0)
    (Ps2Keyboard (replicate 32 0) 0 0 0 0 0 0 0 0)
    {[ 1024 := WorkStruct None 0 0 0; 1280 := WorkStruct None 0 0 0 ]}
    (Workqueue 0 0 0 0 0) (replicate 16 (IrqAction None 0)) [] ∅
    {[ 3328 := Console true 0; 3584 := Console true 0; 3840 := Console true 0 ]} 0 []
    (PrintkRing (replicate (Z.to_nat 4096) 0) 0 0 0 0).

Definition power_kernel : kernel (memory (heap_state mm)) :=
  Kernel (Memory power_heap cold_devices)
    (Machine (Cpu 1044480 (Word 0) (Word 0) (Word 0) (Word 0) (Word 0) (Word 0) (Code "kernel_main")) ∅)
    ∅ ∅ {[ SchedulerLock := 0 ]} 2 0 0 0 0 0 1 false false false 0 0 0.

Definition power_on : system := System (Elog power_kernel tiny_screen 0 0) demo_descriptors unmounted.

Definition power_usable : list Z := (fun k => 2097152 + 4096 * k) <$> seqZ 0 512.

Lemma power_unreserved : unreserved boot_layout power_map [32768] (desc_pages power_map (ram power_mm) 0) = power_usable.
Proof. vm_compute. reflexivity. Qed.

Lemma power_pages : usable_pages boot_layout power_map [32768] (ram power_mm) 0 (desc_count power_map) = power_usable.
Proof. vm_compute. reflexivity. Qed.

Lemma power_ready : boot_ready boot_layout power_map [32768] power_heap.
Proof.
  assert (Hn : desc_count power_map = 1%nat) by reflexivity.
  assert (Em : ram (pages power_heap) = ram power_mm) by reflexivity.
  split; rewrite ?Em, ?power_pages.
  - split; rewrite ?Hn; [reflexivity|reflexivity|simpl; lia..| | |].
    + intros [|k] Hk; [vm_compute; done|lia].
    + intros [|k] [|k'] p Hk Hk'; try lia; done.
    + intros [|k] Hk; [|lia]. rewrite power_unreserved.
      apply (bool_decide_eq_true_1 (0 ∉ power_usable)). vm_compute. reflexivity.
  - done.
  - vm_compute. done.
  - left.
  - intros i Hi Hi'. unfold kernel_slot in Hi. assert (i = 510 \/ i = 511) as [->| ->] by lia; reflexivity.
  - reflexivity.
  - reflexivity.
  - simpl. lia.
  - done.
  - reflexivity.
  - apply (bool_decide_eq_true_1 (Forall _ power_usable)). vm_compute. reflexivity.
  - vm_compute. lia.
  - vm_compute. reflexivity.
  - done.
Qed.

Lemma cold_devices_cold : cold cold_devices [].
Proof.
  split; try done.
  - split; [done|]. intros w x Hx. simpl in Hx. apply lookup_insert_Some in Hx as [[<- <-]|[_ Hx]]; [done|].
    by apply lookup_singleton_Some in Hx as [<- <-].
  - split_and!; try done; apply (bool_decide_eq_true_1 (Forall _ _)); vm_compute; reflexivity.
  - eexists. split; [reflexivity|]. done.
Qed.

Lemma cold_consoles : consoles_cold cold_devices.
Proof.
  split; [done|]. intros c Hc. repeat (apply elem_of_cons in Hc as [->|Hc]; [by eexists|]). by apply not_elem_of_nil in Hc.
Qed.

Lemma power_handed_over : handed_over boot_layout demo_layout power_map [32768] power_on.
Proof.
  split.
  - by split.
  - exact cold_consoles.
  - split; [exact tiny_mode|]. by split_and!.
  - split; vm_compute; reflexivity.
  - split; reflexivity.
  - split_and!; [|done..].
    intros s. unfold in64. cbn [stub demo_layout]. pose proof (Z.mod_pos_bound (Z.of_nat (String.length s)) 64). lia.
  - exact power_ready.
  - change (400 <= length (usable_pages boot_layout power_map [32768%Z] (ram power_mm) 0 (desc_count power_map)))%nat.
    rewrite power_pages. vm_compute. lia.
  - exact cold_devices_cold.
  - by split_and!.
  - left. vm_compute. discriminate.
  - reflexivity.
Qed.

(** The flag of the demonstration threads is not looked at before they run. *)
Lemma kernel_main_boots_witness :
  exists nxt k2 sys', current_thread k2 = nxt /\ is_in THREAD_RUNNING k2 nxt = true /\
    kernel_main boot_layout demo_layout (Some power_map) (fun _ => mret tt) (mret tt) power_on =
    Panicked "scheduler returned to boot context" (put_k k2 sys').
Proof.
  destruct (kernel_main_boots boot_layout demo_layout power_map [32768] power_on (fun _ => mret tt) (mret tt))
    as (sys' & _ & _ & k1 & live1 & rq & idle & nxt & k2 & live2 & _ & _ & _ & _ & _ & _ & _ & Hc & R & _ & _ & E).
  - exact power_handed_over.
  - intros z k. exists (kheap k). split; [by destruct k|]. by split.
  - exists nxt, k2, sys'. split; [exact Hc|]. split; [exact R|]. exact E.
Defined.

Lemma kernel_main_leads_to_safety_witness :
  exists k0 sys', kernel_main boot_layout demo_layout (Some power_map) (fun _ => mret tt) (mret tt) power_on =
      Panicked "scheduler returned to boot context" (put_k k0 sys') /\
    is_in THREAD_RUNNING k0 (current_thread k0) = true /\ forall t, is_in THREAD_RUNNING k0 t = true -> t = current_thread k0.
Proof.
  destruct (kernel_main_leads_to_safety boot_layout demo_layout power_map [32768] power_on (fun _ => mret tt) (mret tt))
    as (sys' & k0 & Q & E & _ & _ & _ & Hr & Hs).
  - exact power_handed_over.
  - intros z k. exists (kheap k). split; [by destruct k|]. by split.
  - exists k0, sys'. split; [exact E|]. split; [exact Hr|]. exact (sf_running _ _ _ (Hs k0 (rtc_refl _ _))).
Defined.

Lemma early_log_shows_witness :
  exists s1 s2, early_log_init (Some power_map) (sy_log power_on) = Ret tt s1 /\
    console_chain (devs (kheap (lk s1))) [3840; 3584; 3328] /\
    (early_log_puts (Some (str "up" ++ [10])) ;; early_log_u64_hex 48879 ;; early_log_u64_decimal 48879) s1 = Ret tt s2.
Proof.
  destruct (early_log_shows power_map (str "up" ++ [10]) 48879 (sy_log power_on)) as (s1 & s2 & num & E1 & C1 & E2 & _).
  - reflexivity.
  - reflexivity.
  - exact cold_consoles.
  - exact tiny_mode.
  - done.
  - done.
  - done.
  - by repeat constructor.
  - done.
  - exists s1, s2. split; [exact E1|]. split; [exact C1|exact E2].
Defined.

(** The same machine with one console and the log up. *)
Definition reporting : kernel (memory (heap_state mm)) :=
  with_devs (fun d => d <| console_list := 3328 |> <| printk_ring ::= (fun r => r <| printk_ready := 1 |>) |>) power_kernel.

Lemma reporting_log : log_inv reporting [3328] [].
Proof.
  split; [split; [done|]; split; [done|]; by exists 0|done|]. exists 0. apply ring_rep_empty; [done|]. vm_compute. reflexivity.
Qed.

Lemma boot_report_tells_witness :
  exists k' nd np, kernel_report_boot_state (Some power_map) reporting = Ret tt k' /\ decimal 1 nd /\ decimal 512 np /\
    screen (devs (kheap k')) 3328 = crlf (str "boot_info.version ok" ++ [10] ++ str "boot services exited" ++ [10] ++
      str "memory map descriptors=" ++ nd ++ [10] ++ str "conventional memory pages=" ++ np ++ [10]).
Proof.
  destruct (boot_report_tells boot_layout [32768] power_map reporting [3328] []) as [(k' & nd & np & E & D1 & D2 & S) _].
  - exact (boot_map _ _ _ _ power_ready).
  - discriminate.
  - exact reporting_log.
  - exists k', nd, np. split; [exact E|]. split; [exact D1|]. split; [exact D2|]. rewrite S by left.
    change (screen (devs (kheap reporting)) 3328) with ([] : list Z). unfold version_line, services_line. simpl.
    rewrite <- ?app_assoc. reflexivity.
Defined.
